(* ===== verification/_CoqProject ===== *)
-Q . S2P
Prelude.v
Types.v
Endian.v
Config.v
Congestion.v
QueuePair.v
LoadBalancer.v
Pipeline.v
ProcessBuffer.v
ProcessBufferCopy.v
Worker.v
Window.v
WorkerInv.v
Receive.v
Packet.v
Slices.v
Send.v
WorkerSafety.v
Node.v
WorkerLoop.v
BufferedNet.v
LocalNet.v
Host.v
Scan.v
HostFiles.v
Main.v
Switch.v
RandomDrop.v
Aggregation.v
Protocol.v
Progress.v
Wire.v
Cluster.v
ClusterTheorems.v
Delivery.v
AllReduce.v
Frames.v
FrameParsing.v
FrameTheorems.v
Allocator.v
ControlPlane.v
Groups.v
GroupService.v
ControlService.v
SwitchInit.v
GroupTheorems.v
GroupSetup.v
Demo.v
NodeDemo.v
BufferedDemo.v
Hazards.v
Examples.v
MainDemo.v
StreamDemo.v
WireDemo.v
ClusterDemo.v
FrameDemo.v
GroupDemo.v
SwitchDemo.v
HostDemo.v
