(* ===== verification/Prelude.v ===== *)
(** * NetCCL: in-network collective communication, the host side

    NetCCL runs all-reduce, reduce and broadcast with the help of a switch.  A
    client process puts operations ([op_t]) into a queue in shared memory.  The
    process modelled here takes them out, splits each over its worker threads,
    and every worker streams its part to the switch and back with DPDK: packet
    number [psn] of a part is added up in one cell of the switch (an
    "aggregator") over all hosts of the group and the sum is sent back to all
    of them; that answer is also the acknowledgement of the packet.

    ** The parts of the program and the files that model them

    - [main.cpp], [net_utils.hpp] (host discovery): the program finds its NIC and
      CPUs ([Host.v]), reading the files and device tables of the host with [fscanf]
      ([Scan.v], [HostFiles.v]), brings the port up, installs one flow rule per worker
      and launches the threads ([Main.v]).
    - [common.hpp] [queue_pair_t]: a request and a completion queue between two
      threads ([QueuePair.v]); [op_t], [group_t], [need_tx], [need_rx] and the
      packet layout of [header.hpp] ([Types.v]).
    - [load_balancer.cpp]: the thread between client and workers
      ([LoadBalancer.v]); the client, the load balancer and all workers as one
      system of interleaved steps ([Pipeline.v]).
    - [worker.cpp]: the worker thread ([Worker.v]), its congestion control
      ([Congestion.v]), its byte-swapping copies and those of [net_utils.hpp]
      ([Endian.v]), its loopback network ([LocalNet.v]), its clock and the whole of
      [worker_loop] ([WorkerLoop.v]).
    - One host at work: the client, the load balancer and the workers over the
      memory they share, interleaved ([Node.v]).
    - [process_buffer.hpp]: the software queue in front of the NIC
      ([ProcessBuffer.v]); [process_buffer_copy.hpp], an older version that is not
      compiled in ([ProcessBufferCopy.v]); the queue as the network of a worker
      ([BufferedNet.v]).
    - [switch/*.p4]: the pipeline of the switch on headers ([Switch.v]) and on the
      bytes of a frame, with its parsers, its deparsers and its checksum
      ([Frames.v]), its random drops ([RandomDrop.v]); [switch/bfrt_init.py], the
      static set-up ([SwitchInit.v]).
    - [switch/bfrt_grpc.py]: the service that creates and destroys groups: its memory
      of aggregators ([Allocator.v]), its handlers ([ControlPlane.v]).
    - All of it at once: the workers of a group, each on its own memory, a network
      that loses, duplicates and reorders packets both ways, and the switch
      ([Cluster.v]).

    Every function of the source is a definition of the same name.  Code that
    changes state is a step of the state-and-fault monad [M] of this file: it
    ends in a value and a new state or in the fault the C++ code would run into
    (a false [assert], an access out of bounds, a null dereference, a division
    by zero).  A handler of the Python service is a function of the monad [py] of
    [ControlPlane.v] instead, since a Python exception keeps what the handler has
    changed so far.  Machine integers are [Z]; every operation that can wrap is
    wrapped explicitly ([wrap]).  Buffers are lists of bytes; the shared
    memory of the operations is a map from buffers to bytes ([mem] of
    [Worker.worker]).  A long C++ function is cut into named pieces where a loop
    or a block has its own meaning ([shift_ack_loop], [cut_packet], ...).

    ** Parameters

    - The header of the worker's own directory, which defines the constants of the worker
      ([MAX_WIN_LEN], [CC_*], ...) and the window type, is not in the repository:
      [Config] and [ConfigOk] ([Config.v]), [Main.NetConfig].
    - [boost::lockfree::spsc_queue]: class [QueuePair.Spsc], laws [SpscLaws].
    - DPDK: [ProcessBuffer.Nic] (bursts), [Main.Dpdk] (set-up, flow rules),
      [Worker.Transport] (what a worker sees of either network); each with the
      documented behaviour the code relies on as a class of laws.
    - The runtime of the switch ([bfrt]): [ControlPlane.Bfrt], laws [BfrtLaws]
      (a call that is [allowed] succeeds and has its [effect]); [SwitchInit.BfrtInit]
      for the calls of the set-up.
    - The operating system (contents of files, answers of [ioctl], the clock):
      arguments of the definitions of [Host.v], [HostFiles.v], [WorkerLoop.v],
      [Main.HostInfo].
    Every class of laws has an instance ([Examples.v], [MainDemo.v], [Demo.v],
    [BufferedDemo.v], [GroupDemo.v], [SwitchDemo.v], [LocalNet.v]), on which the theorems are applied to concrete inputs.

    ** What the theorems show

    - The worker.  [Window.v] relates the ring of the window to the list of the
      packets in flight; [WorkerInv.v] states the invariant of a worker (the
      packets in flight are cut from the sub-operations in the order they were
      handed over, their buffers lie in the memory, the sequence numbers at
      both ends are right, at most a window is in flight).  [Receive.v],
      [Packet.v] and [Send.v] give every function of [worker.cpp] its complete
      effect: which packet an acknowledgement belongs to, what is stored, which
      packets are retransmitted, which operations are answered, how a
      sub-operation is cut and filled into packets, how far the window opens,
      what a timeout does.  [WorkerSafety.v] puts them together: whatever
      packets arrive, a worker never faults and answers the sub-operations in
      order, each once.
    - The queues.  Requester and responder of a queue pair never see a full
      queue; the split of the load balancer is a partition, of the data and
      of the aggregators; the whole pipeline never fails an assertion and is a
      FIFO for the client.
    - The host.  [Node.v] puts the load balancer, the queues and the workers
      together: they work on one memory, take parts of one another's
      operations, and in every interleaving no thread faults and the client
      gets its answers in the order of its operations, each after every
      worker has answered its part.  The client keeps to [Node.op_fits]: one
      group, which has an aggregator for every worker, buffers in the memory,
      reductions of whole integers.
    - The packet buffer.  Packets are neither lost nor reordered and [flush]
      terminates.  [BufferedNet.v] shows that it satisfies the laws the worker
      asks of its network, so all theorems about a worker hold over it.
    - Byte order.  The byte-swapping copies are what they should be, and inverses.
    - Congestion control.  When and by how much each call changes the window; a
      decrease is followed by fast recovery, and there is at most one in a
      reaction time; the window has a floor.
    - The clock.  [worker_loop] with its cached time stamps and its reports is the
      sequence of the bodies the other theorems are about, at times that do
      not decrease.
    - Set-up.  The CPUs are those [/proc/cpuinfo] names, whatever else it holds;
      every worker gets its own queue and pool and the NIC steers its packets
      to it.  The switch forwards to every server and its service comes up.
    - The switch.  [Aggregation.v] says what one packet does to the aggregators
      of its group.  [Protocol.v] runs the hosts of a group, a network that
      loses, duplicates and reorders both ways, and the switch, whose tables
      change but for the entries of the group, as one step relation; by its
      invariant a result is the sum of every host's packet, each counted once,
      and no host gets ahead of another.  What it asks of the network is that
      nothing reaches the switch a whole window late ([Protocol.fresh]), and of
      the hosts that the sums fit and the numbers do not wrap ([group_ok]).  [RandomDrop.v] shows that the
      packets it drops at random are as many as it is told.  [Progress.v] shows that the
      slowest host can always advance.  [Wire.v] goes down to bytes: the switch
      reads what a worker has written into a packet, a reduction adds up the
      integers in the buffers, a broadcast copies the buffer.
    - Frames.  [FrameParsing.v] and [FrameTheorems.v] take the switch from bytes to
      bytes: between the passes the headers survive, a worker finds the answer
      in its packet buffer as [Cluster.carries] says, the switch parses the
      frame of a worker's structure as [Switch.parse] says, the IP checksum is
      right, and frames that are no collective packets pass unchanged.
    - The cluster.  [Cluster.v] takes the hosts of the protocol away: its steps are
      the pieces of a round of [worker_loop], and it is shown to refine
      [Protocol.v].  By [ClusterTheorems.v] the packets of a worker hold its
      memory, and what a worker stores for an answer are the sums over the
      memories of all workers.
    - The collective operation.  [Slices.v] numbers the packets of a sequence of
      operations by the operation and the piece they come from.  [Delivery.v]
      follows the memory of every host: the bytes of a packet are the client's
      until the packet is acknowledged and the result of the switch from then
      on.  [AllReduce.v] concludes that when a worker has answered its part of an
      all-reduce, the buffer of the part holds the sums of what the buffers of
      all hosts held in the beginning.  The clients have to post all-reduces of the
      same sizes in the same order, in buffers that do not overlap
      ([plan_ok], [same_plan]); reductions to one host and broadcasts are
      covered packet by packet ([ClusterTheorems.memory_holds_sums], [Wire.v]).
      The buffers must not be such that a sum overflows, since the switch
      saturates ([ok_fits]).
    - The control plane.  [Groups.v] states the invariant of the service (memory,
      numbers, nodes and ports are partitioned among the groups, the tables of
      the switch are those of the groups), [GroupService.v] and [ControlService.v]
      show that every request keeps it, [GroupTheorems.v] what each request
      promises, [GroupSetup.v] that a group it has created is one [Protocol.v]
      is about, and stays one while other requests are served.  The requests are
      those with at most 32 members, the bits of a bitmap; the service does not
      refuse longer ones ([GroupTheorems.create_group_leaks]).
    - Faults of the code ([Hazards.v], [ProcessBufferCopy.v], [Host.v], [Main.v],
      [Allocator.free_seg_keeps_right], [GroupTheorems.create_group_leaks]): states
      in which it does not do what it means to.
    The files [*Demo.v] and [Examples.v] apply the theorems to concrete inputs.

    ** Fuel

    The loops of a worker over its window take [MAX_WIN_LEN] as fuel
    ([Worker.fuel]): a loop visits every slot at most once, and the theorems
    about the functions that contain them show that they end without
    [NoFuel].  The receive loop takes the number of packets the transport has
    pending as fuel ([WorkerSafety.rx_loop_fuel]); [flush] takes the number of
    refusals of the device.  The loops over [fscanf] take the length of the text,
    of which every turn reads a character at least ([HostFiles.socket_list_ends]).
    [worker_loop] takes the number of rounds before [daemon_quit] is seen, and its
    theorem holds for every number.

    ** Not modelled

    The text of the lines [worker_loop] logs; what lies behind the calls of the
    operating system, of DPDK and of the runtime of the switch; how a worker
    comes by the Ethernet addresses in its packets; the random generator and
    the queue thresholds of the switch, which are decisions handed to egress;
    the gRPC server around the service; the test programs. *)

From stdpp Require Export base numbers gmap option.
From stdpp Require Export list.

#[global] Open Scope Z_scope.

(** * Machine integers

    A [w]-bit unsigned integer is a [Z] and every operation of the source that
    can wrap is followed by [wrap w]. *)

Definition wrap (w x : Z) : Z := x mod 2 ^ w.

Declare Scope netccl_scope.
Delimit Scope netccl_scope with netccl.
#[global] Open Scope netccl_scope.

Abbreviation u8 := (wrap 8).
Abbreviation u16 := (wrap 16).
Abbreviation u32 := (wrap 32).
Abbreviation u64 := (wrap 64).

(** Subtraction of two [uint32_t] values. *)
Notation "x ⊖ y" := (wrap 32 (x - y)) (at level 50, left associativity) : netccl_scope.

(** Create the database of the facts that discharge the common side
    conditions: ranges of machine integers, lengths of updated lists, queue
    contents. *)
Create HintDb netccl.
Create Rewrite HintDb wrap.
Create Rewrite HintDb netccl_len.

Lemma wrap_range w x : 0 <= w -> 0 <= wrap w x < 2 ^ w.
Proof. intros Hw. apply Z.mod_pos_bound, Z.pow_pos_nonneg; lia. Qed.

Lemma wrap_small w x : 0 <= x < 2 ^ w -> wrap w x = x.
Proof. apply Z.mod_small. Qed.

Lemma wrap_wrap w x : wrap w (wrap w x) = wrap w x.
Proof. apply Zmod_mod. Qed.

Lemma wrap_add_l w x y : wrap w (wrap w x + y) = wrap w (x + y).
Proof. apply Zplus_mod_idemp_l. Qed.

Lemma wrap_add_r w x y : wrap w (x + wrap w y) = wrap w (x + y).
Proof. apply Zplus_mod_idemp_r. Qed.

Lemma wrap_sub_l w x y : wrap w (wrap w x - y) = wrap w (x - y).
Proof. apply Zminus_mod_idemp_l. Qed.

Lemma wrap_sub_r w x y : wrap w (x - wrap w y) = wrap w (x - y).
Proof. apply Zminus_mod_idemp_r. Qed.

#[export] Hint Rewrite wrap_wrap wrap_add_l wrap_add_r wrap_sub_l wrap_sub_r : wrap.

(** [wrap_tac] normalises nested wraps. *)
Ltac wrap_tac := autorewrite with wrap.

Lemma wrap_pow2_split w k x :
  0 <= k <= w -> wrap k (wrap w x) = wrap k x.
Proof.
  intros Hk. unfold wrap. symmetry.
  replace (2 ^ w) with (2 ^ k * 2 ^ (w - k)) by (rewrite <- Z.pow_add_r by lia; f_equal; lia).
  pose proof (Z.pow_pos_nonneg 2 k ltac:(lia) ltac:(lia)).
  pose proof (Z.pow_pos_nonneg 2 (w - k) ltac:(lia) ltac:(lia)).
  rewrite Z.rem_mul_r by lia.
  rewrite (Z.mul_comm (2 ^ k)), Z_mod_plus_full, Zmod_mod. done.
Qed.

(** [a ⊖ b = k] for small [k] pins [a] down modulo [2^32]. *)
Lemma sub32_inj a b c : u32 a ⊖ c = u32 b ⊖ c -> u32 a = u32 b.
Proof.
  intros H. apply (f_equal (fun z => u32 (z + c))) in H.
  rewrite !wrap_add_l in H.
  replace (u32 a - c + c) with (u32 a) in H by lia.
  replace (u32 b - c + c) with (u32 b) in H by lia.
  by rewrite !wrap_wrap in H.
Qed.

Lemma sub32_add l k : 0 <= k < 2 ^ 32 -> u32 (l + k) ⊖ l = k.
Proof.
  intros Hk. rewrite wrap_sub_l. replace (l + k - l) with k by lia.
  by apply wrap_small.
Qed.

(** * Faults and the state-and-fault monad

    A step of the program either yields a value and a new state or stops with
    the fault the C++ code would run into. *)

Inductive fault : Type :=
  | AssertFailed   (** an [assert] of the source is false *)
  | OutOfBounds    (** an access outside an array or a buffer *)
  | NullDeref      (** a null or invalid pointer is dereferenced *)
  | DivByZero      (** an integer division or remainder by zero *)
  | NoFuel         (** a loop of the model ran out of fuel *)
  | Exited (code : Z).  (** the program calls [exit] *)

#[global] Instance fault_eq_dec : EqDecision fault.
Proof. solve_decision. Defined.

Inductive outcome (A : Type) : Type :=
  | Ok (a : A)
  | Err (f : fault).
Arguments Ok {A} a.
Arguments Err {A} f.

#[global] Instance outcome_eq_dec `{EqDecision A} : EqDecision (outcome A).
Proof. solve_decision. Defined.

Definition M (S A : Type) : Type := S -> outcome (A * S).

Definition ret {S A} (a : A) : M S A := fun s => Ok (a, s).
Definition fail {S A} (f : fault) : M S A := fun _ => Err f.
Definition bind {S A B} (m : M S A) (k : A -> M S B) : M S B := fun s =>
  match m s with
  | Ok (a, s') => k a s'
  | Err f => Err f
  end.
Definition get {S} : M S S := fun s => Ok (s, s).
Definition gets {S A} (f : S -> A) : M S A := fun s => Ok (f s, s).
Definition modify {S} (f : S -> S) : M S unit := fun s => Ok (tt, f s).

Notation "x <- m ;; k" := (bind m (fun x => k))
  (at level 100, m at next level, right associativity) : netccl_scope.
Notation "m ;;; k" := (bind m (fun _ => k))
  (at level 100, right associativity) : netccl_scope.

(** [assert(b)] of the source. *)
Definition assert {S} (b : bool) : M S unit := if b then ret tt else fail AssertFailed.

(** The value behind a pointer or an array cell, or the given fault. *)
Definition the {S A} (f : fault) (o : option A) : M S A :=
  match o with Some a => ret a | None => fail f end.

(** An access to [l[i]]. *)
Definition assert_in_bounds {S T} (i : Z) (l : list T) : M S unit :=
  if (0 <=? i) && (i <? Z.of_nat (length l)) then ret tt else fail OutOfBounds.

(** Run a step of a component inside a larger state. *)
Definition zoom {S T A} (g : S -> T) (p : T -> S -> S) (m : M T A) : M S A := fun s =>
  match m (g s) with
  | Ok (a, t) => Ok (a, p t s)
  | Err f => Err f
  end.

(** [for(auto x : l) body] *)
Fixpoint for_each {S A} (l : list A) (body : A -> M S unit) : M S unit :=
  match l with
  | [] => ret tt
  | x :: l' => body x ;;; for_each l' body
  end.

(** [while(cond) body], with fuel. *)
Fixpoint while {S} (fuel : nat) (cond : S -> bool) (body : M S unit) : M S unit := fun s =>
  if cond s then
    match fuel with
    | O => Err NoFuel
    | Datatypes.S n => bind body (fun _ => while n cond body) s
    end
  else Ok (tt, s).

(** * Total-correctness triples

    [runs m s Q]: from [s] the step terminates without a fault and its result
    satisfies [Q]. *)

Definition runs {S A} (m : M S A) (s : S) (Q : A -> S -> Prop) : Prop :=
  exists a s', m s = Ok (a, s') /\ Q a s'.

Section triples.
Context {S : Type}.

Lemma runs_ret {A} (a : A) (s : S) Q : Q a s -> runs (ret a) s Q.
Proof. intros H. by exists a, s. Qed.

Lemma runs_bind {A B} (m : M S A) (k : A -> M S B) s Q :
  runs m s (fun a s' => runs (k a) s' Q) -> runs (bind m k) s Q.
Proof.
  intros (a & s' & Hm & b & s'' & Hk & HQ). exists b, s''.
  split; [|done]. unfold bind. by rewrite Hm.
Qed.

Lemma runs_mono {A} (m : M S A) s (Q R : A -> S -> Prop) :
  runs m s Q -> (forall a s', Q a s' -> R a s') -> runs m s R.
Proof. intros (a & s' & Hm & HQ) HR. exists a, s'. eauto. Qed.

Lemma runs_gets {A} (f : S -> A) s Q : Q (f s) s -> runs (gets f) s Q.
Proof. intros H. by exists (f s), s. Qed.

Lemma runs_get (s : S) Q : Q s s -> runs get s Q.
Proof. intros H. by exists s, s. Qed.

Lemma runs_modify (f : S -> S) s Q : Q tt (f s) -> runs (modify f) s Q.
Proof. intros H. by exists tt, (f s). Qed.

Lemma runs_assert b (s : S) Q : b = true -> Q tt s -> runs (assert b) s Q.
Proof. intros -> H. by exists tt, s. Qed.

Lemma runs_the {A} e (o : option A) a (s : S) Q :
  o = Some a -> Q a s -> runs (the e o) s Q.
Proof. intros -> H. by exists a, s. Qed.

Lemma runs_in_bounds {T} i (l : list T) (s : S) Q :
  0 <= i < Z.of_nat (length l) -> Q tt s -> runs (assert_in_bounds i l) s Q.
Proof.
  intros Hi HQ. unfold assert_in_bounds.
  rewrite (proj2 (Z.leb_le _ _)), (proj2 (Z.ltb_lt _ _)) by lia. by apply runs_ret.
Qed.

Lemma runs_zoom {T A} (g : S -> T) p (m : M T A) s Q :
  runs m (g s) (fun a t => Q a (p t s)) -> runs (zoom g p m) s Q.
Proof.
  intros (a & t & Hm & HQ). exists a, (p t s). unfold zoom. by rewrite Hm.
Qed.

Lemma runs_while (I : S -> Prop) (m : S -> nat) fuel cond (body : M S unit) s :
  I s -> (m s <= fuel)%nat ->
  (forall s, I s -> cond s = true ->
     runs body s (fun _ s' => I s' /\ (m s' < m s)%nat)) ->
  runs (while fuel cond body) s (fun _ s' => I s' /\ cond s' = false).
Proof.
  intros HI Hm Hb. revert s HI Hm.
  induction fuel as [|n IH]; intros s HI Hm; simpl.
  - unfold runs. simpl. destruct (cond s) eqn:E; [|by exists tt, s].
    destruct (Hb s HI E) as (? & ? & _ & _ & ?). lia.
  - unfold runs. simpl. destruct (cond s) eqn:E; [|by exists tt, s].
    apply runs_bind. apply (runs_mono _ _ _ _ (Hb s HI E)).
    intros _ s' [HI' Hlt]. apply IH; [done|lia].
Qed.

(** The state invariant of a [for] loop, indexed by the elements done. *)
Lemma runs_for_each {A} (I : list A -> S -> Prop) l (body : A -> M S unit) s :
  I [] s ->
  (forall pre x post s, l = pre ++ x :: post -> I pre s ->
     runs (body x) s (fun _ s' => I (pre ++ [x]) s')) ->
  runs (for_each l body) s (fun _ s' => I l s').
Proof.
  intros H0 Hb.
  assert (forall post pre s, l = pre ++ post -> I pre s ->
    runs (for_each post body) s (fun _ s' => I l s')) as Hgen.
  { induction post as [|x post IH]; intros pre s' -> HI; simpl.
    - apply runs_ret. by rewrite app_nil_r.
    - apply runs_bind. apply (runs_mono _ _ _ _ (Hb pre x post s' eq_refl HI)).
      intros _ s'' HI'. apply (IH (pre ++ [x])); [|done].
      by rewrite <- app_assoc. }
  by apply (Hgen l []).
Qed.

Lemma runs_det {A} (m : M S A) s a s' Q : m s = Ok (a, s') -> runs m s Q -> Q a s'.
Proof. intros Hm (? & ? & Hm' & HQ). rewrite Hm in Hm'. by simplify_eq. Qed.

Lemma runs_and {A} (m : M S A) s (Q1 Q2 : A -> S -> Prop) :
  runs m s Q1 -> runs m s Q2 -> runs m s (fun a s' => Q1 a s' /\ Q2 a s').
Proof.
  intros (a & s' & Hm & H1) H2. exists a, s'. split; [done|]. split; [done|]. by eapply runs_det.
Qed.
End triples.

(** Step through one monadic operation. *)
Ltac run_step :=
  match goal with
  | |- runs (bind _ _) _ _ => apply runs_bind
  | |- runs (ret _) _ _ => apply runs_ret
  | |- runs get _ _ => apply runs_get
  | |- runs (gets _) _ _ => apply runs_gets
  | |- runs (modify _) _ _ => apply runs_modify
  | |- runs (zoom _ _ _) _ _ => apply runs_zoom
  | |- runs (let _ := _ in _) _ _ => cbv zeta
  end; cbn beta.

Ltac run_steps := repeat run_step.

(** * Lists *)

Lemma Forall_lookup_total_1 {A} (P : A -> Prop) (l : list A) i x :
  Forall P l -> l !! i = Some x -> P x.
Proof. intros H Hi. by eapply Forall_lookup_1. Qed.

Lemma forallb_lookup {A} (f : A -> bool) (l : list A) i x :
  forallb f l = true -> l !! i = Some x -> f x = true.
Proof.
  intros H Hi. rewrite forallb_forall in H. apply H.
  eapply list_elem_of_In, list_elem_of_lookup_2, Hi.
Qed.

(** [l[i]] at an integer index. *)
Definition znth {A} (l : list A) (i : Z) : option A :=
  if 0 <=? i then l !! Z.to_nat i else None.

Lemma znth_lookup {A} (l : list A) i : 0 <= i -> znth l i = l !! Z.to_nat i.
Proof. intros Hi. unfold znth. by rewrite (proj2 (Z.leb_le _ _)) by lia. Qed.

Lemma znth_Some {A} (l : list A) i x :
  znth l i = Some x -> 0 <= i < Z.of_nat (length l).
Proof.
  unfold znth. destruct (Z.leb_spec 0 i); [|done].
  intros ?%lookup_lt_Some. lia.
Qed.

Lemma znth_is_Some {A} (l : list A) i :
  0 <= i < Z.of_nat (length l) -> exists x, znth l i = Some x.
Proof.
  intros Hi. rewrite znth_lookup by lia. apply lookup_lt_is_Some_2. lia.
Qed.

Lemma znth_insert_eq {A} (l : list A) i x :
  0 <= i < Z.of_nat (length l) -> znth (<[Z.to_nat i := x]> l) i = Some x.
Proof. intros Hi. rewrite znth_lookup by lia. apply list_lookup_insert_eq. lia. Qed.

Lemma znth_insert_ne {A} (l : list A) i j x :
  0 <= i -> i <> j -> znth (<[Z.to_nat i := x]> l) j = znth l j.
Proof.
  intros Hi Hne. unfold znth. destruct (Z.leb_spec 0 j); [|done].
  apply list_lookup_insert_ne. lia.
Qed.

(** The sum of a list of integers. *)
Definition sumZ (l : list Z) : Z := foldr Z.add 0 l.

Lemma sumZ_app l1 l2 : sumZ (l1 ++ l2) = sumZ l1 + sumZ l2.
Proof. induction l1 as [|x l1 IH]; simpl; [done|]. rewrite IH. lia. Qed.

Lemma sumZ_replicate n x : sumZ (replicate n x) = Z.of_nat n * x.
Proof. induction n as [|n IH]; simpl; [done|]. rewrite IH. lia. Qed.

#[export] Hint Resolve wrap_range : netccl.
#[export] Hint Rewrite @length_insert @length_app @length_replicate : netccl_len.
