(* ===== verification/Types.v ===== *)
(** The data the client, the load balancer and the workers share: operation
    codes, groups, operations and sub-operations ([common.hpp]) and the packet
    layout ([header.hpp]). *)

From S2P Require Import Prelude.

(** * Operation codes ([enum OP_CODE]) *)

Definition OP_ALL_REDUCE : Z := 1.
Definition OP_REDUCE : Z := 2.
Definition OP_BROADCAST : Z := 3.
Definition OP_REDUCE_SCATTER : Z := 4.
Definition OP_ALL_GATHER : Z := 5.

(** Capacity of the work and completion queues. *)
Definition QUEUE_SIZE : Z := 1024.

Lemma QUEUE_SIZE_u64 : QUEUE_SIZE < 2 ^ 64.
Proof. done. Qed.

(** * Pointers into shared buffers

    A [char*] is a buffer and a byte offset in it. *)

Record ptr := Ptr { p_block : Z; p_off : Z }.

Definition ptr_add (p : ptr) (n : Z) : ptr := Ptr (p_block p) (p_off p + n).

Lemma ptr_add_0 p : ptr_add p 0 = p.
Proof. destruct p. unfold ptr_add. simpl. f_equal. lia. Qed.

Lemma ptr_add_add p a b : ptr_add (ptr_add p a) b = ptr_add p (a + b).
Proof. unfold ptr_add. simpl. f_equal. lia. Qed.

(** * Groups and operations *)

Record group_t := {
  group_id : Z;     (** uint8_t *)
  g_size : Z;       (** rank_t *)
  g_rank : Z;       (** rank_t, this process's rank *)
  g_agg_addr : Z;   (** uint16_t *)
  g_agg_len : Z;    (** uint16_t *)
  switch_ip : Z;    (** uint32_t *)
}.

Record op_t := {
  op_code : Z;      (** uint8_t *)
  root : Z;         (** rank_t *)
  op_size : Z;      (** uint32_t, in bytes *)
  shm_buffer : ptr;
  group : group_t;
  op_with_fut : Z;  (** an opaque pointer of the client *)
}.

(** A part of an operation handed to one worker.  Neither an operation nor a
    sub-operation is written to after it is posted, so a pointer to one is
    modelled by its contents. *)
Record sub_op_t := {
  op : op_t;
  so_data : ptr;
  so_size : Z;      (** uint32_t *)
  so_agg_addr : Z;  (** uint16_t *)
  so_agg_len : Z;   (** uint16_t *)
}.

#[global] Instance ptr_eq_dec : EqDecision ptr.
Proof. solve_decision. Defined.
#[global] Instance group_t_eq_dec : EqDecision group_t.
Proof. solve_decision. Defined.
#[global] Instance op_t_eq_dec : EqDecision op_t.
Proof. solve_decision. Defined.
#[global] Instance sub_op_t_eq_dec : EqDecision sub_op_t.
Proof. solve_decision. Defined.

(** The fields hold values of their C types. *)
Record group_wf (g : group_t) : Prop := {
  group_id_u8 : 0 <= group_id g < 2 ^ 8;
  g_size_u8 : 0 <= g_size g < 2 ^ 8;
  g_rank_u8 : 0 <= g_rank g < 2 ^ 8;
  g_agg_addr_u16 : 0 <= g_agg_addr g < 2 ^ 16;
  g_agg_len_u16 : 0 <= g_agg_len g < 2 ^ 16;
  switch_ip_u32 : 0 <= switch_ip g < 2 ^ 32;
}.

Record op_wf (o : op_t) : Prop := {
  op_code_u8 : 0 <= op_code o < 2 ^ 8;
  root_u8 : 0 <= root o < 2 ^ 8;
  op_size_u32 : 0 <= op_size o < 2 ^ 32;
  op_group_wf : group_wf (group o);
}.

(** * Direction of the payload *)

Definition need_tx (op : op_t) : bool :=
  (op_code op =? OP_ALL_REDUCE)
  || ((op_code op =? OP_REDUCE) && negb (root op =? g_rank (group op)))
  || ((op_code op =? OP_BROADCAST) && (root op =? g_rank (group op))).

Definition need_rx (op : op_t) : bool :=
  (op_code op =? OP_ALL_REDUCE)
  || ((op_code op =? OP_REDUCE) && (root op =? g_rank (group op)))
  || ((op_code op =? OP_BROADCAST) && negb (root op =? g_rank (group op))).

(** Whether the payload is a vector of integers the switch adds up. *)
Definition is_reduction (o : op_t) : bool :=
  (op_code o =? OP_ALL_REDUCE) || (op_code o =? OP_REDUCE).

(** * Packet layout *)

Definition sizeof_int32 : Z := 4.
Definition PAYLOAD_LEN : Z := 64.
Definition PAYLOAD_SIZE : Z := PAYLOAD_LEN * sizeof_int32.

(** The collective header, every field as it lies in the packet (network byte
    order). *)
Record netccl_inc_hdr := {
  h_coll_type : Z;
  h_group_id : Z;
  h_rank : Z;
  h_root : Z;
  h_agg_addr : Z;
  h_psn : Z;
}.

Definition sizeof_inc_hdr : Z := 1 + 1 + 1 + 1 + 2 + 4.
Definition sizeof_eth_hdr : Z := 14.
Definition sizeof_ipv4_hdr : Z := 20.
Definition sizeof_payload : Z := PAYLOAD_SIZE.
Definition sizeof_netccl_pkt : Z :=
  sizeof_eth_hdr + sizeof_ipv4_hdr + sizeof_inc_hdr + sizeof_payload.

(** The fields of the IPv4 header the code touches, as they lie in the packet. *)
Record ipv4_hdr := {
  version_ihl : Z;
  type_of_service : Z;
  total_length : Z;
  packet_id : Z;
  fragment_offset : Z;
  time_to_live : Z;
  next_proto_id : Z;
  hdr_checksum : Z;
  src_addr : Z;
  dst_addr : Z;
}.

(** [struct netccl_pkt]: the payload is the list of its bytes. *)
Record netccl_pkt := {
  ether_type : Z;
  ip : ipv4_hdr;
  inc : netccl_inc_hdr;
  payload : list Z;
}.

(** A packet buffer ([struct rte_mbuf]) with the lengths the code sets. *)
Record mbuf := {
  data_len : Z;
  pkt_len : Z;
  pkt : netccl_pkt;
}.
