(* ===== verification/Endian.v ===== *)
(** Byte order ([net_utils.hpp]) and the byte-swapping copies of [worker.cpp].

    The host is little-endian ([static_assert] of [header.hpp]).  An integer in
    memory is its list of bytes, a byte an integer in [0, 256). *)

From S2P Require Import Prelude.
From S2P Require Import Types.

(** * Integers and their bytes *)

(** The [n] bytes of an integer in memory, least significant first. *)
Fixpoint le_bytes (n : nat) (x : Z) : list Z :=
  match n with
  | O => []
  | S n => x mod 256 :: le_bytes n (x / 256)
  end.

Fixpoint le_num (l : list Z) : Z :=
  match l with
  | [] => 0
  | b :: l => b + 256 * le_num l
  end.

Definition is_byte (b : Z) : Prop := 0 <= b < 256.

Lemma length_le_bytes n x : length (le_bytes n x) = n.
Proof. revert x. induction n; intros x; simpl; auto. Qed.

Lemma le_bytes_bytes n x : Forall is_byte (le_bytes n x).
Proof.
  revert x. induction n; intros x; simpl; constructor; [|done].
  apply Z.mod_pos_bound. lia.
Qed.

Lemma le_num_le_bytes n x : le_num (le_bytes n x) = x mod 2 ^ (8 * Z.of_nat n).
Proof.
  revert x. induction n as [|n IH]; intros x; simpl le_num.
  - by rewrite Z.mod_1_r.
  - rewrite IH. replace (8 * Z.of_nat (S n)) with (8 + 8 * Z.of_nat n) by lia.
    rewrite Z.pow_add_r by lia. rewrite Z.rem_mul_r by lia. done.
Qed.

Lemma le_bytes_le_num l : Forall is_byte l -> le_bytes (length l) (le_num l) = l.
Proof.
  induction 1 as [|b l Hb Hl IH]; simpl; [done|].
  unfold is_byte in Hb. f_equal.
  - rewrite Z.mul_comm, Z_mod_plus_full. apply Z.mod_small. lia.
  - rewrite Z.mul_comm, Z.div_add, Z.div_small, Z.add_0_l by lia. done.
Qed.

Lemma le_num_bound l : Forall is_byte l -> 0 <= le_num l < 2 ^ (8 * Z.of_nat (length l)).
Proof.
  intros Hl. rewrite <- (le_bytes_le_num l Hl), le_num_le_bytes, length_le_bytes.
  apply Z.mod_pos_bound, Z.pow_pos_nonneg; lia.
Qed.

(** * Byte swaps *)

(** [htobe16], [htobe32], [htobe64] of the C library on a little-endian host. *)
Definition bswap (n : nat) (x : Z) : Z := le_num (reverse (le_bytes n x)).

(** [template<typename T> T htobe(T x)] at a [T] of [n] bytes. *)
Definition htobe (n : nat) (x : Z) : Z :=
  match n with
  | 1%nat => x
  | 2%nat => bswap 2 x
  | 4%nat => bswap 4 x
  | 8%nat => bswap 8 x
  | _ => le_num (reverse (le_bytes n x))
  end.

Definition betoh (n : nat) (x : Z) : Z := htobe n x.

(** [htobe(T *x)] and [betoh(T *x)]: the new value of [*x]. *)
Definition htobe_ptr (n : nat) (x : Z) : Z := htobe n x.
Definition betoh_ptr (n : nat) (x : Z) : Z := htobe_ptr n x.

(** [htobe(Tx *x, Ty y)] at a [Tx] of [n] bytes: the new value of [*x]. *)
Definition htobe_store (n : nat) (y : Z) : Z := htobe_ptr n (wrap (8 * Z.of_nat n) y).
Definition betoh_store (n : nat) (y : Z) : Z := htobe_store n y.

Lemma htobe_bswap n x :
  0 <= x < 2 ^ (8 * Z.of_nat n) -> htobe n x = bswap n x.
Proof.
  intros Hx. destruct (decide (n = 1%nat)) as [->|Hn].
  - unfold bswap. simpl. rewrite Z.mod_small by lia. lia.
  - unfold htobe. by do 9 (destruct n as [|n]; [done|]).
Qed.

Lemma bswap_bound n x : 0 <= bswap n x < 2 ^ (8 * Z.of_nat n).
Proof.
  unfold bswap. pose proof (le_num_bound (reverse (le_bytes n x))) as Hb.
  rewrite length_reverse, length_le_bytes in Hb. apply Hb.
  apply Forall_reverse, le_bytes_bytes.
Qed.

Lemma bswap_bswap n x : bswap n (bswap n x) = x mod 2 ^ (8 * Z.of_nat n).
Proof.
  unfold bswap.
  pose proof (le_bytes_le_num (reverse (le_bytes n x))) as E.
  rewrite length_reverse, length_le_bytes in E.
  rewrite E by apply Forall_reverse, le_bytes_bytes.
  rewrite reverse_involutive. apply le_num_le_bytes.
Qed.

Lemma htobe_bound n x :
  0 <= x < 2 ^ (8 * Z.of_nat n) -> 0 <= htobe n x < 2 ^ (8 * Z.of_nat n).
Proof. intros Hx. rewrite htobe_bswap by done. apply bswap_bound. Qed.

Lemma htobe_involutive n x :
  0 <= x < 2 ^ (8 * Z.of_nat n) -> htobe n (htobe n x) = x.
Proof.
  intros Hx. rewrite (htobe_bswap n (htobe n x)) by by apply htobe_bound.
  rewrite htobe_bswap by done. rewrite bswap_bswap. by apply Z.mod_small.
Qed.

(** A field stored in network order and read back gives the stored value,
    truncated to the type of the field. *)
Theorem betoh_htobe_store n y :
  betoh n (htobe_store n y) = wrap (8 * Z.of_nat n) y.
Proof. apply htobe_involutive, wrap_range. lia. Qed.

Lemma betoh_htobe n x :
  0 <= x < 2 ^ (8 * Z.of_nat n) -> betoh n (htobe n x) = x.
Proof. apply htobe_involutive. Qed.

Lemma htobe_inj n x y :
  0 <= x < 2 ^ (8 * Z.of_nat n) -> 0 <= y < 2 ^ (8 * Z.of_nat n) ->
  htobe n x = htobe n y -> x = y.
Proof.
  intros Hx Hy E. rewrite <- (htobe_involutive n x Hx), <- (htobe_involutive n y Hy).
  by rewrite E.
Qed.

(** * The byte-swapping copies *)

Definition load32 (l : list Z) (i : nat) : Z := le_num (take 4 (drop (4 * i) l)).
Definition store32 (l : list Z) (i : nat) (x : Z) : list Z :=
  take (4 * i) l ++ le_bytes 4 x ++ drop (4 * i + 4) l.

(** The destination after [dst32[i] = htobe32(src32[i])] for every [i] of the
    list. *)
Fixpoint swap_loop (l : list nat) (dst src : list Z) : list Z :=
  match l with
  | [] => dst
  | i :: l => swap_loop l (store32 dst i (bswap 4 (load32 src i))) src
  end.

Definition memcpy_htobe32_inline (dst src : list Z) (size : Z) : list Z :=
  swap_loop (seq 0 (Z.to_nat (size / 4))) dst src.

Definition memcpy_htobe32 (dst src : list Z) (size : Z) : list Z :=
  memcpy_htobe32_inline dst src size.

Definition memcpy_htobe32_fixed (size : Z) (dst src : list Z) : list Z :=
  memcpy_htobe32_inline dst src size.

Definition memcpy_htobe32_select (dst src : list Z) (size : Z) : list Z :=
  if size =? PAYLOAD_SIZE then memcpy_htobe32_fixed PAYLOAD_SIZE dst src
  else memcpy_htobe32 dst src size.

Definition memcpy_be32toh_select := memcpy_htobe32_select.

(** The reference: reverse every group of four bytes. *)
Fixpoint swap_words (l : list Z) : list Z :=
  match l with
  | a :: b :: c :: d :: l => d :: c :: b :: a :: swap_words l
  | _ => []
  end.

Lemma load32_app l1 l2 i :
  length l1 = (4 * i)%nat -> load32 (l1 ++ l2) i = le_num (take 4 l2).
Proof. intros Hl. unfold load32. by rewrite drop_app_length' by lia. Qed.

Lemma bswap_word a b c d :
  Forall is_byte [a; b; c; d] ->
  le_bytes 4 (bswap 4 (le_num [a; b; c; d])) = [d; c; b; a].
Proof.
  intros Hb. unfold bswap.
  pose proof (le_bytes_le_num [a; b; c; d] Hb) as E. simpl length in E. rewrite E.
  change (reverse [a; b; c; d]) with [d; c; b; a].
  apply (le_bytes_le_num [d; c; b; a]).
  rewrite !Forall_cons in Hb |- *. tauto.
Qed.

Lemma swap_loop_spec n k dst src :
  (4 * (k + n) <= length src)%nat -> (4 * (k + n) <= length dst)%nat ->
  Forall is_byte src ->
  swap_loop (seq k n) dst src =
    take (4 * k) dst ++ swap_words (take (4 * n) (drop (4 * k) src)) ++ drop (4 * (k + n)) dst.
Proof.
  revert k dst. induction n as [|n IH]; intros k dst Hs Hd Hb.
  { simpl seq. replace (4 * 0)%nat with 0%nat by lia. rewrite take_0, Nat.add_0_r.
    cbn [swap_loop swap_words]. by rewrite app_nil_l, take_drop. }
  destruct (drop (4 * k) src) as [|a [|b [|c [|d l]]]] eqn:E;
    try (apply (f_equal length) in E; rewrite length_drop in E; simpl in E; lia).
  assert (l = drop (4 * S k) src) as ->.
  { replace (4 * S k)%nat with (4 * k + 4)%nat by lia. by rewrite <- drop_drop, E. }
  assert (Forall is_byte [a; b; c; d]) as Hw.
  { apply (Forall_drop _ (4 * k)) in Hb. rewrite E in Hb.
    by apply (Forall_take _ 4) in Hb. }
  cbn [seq swap_loop].
  assert (store32 dst k (bswap 4 (load32 src k)) =
          take (4 * k) dst ++ [d; c; b; a] ++ drop (4 * k + 4) dst) as ->.
  { unfold store32, load32. rewrite E. cbn [take]. by rewrite bswap_word. }
  assert (length (take (4 * k) dst ++ [d; c; b; a]) = 4 * S k)%nat as Hl.
  { rewrite length_app, length_take. simpl. lia. }
  rewrite app_assoc. rewrite IH by (try done; rewrite ?length_app, ?length_drop in *; simpl in *; lia).
  rewrite take_app_length' by lia.
  rewrite (drop_app_ge _ _ (4 * (S k + n))) by lia.
  rewrite drop_drop, Hl.
  replace (4 * k + 4 + (4 * (S k + n) - 4 * S k))%nat with (4 * (k + S n))%nat by lia.
  replace (4 * S n)%nat with (4 + 4 * n)%nat by lia.
  cbn [take Nat.add swap_words]. by rewrite <- app_assoc.
Qed.

Lemma swap_words_involutive l n :
  length l = (4 * n)%nat -> swap_words (swap_words l) = l.
Proof.
  revert l. induction n as [|n IH]; intros l Hl.
  - by destruct l.
  - destruct l as [|a [|b [|c [|d l]]]]; simpl in Hl; try lia.
    simpl. rewrite IH by lia. done.
Qed.

Lemma length_swap_words l n : length l = (4 * n)%nat -> length (swap_words l) = (4 * n)%nat.
Proof.
  revert l. induction n as [|n IH]; intros l Hl.
  - by destruct l.
  - destruct l as [|a [|b [|c [|d l]]]]; simpl in Hl; try lia.
    simpl. rewrite (IH l) by lia. lia.
Qed.

Lemma swap_words_bytes l : Forall is_byte l -> Forall is_byte (swap_words l).
Proof.
  assert (forall n l, (length l <= n)%nat -> Forall is_byte l -> Forall is_byte (swap_words l)) as Hg.
  { induction n as [|n IH]; intros l' Hl Hb; destruct l' as [|a [|b [|c [|d l']]]];
      try (by constructor); [simpl in Hl; lia|].
    simpl in Hl |- *. rewrite !Forall_cons in Hb |- *. destruct Hb as (? & ? & ? & ? & Hb).
    split_and!; try done. apply IH; [lia|done]. }
  by apply (Hg (length l)).
Qed.

Lemma memcpy_select_eq dst src size :
  memcpy_htobe32_select dst src size = memcpy_htobe32_inline dst src size.
Proof.
  unfold memcpy_htobe32_select, memcpy_htobe32_fixed, memcpy_htobe32.
  by destruct (Z.eqb_spec size PAYLOAD_SIZE) as [->|].
Qed.

Lemma memcpy_words dst src n :
  (4 * n <= length src)%nat -> (4 * n <= length dst)%nat -> Forall is_byte src ->
  memcpy_htobe32_select dst src (4 * Z.of_nat n) =
    swap_words (take (4 * n) src) ++ drop (4 * n) dst.
Proof.
  intros Hs Hd Hb. rewrite memcpy_select_eq. unfold memcpy_htobe32_inline.
  replace (Z.to_nat (4 * Z.of_nat n / 4)) with n by (rewrite Z.mul_comm, Z.div_mul; lia).
  by rewrite swap_loop_spec by (done || lia).
Qed.

(** The copy at a size that is a multiple of four, given as an integer. *)
Lemma memcpy_words_Z dst src size :
  0 <= size -> size mod 4 = 0 -> size <= Z.of_nat (length src) ->
  size <= Z.of_nat (length dst) -> Forall is_byte src ->
  memcpy_htobe32_select dst src size =
    swap_words (take (Z.to_nat size) src) ++ drop (Z.to_nat size) dst.
Proof.
  intros H0 Hm Hs Hd Hb. pose proof (Z.div_mod size 4 ltac:(lia)) as E.
  assert (size = 4 * Z.of_nat (Z.to_nat (size / 4))) as Es.
  { rewrite Z2Nat.id; [lia|]. apply Z.div_pos; lia. }
  rewrite Es at 1. rewrite memcpy_words by (done || lia).
  by replace (4 * Z.to_nat (size / 4))%nat with (Z.to_nat size) by lia.
Qed.

(** C37: on whole words the copy writes exactly [size] bytes of the destination:
    the words of the source, each with its bytes reversed. *)
Theorem memcpy_htobe32_select_spec dst src size :
  0 <= size -> size mod 4 = 0 -> size <= Z.of_nat (length src) ->
  size <= Z.of_nat (length dst) -> Forall is_byte src ->
  memcpy_htobe32_select dst src size =
    swap_words (take (Z.to_nat size) src) ++ drop (Z.to_nat size) dst.
Proof. apply memcpy_words_Z. Qed.

Lemma memcpy_words_twice dst1 dst2 src n :
  length src = (4 * n)%nat -> length dst1 = (4 * n)%nat -> length dst2 = (4 * n)%nat ->
  Forall is_byte src ->
  memcpy_be32toh_select dst2 (memcpy_htobe32_select dst1 src (4 * Z.of_nat n)) (4 * Z.of_nat n)
    = src.
Proof.
  intros Hs H1 H2 Hb. unfold memcpy_be32toh_select. rewrite (memcpy_words dst1) by (done || lia).
  rewrite take_ge, (drop_ge dst1), app_nil_r by lia.
  pose proof (length_swap_words src n Hs) as Hl.
  rewrite memcpy_words by (try lia; by apply swap_words_bytes).
  rewrite take_ge, (drop_ge dst2), app_nil_r by lia.
  by apply (swap_words_involutive src n).
Qed.

(** The copy of the sender followed by the copy of the receiver gives the
    words of the sender back. *)
Theorem memcpy_htobe32_roundtrip dst1 dst2 src n :
  length src = (4 * n)%nat -> length dst1 = (4 * n)%nat -> length dst2 = (4 * n)%nat ->
  Forall is_byte src ->
  memcpy_be32toh_select dst2 (memcpy_htobe32_select dst1 src (4 * Z.of_nat n)) (4 * Z.of_nat n)
    = src.
Proof. apply memcpy_words_twice. Qed.
