(* ===== verification/Config.v ===== *)
(** The constants of the worker.

    The header [common.hpp] of the worker's directory, which defines these
    constants and the types of a window, is not part of the repository (only
    the shared [common.hpp] is), so they are parameters: [Config].  [ConfigOk]
    states what the code under [src/] relies on. *)

From Stdlib Require Import SpecFloat.
From S2P Require Import Prelude.

(** * Double precision

    A [double] is an IEEE 754 binary64 number, with the arithmetic of the
    Standard Library's specification of binary64 (round to nearest even). *)

Definition f64 : Type := spec_float.

Definition f64_add : f64 -> f64 -> f64 := SFadd 53 1024.
Definition f64_sub : f64 -> f64 -> f64 := SFsub 53 1024.
Definition f64_mul : f64 -> f64 -> f64 := SFmul 53 1024.
Definition f64_div : f64 -> f64 -> f64 := SFdiv 53 1024.
Definition f64_ltb : f64 -> f64 -> bool := SFltb.

(** The double nearest to an integer. *)
Definition f64_of_Z (n : Z) : f64 := binary_normalize 53 1024 n 0 false.

(** The conversion of a double to an integer type drops the fraction. *)
Definition f64_trunc (x : f64) : Z :=
  match x with
  | S754_finite s m e =>
    let v := if 0 <=? e then Z.pos m * 2 ^ e else Z.pos m / 2 ^ (- e) in
    if s then - v else v
  | _ => 0
  end.

Example f64_half : f64_div (f64_of_Z 1) (f64_of_Z 2) = S754_finite false 4503599627370496 (-53).
Proof. reflexivity. Qed.

Example f64_trunc_2_5 : f64_trunc (f64_div (f64_of_Z 5) (f64_of_Z 2)) = 2.
Proof. reflexivity. Qed.

(** * Congestion control state ([window->cc]) *)

Record cc_t := {
  cwnd : f64;
  target_cwnd : f64;
  loss_ratio : f64;
  adjust_cnt : Z;         (** int *)
  prev_decrease_ts : Z;
  prev_adjust_ts : Z;
}.

(** * The parameters *)

Class Config := {
  MAX_WIN_LEN : Z;
  MAX_PKT_BURST : Z;
  INVALID_POSITION : Z;
  TIMEOUT_TIME : Z;
  CC_REACTION_TIME : Z;
  CC_FAST_RECOEVERY_CNT : Z;
  CC_CWND_MIN : f64;
  CC_G : f64;
  CC_AI : f64;
  CC_HI : f64;
  CC_HYPER_INCREASE : bool;          (** is the macro defined? *)
  cc_reinit : Z -> cc_t -> cc_t;     (** [cc.reinit(global_ts)] *)
  GROUP_PSN_INIT : Z;                (** [psn] of a fresh [group_ctx] entry *)
}.

(** [MAX_WIN_LEN] is a power of two ([static_assert] of [get_next_position])
    that fits the descriptor count of [port_init], a [uint16_t]; the invalid
    position is not a position. *)
Class ConfigOk `{Config} := {
  win_log : Z;
  win_log_range : 0 < win_log <= 15;
  max_win_len_pow2 : MAX_WIN_LEN = 2 ^ win_log;
  invalid_position : ~ 0 <= INVALID_POSITION < MAX_WIN_LEN;
  max_pkt_burst_pos : 0 < MAX_PKT_BURST;
  group_psn_init_u32 : 0 <= GROUP_PSN_INIT < 2 ^ 32;
}.

(** A small configuration for concrete runs. *)
Definition small_config : Config := {|
  MAX_WIN_LEN := 8;
  MAX_PKT_BURST := 4;
  INVALID_POSITION := -1;
  TIMEOUT_TIME := 1000;
  CC_REACTION_TIME := 50;
  CC_FAST_RECOEVERY_CNT := 2;
  CC_CWND_MIN := f64_of_Z 4;
  CC_G := f64_div (f64_of_Z 1) (f64_of_Z 16);
  CC_AI := f64_of_Z 1;
  CC_HI := f64_of_Z 2;
  CC_HYPER_INCREASE := false;
  cc_reinit ts c := c;
  GROUP_PSN_INIT := 0;
|}.

#[export] Instance small_config_ok : @ConfigOk small_config.
Proof.
  refine (@Build_ConfigOk small_config 3 _ _ _ _ _); simpl; lia.
Defined.

Section bounds.
Context `{ConfigOk}.

Lemma max_win_len_bounds : 2 <= MAX_WIN_LEN <= 2 ^ 15.
Proof.
  rewrite max_win_len_pow2. pose proof win_log_range.
  split; [apply (Z.pow_le_mono_r 2 1)|apply Z.pow_le_mono_r]; lia.
Qed.
End bounds.
