(* ===== verification/Congestion.v ===== *)
(** Congestion control of a worker ([adjust_rate] and [congestion_control] of
    [worker.cpp]), a window-based variant of DCQCN. *)

From Stdlib Require Import SpecFloat.
From S2P Require Import Prelude.
From S2P Require Import Config.

Section congestion.
Context `{Config}.

(** The thread-local state the two functions read and write. *)
Record cc_state := {
  cc : cc_t;
  cwnd_achieved : bool;
  cwnd_inc_cnt : Z;        (** size_t *)
  cwnd_dec_cnt : Z;        (** size_t *)
  tos_minitor : Z;         (** uint8_t *)
  pkt_loss_flag : bool;
  prev_ack_cnt_cc : Z;     (** size_t *)
  win_cnt : list Z;        (** int[MAX_WIN_LEN] *)
}.

Definition f64_one : f64 := f64_of_Z 1.
Definition f64_two : f64 := f64_of_Z 2.

(** [if(cwnd < CC_CWND_MIN) cwnd = CC_CWND_MIN] *)
Definition clamp (x : f64) : f64 := if f64_ltb x CC_CWND_MIN then CC_CWND_MIN else x.

Definition adjust_rate (congestion : bool) (s : cc_state) : cc_state :=
  let c := cc s in
  let s :=
    if congestion then
      let lr := f64_add (f64_mul (f64_sub f64_one CC_G) (loss_ratio c)) CC_G in
      {| s with
         cc := {| c with
           loss_ratio := lr;
           target_cwnd := cwnd c;
           cwnd := f64_mul (cwnd c) (f64_sub f64_one (f64_div lr f64_two));
           adjust_cnt := - CC_FAST_RECOEVERY_CNT |};
         cwnd_dec_cnt := u64 (cwnd_dec_cnt s + 1) |}
    else
      let c := {| c with loss_ratio := f64_mul (f64_sub f64_one CC_G) (loss_ratio c) |} in
      if cwnd_achieved s then
        let target :=
          if 0 <=? adjust_cnt c then
            if CC_HYPER_INCREASE
            then f64_add (target_cwnd c) (f64_mul CC_HI (f64_of_Z (adjust_cnt c)))
            else f64_add (target_cwnd c) CC_AI
          else target_cwnd c in
        {| s with
           cc := {| c with
             target_cwnd := target;
             adjust_cnt := adjust_cnt c + 1;
             cwnd := f64_div (f64_add target (cwnd c)) f64_two |};
           cwnd_inc_cnt := u64 (cwnd_inc_cnt s + 1) |}
      else {| s with cc := c |} in
  {| s with cwnd_achieved := false;
            cc := {| (cc s) with cwnd := clamp (cwnd (cc s)) |} |}.

Definition ECN_MASK : Z := 0x3.
Definition CONGESTION_OCCUR : Z := 0x3.

(** No congestion mark was seen and no loss was detected. *)
Definition no_congestion (s : cc_state) : bool :=
  negb (Z.land (tos_minitor s) ECN_MASK =? CONGESTION_OCCUR) && negb (pkt_loss_flag s).

(** [win_cnt[window_len()]++] *)
Definition count_window (window_len : Z) : M cc_state unit :=
  s <- get ;;
  n <- the OutOfBounds (if 0 <=? window_len then win_cnt s !! Z.to_nat window_len else None) ;;
  modify (fun s => {| s with win_cnt := <[Z.to_nat window_len := n + 1]> (win_cnt s) |}).

(** [congestion_control] with the values of [global_ts], [ack_cnt],
    [traffic_todo] and [window_len()] *)
Definition congestion_control (global_ts ack_cnt : Z) (traffic_todo : bool)
    (window_len : Z) : M cc_state unit :=
  s <- get ;;
  if global_ts - prev_decrease_ts (cc s) <? CC_REACTION_TIME then ret tt
  else if ack_cnt =? prev_ack_cnt_cc s then ret tt
  else if no_congestion s && (global_ts - prev_adjust_ts (cc s) <? CC_REACTION_TIME) then ret tt
  else
    (if no_congestion s then
       modify (fun s =>
         let s := adjust_rate false s in
         {| s with cc := {| (cc s) with prev_adjust_ts := global_ts |} |})
     else
       modify (fun s =>
         let s := adjust_rate true s in
         {| s with cc := {| (cc s) with prev_decrease_ts := global_ts;
                                        prev_adjust_ts := global_ts |};
                   tos_minitor := 0;
                   pkt_loss_flag := false |})) ;;;
    (if traffic_todo then count_window window_len else ret tt) ;;;
    modify (fun s => {| s with prev_ack_cnt_cc := ack_cnt |}).

(** * Properties *)

Lemma SFltb_irrefl x : f64_ltb x x = false.
Proof.
  destruct x as [s|s| |s m e]; [done|by destruct s|done|]. unfold f64_ltb, SFltb. cbn.
  rewrite Z.compare_refl, Pos.compare_cont_refl. by destruct s.
Qed.

Lemma clamp_min x : f64_ltb (clamp x) CC_CWND_MIN = false.
Proof.
  unfold clamp. destruct (f64_ltb x CC_CWND_MIN) eqn:E; [apply SFltb_irrefl|done].
Qed.

(** [n] increases in a row, each with a window that has reached [cwnd]. *)
Definition increases (n : nat) (s : cc_state) : cc_state :=
  Nat.iter n (fun s => adjust_rate false {| s with cwnd_achieved := true |}) s.

Lemma increases_S n s :
  increases (S n) s = adjust_rate false {| (increases n s) with cwnd_achieved := true |}.
Proof. done. Qed.

Lemma increase_adjust_cnt s :
  adjust_cnt (cc (adjust_rate false {| s with cwnd_achieved := true |}))
    = adjust_cnt (cc s) + 1.
Proof. done. Qed.

Lemma increase_target s :
  target_cwnd (cc (adjust_rate false {| s with cwnd_achieved := true |})) =
    if 0 <=? adjust_cnt (cc s) then
      if CC_HYPER_INCREASE
      then f64_add (target_cwnd (cc s)) (f64_mul CC_HI (f64_of_Z (adjust_cnt (cc s))))
      else f64_add (target_cwnd (cc s)) CC_AI
    else target_cwnd (cc s).
Proof. done. Qed.

Lemma increases_adjust_cnt n s :
  adjust_cnt (cc (increases n s)) = adjust_cnt (cc s) + Z.of_nat n.
Proof.
  induction n as [|n IH]; [simpl; lia|]. rewrite increases_S, increase_adjust_cnt, IH. lia.
Qed.

(** After a decrease the first [CC_FAST_RECOEVERY_CNT] increases are fast
    recovery: they aim at the window before the decrease.  Every later one
    raises the target by [CC_AI]. *)
Theorem fast_recovery_then_additive s n m :
  0 <= CC_FAST_RECOEVERY_CNT -> CC_HYPER_INCREASE = false ->
  Z.of_nat n <= CC_FAST_RECOEVERY_CNT ->
  target_cwnd (cc (increases n (adjust_rate true s))) = cwnd (cc s)
  /\ target_cwnd (cc (increases (m + Z.to_nat CC_FAST_RECOEVERY_CNT) (adjust_rate true s)))
     = Nat.iter m (fun t => f64_add t CC_AI) (cwnd (cc s)).
Proof.
  intros Hr Hh Hn.
  assert (forall k, Z.of_nat k <= CC_FAST_RECOEVERY_CNT ->
    target_cwnd (cc (increases k (adjust_rate true s))) = cwnd (cc s)) as Hfast.
  { induction k as [|k IH]; intros Hk; [done|].
    rewrite increases_S, increase_target, increases_adjust_cnt.
    simpl adjust_cnt. rewrite (proj2 (Z.leb_nle _ _)) by lia. apply IH. lia. }
  split; [by apply Hfast|]. induction m as [|m IH]; [apply Hfast; lia|].
  cbn [Nat.add Nat.iter nat_rect]. rewrite increases_S, increase_target, increases_adjust_cnt.
  simpl adjust_cnt. rewrite (proj2 (Z.leb_le _ _)) by lia. by rewrite Hh, IH.
Qed.

(** Whatever the arithmetic does, [cwnd] is never below [CC_CWND_MIN]. *)
Theorem adjust_rate_floor congestion s :
  f64_ltb (cwnd (cc (adjust_rate congestion s))) CC_CWND_MIN = false.
Proof. apply clamp_min. Qed.

(** What a call of [congestion_control] does to the state, by its guards. *)
Definition cc_decision (global_ts ack_cnt : Z) (s : cc_state) : option bool :=
  if (global_ts - prev_decrease_ts (cc s) <? CC_REACTION_TIME)
     || (ack_cnt =? prev_ack_cnt_cc s) then None
  else if no_congestion s then
    if global_ts - prev_adjust_ts (cc s) <? CC_REACTION_TIME then None else Some false
  else Some true.

Lemma count_window_runs s len :
  0 <= len < Z.of_nat (length (win_cnt s)) ->
  runs (count_window len) s (fun _ s' => exists l,
    s' = {| s with win_cnt := l |} /\ length l = length (win_cnt s)).
Proof.
  intros Hlen. unfold count_window. do 2 run_step. rewrite (proj2 (Z.leb_le _ _)) by lia.
  destruct (lookup_lt_is_Some_2 (win_cnt s) (Z.to_nat len)) as [n Hn]; [lia|].
  run_step. eapply runs_the; [done|]. run_step. eexists. split; [done|]. apply length_insert.
Qed.

(** What a rate adjustment leaves alone. *)
Lemma adjust_rate_frame congestion s :
  win_cnt (adjust_rate congestion s) = win_cnt s
  /\ no_congestion (adjust_rate congestion s) = no_congestion s
  /\ cwnd_achieved (adjust_rate congestion s) = false
  /\ prev_decrease_ts (cc (adjust_rate congestion s)) = prev_decrease_ts (cc s).
Proof.
  unfold adjust_rate, no_congestion. destruct congestion, (cwnd_achieved s); by split_and!.
Qed.

Lemma count_maybe_runs (todo : bool) s len :
  0 <= len < Z.of_nat (length (win_cnt s)) ->
  runs (if todo then count_window len else ret tt) s (fun _ s' => exists l,
    s' = {| s with win_cnt := l |} /\ length l = length (win_cnt s)).
Proof.
  intros Hlen. destruct todo; [by apply count_window_runs|]. run_step.
  exists (win_cnt s). by destruct s.
Qed.

(** What one call does, by its guards. *)
Lemma congestion_control_runs global_ts ack_cnt traffic_todo len s :
  0 <= len < Z.of_nat (length (win_cnt s)) ->
  runs (congestion_control global_ts ack_cnt traffic_todo len) s (fun _ s' =>
    length (win_cnt s') = length (win_cnt s) /\
    match cc_decision global_ts ack_cnt s with
    | None => s' = s
    | Some congestion =>
      let c := cc (adjust_rate congestion s) in
      cc s' = {| c with prev_adjust_ts := global_ts;
                        prev_decrease_ts := if congestion then global_ts
                                            else prev_decrease_ts (cc s) |}
      /\ prev_ack_cnt_cc s' = ack_cnt
      /\ cwnd_achieved s' = false
      /\ no_congestion s' = true
    end).
Proof.
  intros Hlen. unfold congestion_control, cc_decision. do 2 run_step.
  destruct (_ <? CC_REACTION_TIME); [by run_step|]. destruct (ack_cnt =? _); [by run_step|].
  cbn [orb]. destruct (no_congestion s) eqn:Hnc; cbn [andb].
  1: destruct (_ <? CC_REACTION_TIME); [by run_step|].
  all: match goal with |- context [adjust_rate ?b ?x] =>
         destruct (adjust_rate_frame b x) as (Ew & En & Ea & Ed) end.
  all: do 2 run_step; run_step;
       (eapply runs_mono; [apply count_maybe_runs; cbn -[adjust_rate]; by rewrite Ew|]).
  all: intros _ s' (l & -> & Hl); run_step; cbn -[adjust_rate] in *.
  all: rewrite Ew in Hl; split; [exact Hl|]; rewrite ?Ed; split_and!; try done.
  by rewrite <- Hnc, <- En.
Qed.

(** ** One call, in terms of the state before it *)

(** The window is cut: the old one becomes the target, and the next
    [CC_FAST_RECOEVERY_CNT] increases only close the distance to it. *)
Record decreased (ts : Z) (c c' : cc_t) : Prop := {
  de_loss : loss_ratio c' = f64_add (f64_mul (f64_sub f64_one CC_G) (loss_ratio c)) CC_G;
  de_target : target_cwnd c' = cwnd c;
  de_cwnd : cwnd c' = clamp (f64_mul (cwnd c) (f64_sub f64_one (f64_div (loss_ratio c') f64_two)));
  de_cnt : adjust_cnt c' = - CC_FAST_RECOEVERY_CNT;
  de_ts : prev_decrease_ts c' = ts /\ prev_adjust_ts c' = ts;
}.

(** The target, raised once fast recovery is over. *)
Definition next_target (c : cc_t) : f64 :=
  if adjust_cnt c <? 0 then target_cwnd c
  else f64_add (target_cwnd c)
    (if CC_HYPER_INCREASE then f64_mul CC_HI (f64_of_Z (adjust_cnt c)) else CC_AI).

(** The window goes half of the way to the target, if it has been used up. *)
Record increased (ts : Z) (achieved : bool) (c c' : cc_t) : Prop := {
  in_loss : loss_ratio c' = f64_mul (f64_sub f64_one CC_G) (loss_ratio c);
  in_ts : prev_decrease_ts c' = prev_decrease_ts c /\ prev_adjust_ts c' = ts;
  in_window : if achieved
    then target_cwnd c' = next_target c /\ adjust_cnt c' = adjust_cnt c + 1
         /\ cwnd c' = clamp (f64_div (f64_add (next_target c) (cwnd c)) f64_two)
    else target_cwnd c' = target_cwnd c /\ adjust_cnt c' = adjust_cnt c /\ cwnd c' = clamp (cwnd c);
}.

(** A mark of congestion or a loss since the last decrease. *)
Definition congested (s : cc_state) : Prop :=
  Z.land (tos_minitor s) 3 = 3 \/ pkt_loss_flag s = true.

Lemma no_congestion_spec s : no_congestion s = false <-> congested s.
Proof.
  unfold no_congestion, congested, ECN_MASK, CONGESTION_OCCUR. rewrite andb_false_iff, !negb_false_iff.
  by rewrite Z.eqb_eq.
Qed.

(** The window length is counted while there is traffic. *)
Definition counted (traffic_todo : bool) (len : Z) (s s' : cc_state) : Prop :=
  win_cnt s' = if traffic_todo then <[Z.to_nat len := win_cnt s !!! Z.to_nat len + 1]> (win_cnt s) else win_cnt s.

Lemma count_maybe_eq (todo : bool) s len :
  0 <= len < Z.of_nat (length (win_cnt s)) ->
  runs (if todo then count_window len else ret tt) s (fun _ s' =>
    s' = {| s with win_cnt := if todo then <[Z.to_nat len := win_cnt s !!! Z.to_nat len + 1]> (win_cnt s) else win_cnt s |}).
Proof.
  intros Hlen. destruct todo; [|run_step; by destruct s].
  unfold count_window. do 2 run_step. rewrite (proj2 (Z.leb_le _ _)) by lia.
  destruct (lookup_lt_is_Some_2 (win_cnt s) (Z.to_nat len)) as [n Hn]; [lia|].
  run_step. eapply runs_the; [done|]. run_step. by rewrite (list_lookup_total_correct _ _ _ Hn).
Qed.

Lemma adjust_decreases ts s :
  let a := cc (adjust_rate true s) in
  decreased ts (cc s) {| a with prev_decrease_ts := ts; prev_adjust_ts := ts |}.
Proof. by constructor. Qed.

Lemma adjust_increases ts s :
  let a := cc (adjust_rate false s) in
  increased ts (cwnd_achieved s) (cc s) {| a with prev_adjust_ts := ts |}.
Proof.
  unfold adjust_rate. destruct (cwnd_achieved s) eqn:E; constructor; cbn; try done.
  unfold next_target. rewrite Z.leb_antisym.
  destruct (adjust_cnt (cc s) <? 0), CC_HYPER_INCREASE; by split_and!.
Qed.

(** C38: a call of [congestion_control] does nothing within the reaction time of
    the last decrease, without a new acknowledgement, or, without congestion,
    within the reaction time of the last adjustment; otherwise it cuts the
    window when there is congestion, forgetting the marks, and lets it recover
    when there is none.  It never fails. *)
Theorem congestion_control_spec global_ts ack_cnt traffic_todo len s :
  0 <= len < Z.of_nat (length (win_cnt s)) ->
  runs (congestion_control global_ts ack_cnt traffic_todo len) s (fun _ s' =>
    let waits := global_ts < prev_decrease_ts (cc s) + CC_REACTION_TIME \/ ack_cnt = prev_ack_cnt_cc s in
    let done := prev_ack_cnt_cc s' = ack_cnt /\ cwnd_achieved s' = false /\ ~ congested s'
                /\ counted traffic_todo len s s' in
    (waits -> s' = s)
    /\ (~ waits -> congested s -> decreased global_ts (cc s) (cc s') /\ done)
    /\ (~ waits -> ~ congested s -> global_ts < prev_adjust_ts (cc s) + CC_REACTION_TIME -> s' = s)
    /\ (~ waits -> ~ congested s -> prev_adjust_ts (cc s) + CC_REACTION_TIME <= global_ts ->
         increased global_ts (cwnd_achieved s) (cc s) (cc s') /\ done)).
Proof.
  intros Hlen. pose proof (no_congestion_spec s) as Hc. unfold congestion_control. do 2 run_step.
  destruct (Z.ltb_spec (global_ts - prev_decrease_ts (cc s)) CC_REACTION_TIME) as [Hd|Hd].
  { run_step. split_and!; [done|intros Hw; destruct Hw; left; lia..]. }
  destruct (Z.eqb_spec ack_cnt (prev_ack_cnt_cc s)) as [Ha|Ha].
  { run_step. split_and!; [done|intros Hw; destruct Hw; by right..]. }
  destruct (no_congestion s) eqn:Hnc; cbn [andb].
  1: destruct (Z.ltb_spec (global_ts - prev_adjust_ts (cc s)) CC_REACTION_TIME) as [Hp|Hp].
  { run_step. split_and!; [done|intros _ Hx%Hc; congruence|done|intros; lia]. }
  all: do 2 run_step; run_step; (eapply runs_mono; [apply count_maybe_eq; cbn -[adjust_rate];
    by rewrite (proj1 (adjust_rate_frame _ _))|]).
  all: intros _ s' ->; run_step; unfold counted; cbn -[adjust_rate];
    rewrite (proj1 (adjust_rate_frame _ _)).
  all: split_and!; try (intros; exfalso; by intuition (lia || congruence)).
  - intros _ _ _. split; [apply adjust_increases|].
    split_and!; [done|apply adjust_rate_frame| |done]. rewrite <- no_congestion_spec.
    destruct (adjust_rate_frame false s) as (_ & En & _). intros E. rewrite Hnc in En.
    revert En. unfold no_congestion in E |- *. cbn -[adjust_rate] in E. by rewrite E.
  - intros _ _. split; [apply adjust_decreases|].
    split_and!; [done|apply adjust_rate_frame| |done]. by intros [|].
Qed.

(** Once a decrease has happened at [t], nothing changes before
    [t + CC_REACTION_TIME]: at most one decrease per reaction time. *)
Theorem one_decrease_per_reaction_time t ack todo len global_ts ack' todo' len' s s' :
  0 <= len < Z.of_nat (length (win_cnt s)) ->
  cc_decision t ack s = Some true ->
  congestion_control t ack todo len s = Ok (tt, s') ->
  t <= global_ts < t + CC_REACTION_TIME ->
  congestion_control global_ts ack' todo' len' s' = Ok (tt, s').
Proof.
  intros Hlen Hdec Hrun Hts.
  pose proof (runs_det _ _ _ _ _ Hrun (congestion_control_runs t ack todo len s Hlen)) as [_ Hs].
  rewrite Hdec in Hs. destruct Hs as [Hcc _].
  unfold congestion_control, bind, get. rewrite Hcc. simpl.
  by rewrite (proj2 (Z.ltb_lt _ _)) by lia.
Qed.
End congestion.
