(* ===== verification/QueuePair.v ===== *)
(** The request/response queue pair ([queue_pair_t] of [common.hpp]) between a
    requester and a responder thread, over the lock-free single-producer
    single-consumer queue of Boost.

    The Boost queue is not part of the repository: it is the interface [Spsc],
    whose documented behaviour (a bounded FIFO) is [SpscLaws].  The theorems are
    proved against the interface; [list_spsc] is a concrete instance. *)

From S2P Require Import Prelude.

(** * The interface of [boost::lockfree::spsc_queue] *)

(** [spsc T n] is a queue of capacity [n] with elements of type [T]. *)
Class Spsc := {
  spsc : Type -> Z -> Type;
  spsc_new : forall {T n}, spsc T n;
  spsc_push : forall {T n}, T -> spsc T n -> bool * spsc T n;
  spsc_pop : forall {T n}, spsc T n -> bool * spsc T n;
  spsc_front : forall {T n}, spsc T n -> option T;  (** undefined on an empty queue *)
  spsc_read_available : forall {T n}, spsc T n -> Z;
}.

(** The contents of a queue, oldest first, and what the operations do to it. *)
Class SpscLaws `{Spsc} := {
  contents : forall {T n}, spsc T n -> list T;
  contents_new : forall {T n}, contents (@spsc_new _ T n) = [];
  push_room : forall {T n} (x : T) (q : spsc T n),
    Z.of_nat (length (contents q)) < n ->
    (spsc_push x q).1 = true /\ contents (spsc_push x q).2 = contents q ++ [x];
  push_full : forall {T n} (x : T) (q : spsc T n),
    ~ Z.of_nat (length (contents q)) < n ->
    (spsc_push x q).1 = false /\ contents (spsc_push x q).2 = contents q;
  contents_pop : forall {T n} (q : spsc T n),
    contents (spsc_pop q).2 = tail (contents q);
  front_contents : forall {T n} (q : spsc T n), spsc_front q = head (contents q);
  read_available_contents : forall {T n} (q : spsc T n),
    spsc_read_available q = Z.of_nat (length (contents q));
}.

(** * The queue pair *)

Record queue_pair_t `{Spsc} (T : Type) (SIZE : Z) := QueuePair {
  wq : spsc T SIZE;
  cq : spsc T SIZE;
  num_in_queue : Z;  (** size_t *)
}.
Arguments QueuePair {_ T SIZE}.
Arguments wq {_ T SIZE}.
Arguments cq {_ T SIZE}.
Arguments num_in_queue {_ T SIZE}.

Section operations.
Context `{Spsc} {T : Type} {SIZE : Z}.
Abbreviation qp := (queue_pair_t T SIZE).

Definition new_queue_pair : qp := QueuePair spsc_new spsc_new 0.

Definition available (q : qp) : Z := u64 (SIZE - num_in_queue q).

(** requester only *)
Definition push_req (e : T) : M qp bool := fun q =>
  if num_in_queue q =? SIZE then Ok (false, q)
  else
    let q := {| q with num_in_queue := u64 (num_in_queue q + 1) |} in
    let '(r, w) := spsc_push e (wq q) in
    (assert r ;;; ret true) {| q with wq := w |}.

(** responder only; the result is the argument [e] of the source when the
    call returns [true] *)
Definition front_req : M qp (option T) := fun q =>
  if 0 <? spsc_read_available (wq q)
  then (x <- the OutOfBounds (spsc_front (wq q)) ;; ret (Some x)) q
  else Ok (None, q).

(** responder only *)
Definition pop_req : M qp unit := fun q =>
  (assert (0 <? spsc_read_available (wq q)) ;;;
   modify (fun q => {| q with wq := (spsc_pop (wq q)).2 |})) q.

(** responder only *)
Definition push_resp (e : T) : M qp bool := fun q =>
  let '(r, c) := spsc_push e (cq q) in
  (assert r ;;; ret r) {| q with cq := c |}.

(** requester only *)
Definition front_resp : M qp (option T) := fun q =>
  if 0 <? spsc_read_available (cq q)
  then (x <- the OutOfBounds (spsc_front (cq q)) ;; ret (Some x)) q
  else Ok (None, q).

(** requester only *)
Definition pop_resp : M qp unit := fun q =>
  (assert (0 <? spsc_read_available (cq q)) ;;;
   modify (fun q => {| q with cq := (spsc_pop (cq q)).2;
                              num_in_queue := u64 (num_in_queue q - 1) |})) q.
End operations.

(** * The abstract queue pair

    Two lists and the count of requests the requester has not collected. *)

Record aqp (T : Type) := AQP { a_wq : list T; a_cq : list T; a_num : Z }.
Arguments AQP {T}.
Arguments a_wq {T}.
Arguments a_cq {T}.
Arguments a_num {T}.

Section refinement.
Context `{SpscLaws} {T : Type} {SIZE : Z}.
Abbreviation qp := (queue_pair_t T SIZE).

Definition abs (q : qp) : aqp T :=
  AQP (contents (wq q)) (contents (cq q)) (num_in_queue q).

(** One lemma per operation: the concrete operation on the Boost queues does
    what the list operation says. *)

Lemma push_req_spec (e : T) (q : qp) (Q : bool -> qp -> Prop) :
  0 <= num_in_queue q -> SIZE < 2 ^ 64 ->
  (num_in_queue q <> SIZE ->
     num_in_queue q < SIZE /\ Z.of_nat (length (contents (wq q))) < SIZE) ->
  (num_in_queue q = SIZE -> Q false q) ->
  (forall q', num_in_queue q < SIZE ->
     abs q' = AQP (contents (wq q) ++ [e]) (contents (cq q)) (num_in_queue q + 1) ->
     Q true q') ->
  runs (push_req e) q Q.
Proof.
  intros Hn HS Hroom Hfull Hok. unfold runs, push_req.
  destruct (Z.eqb_spec (num_in_queue q) SIZE) as [E|E]; [by eauto|].
  destruct (Hroom E) as [Hlt Hlen]. simpl.
  destruct (push_room e (wq q) Hlen) as [Hr Hc].
  destruct (spsc_push e (wq q)) as [r w]. simpl in *. subst r.
  eexists _, _. split; [done|]. apply Hok; [done|].
  unfold abs. simpl. rewrite Hc. f_equal. apply wrap_small. lia.
Qed.

Lemma push_resp_spec (e : T) (q : qp) (Q : bool -> qp -> Prop) :
  Z.of_nat (length (contents (cq q))) < SIZE ->
  (forall q', abs q' = AQP (contents (wq q)) (contents (cq q) ++ [e]) (num_in_queue q) ->
     Q true q') ->
  runs (push_resp e) q Q.
Proof.
  intros Hlen Hok. unfold runs, push_resp.
  destruct (push_room e (cq q) Hlen) as [Hr Hc].
  destruct (spsc_push e (cq q)) as [r c]. simpl in *. subst r.
  eexists _, _. split; [done|]. apply Hok. unfold abs. simpl. by rewrite Hc.
Qed.

Lemma read_available_pos (q : spsc T SIZE) :
  (0 <? spsc_read_available q) = match contents q with [] => false | _ => true end.
Proof.
  rewrite read_available_contents. destruct (contents q); simpl; [done|].
  apply Z.ltb_lt. lia.
Qed.

Lemma front_req_spec (q : qp) : front_req q = Ok (head (contents (wq q)), q).
Proof.
  unfold front_req. rewrite read_available_pos, front_contents.
  by destruct (contents (wq q)).
Qed.

Lemma front_resp_spec (q : qp) : front_resp q = Ok (head (contents (cq q)), q).
Proof.
  unfold front_resp. rewrite read_available_pos, front_contents.
  by destruct (contents (cq q)).
Qed.

Lemma pop_req_spec (q : qp) x l (Q : unit -> qp -> Prop) :
  contents (wq q) = x :: l ->
  (forall q', abs q' = AQP l (contents (cq q)) (num_in_queue q) -> Q tt q') ->
  runs pop_req q Q.
Proof.
  intros Hc Hok. unfold runs, pop_req. rewrite read_available_pos, Hc.
  eexists _, _. split; [done|]. apply Hok. unfold abs. simpl.
  by rewrite contents_pop, Hc.
Qed.

Lemma pop_req_empty (q : qp) :
  contents (wq q) = [] -> pop_req q = Err AssertFailed.
Proof. intros Hc. unfold pop_req. by rewrite read_available_pos, Hc. Qed.

Lemma pop_resp_spec (q : qp) x l (Q : unit -> qp -> Prop) :
  contents (cq q) = x :: l ->
  0 < num_in_queue q < 2 ^ 64 ->
  (forall q', abs q' = AQP (contents (wq q)) l (num_in_queue q - 1) -> Q tt q') ->
  runs pop_resp q Q.
Proof.
  intros Hc Hn Hok. unfold runs, pop_resp. rewrite read_available_pos, Hc.
  eexists _, _. split; [done|]. apply Hok. unfold abs. simpl.
  rewrite contents_pop, Hc. f_equal. apply wrap_small. lia.
Qed.
End refinement.

(** * The interleavings of the two threads

    [held] is what the responder has taken from the work queue and not yet
    answered.  The responder answers in the order it took the requests. *)

Section protocol.
Context `{SpscLaws} {T : Type} {SIZE : Z}.
Abbreviation qp := (queue_pair_t T SIZE).

Inductive qp_step : qp * list T -> qp * list T -> Prop :=
  | step_push_req q held e r q' :
      push_req e q = Ok (r, q') -> qp_step (q, held) (q', held)
  | step_pop_req q held e q1 q' :
      front_req q = Ok (Some e, q1) -> pop_req q1 = Ok (tt, q') ->
      qp_step (q, held) (q', held ++ [e])
  | step_push_resp q held e r q' :
      push_resp e q = Ok (r, q') -> qp_step (q, e :: held) (q', held)
  | step_pop_resp q held e q1 q' :
      front_resp q = Ok (Some e, q1) -> pop_resp q1 = Ok (tt, q') ->
      qp_step (q, held) (q', held).

(** [num_in_queue] counts the requests that are queued, held or answered. *)
Definition qp_inv (st : qp * list T) : Prop :=
  let '(q, held) := st in
  num_in_queue q =
    Z.of_nat (length (contents (wq q)) + length held + length (contents (cq q)))
  /\ num_in_queue q <= SIZE.

Definition reachable : qp * list T -> Prop := rtc qp_step (new_queue_pair, []).

Lemma abs_inv (q : qp) l1 l2 n :
  abs q = AQP l1 l2 n -> contents (wq q) = l1 /\ contents (cq q) = l2 /\ num_in_queue q = n.
Proof. unfold abs. intros E. by simplify_eq. Qed.

Lemma push_req_inv q held e :
  SIZE < 2 ^ 64 -> qp_inv (q, held) ->
  runs (push_req e) q (fun r q' =>
    qp_inv (q', held) /\ r = negb (num_in_queue q =? SIZE)
    /\ contents (wq q') = contents (wq q) ++ (if r then [e] else [])
    /\ contents (cq q') = contents (cq q)
    /\ num_in_queue q' = num_in_queue q + (if r then 1 else 0)).
Proof.
  intros HS [Hn Hle]. apply push_req_spec; [lia|lia|lia| |].
  - intros E. rewrite E, Z.eqb_refl, app_nil_r. repeat split; simpl; lia.
  - intros q' Hlt (E1 & E2 & E3)%abs_inv. rewrite E1, E2, E3.
    split; [|split; [|auto]].
    + unfold qp_inv. rewrite E1, E2, E3, length_app. simpl. lia.
    + symmetry. apply negb_true_iff, Z.eqb_neq. lia.
Qed.

Lemma pop_req_inv q held e l :
  qp_inv (q, held) -> contents (wq q) = e :: l ->
  runs pop_req q (fun _ q' =>
    qp_inv (q', held ++ [e]) /\ contents (wq q') = l
    /\ contents (cq q') = contents (cq q) /\ num_in_queue q' = num_in_queue q).
Proof.
  intros [Hn Hle] Hc. eapply pop_req_spec; [done|].
  intros q' (E1 & E2 & E3)%abs_inv. rewrite Hc in Hn. simpl in Hn.
  split; [|auto]. unfold qp_inv. rewrite E1, E2, E3, length_app. simpl. lia.
Qed.

Lemma push_resp_inv q held e :
  qp_inv (q, e :: held) ->
  runs (push_resp e) q (fun r q' =>
    r = true /\ qp_inv (q', held) /\ contents (wq q') = contents (wq q)
    /\ contents (cq q') = contents (cq q) ++ [e] /\ num_in_queue q' = num_in_queue q).
Proof.
  intros [Hn Hle]. simpl in Hn. apply push_resp_spec; [lia|].
  intros q' (E1 & E2 & E3)%abs_inv. split; [done|]. split; [|auto].
  unfold qp_inv. rewrite E1, E2, E3, length_app. simpl. lia.
Qed.

Lemma pop_resp_inv q held e l :
  SIZE < 2 ^ 64 -> qp_inv (q, held) -> contents (cq q) = e :: l ->
  runs pop_resp q (fun _ q' =>
    qp_inv (q', held) /\ contents (wq q') = contents (wq q)
    /\ contents (cq q') = l /\ num_in_queue q' = num_in_queue q - 1).
Proof.
  intros HS [Hn Hle] Hc. rewrite Hc in Hn. simpl in Hn.
  eapply pop_resp_spec; [done|lia|].
  intros q' (E1 & E2 & E3)%abs_inv. split; [|auto].
  unfold qp_inv. rewrite E1, E2, E3. lia.
Qed.

Lemma qp_step_inv st st' : SIZE < 2 ^ 64 -> qp_inv st -> qp_step st st' -> qp_inv st'.
Proof.
  intros HS Hi Hs. destruct Hs as [q held e r q' Hp|q held e q1 q' Hf Hp
                                  |q held e r q' Hp|q held e q1 q' Hf Hp].
  - apply (runs_det _ _ _ _ _ Hp (push_req_inv q held e HS Hi)).
  - rewrite front_req_spec in Hf. injection Hf as Hf <-.
    destruct (contents (wq q)) as [|x l] eqn:E; simplify_eq/=.
    apply (runs_det _ _ _ _ _ Hp (pop_req_inv q held e l Hi E)).
  - apply (runs_det _ _ _ _ _ Hp (push_resp_inv q held e Hi)).
  - rewrite front_resp_spec in Hf. injection Hf as Hf <-.
    destruct (contents (cq q)) as [|x l] eqn:E; simplify_eq/=.
    apply (runs_det _ _ _ _ _ Hp (pop_resp_inv q held e l HS Hi E)).
Qed.

Lemma new_queue_pair_inv : 0 <= SIZE -> qp_inv (new_queue_pair, []).
Proof. intros HS. unfold qp_inv. simpl. rewrite !contents_new. simpl. lia. Qed.

Lemma reachable_inv st : 0 <= SIZE < 2 ^ 64 -> reachable st -> qp_inv st.
Proof.
  intros HS Hr.
  refine (rtc_ind_r (fun st => qp_inv st) (new_queue_pair, []) _ _ st Hr).
  - apply new_queue_pair_inv. lia.
  - intros y z _ Hs Hi. apply (qp_step_inv y); [lia|done|done].
Qed.

(** C28: in every interleaving of the requester and the responder the
    assertions of [push_req] and [push_resp] hold, and [push_req] refuses a
    request exactly when [SIZE] requests are outstanding. *)
Theorem queue_pair_never_overflows q held e :
  0 <= SIZE < 2 ^ 64 -> reachable (q, held) ->
  (exists r q', push_req e q = Ok (r, q')
     /\ (r = false <-> Z.of_nat (length (contents (wq q)) + length held
                                 + length (contents (cq q))) = SIZE))
  /\ (held <> [] -> exists q', push_resp e q = Ok (true, q')).
Proof.
  intros HS Hr. pose proof (reachable_inv _ HS Hr) as Hi. split.
  - destruct (push_req_inv q held e ltac:(lia) Hi) as (r & q' & Hp & _ & -> & _).
    exists (negb (num_in_queue q =? SIZE)), q'. split; [done|].
    rewrite negb_false_iff, Z.eqb_eq. destruct Hi as [-> _]. done.
  - intros Hh. destruct held as [|x held]; [done|].
    destruct (push_resp_inv q held e) as (r & q' & Hp & -> & _); [by apply Hi|].
    by exists q'.
Qed.
End protocol.

(** * A concrete queue: a list and its capacity *)

Definition list_spsc : Spsc := {|
  spsc T _ := list T;
  spsc_new _ _ := [];
  spsc_push T n x q :=
    if Z.of_nat (length q) <? n then (true, q ++ [x]) else (false, q);
  spsc_pop T _ q := (match q with [] => false | _ => true end, tail q);
  spsc_front T _ q := head q;
  spsc_read_available T _ q := Z.of_nat (length q);
|}.

#[export] Instance list_spsc_laws : @SpscLaws list_spsc.
Proof.
  unshelve eapply (@Build_SpscLaws list_spsc (fun T n q => q)); try done.
  - intros T n x q Hl. simpl in *. by rewrite (proj2 (Z.ltb_lt _ _) Hl).
  - intros T n x q Hl. simpl in *. by rewrite (proj2 (Z.ltb_nlt _ _) Hl).
Defined.
