(* ===== verification/LoadBalancer.v ===== *)
(** The load balancer thread ([load_balancer.cpp]): it splits every operation
    of the client over the workers and answers the client when every worker has
    answered its part. *)

From S2P Require Import Prelude.
From S2P Require Import Types.
From S2P Require Import QueuePair.

Record lb_state `{Spsc} := {
  shm_qp : queue_pair_t op_t QUEUE_SIZE;                    (** client -> load balancer *)
  thread_qp : list (queue_pair_t sub_op_t QUEUE_SIZE);      (** [thread_ctx[i].qp] *)
}.

(** * Splitting an operation *)

Section split.
Context (nworker : Z).  (** the global [nworker], an [int] *)

Definition size_in_int32 (op : op_t) : Z := op_size op / sizeof_int32.
Definition additional_size (op : op_t) : Z := op_size op mod sizeof_int32.

Definition sub_size_in_int32 (op : op_t) (i : Z) : Z :=
  u32 (size_in_int32 op / nworker
       + (if u32 i <? size_in_int32 op mod nworker then 1 else 0)).

Definition sub_size (op : op_t) (i : Z) : Z :=
  let s := u32 (sub_size_in_int32 op i * sizeof_int32) in
  if i =? nworker - 1 then u32 (s + additional_size op) else s.

Definition sub_agg_len (op : op_t) : Z := u16 (g_agg_len (group op) `quot` nworker).
Definition sub_agg_addr (op : op_t) (i : Z) : Z :=
  u16 (g_agg_addr (group op) + sub_agg_len op * i).

Definition make_sub_op (o : op_t) (i offset : Z) : sub_op_t := {|
  op := o;
  so_data := ptr_add (shm_buffer o) offset;
  so_size := sub_size o i;
  so_agg_addr := sub_agg_addr o i;
  so_agg_len := sub_agg_len o;
|}.
End split.

(** * The operations of the thread *)

Section operations.
Context `{Spsc} (nworker : Z).

Definition on_shm {A} (m : M (queue_pair_t op_t QUEUE_SIZE) A) : M lb_state A :=
  zoom shm_qp (fun q s => {| s with shm_qp := q |}) m.

(** [thread_ctx[i].qp->...] *)
Definition on_worker {A} (i : Z) (m : M (queue_pair_t sub_op_t QUEUE_SIZE) A) :
    M lb_state A := fun s =>
  match thread_qp s !! Z.to_nat i with
  | None => Err OutOfBounds
  | Some q =>
    match m q with
    | Ok (a, q') => Ok (a, {| s with thread_qp := <[Z.to_nat i := q']> (thread_qp s) |})
    | Err f => Err f
    end
  end.

Definition workers : list Z := seqZ 0 nworker.

(** first loop of [try_complete_op]: has every worker answered? *)
Fixpoint all_answered (l : list Z) : M lb_state bool :=
  match l with
  | [] => ret true
  | i :: l' =>
    r <- on_worker i front_resp ;;
    match r with
    | None => ret false
    | Some _ => all_answered l'
    end
  end.

(** second loop: collect the answers; the result is the last [op] read *)
Fixpoint collect (l : list Z) (o : option op_t) : M lb_state (option op_t) :=
  match l with
  | [] => ret o
  | i :: l' =>
    sub_op <- on_worker i front_resp ;;
    on_worker i pop_resp ;;;
    sub_op <- the NullDeref sub_op ;;
    collect l' (Some (op sub_op))
  end.

Definition try_complete_op : M lb_state bool :=
  r <- all_answered workers ;;
  if r then
    o <- collect workers None ;;
    o <- the NullDeref o ;;
    on_shm (push_resp o) ;;;
    ret true
  else ret false.

(** the loop of [try_post_op]; the result of [push_req] is ignored *)
Fixpoint post_loop (o : op_t) (l : list Z) (offset : Z) : M lb_state unit :=
  match l with
  | [] => ret tt
  | i :: l' =>
    on_worker i (push_req (make_sub_op nworker o i offset)) ;;;
    post_loop o l' (u32 (offset + sub_size nworker o i))
  end.

Definition try_post_op : M lb_state bool :=
  r <- on_shm front_req ;;
  match r with
  | None => ret false
  | Some o =>
    on_shm pop_req ;;;
    (if is_reduction o then assert (additional_size o =? 0) else ret tt) ;;;
    post_loop o workers 0 ;;;
    ret true
  end.

(** one round of the loop of [load_balancer]; the result tells whether to yield *)
Definition load_balancer_round : M lb_state bool :=
  r1 <- try_complete_op ;;
  r2 <- try_post_op ;;
  ret (r1 || r2).

(** one round of [test_loop] (environment variable [NETCCL_LB_LOOPBACK]) *)
Definition loopback_round : M lb_state bool :=
  r <- on_shm front_req ;;
  match r with
  | None => ret false
  | Some o => on_shm pop_req ;;; on_shm (push_resp o) ;;; ret true
  end.

(** [load_balancer]: the mode it runs in, and [n] rounds of it before
    [daemon_quit] is seen. *)
Fixpoint load_balancer (lb_loopback : bool) (n : nat) : M lb_state unit :=
  if lb_loopback then
    match n with O => ret tt | S n => loopback_round ;;; load_balancer true n end
  else if nworker =? 0 then ret tt
  else
    match n with O => ret tt | S n => load_balancer_round ;;; load_balancer false n end.
End operations.

(** * The split is a partition *)

Section partition.
Context (nworker : Z) (Hn : 0 < nworker < 2 ^ 31).

(** The offset the loop of [try_post_op] has reached at worker [i]. *)
Definition sub_offset (o : op_t) (i : Z) : Z :=
  sumZ (sub_size nworker o <$> seqZ 0 i).

(** What worker [i] is handed. *)
Definition sub_op_of (o : op_t) (i : Z) : sub_op_t :=
  make_sub_op nworker o i (sub_offset o i).

Lemma sub_size_in_int32_eq o i :
  op_wf o -> 0 <= i < nworker ->
  sub_size_in_int32 nworker o i =
    size_in_int32 o / nworker + (if i <? size_in_int32 o mod nworker then 1 else 0).
Proof.
  intros Ho Hi. unfold sub_size_in_int32. rewrite (wrap_small 32 i) by lia.
  apply wrap_small. unfold size_in_int32, sizeof_int32.
  pose proof (op_size_u32 _ Ho). 
  assert (0 <= op_size o / 4 < 2 ^ 30) by (split; [apply Z.div_pos|apply Z.div_lt_upper_bound]; lia).
  assert (op_size o / 4 / nworker <= op_size o / 4) by (apply Z.div_le_upper_bound; nia).
  assert (0 <= op_size o / 4 / nworker) by (apply Z.div_pos; lia).
  case_match; lia.
Qed.

(** The number of whole integers before worker [i]. *)
Definition ints_before (o : op_t) (i : Z) : Z :=
  i * (size_in_int32 o / nworker) + Z.min i (size_in_int32 o mod nworker).

Lemma ints_before_bound o i :
  op_wf o -> 0 <= i <= nworker -> 0 <= ints_before o i <= size_in_int32 o.
Proof.
  intros Ho Hi. unfold ints_before.
  pose proof (op_size_u32 _ Ho).
  assert (0 <= size_in_int32 o) as Hs by (apply Z.div_pos; unfold sizeof_int32; lia).
  pose proof (Z.div_mod (size_in_int32 o) nworker ltac:(lia)).
  pose proof (Z.mod_pos_bound (size_in_int32 o) nworker ltac:(lia)).
  assert (0 <= size_in_int32 o / nworker) by (apply Z.div_pos; lia).
  assert (0 <= i * (size_in_int32 o / nworker) <= nworker * (size_in_int32 o / nworker)) by nia.
  lia.
Qed.

Lemma ints_before_S o i :
  op_wf o -> 0 <= i < nworker ->
  ints_before o (i + 1) = ints_before o i + sub_size_in_int32 nworker o i.
Proof.
  intros Ho Hi. rewrite sub_size_in_int32_eq by done. unfold ints_before.
  case_match; lia.
Qed.

Lemma ints_before_all o : ints_before o nworker = size_in_int32 o.
Proof.
  unfold ints_before.
  pose proof (Z.div_mod (size_in_int32 o) nworker ltac:(lia)).
  pose proof (Z.mod_pos_bound (size_in_int32 o) nworker ltac:(lia)). lia.
Qed.

Lemma op_size_split o : op_size o = 4 * size_in_int32 o + additional_size o.
Proof. apply Z.div_mod. unfold sizeof_int32. lia. Qed.

Lemma additional_size_range o : 0 <= additional_size o < 4.
Proof. apply Z.mod_pos_bound. unfold sizeof_int32. lia. Qed.

(** The size of a part: its whole integers, and the odd bytes for the last. *)
Lemma sub_size_eq o i :
  op_wf o -> 0 <= i < nworker ->
  sub_size nworker o i =
    4 * sub_size_in_int32 nworker o i
    + (if i =? nworker - 1 then additional_size o else 0).
Proof.
  intros Ho Hi. unfold sub_size.
  pose proof (ints_before_bound o i Ho ltac:(lia)).
  pose proof (ints_before_bound o (i + 1) Ho ltac:(lia)) as Hb.
  rewrite ints_before_S in Hb by done.
  pose proof (wrap_range 32 (size_in_int32 o / nworker
       + (if u32 i <? size_in_int32 o mod nworker then 1 else 0)) ltac:(lia)) as Hr.
  fold (sub_size_in_int32 nworker o i) in Hr.
  pose proof (op_size_split o). pose proof (additional_size_range o).
  pose proof (op_size_u32 _ Ho). unfold sizeof_int32.
  rewrite (wrap_small 32 (_ * 4)) by lia.
  case_match; [rewrite wrap_small by lia|]; lia.
Qed.

Lemma sub_offset_S o i :
  0 <= i -> sub_offset o (i + 1) = sub_offset o i + sub_size nworker o i.
Proof.
  intros Hi. unfold sub_offset.
  rewrite seqZ_app, fmap_app, sumZ_app by lia. simpl. by rewrite Z.add_0_r.
Qed.

Lemma sub_offset_eq o i :
  op_wf o -> 0 <= i < nworker -> sub_offset o i = 4 * ints_before o i.
Proof.
        intros Ho Hi. pose proof (proj1 Hi). revert Hi. pattern i. apply natlike_ind; [| |lia].
  - intros _. assert (sub_offset o 0 = 0) as -> by done. unfold ints_before.
    pose proof (Z.mod_pos_bound (size_in_int32 o) nworker ltac:(lia)). lia.
  - intros j Hj IH Hlt. rewrite <- Z.add_1_r.
    rewrite sub_offset_S, ints_before_S, sub_size_eq, IH by (done || lia).
    destruct (Z.eqb_spec j (nworker - 1)); lia.
Qed.

Lemma sub_offset_all o : op_wf o -> sub_offset o nworker = op_size o.
Proof.
  intros Ho. replace nworker with ((nworker - 1) + 1) at 1 by lia.
  rewrite sub_offset_S, sub_offset_eq, sub_size_eq by (done || lia).
  rewrite Z.eqb_refl, (op_size_split o), <- (ints_before_all o).
  pose proof (ints_before_S o (nworker - 1) Ho ltac:(lia)) as E.
  replace (nworker - 1 + 1) with nworker in E by lia. lia.
Qed.

Lemma sub_offset_bound o i :
  op_wf o -> 0 <= i <= nworker -> 0 <= sub_offset o i <= op_size o.
Proof.
  intros Ho Hi. destruct (decide (i = nworker)) as [->|].
  - rewrite sub_offset_all by done. pose proof (op_size_u32 _ Ho). lia.
  - rewrite sub_offset_eq by (done || lia).
    pose proof (ints_before_bound o i Ho Hi).
    pose proof (op_size_split o). pose proof (additional_size_range o). lia.
Qed.

(** C23: the parts of an operation partition its data: they follow one another
    without gap or overlap from offset 0 to its size, every part but the last
    is a whole number of integers, and no two parts differ by more than one
    integer (and the odd bytes at the end). *)
Theorem split_partitions o :
  op_wf o ->
  sub_offset o 0 = 0 /\ sub_offset o nworker = op_size o
  /\ forall i, 0 <= i < nworker ->
       so_data (sub_op_of o i) = ptr_add (shm_buffer o) (sub_offset o i)
       /\ sub_offset o (i + 1) = sub_offset o i + so_size (sub_op_of o i)
       /\ 0 <= so_size (sub_op_of o i)
       /\ (i < nworker - 1 -> so_size (sub_op_of o i) mod 4 = 0)
       /\ op_size o / nworker - 8 < so_size (sub_op_of o i) < op_size o / nworker + 8.
Proof.
  intros Ho. split; [done|]. split; [by apply sub_offset_all|]. intros i Hi.
  cbn [so_data so_size sub_op_of make_sub_op].
  split; [done|]. split; [apply sub_offset_S; lia|].
  rewrite sub_size_eq, sub_size_in_int32_eq by done.
  pose proof (additional_size_range o). pose proof (op_size_split o) as Hsz.
  pose proof (op_size_u32 _ Ho).
  pose proof (Z.div_mod (size_in_int32 o) nworker ltac:(lia)).
  pose proof (Z.mod_pos_bound (size_in_int32 o) nworker ltac:(lia)).
  assert (0 <= size_in_int32 o / nworker) by (apply Z.div_pos; lia).
  pose proof (Z.div_mod (op_size o) nworker ltac:(lia)).
  pose proof (Z.mod_pos_bound (op_size o) nworker ltac:(lia)).
  set (q := size_in_int32 o / nworker) in *. set (r := size_in_int32 o mod nworker) in *.
  set (c := if i <? r then 1 else 0). assert (0 <= c <= 1) by (unfold c; case_match; lia).
  split; [case_match; lia|]. split.
  - intros Hlt. rewrite (proj2 (Z.eqb_neq _ _)) by lia.
    rewrite Z.add_0_r, Z.mul_comm. apply Z_mod_mult.
  - assert (op_size o / nworker - 4 * q < 5) by (apply Z.lt_sub_lt_add_l, Z.div_lt_upper_bound; nia).
    assert (4 * q <= op_size o / nworker) by (apply Z.div_le_lower_bound; nia).
    case_match; lia.
Qed.

Lemma sub_agg_len_eq o :
  op_wf o -> sub_agg_len nworker o = g_agg_len (group o) / nworker.
Proof.
  intros Ho. pose proof (g_agg_len_u16 _ (op_group_wf _ Ho)). unfold sub_agg_len.
  rewrite Z.quot_div_nonneg by lia. apply wrap_small. split; [apply Z.div_pos; lia|].
  apply Z.div_lt_upper_bound; nia.
Qed.

(** C29: the parts of an operation use disjoint aggregator ranges inside the
    range of the group, if that range lies in the switch's address space. *)
Theorem agg_ranges_disjoint o i j :
  op_wf o -> g_agg_addr (group o) + g_agg_len (group o) <= 2 ^ 16 ->
  0 <= i < j -> j < nworker ->
  let a := sub_op_of o i in
  let b := sub_op_of o j in
  g_agg_addr (group o) <= so_agg_addr a
  /\ so_agg_addr a + so_agg_len a <= so_agg_addr b
  /\ so_agg_addr b + so_agg_len b <= g_agg_addr (group o) + g_agg_len (group o).
Proof.
  intros Ho Hfit Hi Hj a b. unfold a, b. cbn [so_agg_addr so_agg_len sub_op_of make_sub_op].
  pose proof (g_agg_len_u16 _ (op_group_wf _ Ho)). pose proof (g_agg_addr_u16 _ (op_group_wf _ Ho)).
  unfold sub_agg_addr. rewrite sub_agg_len_eq by done.
  pose proof (Z.div_mod (g_agg_len (group o)) nworker ltac:(lia)).
  pose proof (Z.mod_pos_bound (g_agg_len (group o)) nworker ltac:(lia)).
  assert (0 <= g_agg_len (group o) / nworker) by (apply Z.div_pos; lia).
  set (q := g_agg_len (group o) / nworker) in *.
  assert (q * (j + 1) <= q * nworker) by nia. assert (q * (i + 1) <= q * j) by nia.
  destruct (decide (q = 0)) as [->|].
  - rewrite !Z.mul_0_l, !Z.add_0_r. rewrite wrap_small by lia. lia.
  - rewrite !wrap_small by nia. lia.
Qed.

Lemma sub_size_nonneg o i : 0 <= sub_size nworker o i.
Proof. unfold sub_size. case_match; apply wrap_range; lia. Qed.
End partition.

(** * What the operations do to the contents of the queues *)

(** The queues of the load balancer as lists. *)
Record alb := ALB { s_shm : aqp op_t; s_thr : list (aqp sub_op_t) }.

Section specification.
Context (nworker : Z).

Definition answered (t : aqp sub_op_t) : bool :=
  match a_cq t with [] => false | _ => true end.

Definition push_sub_op (o : op_t) (i : nat) (t : aqp sub_op_t) : aqp sub_op_t :=
  AQP (a_wq t ++ [sub_op_of nworker o (Z.of_nat i)]) (a_cq t) (a_num t + 1).

Definition pop_answer (t : aqp sub_op_t) : aqp sub_op_t :=
  AQP (a_wq t) (tail (a_cq t)) (a_num t - 1).

(** The oldest operation goes from the client's work queue to the workers,
    part [i] of it to worker [i]. *)
Definition spec_post (a : alb) : bool * alb :=
  match a_wq (s_shm a) with
  | [] => (false, a)
  | o :: l => (true, ALB (AQP l (a_cq (s_shm a)) (a_num (s_shm a)))
                         (imap (push_sub_op o) (s_thr a)))
  end.

(** The operation of the oldest answer of the last worker. *)
Definition answered_op (ts : list (aqp sub_op_t)) : option op_t :=
  match last ts with
  | Some t => op <$> head (a_cq t)
  | None => None
  end.

(** Once every worker has answered, one answer of each is collected and its
    operation is answered to the client. *)
Definition spec_complete (a : alb) : bool * alb :=
  if forallb answered (s_thr a) then
    match answered_op (s_thr a) with
    | None => (false, a)
    | Some o => (true, ALB (AQP (a_wq (s_shm a)) (a_cq (s_shm a) ++ [o]) (a_num (s_shm a)))
                           (pop_answer <$> s_thr a))
    end
  else (false, a).
End specification.

Section refinement.
Context `{SpscLaws} (nworker : Z) (Hn : 0 < nworker < 2 ^ 31).

Definition abs_lb (s : lb_state) : alb := ALB (abs (shm_qp s)) (abs <$> thread_qp s).

Lemma runs_on_worker {A} i (m : M (queue_pair_t sub_op_t QUEUE_SIZE) A) s q Q :
  thread_qp s !! Z.to_nat i = Some q ->
  runs m q (fun a q' => Q a {| s with thread_qp := <[Z.to_nat i := q']> (thread_qp s) |}) ->
  runs (on_worker i m) s Q.
Proof.
  intros Hq (a & q' & Hm & HQ). unfold runs, on_worker. rewrite Hq, Hm. by eexists _, _.
Qed.

Lemma lb_same s i q :
  thread_qp s !! Z.to_nat i = Some q ->
  {| s with thread_qp := <[Z.to_nat i := q]> (thread_qp s) |} = s.
Proof. intros Hq. destruct s. simpl in *. by rewrite list_insert_id. Qed.

Lemma all_answered_spec s j n :
  0 <= j -> (Z.to_nat j + n <= length (thread_qp s))%nat ->
  all_answered (seqZ j (Z.of_nat n)) s
    = Ok (forallb answered (take n (drop (Z.to_nat j) (abs <$> thread_qp s))), s).
Proof.
  revert j. induction n as [|n IH]; intros j Hj Hle; [done|].
  rewrite seqZ_cons by lia. replace (Z.pred (Z.of_nat (S n))) with (Z.of_nat n) by lia.
  destruct (lookup_lt_is_Some_2 (thread_qp s) (Z.to_nat j)) as [q Hq]; [lia|].
  cbn [all_answered]. unfold bind, on_worker at 1. rewrite Hq, front_resp_spec.
  rewrite (lb_same s j q Hq).
  erewrite drop_S by (rewrite list_lookup_fmap, Hq; done). simpl.
  unfold answered at 1. simpl. destruct (contents (cq q)) as [|x l]; simpl; [done|].
  rewrite IH by lia. by replace (Z.to_nat (Z.succ j)) with (S (Z.to_nat j)) by lia.
Qed.

(** [f] applied to the elements from index [j] on, [n] of them. *)
Definition imap_from {A} (f : nat -> A -> A) (j n : nat) (l : list A) : list A :=
  imap (fun k x => if decide (j <= k < j + n)%nat then f k x else x) l.

Lemma imap_from_0 {A} (f : nat -> A -> A) j (l : list A) : imap_from f j 0 l = l.
Proof.
  unfold imap_from. apply list_eq. intros k. rewrite list_lookup_imap.
  destruct (l !! k); simpl; [|done]. case_decide; [lia|done].
Qed.

Lemma imap_from_S {A} (f : nat -> A -> A) j n (l : list A) x :
  l !! j = Some x ->
  imap_from f (S j) n (<[j := f j x]> l) = imap_from f j (S n) l.
Proof.
  intros Hx. unfold imap_from. apply list_eq. intros k.
  rewrite !list_lookup_imap. destruct (decide (k = j)) as [->|Hne].
  - rewrite list_lookup_insert_eq by (by eapply lookup_lt_Some).
    rewrite Hx. simpl. by repeat case_decide; try lia.
  - rewrite list_lookup_insert_ne by done. destruct (l !! k); simpl; [|done].
    by repeat case_decide; try lia.
Qed.

Lemma imap_from_all {A} (f : nat -> A -> A) (l : list A) :
  imap_from f 0 (length l) l = imap f l.
Proof.
  unfold imap_from. apply list_eq. intros k. rewrite !list_lookup_imap.
  destruct (l !! k) eqn:E; simpl; [|done]. apply lookup_lt_Some in E.
  by case_decide; [|lia].
Qed.

(** A worker can take one more sub-operation. *)
Definition has_room {T} (t : aqp T) : Prop :=
  0 <= a_num t < QUEUE_SIZE /\ Z.of_nat (length (a_wq t)) < QUEUE_SIZE.

Lemma post_loop_spec o n j s :
  op_wf o -> (j + n)%nat = Z.to_nat nworker ->
  length (thread_qp s) = Z.to_nat nworker ->
  (forall k t, (j <= k)%nat -> (abs <$> thread_qp s) !! k = Some t -> has_room t) ->
  runs (post_loop nworker o (seqZ (Z.of_nat j) (Z.of_nat n))
                  (sub_offset nworker o (Z.of_nat j))) s
    (fun _ s' => shm_qp s' = shm_qp s
       /\ abs <$> thread_qp s' = imap_from (push_sub_op nworker o) j n (abs <$> thread_qp s)).
Proof.
  intros Ho. revert j s. induction n as [|n IH]; intros j s Hj Hlen Hroom.
  { apply runs_ret. by rewrite imap_from_0. }
  rewrite seqZ_cons by lia. cbn [post_loop].
  destruct (lookup_lt_is_Some_2 (thread_qp s) j) as [q Hq]; [lia|].
  assert ((abs <$> thread_qp s) !! j = Some (abs q)) as Hq' by (by rewrite list_lookup_fmap, Hq).
  destruct (Hroom j _ (le_n j) Hq') as [Hnum Hlw]. simpl in Hnum, Hlw.
  apply runs_bind, (runs_on_worker _ _ _ q); [by rewrite Nat2Z.id|].
  apply push_req_spec; [lia|done|lia|lia|].
  intros q' _ Habs. rewrite Nat2Z.id.
  assert (0 <= sub_offset nworker o (Z.of_nat j) + sub_size nworker o (Z.of_nat j) < 2 ^ 32) as Hoff.
  { rewrite <- sub_offset_S by lia.
    pose proof (sub_offset_bound nworker Hn o (Z.of_nat j + 1) Ho ltac:(lia)).
    pose proof (op_size_u32 _ Ho). lia. }
  rewrite (wrap_small 32) by done. rewrite <- sub_offset_S by lia.
  replace (Z.of_nat j + 1) with (Z.of_nat (S j)) by lia.
  replace (Z.succ (Z.of_nat j)) with (Z.of_nat (S j)) by lia.
  replace (Z.pred (Z.of_nat (S n))) with (Z.of_nat n) by lia.
  eapply runs_mono; [apply IH|].
  - lia.
  - simpl. by rewrite length_insert.
  - simpl. intros k t Hk Ht. rewrite list_fmap_insert in Ht.
    rewrite list_lookup_insert_ne in Ht by lia. apply (Hroom k t); [lia|done].
  - simpl. intros _ s' [-> ->]. split; [done|].
    rewrite list_fmap_insert, Habs. 
    by apply (imap_from_S (push_sub_op nworker o) j n _ (abs q)).
Qed.

Lemma try_post_op_runs s :
  length (thread_qp s) = Z.to_nat nworker ->
  (forall o l, contents (wq (shm_qp s)) = o :: l ->
     op_wf o /\ (is_reduction o = true -> additional_size o = 0)
     /\ Forall has_room (abs <$> thread_qp s)) ->
  runs (try_post_op nworker) s
    (fun b s' => (b, abs_lb s') = spec_post nworker (abs_lb s)
                 /\ length (thread_qp s') = Z.to_nat nworker).
Proof.
  intros Hlen Hpre. unfold try_post_op, on_shm.
  apply runs_bind, runs_zoom. unfold runs at 1. rewrite front_req_spec.
  eexists _, _. split; [done|]. unfold spec_post. simpl.
  destruct (contents (wq (shm_qp s))) as [|o l] eqn:E; simpl.
  { apply runs_ret. destruct s; done. }
  destruct (Hpre o l eq_refl) as (Ho & Hadd & Hroom).
  apply runs_bind, runs_zoom. eapply pop_req_spec; [done|]. intros q' Hq'.
  apply runs_bind. apply (runs_mono _ _ (fun _ s' =>
    s' = {| s with shm_qp := q' |})).
  { destruct (is_reduction o) eqn:Er; [|by apply runs_ret].
    apply runs_assert; [|done]. by apply Z.eqb_eq, Hadd. }
  intros _ s' ->. apply runs_bind. unfold workers.
  replace nworker with (Z.of_nat (Z.to_nat nworker)) at 2 by lia.
  eapply runs_mono; [apply (post_loop_spec o (Z.to_nat nworker) 0)|].
  - done.
  - lia.
  - done.
  - simpl. intros k t _ Ht. by eapply Forall_lookup_1.
  - simpl. intros _ s' [E1 E2]. apply runs_ret.
    rewrite <- Hlen, <- (length_fmap abs), imap_from_all in E2. split.
    + unfold abs_lb. by rewrite E1, E2, Hq'.
    + apply (f_equal length) in E2. by rewrite length_imap, !length_fmap, Hlen in E2.
Qed.

(** [try_post_op] implements [spec_post]. *)
Theorem try_post_op_spec s :
  length (thread_qp s) = Z.to_nat nworker ->
  (forall o l, contents (wq (shm_qp s)) = o :: l ->
     op_wf o /\ (is_reduction o = true -> additional_size o = 0)
     /\ Forall has_room (abs <$> thread_qp s)) ->
  runs (try_post_op nworker) s
    (fun b s' => (b, abs_lb s') = spec_post nworker (abs_lb s)
                 /\ length (thread_qp s') = Z.to_nat nworker).
Proof. apply try_post_op_runs. Qed.

(** A worker whose answers can be collected. *)
Definition has_answer {T} (t : aqp T) : Prop :=
  a_cq t <> [] /\ 0 < a_num t < 2 ^ 64.

Lemma answered_op_lookup (ts : list (aqp sub_op_t)) t x l n :
  length ts = S n -> ts !! n = Some t -> a_cq t = x :: l -> answered_op ts = Some (op x).
Proof.
  intros Hl Ht Hx. unfold answered_op. rewrite last_lookup, Hl. simpl.
  by rewrite Ht, Hx.
Qed.

Lemma collect_spec n j s o :
  (j + n)%nat = Z.to_nat nworker ->
  length (thread_qp s) = Z.to_nat nworker ->
  (forall k t, (j <= k)%nat -> (abs <$> thread_qp s) !! k = Some t -> has_answer t) ->
  runs (collect (seqZ (Z.of_nat j) (Z.of_nat n)) o) s
    (fun r s' => shm_qp s' = shm_qp s
       /\ r = (match n with O => o | _ => answered_op (abs <$> thread_qp s) end)
       /\ abs <$> thread_qp s' = imap_from (fun _ => pop_answer) j n (abs <$> thread_qp s)).
Proof.
  revert j s o. induction n as [|n IH]; intros j s o Hj Hlen Hans.
  { apply runs_ret. by rewrite imap_from_0. }
  rewrite seqZ_cons by lia. cbn [collect].
  destruct (lookup_lt_is_Some_2 (thread_qp s) j) as [q Hq]; [lia|].
  assert ((abs <$> thread_qp s) !! j = Some (abs q)) as Hq' by (by rewrite list_lookup_fmap, Hq).
  destruct (Hans j _ (le_n j) Hq') as [Hne Hnum]. simpl in Hne, Hnum.
  destruct (contents (cq q)) as [|x l] eqn:E; [done|].
  apply runs_bind, (runs_on_worker _ _ _ q); [by rewrite Nat2Z.id|].
  unfold runs at 1. rewrite front_resp_spec, E. eexists _, _. split; [done|].
  rewrite (lb_same s (Z.of_nat j) q) by (by rewrite Nat2Z.id).
  apply runs_bind, (runs_on_worker _ _ _ q); [by rewrite Nat2Z.id|].
  eapply pop_resp_spec; [done|done|]. intros q' Habs. rewrite Nat2Z.id.
  apply runs_bind. eapply runs_the; [done|].
  replace (Z.succ (Z.of_nat j)) with (Z.of_nat (S j)) by lia.
  replace (Z.pred (Z.of_nat (S n))) with (Z.of_nat n) by lia.
  assert (abs q' = pop_answer (abs q)) as Hpop.
  { rewrite Habs. unfold pop_answer. simpl. by rewrite E. }
  eapply runs_mono; [apply IH|].
  - lia.
  - simpl. by rewrite length_insert.
  - simpl. intros k t Hk Ht. rewrite list_fmap_insert in Ht.
    rewrite list_lookup_insert_ne in Ht by lia. apply (Hans k t); [lia|done].
  - simpl. intros r s' (-> & -> & ->).
    rewrite list_fmap_insert, Hpop. split; [done|]. split.
    + destruct n as [|n].
      * symmetry. eapply (answered_op_lookup _ (abs q) x l j); [|done|done].
        rewrite length_fmap. lia.
      * unfold answered_op. rewrite !last_lookup, length_insert, length_fmap.
        by rewrite list_lookup_insert_ne by lia.
    + by apply (imap_from_S (fun _ => pop_answer) j n _ (abs q)).
Qed.

Lemma try_complete_op_runs s :
  length (thread_qp s) = Z.to_nat nworker ->
  ((spec_complete (abs_lb s)).1 = true ->
     Z.of_nat (length (contents (cq (shm_qp s)))) < QUEUE_SIZE
     /\ Forall (fun t => 0 < a_num t < 2 ^ 64) (abs <$> thread_qp s)) ->
  runs (try_complete_op nworker) s
    (fun b s' => (b, abs_lb s') = spec_complete (abs_lb s)
                 /\ length (thread_qp s') = Z.to_nat nworker).
Proof.
  intros Hlen Hpre. unfold try_complete_op, workers.
  assert (all_answered (seqZ 0 nworker) s = Ok (forallb answered (abs <$> thread_qp s), s)) as Ha.
  { replace nworker with (Z.of_nat (Z.to_nat nworker)) at 1 by lia.
    rewrite all_answered_spec by lia. simpl. rewrite drop_0, take_ge; [done|].
    rewrite length_fmap. lia. }
  apply runs_bind. unfold runs at 1. rewrite Ha. eexists _, _. split; [done|].
  unfold spec_complete in *. simpl in *.
  destruct (forallb answered (abs <$> thread_qp s)) eqn:E; [|by apply runs_ret].
  assert (exists t x l, (abs <$> thread_qp s) !! pred (Z.to_nat nworker) = Some t
            /\ a_cq t = x :: l) as (t & x & l & Ht & Hx).
  { destruct (lookup_lt_is_Some_2 (thread_qp s) (pred (Z.to_nat nworker))) as [q Hq]; [lia|].
    rewrite list_lookup_fmap, Hq. exists (abs q). simpl.
    assert (answered (abs q) = true) as Hq'.
    { eapply forallb_lookup; [done|]. by rewrite list_lookup_fmap, Hq. }
    unfold answered in Hq'. simpl in Hq'.
    destruct (contents (cq q)) as [|x l]; [done|by eauto]. }
  assert (answered_op (abs <$> thread_qp s) = Some (op x)) as Hop.
  { eapply answered_op_lookup; [|done|done]. rewrite length_fmap. lia. }
  rewrite Hop in Hpre |- *. destruct (Hpre eq_refl) as [Hroom Hnum].
  apply runs_bind.
  replace nworker with (Z.of_nat (Z.to_nat nworker)) at 1 by lia.
  eapply runs_mono; [apply (collect_spec (Z.to_nat nworker) 0)|].
  - lia.
  - done.
  - simpl. intros k t' _ Ht'. split; [|by eapply Forall_lookup_1 in Hnum].
    pose proof (forallb_lookup _ _ _ _ E Ht') as Ha'. unfold answered in Ha'.
    by destruct (a_cq t').
  - simpl. intros r s' (E1 & -> & E2).
    destruct (Z.to_nat nworker) as [|n] eqn:En; [lia|]. rewrite Hop.
    apply runs_bind. eapply runs_the; [done|].
    apply runs_bind. unfold on_shm. apply runs_zoom. rewrite E1.
    apply push_resp_spec; [done|]. intros q' Hq'. apply runs_ret.
    rewrite <- Hlen, <- (length_fmap abs), imap_from_all in E2. split.
    + unfold abs_lb. simpl. rewrite Hq', E2. f_equal. f_equal.
      apply list_eq. intros k. by rewrite list_lookup_imap, !list_lookup_fmap.
    + simpl. apply (f_equal length) in E2. by rewrite length_imap, !length_fmap, Hlen in E2.
Qed.

(** [try_complete_op] implements [spec_complete]. *)
Theorem try_complete_op_spec s :
  length (thread_qp s) = Z.to_nat nworker ->
  ((spec_complete (abs_lb s)).1 = true ->
     Z.of_nat (length (contents (cq (shm_qp s)))) < QUEUE_SIZE
     /\ Forall (fun t => 0 < a_num t < 2 ^ 64) (abs <$> thread_qp s)) ->
  runs (try_complete_op nworker) s
    (fun b s' => (b, abs_lb s') = spec_complete (abs_lb s)
                 /\ length (thread_qp s') = Z.to_nat nworker).
Proof. apply try_complete_op_runs. Qed.
End refinement.
