(* ===== verification/Pipeline.v ===== *)
(** The path of an operation through the system: the client posts it to the
    shared queue pair, the load balancer splits it over the workers, every
    worker answers its part, the load balancer answers the client.

    [sys_step] interleaves the client, the load balancer and the workers at the
    granularity of one call of [push_req], [pop_resp], [try_complete_op],
    [try_post_op], [pop_req] and [push_resp].  A worker answers its parts in the
    order it took them (shown of the worker in [Worker.v]). *)

From S2P Require Import Prelude.
From S2P Require Import Types.
From S2P Require Import QueuePair.
From S2P Require Import LoadBalancer.

Section pipeline.
Context `{SpscLaws} (nworker : Z) (Hn : 0 < nworker < 2 ^ 31).

Record sys := {
  s_lb : lb_state;
  s_held : list (list sub_op_t);  (** taken by worker [i], not yet answered *)
  s_posted : list op_t;           (** every operation the client has posted *)
  s_collected : list op_t;        (** every answer the client has collected *)
}.

(** What the client must respect: the fields have their C types and a
    reduction is over whole integers. *)
Definition op_ok (o : op_t) : Prop :=
  op_wf o /\ (is_reduction o = true -> additional_size o = 0).

Definition with_shm (st : sys) (q : queue_pair_t op_t QUEUE_SIZE) : sys :=
  {| st with s_lb := {| (s_lb st) with shm_qp := q |} |}.

Definition with_thread (st : sys) (i : nat) (q : queue_pair_t sub_op_t QUEUE_SIZE)
    (h : list sub_op_t) : sys :=
  {| st with s_lb := {| (s_lb st) with thread_qp := <[i := q]> (thread_qp (s_lb st)) |};
             s_held := <[i := h]> (s_held st) |}.

Inductive sys_step : sys -> sys -> Prop :=
  | client_post st o q' :
      op_ok o -> push_req o (shm_qp (s_lb st)) = Ok (true, q') ->
      sys_step st {| (with_shm st q') with s_posted := s_posted st ++ [o] |}
  | client_refused st o q' :
      push_req o (shm_qp (s_lb st)) = Ok (false, q') ->
      sys_step st (with_shm st q')
  | client_collect st o q1 q' :
      front_resp (shm_qp (s_lb st)) = Ok (Some o, q1) -> pop_resp q1 = Ok (tt, q') ->
      sys_step st {| (with_shm st q') with s_collected := s_collected st ++ [o] |}
  | lb_complete st b lb' :
      try_complete_op nworker (s_lb st) = Ok (b, lb') ->
      sys_step st {| st with s_lb := lb' |}
  | lb_post st b lb' :
      try_post_op nworker (s_lb st) = Ok (b, lb') ->
      sys_step st {| st with s_lb := lb' |}
  | worker_take st i q h e q1 q' :
      thread_qp (s_lb st) !! i = Some q -> s_held st !! i = Some h ->
      front_req q = Ok (Some e, q1) -> pop_req q1 = Ok (tt, q') ->
      sys_step st (with_thread st i q' (h ++ [e]))
  | worker_answer st i q e h r q' :
      thread_qp (s_lb st) !! i = Some q -> s_held st !! i = Some (e :: h) ->
      push_resp e q = Ok (r, q') ->
      sys_step st (with_thread st i q' h).

Definition sys_init : sys := {|
  s_lb := {| shm_qp := new_queue_pair;
             thread_qp := replicate (Z.to_nat nworker) new_queue_pair |};
  s_held := replicate (Z.to_nat nworker) [];
  s_posted := [];
  s_collected := [];
|}.

Definition sys_reachable : sys -> Prop := rtc sys_step sys_init.

(** Part [i] of the operations the load balancer is working on. *)
Definition parts (inflight : list op_t) (i : nat) : list sub_op_t :=
  (fun o => sub_op_of nworker o (Z.of_nat i)) <$> inflight.

Definition thread_ok (inflight : list op_t) (i : nat)
    (t : aqp sub_op_t) (h : list sub_op_t) : Prop :=
  a_cq t ++ h ++ a_wq t = parts inflight i
  /\ a_num t = Z.of_nat (length inflight).

(** [inflight] are the operations split and not answered to the client. *)
Definition sys_inv_with (inflight : list op_t) (st : sys) : Prop :=
  let s := abs_lb (s_lb st) in
  length (s_thr s) = Z.to_nat nworker
  /\ length (s_held st) = Z.to_nat nworker
  /\ Forall op_ok (s_posted st)
  /\ s_posted st = s_collected st ++ a_cq (s_shm s) ++ inflight ++ a_wq (s_shm s)
  /\ qp_inv (shm_qp (s_lb st), inflight)
  /\ forall i t h, s_thr s !! i = Some t -> s_held st !! i = Some h ->
       thread_ok inflight i t h.

Definition sys_inv (st : sys) : Prop := exists inflight, sys_inv_with inflight st.

Lemma thread_ok_lengths inflight i t h :
  thread_ok inflight i t h ->
  (length (a_cq t) + length h + length (a_wq t) = length inflight)%nat.
Proof.
  intros [E _]. apply (f_equal length) in E. unfold parts in E.
  rewrite !length_app, length_fmap in E. lia.
Qed.

Lemma thread_ok_qp_inv inflight i (q : queue_pair_t sub_op_t QUEUE_SIZE) h :
  thread_ok inflight i (abs q) h -> Z.of_nat (length inflight) <= QUEUE_SIZE ->
  qp_inv (q, h).
Proof.
  intros Ht Hl. pose proof (thread_ok_lengths _ _ _ _ Ht). destruct Ht as [_ En].
  simpl in *. lia.
Qed.

Lemma inflight_bound inflight (q : queue_pair_t op_t QUEUE_SIZE) :
  qp_inv (q, inflight) ->
  Z.of_nat (length (contents (cq q)) + length inflight + length (contents (wq q)))
    <= QUEUE_SIZE.
Proof. intros [E Hle]. simpl in *. lia. Qed.

Lemma sys_init_inv : sys_inv sys_init.
Proof.
  exists []. unfold sys_inv_with. simpl. rewrite length_fmap, !length_replicate.
  rewrite !contents_new. split_and!; try done.
  intros i t h Ht Hh. apply list_lookup_fmap_Some in Ht as (q & -> & Hq).
    apply lookup_replicate in Hq as [-> _]. apply lookup_replicate in Hh as [-> _].
    split; simpl; by rewrite ?contents_new.
Qed.

Lemma qp_inv_abs {T} (q q' : queue_pair_t T QUEUE_SIZE) held :
  abs q' = abs q -> qp_inv (q, held) -> qp_inv (q', held).
Proof.
  intros (E1 & E2 & E3)%abs_inv. unfold qp_inv. by rewrite E1, E2, E3.
Qed.

Lemma sys_inv_same st inflight lb' :
  abs_lb lb' = abs_lb (s_lb st) -> sys_inv_with inflight st ->
  sys_inv_with inflight {| st with s_lb := lb' |}.
Proof.
  unfold sys_inv_with. cbn -[abs_lb]. intros E. rewrite E.
  intros (? & ? & ? & ? & Hqp & Hthr). 
  do 4 (split; [assumption|]). split; [|exact Hthr].
  eapply qp_inv_abs; [exact (f_equal s_shm E)|done].
Qed.

(** ** The load balancer preserves the invariant *)

(** What a worker has been handed stays in front of what it is handed later. *)
Definition requests_grow (lb lb' : lb_state) : Prop :=
  forall i q q', thread_qp lb !! i = Some q -> thread_qp lb' !! i = Some q' ->
    contents (wq q) `prefix_of` contents (wq q').

Lemma requests_grow_abs lb lb' :
  (forall i t t', s_thr (abs_lb lb) !! i = Some t -> s_thr (abs_lb lb') !! i = Some t' ->
     a_wq t `prefix_of` a_wq t') -> requests_grow lb lb'.
Proof.
  intros Hg i q q' Hq Hq'. apply (Hg i (abs q) (abs q')); cbn [s_thr abs_lb];
    by rewrite list_lookup_fmap, ?Hq, ?Hq'.
Qed.

Lemma requests_grow_same lb lb' : abs_lb lb' = abs_lb lb -> requests_grow lb lb'.
Proof. intros E. apply requests_grow_abs. rewrite E. intros i t t' Ht Ht'. by simplify_eq. Qed.

Lemma lb_post_runs st inflight :
  sys_inv_with inflight st ->
  runs (try_post_op nworker) (s_lb st) (fun b lb' =>
    sys_inv {| st with s_lb := lb' |} /\ requests_grow (s_lb st) lb').
Proof.
  intros Hinv. pose proof Hinv as (Hlt & Hlh & Hok & Hpost & Hqp & Hthr). simpl in *.
  rewrite length_fmap in Hlt. pose proof (inflight_bound _ _ Hqp) as Hb.
  eapply runs_mono; [apply try_post_op_runs; [done|done|]|].
  - intros o l Ho. rewrite Hpost, Ho in Hok.
    apply Forall_app in Hok as [_ Hok]. apply Forall_app in Hok as [_ Hok].
    apply Forall_app in Hok as [_ Hok]. apply Forall_cons in Hok as [[Hwf Hred] _].
    split; [done|]. split; [done|]. apply Forall_lookup. intros i t Ht.
    destruct (lookup_lt_is_Some_2 (s_held st) i) as [h Hh].
    { apply lookup_lt_Some in Ht. rewrite length_fmap in Ht. lia. }
    pose proof (Hthr i t h Ht Hh) as Hth. pose proof (thread_ok_lengths _ _ _ _ Hth).
    destruct Hth as [_ Hnum]. rewrite Ho in Hb. simpl in Hb.
    unfold has_room. lia.
  - intros b lb' [E Hlen']. unfold spec_post in E. simpl in E.
    destruct (contents (wq (shm_qp (s_lb st)))) as [|o l] eqn:Ew.
    + pose proof (f_equal snd E) as E'. split; [|by apply requests_grow_same].
      exists inflight. by apply sys_inv_same.
    + injection E as _ E1 E2 E3 E4. split.
      2:{ apply requests_grow_abs. cbn [s_thr abs_lb]. rewrite E4. intros i t t' Ht Ht'.
          rewrite list_lookup_imap, Ht in Ht'. injection Ht' as <-. by apply prefix_app_r. }
      exists (inflight ++ [o]). unfold sys_inv_with. simpl.
      rewrite E1, E2, E4, length_imap, length_fmap. split_and!; try done.
      * rewrite Hpost. by rewrite <- !app_assoc.
      * unfold qp_inv in Hqp. rewrite E3, length_app. simpl in *. lia.
      * unfold qp_inv in Hqp. lia.
      * intros i t h Ht Hh. rewrite list_lookup_imap in Ht.
        apply fmap_Some in Ht as (t0 & Ht0 & ->).
        destruct (Hthr i t0 h Ht0 Hh) as [Hp Hnum].
        unfold thread_ok, push_sub_op, parts. simpl.
        rewrite fmap_app, length_app. simpl. rewrite !app_assoc, <- (app_assoc (a_cq t0)), Hp.
        split; [done|lia].
Qed.

Lemma lb_complete_runs st inflight :
  sys_inv_with inflight st ->
  runs (try_complete_op nworker) (s_lb st) (fun b lb' =>
    sys_inv {| st with s_lb := lb' |} /\ requests_grow (s_lb st) lb').
Proof.
  intros Hinv. pose proof Hinv as (Hlt & Hlh & Hok & Hpost & Hqp & Hthr). simpl in *.
  rewrite length_fmap in Hlt. pose proof (inflight_bound _ _ Hqp) as Hb.
  (* the oldest answer of every worker is its part of the oldest operation *)
  assert (forall i t, (abs <$> thread_qp (s_lb st)) !! i = Some t -> answered t = true ->
    exists h o rest x l, s_held st !! i = Some h /\ inflight = o :: rest
      /\ a_cq t = x :: l /\ x = sub_op_of nworker o (Z.of_nat i)
      /\ l ++ h ++ a_wq t = parts rest i /\ a_num t = Z.of_nat (length inflight)) as Hans.
  { intros i t Ht Ha. destruct (lookup_lt_is_Some_2 (s_held st) i) as [h Hh].
    { apply lookup_lt_Some in Ht. rewrite length_fmap in Ht. lia. }
    destruct (Hthr i t h Ht Hh) as [Hp Hnum]. unfold answered in Ha.
    destruct (a_cq t) as [|x l]; [done|]. destruct inflight as [|o rest]; [done|].
    injection Hp as Hx Hl. exists h, o, rest, x, l. by split_and!. }
  eapply runs_mono; [apply try_complete_op_runs; [done|done|]|].
  - unfold spec_complete. simpl.
    destruct (forallb answered _) eqn:Ea; [|done]. intros _.
    assert (inflight <> []) as Hne.
    { destruct (lookup_lt_is_Some_2 (thread_qp (s_lb st)) 0) as [q Hq]; [lia|].
      assert ((abs <$> thread_qp (s_lb st)) !! 0%nat = Some (abs q)) as Hq'
        by (by rewrite list_lookup_fmap, Hq).
      destruct (Hans _ _ Hq' (forallb_lookup _ _ _ _ Ea Hq')) as (? & ? & ? & ? & ? & _ & -> & _).
      done. }
    destruct inflight as [|o rest]; [done|]. simpl in Hb. split; [lia|].
    apply Forall_lookup. intros i t Ht.
    destruct (Hans _ _ Ht (forallb_lookup _ _ _ _ Ea Ht)) as (? & ? & ? & ? & ? & _ & _ & _ & _ & _ & ->).
    unfold QUEUE_SIZE in *. simpl in *. lia.
  - intros b lb' [E Hlen']. unfold spec_complete in E. simpl in E.
    destruct (forallb answered _) eqn:Ea.
    2:{ pose proof (f_equal snd E) as E'. split; [|by apply requests_grow_same].
        exists inflight. by apply sys_inv_same. }
    destruct (lookup_lt_is_Some_2 (thread_qp (s_lb st)) (pred (Z.to_nat nworker)))
      as [q Hq]; [lia|].
    assert ((abs <$> thread_qp (s_lb st)) !! pred (Z.to_nat nworker) = Some (abs q)) as Hq'
      by (by rewrite list_lookup_fmap, Hq).
    destruct (Hans _ _ Hq' (forallb_lookup _ _ _ _ Ea Hq'))
      as (h0 & o & rest & x & l & _ & -> & Hx & Ex & _).
    rewrite (answered_op_lookup _ (abs q) x l (pred (Z.to_nat nworker))) in E;
      [|rewrite length_fmap; lia|done|done].
    replace (op x) with o in E by (by rewrite Ex).
    injection E as _ E1 E2 E3 E4. split.
    2:{ apply requests_grow_abs. cbn [s_thr abs_lb]. rewrite E4. intros i t t' Ht Ht'.
        rewrite list_lookup_fmap, Ht in Ht'. by injection Ht' as <-. }
    exists rest. unfold sys_inv_with. simpl.
    rewrite E1, E2, E4, !length_fmap. split_and!; try done.
    + rewrite Hpost. by rewrite <- !app_assoc.
    + unfold qp_inv in Hqp. rewrite E3, length_app. simpl in *. lia.
    + unfold qp_inv in Hqp. lia.
    + intros i t h Ht Hh. rewrite list_lookup_fmap in Ht.
      apply fmap_Some in Ht as (t0 & Ht0 & ->).
      destruct (Hans _ _ Ht0 (forallb_lookup _ _ _ _ Ea Ht0))
        as (h1 & o1 & rest1 & x1 & l1 & Hh1 & [= <- <-] & Hx1 & _ & Hp1 & Hn1).
      rewrite Hh in Hh1. injection Hh1 as <-.
      unfold thread_ok, pop_answer. simpl. rewrite Hx1. simpl in *. split; [done|lia].
Qed.

(** ** Every step preserves the invariant *)

Lemma with_shm_inv st inflight q' collected posted :
  sys_inv_with inflight st -> qp_inv (q', inflight) -> Forall op_ok posted ->
  posted = collected ++ contents (cq q') ++ inflight ++ contents (wq q') ->
  sys_inv {| (with_shm st q') with s_posted := posted; s_collected := collected |}.
Proof.
  intros (Hlt & Hlh & _ & _ & _ & Hthr) Hqp Hok Hpost. exists inflight.
  unfold sys_inv_with. cbn -[abs qp_inv]. by do 5 (split; [assumption|]).
Qed.

Lemma with_thread_inv st inflight i q q' h h' :
  sys_inv_with inflight st ->
  thread_qp (s_lb st) !! i = Some q -> s_held st !! i = Some h ->
  thread_ok inflight i (abs q') h' ->
  sys_inv (with_thread st i q' h').
Proof.
  intros (Hlt & Hlh & Hok & Hpost & Hqp & Hthr) Hq Hh Hnew. exists inflight.
  unfold sys_inv_with, with_thread. cbn -[abs qp_inv insert].
  rewrite list_fmap_insert, !length_insert.
  do 5 (split; [assumption|]). intros j t hj Ht Hj.
  destruct (decide (j = i)) as [->|Hne].
  - rewrite list_lookup_insert_eq in Ht by (rewrite length_fmap; by eapply lookup_lt_Some).
    rewrite list_lookup_insert_eq in Hj by (by eapply lookup_lt_Some).
    by simplify_eq.
  - rewrite list_lookup_insert_ne in Ht by done. rewrite list_lookup_insert_ne in Hj by done. by apply Hthr.
Qed.

Lemma thread_lookup st inflight i q h :
  sys_inv_with inflight st ->
  thread_qp (s_lb st) !! i = Some q -> s_held st !! i = Some h ->
  thread_ok inflight i (abs q) h /\ qp_inv (q, h).
Proof.
  intros (_ & _ & _ & _ & Hqp & Hthr) Hq Hh.
  assert (thread_ok inflight i (abs q) h) as Ht.
  { apply Hthr; [|done]. simpl. by rewrite list_lookup_fmap, Hq. }
  split; [done|]. eapply thread_ok_qp_inv; [done|].
  pose proof (inflight_bound _ _ Hqp). lia.
Qed.

Lemma client_step_inv st st' :
  sys_inv st ->
  (exists o q' b, push_req o (shm_qp (s_lb st)) = Ok (b, q') /\
     (b = true -> op_ok o) /\
     st' = {| (with_shm st q') with s_posted := s_posted st ++ (if b then [o] else []);
                                    s_collected := s_collected st |})
  \/ (exists o q1 q', front_resp (shm_qp (s_lb st)) = Ok (Some o, q1) /\ pop_resp q1 = Ok (tt, q') /\
     st' = {| (with_shm st q') with s_collected := s_collected st ++ [o];
                                    s_posted := s_posted st |}) ->
  sys_inv st'.
Proof.
  intros [inflight Hinv] Hs. pose proof Hinv as (_ & _ & Hok & Hpost & Hqp & _). simpl in Hpost.
  destruct Hs as [(o & q' & b & Hp & Hb & ->)|(o & q1 & q' & Hf & Hp & ->)].
  - pose proof (runs_det _ _ _ _ _ Hp (push_req_inv _ inflight o QUEUE_SIZE_u64 Hqp))
      as (Hqp' & _ & Ew & Ec & _).
    apply (with_shm_inv st inflight); [done|done| |].
    + apply Forall_app. split; [done|]. destruct b; [|done].
      apply Forall_singleton. by apply Hb.
    + rewrite Ew, Ec, Hpost. by rewrite <- !app_assoc.
  - rewrite front_resp_spec in Hf. injection Hf as Hf <-.
    destruct (contents (cq (shm_qp (s_lb st)))) as [|x l] eqn:Ex; simplify_eq/=.
    pose proof (runs_det _ _ _ _ _ Hp (pop_resp_inv _ inflight o l QUEUE_SIZE_u64 Hqp Ex))
      as (Hqp' & Ew & Ec & _).
    apply (with_shm_inv st inflight); [done|done|done|].
    rewrite Ew, Ec, Hpost. by rewrite <- !app_assoc.
Qed.

Lemma worker_take_inv st i q h e q1 q' :
  sys_inv st -> thread_qp (s_lb st) !! i = Some q -> s_held st !! i = Some h ->
  front_req q = Ok (Some e, q1) -> pop_req q1 = Ok (tt, q') ->
  sys_inv (with_thread st i q' (h ++ [e])).
Proof.
  intros [inflight Hinv] Hq Hh Hf Hp.
  destruct (thread_lookup _ _ _ _ _ Hinv Hq Hh) as [[Ht Hnum] Hqp].
  rewrite front_req_spec in Hf. injection Hf as Hf <-.
  destruct (contents (wq q)) as [|x l] eqn:Ex; simplify_eq/=.
  destruct (runs_det _ _ _ _ _ Hp (pop_req_inv _ h e l Hqp Ex)) as (_ & Ew & Ec & En).
  eapply with_thread_inv; [done|done|done|]. unfold thread_ok. simpl.
  rewrite Ew, Ec, En, <- Ht, Ex, <- !app_assoc. done.
Qed.

Lemma worker_answer_inv st i q h e r q' :
  sys_inv st -> thread_qp (s_lb st) !! i = Some q -> s_held st !! i = Some (e :: h) ->
  push_resp e q = Ok (r, q') ->
  sys_inv (with_thread st i q' h).
Proof.
  intros [inflight Hinv] Hq Hh Hp.
  destruct (thread_lookup _ _ _ _ _ Hinv Hq Hh) as [[Ht Hnum] Hqp].
  destruct (runs_det _ _ _ _ _ Hp (push_resp_inv _ h e Hqp)) as (_ & _ & Ew & Ec & En).
  eapply with_thread_inv; [done|done|done|]. unfold thread_ok. simpl in *.
  rewrite Ew, Ec, En, <- Ht, <- !app_assoc. done.
Qed.

Lemma sys_step_inv st st' : sys_inv st -> sys_step st st' -> sys_inv st'.
Proof.
  intros Hinv Hs. destruct Hs.
  - eapply client_step_inv; [done|]. left. by exists o, q', true.
  - eapply client_step_inv; [done|]. left. exists o, q', false. rewrite app_nil_r. by destruct st.
  - eapply client_step_inv; [done|]. right. by exists o, q1, q'.
  - destruct Hinv as [inflight Hinv]. exact (proj1 (runs_det _ _ _ _ _ H1 (lb_complete_runs _ _ Hinv))).
  - destruct Hinv as [inflight Hinv]. exact (proj1 (runs_det _ _ _ _ _ H1 (lb_post_runs _ _ Hinv))).
  - by eapply worker_take_inv.
  - by eapply worker_answer_inv.
Qed.

Lemma sys_reachable_inv st : sys_reachable st -> sys_inv st.
Proof.
  intros Hr. refine (rtc_ind_r sys_inv sys_init _ _ st Hr); [apply sys_init_inv|].
  intros y z _ Hs Hi. by eapply sys_step_inv.
Qed.

Lemma lb_round_runs st :
  sys_inv st -> exists b lb', load_balancer_round nworker (s_lb st) = Ok (b, lb').
Proof.
  intros [inflight Hinv].
  destruct (lb_complete_runs _ _ Hinv) as (b1 & lb1 & E1 & [inflight1 H1] & _).
  destruct (lb_post_runs _ _ H1) as (b2 & lb2 & E2 & _).
  exists (b1 || b2), lb2. simpl in E2. unfold load_balancer_round, bind. by rewrite E1, E2.
Qed.

(** In every reachable state a round of the load balancer and every
    answer of a worker run without a failed assertion, so no sub-operation
    is ever dropped by the ignored result of [push_req]. *)
Theorem pipeline_never_faults st :
  sys_reachable st ->
  (exists b lb', load_balancer_round nworker (s_lb st) = Ok (b, lb'))
  /\ (forall i q e h, thread_qp (s_lb st) !! i = Some q -> s_held st !! i = Some (e :: h) ->
        exists q', push_resp e q = Ok (true, q'))
  /\ (forall i q h, thread_qp (s_lb st) !! i = Some q -> s_held st !! i = Some h ->
        exists inflight, contents (cq q) ++ h ++ contents (wq q) = parts inflight i
          /\ s_posted st = s_collected st ++ contents (cq (shm_qp (s_lb st)))
                            ++ inflight ++ contents (wq (shm_qp (s_lb st)))).
Proof.
  intros Hr. pose proof (sys_reachable_inv _ Hr) as [inflight Hinv]. split_and!.
  - apply lb_round_runs. by exists inflight.
  - intros i q e h Hq Hh.
    destruct (thread_lookup _ _ _ _ _ Hinv Hq Hh) as [_ Hqp].
    destruct (push_resp_inv q h e Hqp) as (r & q' & Hp & -> & _). by exists q'.
  - intros i q h Hq Hh. exists inflight.
    destruct (thread_lookup _ _ _ _ _ Hinv Hq Hh) as [[Ht _] _].
    destruct Hinv as (_ & _ & _ & Hpost & _). done.
Qed.

(** The client collects the answers in the order it posted the
    operations, and never more than it posted. *)
Theorem client_fifo st :
  sys_reachable st -> exists rest, s_posted st = s_collected st ++ rest.
Proof.
  intros [inflight Hinv]%sys_reachable_inv. destruct Hinv as (_ & _ & _ & Hpost & _).
  by eexists.
Qed.
End pipeline.
