(* ===== verification/ProcessBuffer.v ===== *)
(** The software packet buffer of a worker ([queue_process_buffer] of
    [process_buffer.hpp]) over the burst interface of the NIC.

    DPDK is not part of the repository: its calls are the interface [Nic], the
    documented behaviour the buffer relies on is [NicLaws].  [wire] and
    [delivered] are the packets the device has accepted for transmission and
    has handed to the host so far; the code never reads them. *)

From S2P Require Import Prelude.

(** * The interface of the DPDK burst calls on one queue of one port *)

Class Nic (B : Type) := {
  nic : Type;
  rte_eth_tx_burst : Z -> Z -> list B -> nic -> Z * nic;
  rte_eth_rx_burst : Z -> Z -> Z -> nic -> list B * nic;
  rte_eth_rx_queue_count : Z -> Z -> nic -> Z;
  rte_pktmbuf_free : B -> nic -> nic;
}.

Class NicLaws (B : Type) `{Nic B} := {
  wire : nic -> list B;
  delivered : nic -> list B;
  tx_burst_count : forall p q l n, 0 <= (rte_eth_tx_burst p q l n).1 <= Z.of_nat (length l);
  tx_burst_wire : forall p q l n,
    wire (rte_eth_tx_burst p q l n).2 = wire n ++ take (Z.to_nat (rte_eth_tx_burst p q l n).1) l;
  tx_burst_delivered : forall p q l n, delivered (rte_eth_tx_burst p q l n).2 = delivered n;
  rx_burst_count : forall p q k n, 0 <= k -> Z.of_nat (length (rte_eth_rx_burst p q k n).1) <= k;
  rx_burst_wire : forall p q k n, wire (rte_eth_rx_burst p q k n).2 = wire n;
  rx_burst_delivered : forall p q k n,
    delivered (rte_eth_rx_burst p q k n).2 = delivered n ++ (rte_eth_rx_burst p q k n).1;
  free_wire : forall b n, wire (rte_pktmbuf_free b n) = wire n;
  free_delivered : forall b n, delivered (rte_pktmbuf_free b n) = delivered n;
}.

(** * The buffer *)

Record queue_process_buffer (B : Type) := {
  portid : Z;
  queueid : Z;
  rx_size : Z;         (** uint16_t *)
  tx_size : Z;         (** uint16_t *)
  rx_nb : Z;           (** uint16_t *)
  tx_nb : Z;           (** uint16_t *)
  rx_iter : Z;         (** uint16_t *)
  flush_timer : Z;     (** uint16_t *)
  receive_timer : Z;   (** uint16_t *)
  rx_bufs : list (option B);
  tx_bufs : list (option B);
  total_rx_nb : Z;     (** uint32_t *)
  total_tx_nb : Z;     (** uint32_t *)
  total_drop_nb : Z;   (** uint32_t *)
  total_alloc_nb : Z;  (** uint32_t *)
}.
Arguments portid {B}. Arguments queueid {B}. Arguments rx_size {B}. Arguments tx_size {B}.
Arguments rx_nb {B}. Arguments tx_nb {B}. Arguments rx_iter {B}. Arguments flush_timer {B}.
Arguments receive_timer {B}. Arguments rx_bufs {B}. Arguments tx_bufs {B}.
Arguments total_rx_nb {B}. Arguments total_tx_nb {B}. Arguments total_drop_nb {B}.
Arguments total_alloc_nb {B}.

(** The buffer and the device it drives. *)
Record pb_state (B : Type) `{Nic B} := PB { pb : queue_process_buffer B; dev : nic }.
Arguments PB {B _}.
Arguments pb {B _}.
Arguments dev {B _}.

Section operations.
Context {B : Type} `{Nic B}.
Abbreviation st := (pb_state B).

Definition new_process_buffer (port queue rxs txs : Z) : queue_process_buffer B := {|
  portid := port; queueid := queue; rx_size := rxs; tx_size := txs;
  rx_nb := 0; tx_nb := 0; rx_iter := 0; flush_timer := 0; receive_timer := 0;
  rx_bufs := replicate (Z.to_nat rxs) None;
  tx_bufs := replicate (Z.to_nat txs) None;
  total_rx_nb := 0; total_tx_nb := 0; total_drop_nb := 0; total_alloc_nb := 0;
|}.

(** The constructor asserts that the receive burst is a multiple of 8. *)
Definition process_buffer_ctor (port queue rxs txs : Z) : outcome (queue_process_buffer B) :=
  if rxs mod 8 =? 0 then Ok (new_process_buffer port queue rxs txs) else Err AssertFailed.

Definition upd (f : queue_process_buffer B -> queue_process_buffer B) : M st unit :=
  modify (fun s => {| s with pb := f (pb s) |}).

(** The [n] packets of an array from index [i] on; a null entry or an index
    past the end is a fault. *)
Definition packets (i n : Z) (l : list (option B)) : option (list B) :=
  if decide (i + n <= Z.of_nat (length l))
  then mapM id (take (Z.to_nat n) (drop (Z.to_nat i) l)) else None.

(** [rte_eth_tx_burst(portid, queueid, tx_bufs + i, n)] *)
Definition tx_burst (i n : Z) : M st Z :=
  s <- get ;;
  l <- the NullDeref (packets i n (tx_bufs (pb s))) ;;
  let '(k, d) := rte_eth_tx_burst (portid (pb s)) (queueid (pb s)) l (dev s) in
  modify (fun s => {| s with dev := d |}) ;;;
  ret k.

(** [for(i = 0; i < n; i++) bufs[i] = bufs[i + c]] *)
Fixpoint shift_loop (l : list nat) (c : nat) (bufs : list (option B)) :
    option (list (option B)) :=
  match l with
  | [] => Some bufs
  | i :: l =>
    match bufs !! (i + c)%nat with
    | None => None
    | Some b => shift_loop l c (<[i := b]> bufs)
    end
  end.

Definition flush_once : M st unit :=
  s <- get ;;
  complete_nb <- tx_burst 0 (tx_nb (pb s)) ;;
  let nb := u16 (tx_nb (pb s) - complete_nb) in
  upd (fun p => {| p with tx_nb := nb |}) ;;;
  (if negb (nb =? 0) && negb (complete_nb =? 0) then
     s <- get ;;
     bufs <- the OutOfBounds (shift_loop (seq 0 (Z.to_nat nb)) (Z.to_nat complete_nb)
                                         (tx_bufs (pb s))) ;;
     upd (fun p => {| p with tx_bufs := bufs |})
   else ret tt) ;;;
  upd (fun p => {| p with flush_timer := 0 |}).

(** the loop of [flush], with fuel; [complete_nb] is the loop variable *)
Fixpoint flush_loop (fuel : nat) (complete_nb : Z) : M st unit := fun s =>
  if complete_nb <? tx_nb (pb s) then
    match fuel with
    | O => Err NoFuel
    | S fuel =>
      (k <- tx_burst complete_nb (tx_nb (pb s) - complete_nb) ;;
       flush_loop fuel (u16 (complete_nb + k))) s
    end
  else Ok (tt, s).

Definition flush (fuel : nat) : M st unit :=
  s <- get ;;
  complete_nb <- tx_burst 0 (tx_nb (pb s)) ;;
  flush_loop fuel complete_nb ;;;
  upd (fun p => {| p with tx_nb := 0; flush_timer := 0 |}).

Definition check_flush_timer : M st unit :=
  s <- get ;;
  if flush_timer (pb s) <? tx_size (pb s) * 2
  then upd (fun p => {| p with flush_timer := u16 (flush_timer p + 1) |})
  else flush_once.

(** [size_t] results: [rx_nb - rx_iter] is an [int]. *)
Definition rx_sw_buffered_pkt_cnt (s : st) : Z := u64 (rx_nb (pb s) - rx_iter (pb s)).
Definition rx_hw_buffered_pkt_cnt (s : st) : Z :=
  u64 (rte_eth_rx_queue_count (portid (pb s)) (queueid (pb s)) (dev s)).
Definition rx_buffered_pkt_cnt (s : st) : Z :=
  u64 (rx_sw_buffered_pkt_cnt s + rx_hw_buffered_pkt_cnt s).
Definition tx_sw_buffered_pkt_cnt (s : st) : Z := tx_nb (pb s).

(** [rx_bufs] after a burst has filled its first entries. *)
Definition fill (l : list B) (bufs : list (option B)) : list (option B) :=
  (Some <$> l) ++ drop (length l) bufs.

(** [rx_nb = rte_eth_rx_burst(portid, queueid, rx_bufs, rx_size)] *)
Definition rx_burst : M st unit :=
  s <- get ;;
  let '(l, d) := rte_eth_rx_burst (portid (pb s)) (queueid (pb s)) (rx_size (pb s)) (dev s) in
  modify (fun s => PB {| (pb s) with rx_bufs := fill l (rx_bufs (pb s));
                                     rx_nb := u16 (Z.of_nat (length l)) |} d).

(** [return rx_bufs[rx_iter ++]]; the result is a pointer of the array *)
Definition next_rx : M st (option B) :=
  upd (fun p => {| p with total_rx_nb := u32 (total_rx_nb p + 1) |}) ;;;
  s <- get ;;
  b <- the OutOfBounds (rx_bufs (pb s) !! Z.to_nat (rx_iter (pb s))) ;;
  upd (fun p => {| p with rx_iter := u16 (rx_iter p + 1) |}) ;;;
  ret b.

Definition receive : M st (option B) :=
  check_flush_timer ;;;
  s <- get ;;
  if rx_iter (pb s) =? rx_nb (pb s) then
    upd (fun p => {| p with rx_iter := 0 |}) ;;;
    rx_burst ;;;
    s <- get ;;
    if rx_nb (pb s) =? 0 then ret None else next_rx
  else next_rx.

(** [send]; the loop at its top runs at most [fuel] times *)
Definition send (fuel : nat) (buf : B) : M st unit :=
  while fuel (fun s => tx_nb (pb s) =? tx_size (pb s)) flush_once ;;;
  upd (fun p => {| p with total_tx_nb := u32 (total_tx_nb p + 1) |}) ;;;
  s <- get ;;
  assert_in_bounds (tx_nb (pb s)) (tx_bufs (pb s)) ;;;
  upd (fun p => {| p with tx_bufs := <[Z.to_nat (tx_nb p) := Some buf]> (tx_bufs p);
                          tx_nb := u16 (tx_nb p + 1) |}) ;;;
  s <- get ;;
  if tx_nb (pb s) =? tx_size (pb s) then flush_once else ret tt.

Definition drop (buf : B) : M st unit :=
  upd (fun p => {| p with total_drop_nb := u32 (total_drop_nb p + 1) |}) ;;;
  modify (fun s => {| s with dev := rte_pktmbuf_free buf (dev s) |}).
End operations.

(** The device accepts part of [l] within [fuel] further offers. *)
Fixpoint accepts_within {B} `{Nic B} (fuel : nat) (p q : Z) (l : list B) (n : nic) : bool :=
  let '(k, n') := rte_eth_tx_burst p q l n in
  if 0 <? k then true
  else match fuel with O => false | S fuel => accepts_within fuel p q l n' end.

(** A device that always accepts something after at most [f] refusals. *)
Definition live_nic {B} `{Nic B} (f : nat) : Prop :=
  forall p q l (n : nic), l <> [] -> accepts_within f p q l n = true.

(** * The buffer as two queues

    [repr s q r]: [q] are the packets waiting to be sent and [r] the received
    packets not yet handed to the worker. *)

Section invariant.
Context {B : Type} `{NicLaws B}.
Abbreviation st := (pb_state B).

Record repr (s : st) (q r : list B) : Prop := {
  tx_size_range : 0 < tx_size (pb s) < 2 ^ 15;
  rx_size_range : 0 < rx_size (pb s) < 2 ^ 16;
  tx_bufs_length : Z.of_nat (length (tx_bufs (pb s))) = tx_size (pb s);
  rx_bufs_length : Z.of_nat (length (rx_bufs (pb s))) = rx_size (pb s);
  tx_nb_length : tx_nb (pb s) = Z.of_nat (length q);
  tx_nb_bound : tx_nb (pb s) <= tx_size (pb s);
  tx_bufs_queue : take (length q) (tx_bufs (pb s)) = Some <$> q;
  rx_nb_range : 0 <= rx_iter (pb s) <= rx_nb (pb s);
  rx_nb_bound : rx_nb (pb s) <= rx_size (pb s);
  rx_nb_length : rx_nb (pb s) - rx_iter (pb s) = Z.of_nat (length r);
  rx_bufs_queue : take (length r) (list.drop (Z.to_nat (rx_iter (pb s))) (rx_bufs (pb s)))
                  = Some <$> r;
  flush_timer_range : 0 <= flush_timer (pb s) <= 2 * tx_size (pb s);
}.

Lemma runs_upd f (s : st) Q : Q tt {| s with pb := f (pb s) |} -> runs (upd f) s Q.
Proof. intros HQ. by eexists _, _. Qed.

Lemma mapM_Some (q : list B) : mapM id (Some <$> q) = Some q.
Proof. induction q as [|x q IH]; [done|]. cbn. cbn in IH. by rewrite IH. Qed.

Lemma packets_queue i (q : list B) bufs :
  (i <= length q)%nat -> take (length q) bufs = Some <$> q ->
  packets (Z.of_nat i) (Z.of_nat (length q) - Z.of_nat i) bufs = Some (list.drop i q).
Proof.
  intros Hi Hq. unfold packets.
  assert (length q <= length bufs)%nat as Hl.
  { apply (f_equal length) in Hq. rewrite length_take, length_fmap in Hq. lia. }
  case_decide; [|lia]. rewrite Nat2Z.id.
  replace (Z.to_nat (Z.of_nat (length q) - Z.of_nat i)) with (length q - i)%nat by lia.
  rewrite firstn_skipn_comm. replace (i + (length q - i))%nat with (length q) by lia.
  rewrite Hq, <- fmap_drop. apply mapM_Some.
Qed.

Lemma shift_loop_spec c n i (bufs : list (option B)) :
  (0 < c)%nat -> (i + n + c <= length bufs)%nat ->
  shift_loop (seq i n) c bufs =
    Some (take i bufs ++ take n (list.drop (i + c) bufs) ++ list.drop (i + n) bufs).
Proof.
  intros Hc. revert i bufs. induction n as [|n IH]; intros i bufs Hl.
  { simpl. by rewrite Nat.add_0_r, take_drop. }
  cbn [seq shift_loop].
  destruct (lookup_lt_is_Some_2 bufs (i + c)) as [b Hb]; [lia|].
  rewrite Hb, IH by (rewrite length_insert; lia). f_equal.
  rewrite (drop_insert_lt bufs (S i + c)), (drop_insert_lt bufs (S i + n)) by lia.
  rewrite (take_S_r _ i b) by (apply list_lookup_insert_eq; lia).
  rewrite take_insert_ge by lia. rewrite <- app_assoc. f_equal.
  rewrite (drop_S bufs b (i + c)) by done. simpl.
  by replace (i + S n)%nat with (S (i + n)) by lia.
Qed.

(** What a burst does to the device. *)
Definition sent_more (s s' : st) (l : list B) : Prop :=
  wire (dev s') = wire (dev s) ++ l /\ delivered (dev s') = delivered (dev s).

(** The result of offering [l] to the device. *)
Definition offer (s : st) (l : list B) : Z * nic :=
  rte_eth_tx_burst (portid (pb s)) (queueid (pb s)) l (dev s).

Lemma offer_count s l : 0 <= (offer s l).1 <= Z.of_nat (length l).
Proof. apply tx_burst_count. Qed.

(** The configuration of the buffer, which no operation changes. *)
Definition same_config (s s' : st) : Prop :=
  portid (pb s') = portid (pb s) /\ queueid (pb s') = queueid (pb s)
  /\ tx_size (pb s') = tx_size (pb s) /\ rx_size (pb s') = rx_size (pb s).

Lemma tx_burst_spec s q r i :
  repr s q r -> (i <= length q)%nat ->
  runs (tx_burst (Z.of_nat i) (tx_nb (pb s) - Z.of_nat i)) s (fun k s' =>
    k = (offer s (list.drop i q)).1 /\ dev s' = (offer s (list.drop i q)).2
    /\ pb s' = pb s /\ sent_more s s' (take (Z.to_nat k) (list.drop i q))).
Proof.
  intros Hr Hi. unfold tx_burst. do 2 run_step. rewrite (tx_nb_length _ _ _ Hr).
  apply runs_bind. eapply runs_the; [by apply packets_queue, Hr|].
  unfold offer.
  pose proof (tx_burst_wire (portid (pb s)) (queueid (pb s)) (list.drop i q) (dev s)) as Hw.
  pose proof (tx_burst_delivered (portid (pb s)) (queueid (pb s)) (list.drop i q) (dev s)) as Hd.
  destruct (rte_eth_tx_burst _ _ _ _) as [k d]. simpl in *.
  run_steps. by unfold sent_more.
Qed.

Lemma flush_once_spec s q r :
  repr s q r ->
  runs flush_once s (fun _ s' =>
    let k := Z.to_nat (offer s q).1 in
    repr s' (list.drop k q) r /\ sent_more s s' (take k q) /\ dev s' = (offer s q).2
    /\ same_config s s' /\ flush_timer (pb s') = 0).
Proof.
  intros Hr. pose proof (offer_count s q) as Hk. unfold flush_once. do 2 run_step.
  apply runs_bind. replace (tx_nb (pb s)) with (tx_nb (pb s) - Z.of_nat 0) at 1 by lia.
  eapply runs_mono; [apply (tx_burst_spec s q r 0 Hr); lia|].
  intros k s1 (-> & Hdev & Hpb & Hsent). rewrite drop_0 in *. cbn zeta.
  set (k := (offer s q).1) in *. clearbody k.
  destruct Hr. rewrite wrap_small by lia.
  run_steps. apply runs_upd. cbn.
  assert (length q - Z.to_nat k = length (list.drop (Z.to_nat k) q))%nat as Hlk
    by (by rewrite length_drop).
  apply runs_bind. apply (runs_mono _ _ (fun _ s' => exists bufs,
    s' = PB {| (pb s) with tx_nb := tx_nb (pb s) - k; tx_bufs := bufs |} (dev s1)
    /\ length bufs = length (tx_bufs (pb s))
    /\ take (length q - Z.to_nat k) bufs = Some <$> list.drop (Z.to_nat k) q)).
  - rewrite Hpb. destruct (Z.eqb_spec (tx_nb (pb s) - k) 0) as [E|E]; simpl.
    { apply runs_ret. exists (tx_bufs (pb s)). split_and!; [done|done|].
      rewrite drop_ge by lia. by replace (length q - Z.to_nat k)%nat with 0%nat by lia. }
    destruct (Z.eqb_spec k 0) as [->|Hk0]; simpl.
    { apply runs_ret. exists (tx_bufs (pb s)). split_and!; [done|done|].
      by rewrite Nat.sub_0_r. }
    do 2 run_step. cbn. apply runs_bind. eapply runs_the.
    { apply (shift_loop_spec _ _ 0); lia. }
    apply runs_upd. cbn. eexists. split; [done|]. split.
    + rewrite !length_app, !length_take, !length_drop. lia.
    + rewrite take_0, app_nil_l.
      replace (Z.to_nat (tx_nb (pb s) - k)) with (length q - Z.to_nat k)%nat by lia.
      rewrite take_app_length' by (rewrite length_take, length_drop; lia).
      rewrite firstn_skipn_comm. replace (Z.to_nat k + (length q - Z.to_nat k))%nat with (length q) by lia.
      by rewrite tx_bufs_queue0, fmap_drop.
  - intros _ s2 (bufs & -> & Hlen & Hq). apply runs_upd. cbn.
    split_and!; try done. constructor; cbn; rewrite <- ?Hlk; try done; lia.
Qed.

Lemma sent_more_nil s s' : dev s' = dev s -> sent_more s s' [].
Proof. intros E. unfold sent_more. by rewrite E, app_nil_r. Qed.

Lemma same_config_refl s : same_config s s.
Proof. done. Qed.

Lemma check_flush_timer_spec s q r :
  repr s q r ->
  runs check_flush_timer s (fun _ s' => exists k,
    repr s' (list.drop k q) r /\ sent_more s s' (take k q) /\ same_config s s').
Proof.
  intros Hr. unfold check_flush_timer. do 2 run_step.
  destruct (Z.ltb_spec (flush_timer (pb s)) (tx_size (pb s) * 2)) as [E|E].
  - apply runs_upd. exists 0%nat. rewrite drop_0, take_0. split_and!.
    + destruct Hr. constructor; cbn; try done. rewrite wrap_small; lia.
    + by apply sent_more_nil.
    + done.
  - eapply runs_mono; [by apply flush_once_spec|]. cbn zeta.
    intros _ s' (? & ? & _ & ? & _). by eexists.
Qed.

(** ** Receiving *)

(** [l] more packets have come from the device. *)
Definition received_more (s s' : st) (l : list B) : Prop :=
  wire (dev s') = wire (dev s) /\ delivered (dev s') = delivered (dev s) ++ l.

Lemma next_rx_spec s q b r :
  repr s q (b :: r) ->
  runs next_rx s (fun o s' => o = Some b /\ repr s' q r /\ dev s' = dev s /\ same_config s s').
Proof.
  intros Hr. unfold next_rx. run_step. apply runs_upd. do 3 run_step. cbn.
  pose proof (rx_bufs_queue _ _ _ Hr) as Hq. destruct Hr.
  assert (rx_bufs (pb s) !! Z.to_nat (rx_iter (pb s)) = Some (Some b)) as Hb.
  { rewrite <- (Nat.add_0_r (Z.to_nat _)), <- lookup_drop.
    rewrite <- (lookup_take_lt _ (length (b :: r))) by (simpl; lia). by rewrite Hq. }
  eapply runs_the; [done|]. run_step. apply runs_upd. run_step. cbn.
  simpl in *. split_and!; [done| |done|done].
  assert (u16 (rx_iter (pb s) + 1) = rx_iter (pb s) + 1) as E by (apply wrap_small; lia).
  constructor; cbn; rewrite ?E; try done; try lia.
  replace (Z.to_nat (rx_iter (pb s) + 1)) with (Z.to_nat (rx_iter (pb s)) + 1)%nat by lia.
  rewrite <- drop_drop. rewrite (drop_S _ _ _ Hb) in Hq |- *. simpl in *. by simplify_eq.
Qed.

Lemma rx_burst_spec s q r :
  repr s q r -> rx_iter (pb s) = rx_nb (pb s) ->
  r = [] /\
  runs rx_burst {| s with pb := {| (pb s) with rx_iter := 0 |} |} (fun _ s' => exists l,
    repr s' q l /\ received_more s s' l /\ same_config s s' /\ rx_iter (pb s') = 0).
Proof.
  intros Hr Hit. split.
  { destruct Hr. destruct r; [done|simpl in *; lia]. }
  unfold rx_burst. do 2 run_step. destruct Hr. unfold received_more. cbn.
  pose proof (rx_burst_count (portid (pb s)) (queueid (pb s)) (rx_size (pb s)) (dev s) ltac:(lia)) as Hc.
  pose proof (rx_burst_wire (portid (pb s)) (queueid (pb s)) (rx_size (pb s)) (dev s)) as Hw.
  pose proof (rx_burst_delivered (portid (pb s)) (queueid (pb s)) (rx_size (pb s)) (dev s)) as Hd.
  destruct (rte_eth_rx_burst _ _ _ _) as [l d]. simpl in *.
  run_step. exists l. cbn. split_and!; try done.
  assert (u16 (Z.of_nat (length l)) = Z.of_nat (length l)) as E by (apply wrap_small; lia).
  constructor; cbn; rewrite ?E; try done; try lia.
  - unfold fill. rewrite length_app, length_fmap, length_drop. lia.
  - unfold fill. simpl. rewrite drop_0. by rewrite take_app_length' by (by rewrite length_fmap).
Qed.

(** [receive] hands out the packets of the device in the order of
    delivery, each exactly once, and answers [NULL] exactly when nothing is
    buffered and the device has nothing; packets waiting to be sent keep their
    order. *)
Theorem receive_fifo s q r :
  repr s q r ->
  runs receive s (fun o s' => exists k new r',
    repr s' (list.drop k q) r' /\ same_config s s'
    /\ wire (dev s') = wire (dev s) ++ take k q
    /\ delivered (dev s') = delivered (dev s) ++ new
    /\ r ++ new = match o with Some b => b :: r' | None => r' end
    /\ (o = None -> r' = [])).
Proof.
  intros Hr. unfold receive. run_step.
  eapply runs_mono; [by apply check_flush_timer_spec|].
  intros _ s1 (k & Hr1 & [Hw1 Hd1] & Hc1). do 2 run_step.
  destruct (Z.eqb_spec (rx_iter (pb s1)) (rx_nb (pb s1))) as [E|E].
  - destruct (rx_burst_spec _ _ _ Hr1 E) as [-> Hburst].
    run_step. apply runs_upd. run_step. eapply runs_mono; [done|].
    intros _ s2 (l & Hr2 & [Hw2 Hd2] & Hc2 & Hit). do 2 run_step.
    assert (same_config s s2) as Hc by (unfold same_config in *; intuition congruence).
    destruct (Z.eqb_spec (rx_nb (pb s2)) 0) as [E2|E2].
    + run_step. exists k, l, l. pose proof (rx_nb_length _ _ _ Hr2) as Hl.
      pose proof (rx_nb_range _ _ _ Hr2). destruct l; [|simpl in Hl; lia].
      split_and!; try done; congruence.
    + destruct l as [|b l].
      { pose proof (rx_nb_length _ _ _ Hr2) as Hl. simpl in Hl. lia. }
      eapply runs_mono; [by apply next_rx_spec|].
      intros o s3 (-> & Hr3 & Hd3 & Hc3). exists k, (b :: l), l.
      rewrite Hd3. split_and!; try done; try congruence.
      unfold same_config in *; intuition congruence.
  - destruct r as [|b r].
    { pose proof (rx_nb_length _ _ _ Hr1) as Hl. simpl in Hl. lia. }
    eapply runs_mono; [by apply next_rx_spec|].
    intros o s2 (-> & Hr2 & Hd2 & Hc2). exists k, [], r.
    rewrite Hd2. split_and!; try done; try (rewrite ?app_nil_r; congruence).
    unfold same_config in *; intuition congruence.
Qed.

(** ** Sending *)

(** The loop at the top of [send] makes room. *)
Lemma send_room f s q r :
  repr s q r ->
  (q <> [] -> accepts_within f (portid (pb s)) (queueid (pb s)) q (dev s) = true) ->
  runs (while (S f) (fun s => tx_nb (pb s) =? tx_size (pb s)) flush_once) s
    (fun _ s' => exists k, repr s' (list.drop k q) r /\ sent_more s s' (take k q)
       /\ same_config s s' /\ tx_nb (pb s') < tx_size (pb s')).
Proof.
  revert s. induction f as [|f IH]; intros s Hr Hacc.
  all: unfold runs; cbn [while].
  all: pose proof (tx_nb_bound _ _ _ Hr); pose proof (tx_size_range _ _ _ Hr);
       pose proof (tx_nb_length _ _ _ Hr).
  all: destruct (Z.eqb_spec (tx_nb (pb s)) (tx_size (pb s))) as [E|E];
    [|exists tt, s; split; [done|]; exists 0%nat; rewrite drop_0, take_0;
      split_and!; [done|by apply sent_more_nil|done|lia]].
  all: specialize (Hacc ltac:(intros ->; simpl in *; lia)); cbn [accepts_within] in Hacc.
  all: pose proof (offer_count s q) as Hk.
  all: apply runs_bind; eapply runs_mono; [by apply flush_once_spec|]; cbn zeta.
  all: intros _ s1 (Hr1 & Hs1 & Hd1 & Hc1 & _); fold (offer s q) in Hacc.
  all: pose proof (tx_nb_length _ _ _ Hr1) as Hl1; rewrite length_drop in Hl1.
  all: destruct (offer s q) as [k d] eqn:Eo; simpl in Hacc, Hk, Hl1, Hr1, Hs1, Hd1.
  all: destruct (Z.ltb_spec 0 k) as [Hpos|Hzero]; [|try done].
  1,2: pose proof (proj1 (proj2 (proj2 Hc1))).
  1,2: unfold runs; cbn [while]; rewrite (proj2 (Z.eqb_neq _ _)) by lia; exists tt, s1.
  1,2: split; [done|]; exists (Z.to_nat k); split_and!; [done..|lia].
  replace k with 0 in * by lia. rewrite drop_0, take_0 in *.
  destruct Hc1 as (Ep & Eq & Et & Ex).
  eapply runs_mono; [apply (IH s1 Hr1)|].
  { intros _. by rewrite Ep, Eq, Hd1. }
  intros _ s2 (k2 & Hr2 & [Hw2 Hde2] & Hc2 & Hlt2). exists k2. destruct Hs1 as [Hw1 Hde1].
  rewrite app_nil_r in Hw1. split_and!; [done| |unfold same_config in *; intuition congruence|done].
  unfold sent_more. by rewrite Hw2, Hw1, Hde2.
Qed.

(** Storing a packet at [tx_nb] appends it to the queue. *)
Lemma append_repr s q r b :
  repr s q r -> tx_nb (pb s) < tx_size (pb s) ->
  0 <= tx_nb (pb s) < Z.of_nat (length (tx_bufs (pb s)))
  /\ repr {| s with pb := {| (pb s) with
             total_tx_nb := u32 (total_tx_nb (pb s) + 1);
             tx_bufs := <[Z.to_nat (tx_nb (pb s)) := Some b]> (tx_bufs (pb s));
             tx_nb := u16 (tx_nb (pb s) + 1) |} |} (q ++ [b]) r.
Proof.
  intros Hr Hlt. destruct Hr. split; [lia|].
  assert (u16 (tx_nb (pb s) + 1) = tx_nb (pb s) + 1) as E by (apply wrap_small; lia).
  constructor; cbn; rewrite ?E, ?length_insert, ?length_app; simpl; try done; try lia.
  replace (Z.to_nat (tx_nb (pb s))) with (length q) by lia.
  replace (length q + 1)%nat with (S (length q)) by lia.
  rewrite (take_S_r _ _ (Some b)) by (apply list_lookup_insert_eq; lia).
  by rewrite take_insert_ge, tx_bufs_queue0, fmap_app by lia.
Qed.

Lemma send_runs f s q r b :
  live_nic f -> repr s q r ->
  runs (send (S f) b) s (fun _ s' => exists q',
    repr s' q' r /\ same_config s s' /\ delivered (dev s') = delivered (dev s)
    /\ wire (dev s') ++ q' = wire (dev s) ++ q ++ [b]).
Proof.
  intros Hlive Hr. unfold send. run_step.
  eapply runs_mono; [apply (send_room f s q r Hr); intros Hq; by apply Hlive|].
  intros _ s1 (k & Hr1 & [Hw1 Hd1] & Hc1 & Hlt). run_step. apply runs_upd. do 3 run_step. cbn.
  pose proof (append_repr s1 (list.drop k q) r b Hr1 Hlt) as [Hin Hr2].
  apply runs_in_bounds; [done|]. run_step. apply runs_upd. do 2 run_step. cbn in Hr2 |- *.
  assert (wire (dev s1) ++ list.drop k q ++ [b] = wire (dev s) ++ q ++ [b]) as Hw.
  { rewrite Hw1, <- app_assoc, (app_assoc (take k q)). by rewrite take_drop. }
  destruct (_ =? _).
  - eapply runs_mono; [by apply (flush_once_spec _ _ _ Hr2)|]. cbn zeta.
    intros _ s2 (Hr3 & [Hw3 Hd3] & _ & Hc3 & _). eexists. split_and!; [done|..].
    + unfold same_config in *; simpl in *; intuition congruence.
    + simpl in Hd3. congruence.
    + simpl in Hw3. rewrite Hw3, <- app_assoc, take_drop. done.
  - run_step. eexists. split_and!; [done|..]; [|done|done].
    unfold same_config in *; simpl in *; intuition congruence.
Qed.

(** ** Flushing *)

(** With [rem] packets left and at most [g] refusals before the device
    accepts the next one, the loop needs at most [g + 1 + (rem - 1) * (f + 1)]
    offers. *)
Lemma flush_loop_spec f fuel c g s q r :
  live_nic f -> repr s q r -> (c <= length q)%nat ->
  ((c < length q)%nat ->
     accepts_within g (portid (pb s)) (queueid (pb s)) (list.drop c q) (dev s) = true
     /\ (g + 1 + (length q - c - 1) * (f + 1) <= fuel)%nat) ->
  runs (flush_loop fuel (Z.of_nat c)) s (fun _ s' =>
    pb s' = pb s /\ sent_more s s' (list.drop c q)).
Proof.
  intros Hlive. revert c g s. induction fuel as [|fuel IH]; intros c g s Hr Hc Hg;
    unfold runs; cbn [flush_loop]; pose proof (tx_nb_length _ _ _ Hr) as Hl;
    destruct (Z.ltb_spec (Z.of_nat c) (tx_nb (pb s))) as [E|E];
    try (exists tt, s; split; [done|]; rewrite drop_ge by lia; by split; [|apply sent_more_nil]).
  { destruct (Hg ltac:(lia)). nia. }
  destruct (Hg ltac:(lia)) as [Hacc Hfuel].
  apply runs_bind. eapply runs_mono; [by apply (tx_burst_spec s q r c)|].
  intros k s1 (-> & Hd1 & Hpb & Hs1).
  pose proof (offer_count s (list.drop c q)) as Hk. rewrite length_drop in Hk.
  pose proof (tx_nb_bound _ _ _ Hr). pose proof (tx_size_range _ _ _ Hr).
  assert (repr s1 q r) as Hr1 by (destruct s1; simpl in Hpb; subst; destruct Hr; by constructor).
  rewrite wrap_small by lia.
  assert (exists g', (c + Z.to_nat (offer s (list.drop c q)).1 < length q)%nat ->
    accepts_within g' (portid (pb s1)) (queueid (pb s1))
      (list.drop (c + Z.to_nat (offer s (list.drop c q)).1) q) (dev s1) = true
    /\ (g' + 1 + (length q - (c + Z.to_nat (offer s (list.drop c q)).1) - 1) * (f + 1) <= fuel)%nat)
    as [g' Hg'].
  { destruct (Z.ltb_spec 0 (offer s (list.drop c q)).1) as [Hpos|Hzero].
    - exists f. intros Hlt. split; [|nia]. apply Hlive. intros En.
      apply (f_equal length) in En. rewrite length_drop in En. simpl in En. lia.
    - destruct g as [|g]; cbn [accepts_within] in Hacc; fold (offer s (list.drop c q)) in Hacc.
      all: destruct (offer s (list.drop c q)) as [k d] eqn:Eo; simpl in *.
      all: rewrite (proj2 (Z.ltb_nlt _ _)) in Hacc by lia; try done.
      exists g. intros Hlt. replace (c + Z.to_nat k)%nat with c by lia.
      rewrite Hpb, Hd1. split; [done|lia]. }
  replace (Z.of_nat c + (offer s (list.drop c q)).1)
    with (Z.of_nat (c + Z.to_nat (offer s (list.drop c q)).1)) by lia.
  eapply runs_mono; [by apply (IH _ g' s1 Hr1); [lia|]|].
  intros _ s2 [Hpb2 [Hw2 Hd2]]. split; [congruence|]. destruct Hs1 as [Hw1 Hde1].
  unfold sent_more. rewrite Hw2, Hd2, Hw1, Hde1. split; [|done].
  by rewrite <- app_assoc, <- drop_drop, take_drop.
Qed.

(** C33: [flush] terminates and sends every waiting packet, in order, if the
    device accepts packets again after at most [f] refusals. *)
Theorem flush_sends_all f s q r :
  live_nic f -> repr s q r ->
  runs (flush ((f + 1) * length q)) s (fun _ s' =>
    repr s' [] r /\ sent_more s s' q /\ same_config s s').
Proof.
  intros Hlive Hr. unfold flush. do 2 run_step. run_step.
  replace (tx_nb (pb s)) with (tx_nb (pb s) - Z.of_nat 0) by lia.
  eapply runs_mono; [apply (tx_burst_spec s q r 0 Hr); lia|].
  intros k s1 (-> & Hd1 & Hpb & Hs1). rewrite drop_0 in *.
  pose proof (offer_count s q) as Hk.
  assert (repr s1 q r) as Hr1 by (destruct s1; simpl in Hpb; subst; destruct Hr; by constructor).
  run_step. replace (offer s q).1 with (Z.of_nat (Z.to_nat (offer s q).1)) by lia.
  eapply runs_mono; [apply (flush_loop_spec f _ _ f s1 q r Hlive Hr1); [lia|]|].
  { intros Hlt. split; [|nia]. apply Hlive. intros En.
    apply (f_equal length) in En. rewrite length_drop in En. simpl in En. lia. }
  intros _ s2 [Hpb2 [Hw2 Hd2]]. apply runs_upd. rewrite Hpb2, Hpb.
  destruct Hs1 as [Hw1 Hde1]. split_and!.
  - destruct Hr. constructor; cbn; try done; lia.
  - unfold sent_more. cbn. rewrite Hw2, Hd2, Hw1, Hde1. by rewrite <- app_assoc, take_drop.
  - done.
Qed.

Lemma new_process_buffer_repr port queue rxs txs d :
  0 < rxs < 2 ^ 16 -> 0 < txs < 2 ^ 15 ->
  repr (PB (new_process_buffer port queue rxs txs) d) [] [].
Proof.
  intros Hrx Htx. constructor; cbn; rewrite ?length_replicate; try done; lia.
Qed.
(** [send] always finds a free slot if the device accepts packets again
    after finitely many refusals; every packet handed to [send] is sent or
    still queued, in the order of the calls. *)
Theorem send_fifo f s q r b :
  live_nic f -> repr s q r ->
  runs (send (S f) b) s (fun _ s' => exists q',
    repr s' q' r /\ same_config s s' /\ delivered (dev s') = delivered (dev s)
    /\ wire (dev s') ++ q' = wire (dev s) ++ q ++ [b]).
Proof. apply send_runs. Qed.
End invariant.

(** * A concrete device

    It holds the packets still to be delivered, refuses every other offer and
    accepts at most [sim_width + 1] packets of the others. *)

Record sim_nic (B : Type) := SimNic {
  sim_width : nat; sim_busy : bool;
  sim_pending : list B; sim_wire : list B; sim_delivered : list B;
}.
Arguments SimNic {B}. Arguments sim_width {B}. Arguments sim_busy {B}.
Arguments sim_pending {B}. Arguments sim_wire {B}. Arguments sim_delivered {B}.

#[export] Instance sim_nic_ops {B} : Nic B := {|
  nic := sim_nic B;
  rte_eth_tx_burst _ _ l n :=
    if sim_busy n then (0, {| n with sim_busy := false |})
    else (Z.of_nat (S (sim_width n) `min` length l),
          {| n with sim_busy := true;
                    sim_wire := sim_wire n ++ take (S (sim_width n) `min` length l) l |});
  rte_eth_rx_burst _ _ k n :=
    let k := Z.to_nat k in
    (take k (sim_pending n),
     {| n with sim_pending := list.drop k (sim_pending n);
               sim_delivered := sim_delivered n ++ take k (sim_pending n) |});
  rte_eth_rx_queue_count _ _ n := Z.of_nat (length (sim_pending n));
  rte_pktmbuf_free _ n := n;
|}.

#[export] Instance sim_nic_laws {B} : NicLaws B.
Proof.
  unshelve eapply (@Build_NicLaws B sim_nic_ops sim_wire sim_delivered); try done.
  - intros p q l n. cbn -[Nat.min]. destruct (sim_busy n); cbn -[Nat.min]; lia.
  - intros p q l n. cbn -[Nat.min]. destruct (sim_busy n); cbn -[Nat.min]; [|by rewrite Nat2Z.id].
    by rewrite app_nil_r.
  - intros p q l n. simpl. by destruct (sim_busy n).
  - intros p q k n Hk. simpl. rewrite length_take. lia.
Defined.

Lemma sim_nic_live {B} : @live_nic B _ 1.
Proof.
  intros p q l n Hl. cbn -[Nat.min]. destruct l as [|b l]; [done|].
  by destruct (sim_busy n).
Qed.
