(* ===== verification/ProcessBufferCopy.v ===== *)
(** The packet buffer of [process_buffer_copy.hpp], an earlier version of
    [process_buffer.hpp] with the same class name.  It differs in [flush_once],
    [send] and in the delayed receive of [batch_receive].

    A packet pointer is a 64-bit integer here, because [flush_once] moves the
    pointers with a byte-wise [memmove]. *)

From S2P Require Import Prelude.
From S2P Require Import Endian.
From S2P Require Import ProcessBuffer.

Section operations.
Context `{Nic Z}.
Abbreviation st := (pb_state Z).

(** The pointer array as it lies in memory, and back. *)
Definition pointer_bytes (bufs : list (option Z)) : list Z :=
  mjoin ((fun p => le_bytes 8 (default 0 p)) <$> bufs).

Fixpoint bytes_pointers (n : nat) (l : list Z) : list (option Z) :=
  match n with
  | O => []
  | S n =>
    let p := le_num (take 8 l) in
    (if p =? 0 then None else Some p) :: bytes_pointers n (list.drop 8 l)
  end.

(** [memmove(l, l + src, n)] on a byte array *)
Definition memmove (l : list Z) (src n : nat) : list Z :=
  take n (list.drop src l) ++ list.drop n l.

(** [memmove(tx_bufs, tx_bufs + c, n)] with [n] counted in bytes *)
Definition move_pointers (bufs : list (option Z)) (c n : nat) : list (option Z) :=
  bytes_pointers (length bufs) (memmove (pointer_bytes bufs) (8 * c) n).

Definition copy_flush_once : M st unit :=
  s <- get ;;
  (if negb (tx_nb (pb s) =? 0) then
     complete_nb <- tx_burst 0 (tx_nb (pb s)) ;;
     (if complete_nb <? tx_nb (pb s) then
        upd (fun p => {| p with tx_bufs :=
          move_pointers (tx_bufs p) (Z.to_nat complete_nb)
                        (Z.to_nat (tx_nb p - complete_nb)) |})
      else ret tt) ;;;
     upd (fun p => {| p with tx_nb := u16 (tx_nb p - complete_nb) |})
   else ret tt) ;;;
  upd (fun p => {| p with flush_timer := 0 |}).

Definition copy_check_flush_timer : M st unit :=
  s <- get ;;
  if flush_timer (pb s) <? tx_size (pb s) * 2
  then upd (fun p => {| p with flush_timer := u16 (flush_timer p + 1) |})
  else copy_flush_once.

(** [batch_receive<immediate>()]: the burst, or nothing for one call while
    fewer than [rx_size] packets are waiting. *)
Definition batch_receive (immediate : bool) : M st unit :=
  if immediate then rx_burst
  else
    s <- get ;;
    let queueing_pkt_cnt := rte_eth_rx_queue_count (portid (pb s)) (queueid (pb s)) (dev s) in
    if (queueing_pkt_cnt <? rx_size (pb s)) && (receive_timer (pb s) <? 1) then
      upd (fun p => {| p with receive_timer := u16 (receive_timer p + 1); rx_nb := 0 |})
    else
      upd (fun p => {| p with receive_timer := 0 |}) ;;;
      rx_burst.

Definition receive_impl (immediate : bool) : M st (option Z) :=
  copy_check_flush_timer ;;;
  s <- get ;;
  if rx_iter (pb s) =? rx_nb (pb s) then
    upd (fun p => {| p with rx_iter := 0 |}) ;;;
    batch_receive immediate ;;;
    s <- get ;;
    if rx_nb (pb s) =? 0 then ret None else next_rx
  else next_rx.

(** The fields, the constructor, [flush] and [drop] are the same text in both files. *)
Definition copy_process_buffer : Type := queue_process_buffer Z.
Definition copy_process_buffer_ctor : Z -> Z -> Z -> Z -> outcome copy_process_buffer :=
  process_buffer_ctor.
Definition copy_flush : nat -> M st unit := flush.
Definition copy_drop : Z -> M st unit := drop.

Definition copy_receive : M st (option Z) := receive_impl false.
Definition copy_receive_imm : M st (option Z) := receive_impl true.

Definition copy_send (buf : Z) : M st unit :=
  upd (fun p => {| p with total_tx_nb := u32 (total_tx_nb p + 1) |}) ;;;
  s <- get ;;
  assert_in_bounds (tx_nb (pb s)) (tx_bufs (pb s)) ;;;
  upd (fun p => {| p with tx_bufs := <[Z.to_nat (tx_nb p) := Some buf]> (tx_bufs p);
                          tx_nb := u16 (tx_nb p + 1) |}) ;;;
  s <- get ;;
  if tx_nb (pb s) =? tx_size (pb s) then copy_flush_once else ret tt.
End operations.

(** * The two defects of this version *)

Section defects.
Context `{NicLaws Z}.
Abbreviation st := (pb_state Z).

(** The buffer can be full after a refused flush, and the next [send] then
    writes past the end of [tx_bufs]. *)
Theorem copy_send_out_of_bounds (s : st) buf :
  tx_nb (pb s) = Z.of_nat (length (tx_bufs (pb s))) ->
  copy_send buf s = Err OutOfBounds.
Proof.
  intros Hfull. unfold copy_send, bind, upd, modify, get, assert_in_bounds. cbn.
  rewrite Hfull, (proj2 (Z.ltb_ge _ _)), andb_false_r by lia. done.
Qed.

Lemma memmove_one_byte p0 p1 rest :
  0 <= p0 < 2 ^ 64 -> 0 <= p1 < 2 ^ 64 ->
  take 8 (memmove (pointer_bytes (Some p0 :: Some p1 :: rest)) 8 1)
    = p1 mod 256 :: le_bytes 7 (p0 / 256).
Proof. done. Qed.

(** When the device takes one of two waiting packets, the pointer left
    first in the buffer is the old first pointer with its lowest byte replaced,
    not the pointer of the packet that is still to be sent. *)
Theorem copy_flush_once_corrupts (s : st) p0 p1 rest s' :
  0 < p0 < 2 ^ 64 -> 0 < p1 < 2 ^ 64 -> p0 / 256 <> p1 / 256 -> p0 / 256 <> 0 ->
  tx_nb (pb s) = 2 -> tx_bufs (pb s) = Some p0 :: Some p1 :: rest ->
  (rte_eth_tx_burst (portid (pb s)) (queueid (pb s)) [p0; p1] (dev s)).1 = 1 ->
  copy_flush_once s = Ok (tt, s') ->
  tx_nb (pb s') = 1
  /\ tx_bufs (pb s') !! 0%nat = Some (Some (256 * (p0 / 256) + p1 mod 256))
  /\ tx_bufs (pb s') !! 0%nat <> Some (Some p1).
Proof.
  intros Hp0 Hp1 Hne Hnz Hnb Hbufs Hk Hrun.
  unfold copy_flush_once, bind, get, ret, tx_burst, the, upd, modify in Hrun.
  rewrite Hnb in Hrun. cbn -[move_pointers packets] in Hrun.
  assert (packets 0 2 (tx_bufs (pb s)) = Some [p0; p1]) as Ep.
  { unfold packets. rewrite Hbufs, decide_True by (simpl; lia). done. }
  rewrite Ep in Hrun. cbn -[move_pointers] in Hrun.
  destruct (rte_eth_tx_burst _ _ _ _) as [k d] eqn:Eb. simpl in Hk. subst k.
  cbn -[move_pointers] in Hrun. injection Hrun as <-. cbn -[move_pointers].
  rewrite Hnb. split; [done|].
  assert (move_pointers (tx_bufs (pb s)) 1 1 !! 0%nat
          = Some (Some (256 * (p0 / 256) + p1 mod 256))) as Hm.
  { unfold move_pointers. rewrite Hbufs. cbn [length bytes_pointers].
    change (8 * 1)%nat with 8%nat. rewrite (memmove_one_byte p0 p1 rest) by lia. cbn [le_num].
    rewrite le_num_le_bytes, (Z.mod_small (p0 / 256)) by (split; [apply Z.div_pos|apply Z.div_lt_upper_bound]; lia).
    pose proof (Z.mod_pos_bound p1 256 ltac:(lia)).
    rewrite (proj2 (Z.eqb_neq _ _)) by lia. simpl. do 2 f_equal. lia. }
  split; [exact Hm|]. change (Z.to_nat (2 - 1)) with 1%nat. change (Z.to_nat 1) with 1%nat.
  rewrite Hm. intros [= E]. apply Hne. 
  rewrite <- E, Z.mul_comm, Z.div_add_l by lia.
  rewrite Zmod_div. lia.
Qed.
End defects.
