(* ===== verification/Worker.v ===== *)
(** A worker thread ([worker.cpp]): it cuts the sub-operations it is handed into
    packets, keeps a sliding window of packets in flight, stores the results and
    answers the sub-operations in order.

    Every thread-local variable and every object the thread reaches through its
    context is a field of [worker].  A slot of the window owns its packet buffer
    ([state->pkt] is never reassigned), so the buffer is part of the slot and a
    transmission names the slot. *)

From S2P Require Import Prelude.
From S2P Require Import Types.
From S2P Require Import Endian.
From S2P Require Import Config.
From S2P Require Import Congestion.
From S2P Require Import QueuePair.

(** * The interface to the network

    What [transmit] and [rx_process] use of the packet buffer or, with
    [NETCCL_PACKET_LOOPBACK], of the local queue: the slot and the current
    contents of its buffer are offered for transmission. *)
Class Transport := {
  transport : Type;
  tp_send : Z -> mbuf -> M transport unit;
  tp_receive : M transport (option mbuf);
  tp_drop : mbuf -> M transport unit;
  tp_rx_sw : transport -> Z;  (** [rx_sw_buffered_pkt_cnt] *)
  tp_rx_hw : transport -> Z;  (** [rx_hw_buffered_pkt_cnt] *)
  tp_reset_counts : transport -> transport;  (** [total_tx_nb = total_rx_nb = 0] *)
}.

(** A packet buffer holds a whole payload of bytes. *)
Definition mbuf_ok (m : mbuf) : Prop :=
  Z.of_nat (length (payload (pkt m))) = PAYLOAD_SIZE /\ Forall is_byte (payload (pkt m)).

(** What the worker relies on: a packet buffer offered for transmission is logged, a
    received packet is a packet buffer, and while the worker receives, only
    finitely many packets arrive: [tp_pending], and at most one more for each
    packet it sends meanwhile. *)
Class TransportLaws `{Transport} := {
  tp_inv : transport -> Prop;
  tp_sent : transport -> list (Z * mbuf);
  tp_pending : transport -> nat;
  tp_send_ok : forall i m t, tp_inv t -> mbuf_ok m -> runs (tp_send i m) t (fun _ t' =>
    tp_inv t' /\ tp_sent t' = tp_sent t ++ [(i, m)]
    /\ (tp_pending t' <= S (tp_pending t))%nat);
  tp_receive_ok : forall t, tp_inv t -> runs tp_receive t (fun r t' =>
    tp_inv t' /\ tp_sent t' = tp_sent t
    /\ match r with Some m => mbuf_ok m /\ (tp_pending t' < tp_pending t)%nat | None => True end);
  tp_drop_ok : forall m t, tp_inv t -> runs (tp_drop m) t (fun _ t' =>
    tp_inv t' /\ tp_sent t' = tp_sent t /\ tp_pending t' = tp_pending t);
  tp_reset_ok : forall t, tp_inv t ->
    tp_inv (tp_reset_counts t) /\ tp_sent (tp_reset_counts t) = tp_sent t;
}.

(** * The state *)

(** [struct pkt_state_t] *)
Record pkt_state_t := {
  sp_pkt : mbuf;
  acked : bool;
  sp_sub_op : option sub_op_t;
  sp_data : ptr;
  sp_size : Z;
  sp_psn : Z;
  is_last : bool;
}.

(** [struct window_t] (its [cc] is in the congestion control state) *)
Record window_t := {
  slots : list pkt_state_t;   (** [state] *)
  to_ack : Z;
  to_send : Z;
  left_psn : Z;
  right_psn : Z;
  last_ack_time_stamp : Z;
}.

(** The static variables of [gen_pkt]. *)
Record gen_t := {
  pkt_sent : Z;
  start_psn : Z;
  pkt_cnt : Z;
  cur_sub_op : option sub_op_t;
}.

(** Counters that are only logged. *)
Record stats_t := {
  shift_send_cnt : Z;
  shift_ack_cnt : Z;
  fast_retrans_trigger_cnt : Z;
  fast_retrans_pkt_cnt : Z;
  full_retrans_trigger_cnt : Z;
  full_retrans_pkt_cnt : Z;
  in_range_reduntant_ack_cnt : Z;
  out_range_reduntant_ack_cnt : Z;
  total_shift_send_cnt : Z;
  total_shift_ack_cnt : Z;
}.

Record worker `{Spsc, Transport} := {
  window : window_t;
  qp : queue_pair_t sub_op_t QUEUE_SIZE;
  gen : gen_t;
  group_psn : gmap Z Z;               (** [group_ctx[...].psn] *)
  current_switch_window_limit : Z;
  current_group_id : Z;
  traffic_todo : bool;
  ccs : cc_state;
  global_ts : Z;
  ack_cnt : Z;
  prev_ack_cnt : Z;
  stats : stats_t;
  tp : transport;
  mem : gmap Z (list Z);              (** the buffers of the operations *)
}.

Section worker.
Context `{Config, Spsc, Transport}.

Definition fuel : nat := Z.to_nat MAX_WIN_LEN.

(** ** Access to the parts of the state *)

Definition on_window (f : window_t -> window_t) : M worker unit :=
  modify (fun s => {| s with window := f (window s) |}).
Definition on_stats (f : stats_t -> stats_t) : M worker unit :=
  modify (fun s => {| s with stats := f (stats s) |}).
Definition on_ccs (f : cc_state -> cc_state) : M worker unit :=
  modify (fun s => {| s with ccs := f (ccs s) |}).
Definition on_qp {A} (m : M (queue_pair_t sub_op_t QUEUE_SIZE) A) : M worker A :=
  zoom qp (fun q s => {| s with qp := q |}) m.
Definition on_tp {A} (m : M transport A) : M worker A :=
  zoom tp (fun t s => {| s with tp := t |}) m.

(** [ctx->window->state[i]] *)
Definition slot (i : Z) : M worker pkt_state_t :=
  s <- get ;; the OutOfBounds (znth (slots (window s)) i).
Definition set_slot (i : Z) (p : pkt_state_t) : M worker unit :=
  on_window (fun w => {| w with slots := <[Z.to_nat i := p]> (slots w) |}).

(** [n] bytes of a buffer of an operation *)
Definition buffer_read (m : gmap Z (list Z)) (p : ptr) (n : Z) : option (list Z) :=
  match m !! p_block p with
  | Some l =>
    if (0 <=? p_off p) && (0 <=? n) && (p_off p + n <=? Z.of_nat (length l))
    then Some (take (Z.to_nat n) (drop (Z.to_nat (p_off p)) l)) else None
  | None => None
  end.
Definition buffer_write (m : gmap Z (list Z)) (p : ptr) (d : list Z) : gmap Z (list Z) :=
  match m !! p_block p with
  | Some l => <[p_block p := take (Z.to_nat (p_off p)) l ++ d
                             ++ drop (Z.to_nat (p_off p) + length d) l]> m
  | None => m
  end.
Definition mem_read (p : ptr) (n : Z) : M worker (list Z) :=
  s <- get ;; the OutOfBounds (buffer_read (mem s) p n).
Definition mem_write (p : ptr) (d : list Z) : M worker unit :=
  modify (fun s => {| s with mem := buffer_write (mem s) p d |}).

(** ** Packet fields *)

Definition get_psn (m : mbuf) : Z := betoh 4 (h_psn (inc (pkt m))).
Definition get_group_id (m : mbuf) : Z := betoh 1 (h_group_id (inc (pkt m))).

(** ** Positions in the window *)

Definition mark_acked (position : Z) : M worker unit :=
  modify (fun s => {| s with ack_cnt := u64 (ack_cnt s + 1) |}) ;;;
  st <- slot position ;;
  set_slot position {| st with acked := true |}.

Definition has_acked (position : Z) : M worker bool :=
  st <- slot position ;; ret (acked st).

Definition window_tx_empty (s : worker) : bool :=
  to_ack (window s) =? to_send (window s).

Definition window_len (s : worker) : Z :=
  let w := window s in
  if to_ack w <=? to_send w then to_send w - to_ack w
  else MAX_WIN_LEN + to_send w - to_ack w.

Definition get_prev_position (pos : Z) : Z := Z.land (pos - 1) (MAX_WIN_LEN - 1).
Definition get_next_position (pos : Z) : Z := Z.land (pos + 1) (MAX_WIN_LEN - 1).

Definition get_position (m : mbuf) (s : worker) : Z :=
  if window_tx_empty s || negb (current_group_id s =? get_group_id m) then INVALID_POSITION
  else
    let psn := get_psn m in
    let w := window s in
    if psn ⊖ left_psn w <=? right_psn w ⊖ left_psn w then
      let position := (psn ⊖ left_psn w) + to_ack w in
      if MAX_WIN_LEN <=? position then position - MAX_WIN_LEN else position
    else INVALID_POSITION.

(** [for(i = begin; i != end; i = get_next_position(i)) body] *)
Fixpoint ring_loop (n : nat) (i e : Z) (body : Z -> M worker unit) : M worker unit :=
  if i =? e then ret tt
  else match n with
       | O => fail NoFuel
       | S n => body i ;;; ring_loop n (get_next_position i) e body
       end.

(** ** Transmission *)

Definition transmit (position : Z) : M worker unit :=
  st <- slot position ;;
  on_tp (tp_send position (sp_pkt st)).

Definition transmit_range (begin end_ : Z) : M worker unit :=
  ring_loop fuel begin end_ transmit.

(** the result is the number of packets transmitted *)
Fixpoint transmit_unacked_loop (n : nat) (i e cnt : Z) : M worker Z :=
  if i =? e then ret cnt
  else match n with
       | O => fail NoFuel
       | S n =>
         st <- slot i ;;
         if acked st then transmit_unacked_loop n (get_next_position i) e cnt
         else transmit i ;;;
              transmit_unacked_loop n (get_next_position i) e (u64 (cnt + 1))
       end.

Definition transmit_unacked (begin end_ : Z) : M worker Z :=
  transmit_unacked_loop fuel begin end_ 0.

(** ** Completion *)

Definition complete_pkt (st : pkt_state_t) : M worker unit :=
  if is_last st then
    so <- the NullDeref (sp_sub_op st) ;;
    r <- on_qp (push_resp so) ;;
    assert r
  else ret tt.

(** the loop of [shift_ack]; the result is its local [to_ack] *)
Fixpoint shift_ack_loop (n : nat) (ta ts : Z) : M worker Z :=
  if ta =? ts then ret ta
  else
    a <- has_acked ta ;;
    if a then
      match n with
      | O => fail NoFuel
      | S n =>
        st <- slot ta ;;
        complete_pkt st ;;;
        on_stats (fun t => {| t with shift_ack_cnt := u64 (shift_ack_cnt t + 1) |}) ;;;
        shift_ack_loop n (get_next_position ta) ts
      end
    else ret ta.

Definition shift_ack : M worker unit :=
  s <- get ;;
  ta <- shift_ack_loop fuel (to_ack (window s)) (to_send (window s)) ;;
  on_window (fun w => {| w with to_ack := ta |}) ;;;
  s <- get ;;
  left <- (if window_tx_empty s then ret 0
           else st <- slot ta ;; ret (get_psn (sp_pkt st))) ;;
  on_window (fun w => {| w with left_psn := left |}).

(** ** Fast retransmission *)

(** the loop of [collect_retrans]; the results are [prev_position] and [pkt_cnt] *)
Fixpoint collect_loop (n : nat) (prev cnt : Z) : M worker (Z * Z) :=
  s <- get ;;
  if prev =? to_ack (window s) then ret (prev, cnt)
  else
    a <- has_acked (get_prev_position prev) ;;
    if a then ret (prev, cnt)
    else match n with
         | O => fail NoFuel
         | S n => collect_loop n (get_prev_position prev) (u64 (cnt + 1))
         end.

Definition collect_retrans (position : Z) : M worker unit :=
  r <- collect_loop fuel position 0 ;;
  on_stats (fun t => {| t with fast_retrans_pkt_cnt := u64 (fast_retrans_pkt_cnt t + r.2);
                               fast_retrans_trigger_cnt := u64 (fast_retrans_trigger_cnt t + 1) |}) ;;;
  on_ccs (fun c => {| c with pkt_loss_flag := true |}) ;;;
  transmit_range r.1 position.

(** ** Receiving *)

(** Which length check fails, if any; the code only logs it. *)
Definition rx_error_code (o : op_t) (m : mbuf) : Z :=
  if need_rx o then if pkt_len m =? sizeof_netccl_pkt then 0 else 1
  else if pkt_len m =? Z.max 60 (sizeof_netccl_pkt - sizeof_payload) then 0 else 2.

(** the payload is copied to the buffer of the operation *)
Definition store_payload (st : pkt_state_t) (o : op_t) (m : mbuf) : M worker unit :=
  if need_rx o then
    d <- mem_read (sp_data st) (sp_size st) ;;
    mem_write (sp_data st)
      (if is_reduction o
       then memcpy_be32toh_select d (payload (pkt m)) (sp_size st)
       else take (Z.to_nat (sp_size st)) (payload (pkt m)))
  else ret tt.

Definition rx_process_one (m : mbuf) : M worker unit :=
  on_ccs (fun c => {| c with tos_minitor :=
    Z.lor (tos_minitor c) (type_of_service (ip (pkt m))) |}) ;;;
  s <- get ;;
  let position := get_position m s in
  if position =? INVALID_POSITION then
    on_stats (fun t => {| t with out_range_reduntant_ack_cnt :=
      u64 (out_range_reduntant_ack_cnt t + 1) |})
  else
    a <- has_acked position ;;
    if a then
      on_stats (fun t => {| t with in_range_reduntant_ack_cnt :=
        u64 (in_range_reduntant_ack_cnt t + 1) |})
    else
      mark_acked position ;;;
      st <- slot position ;;
      so <- the NullDeref (sp_sub_op st) ;;
      store_payload st (op so) m ;;;
      s <- get ;;
      if position =? to_ack (window s) then ret tt
      else
        a <- has_acked (get_prev_position position) ;;
        if a then ret tt else collect_retrans position.

(** the receive loop, at most [n] packets *)
Fixpoint rx_loop (n : nat) : M worker unit :=
  r <- on_tp tp_receive ;;
  match r with
  | None => ret tt
  | Some m =>
    rx_process_one m ;;;
    on_tp (tp_drop m) ;;;
    s <- get ;;
    if (tp_rx_sw (tp s) =? 0) && (tp_rx_hw (tp s) <? MAX_PKT_BURST) then ret tt
    else match n with
         | O => fail NoFuel
         | S n => rx_loop n
         end
  end.

Definition rx_process (n : nat) : M worker unit := rx_loop n ;;; shift_ack.

(** ** Packet generation *)

Definition pkt_size_of (o : op_t) : Z :=
  if need_tx o then sizeof_netccl_pkt else sizeof_netccl_pkt - sizeof_payload.

(** the header fields of [header->inc] *)
Definition fill_inc (so : sub_op_t) (psn : Z) : option netccl_inc_hdr :=
  if so_agg_len so =? 0 then None
  else Some {|
    h_coll_type := htobe 1 (op_code (op so));
    h_group_id := htobe 1 (group_id (group (op so)));
    h_rank := htobe 1 (g_rank (group (op so)));
    h_root := htobe 1 (root (op so));
    h_agg_addr := htobe 2 (u16 (so_agg_addr so + psn mod so_agg_len so));
    h_psn := htobe 4 psn;
  |}.

(** the payload: the data in network order, padded with zeros *)
Definition fill_payload (o : op_t) (old data : list Z) (size : Z) : list Z :=
  let p := if is_reduction o then memcpy_htobe32_select old data size
           else take (Z.to_nat size) data ++ drop (Z.to_nat size) old in
  if size <? PAYLOAD_SIZE
  then take (Z.to_nat size) p ++ replicate (Z.to_nat (PAYLOAD_SIZE - size)) 0
  else p.

Definition fill_pkt (st : pkt_state_t) : M worker pkt_state_t :=
  so <- the NullDeref (sp_sub_op st) ;;
  let o := op so in
  let m := sp_pkt st in
  hdr <- the DivByZero (fill_inc so (sp_psn st)) ;;
  let p := {| (pkt m) with
    ip := {| (ip (pkt m)) with
      total_length := htobe_store 2 (pkt_size_of o - sizeof_eth_hdr);
      dst_addr := htobe_store 4 (switch_ip (group o)) |};
    inc := hdr |} in
  p <- (if need_tx o then
          d <- mem_read (sp_data st) (sp_size st) ;;
          ret {| p with payload := fill_payload o (payload p) d (sp_size st) |}
        else ret p) ;;
  ret {| st with sp_pkt :=
    {| data_len := pkt_size_of o; pkt_len := pkt_size_of o; pkt := p |} |}.

Definition on_gen (f : gen_t -> gen_t) : M worker unit :=
  modify (fun s => {| s with gen := f (gen s) |}).
Definition set_todo (b : bool) : M worker unit :=
  modify (fun s => {| s with traffic_todo := b |}).

Definition group_psn_of (g : Z) (s : worker) : Z := default GROUP_PSN_INIT (group_psn s !! g).

(** the number of packets of a sub-operation *)
Definition packet_count (size : Z) : Z :=
  let n := u32 ((size + PAYLOAD_SIZE - 1) / PAYLOAD_SIZE) in
  if n =? 0 then 1 else n.

(** first part of [gen_pkt]: make sure a sub-operation is being processed *)
Definition next_sub_op : M worker bool :=
  s <- get ;;
  match cur_sub_op (gen s) with
  | Some _ => ret true
  | None =>
    r <- on_qp front_req ;;
    match r with
    | None => set_todo false ;;; ret false
    | Some so =>
      let g := group_id (group (op so)) in
      s <- get ;;
      if negb (current_group_id s =? g) && negb (window_tx_empty s) then
        set_todo false ;;; ret false
      else
        modify (fun s =>
          let psn := group_psn_of g s in
          let n := packet_count (so_size so) in
          {| s with current_group_id := g;
                    current_switch_window_limit := so_agg_len so `quot` 2;
                    traffic_todo := true;
                    gen := {| pkt_sent := 0; start_psn := psn; pkt_cnt := n;
                              cur_sub_op := Some so |};
                    group_psn := <[g := u32 (psn + n)]> (group_psn s) |}) ;;;
        ret true
    end
  end.

(** the fields [gen_pkt] sets in the slot *)
Definition cut_packet (g : gen_t) (so : sub_op_t) (st : pkt_state_t) : pkt_state_t :=
  let size_sent := u32 (pkt_sent g * PAYLOAD_SIZE) in
  {| st with
     acked := false;
     sp_sub_op := Some so;
     sp_data := ptr_add (so_data so) size_sent;
     sp_size := Z.min PAYLOAD_SIZE (so_size so ⊖ size_sent);
     sp_psn := u32 (start_psn g + pkt_sent g);
     is_last := u32 (pkt_sent g + 1) =? pkt_cnt g |}.

(** second part of [gen_pkt]: cut and fill the next packet *)
Definition produce_pkt (i : Z) : M worker unit :=
  s <- get ;;
  so <- the NullDeref (cur_sub_op (gen s)) ;;
  st <- slot i ;;
  st <- fill_pkt (cut_packet (gen s) so st) ;;
  set_slot i st ;;;
  on_gen (fun g => {| g with pkt_sent := u32 (pkt_sent g + 1) |}) ;;;
  if is_last st then
    on_qp pop_req ;;;
    on_gen (fun g => {| g with cur_sub_op := None |})
  else ret tt.

Definition gen_pkt (i : Z) : M worker bool :=
  b <- next_sub_op ;;
  if b then produce_pkt i ;;; ret true else ret false.

(** ** Sending *)

Definition expect_win_len (s : worker) : Z :=
  Z.min (MAX_WIN_LEN - 1)
    (Z.min (current_switch_window_limit s)
       (Z.min (f64_trunc (cwnd (cc (ccs s)))) (window_len s + MAX_PKT_BURST))).

(** the rest of the body of the loop of [shift_send] once a packet has been
    generated at [ts] *)
Definition after_gen (win_len ts : Z) : M worker unit :=
  (if win_len =? 0 then
     s <- get ;;
     st <- slot (to_ack (window s)) ;;
     on_window (fun w => {| w with left_psn := get_psn (sp_pkt st) |})
   else ret tt) ;;;
  transmit ts ;;;
  on_stats (fun t => {| t with shift_send_cnt := u64 (shift_send_cnt t + 1) |}).

(** the loop of [shift_send]; the results are its locals [win_len] and
    [to_send], the window still has the old [to_send] *)
Fixpoint shift_send_loop (n : nat) (expect win_len ts : Z) : M worker (Z * Z) :=
  if win_len <? expect then
    match n with
    | O => fail NoFuel
    | S n =>
      b <- gen_pkt ts ;;
      if b then
        after_gen win_len ts ;;;
        shift_send_loop n expect (win_len + 1) (get_next_position ts)
      else ret (win_len, ts)
    end
  else ret (win_len, ts).

(** the end of [shift_send], with the results of its loop *)
Definition close_window (win_len ts : Z) : M worker unit :=
  s <- get ;;
  (if f64_trunc (cwnd (cc (ccs s))) <=? win_len
   then on_ccs (fun c => {| c with cwnd_achieved := true |}) else ret tt) ;;;
  on_window (fun w => {| w with to_send := ts |}) ;;;
  s <- get ;;
  right <- (if window_tx_empty s then ret 0
            else st <- slot (get_prev_position (to_send (window s))) ;;
                 ret (get_psn (sp_pkt st))) ;;
  on_window (fun w => {| w with right_psn := right |}).

Definition shift_send : M worker unit :=
  s <- get ;;
  r <- shift_send_loop fuel (expect_win_len s) (window_len s) (to_send (window s)) ;;
  close_window r.1 r.2.

(** ** Timeout *)

Definition full_retrans : M worker unit :=
  s <- get ;;
  if window_tx_empty s then ret tt
  else
    on_window (fun w => {| w with last_ack_time_stamp := global_ts s |}) ;;;
    on_stats (fun t => {| t with full_retrans_trigger_cnt := u64 (full_retrans_trigger_cnt t + 1) |}) ;;;
    n <- transmit_unacked (to_ack (window s)) (to_send (window s)) ;;
    on_stats (fun t => {| t with full_retrans_pkt_cnt := u64 (full_retrans_pkt_cnt t + n) |}) ;;;
    on_ccs (fun c => {| c with cc := cc_reinit (global_ts s) (cc c) |}).

Definition tx_process : M worker unit :=
  s <- get ;;
  (if ack_cnt s =? prev_ack_cnt s then ret tt
   else modify (fun s => {| s with prev_ack_cnt := ack_cnt s |}) ;;;
        on_window (fun w => {| w with last_ack_time_stamp := global_ts s |})) ;;;
  s <- get ;;
  (if TIMEOUT_TIME <=? global_ts s - last_ack_time_stamp (window s)
   then full_retrans else ret tt) ;;;
  shift_send ;;;
  s <- get ;;
  if window_tx_empty s
  then on_window (fun w => {| w with last_ack_time_stamp := global_ts s |})
  else ret tt.

(** ** One round of [worker_loop], [ts] being the time since its start *)
Definition worker_round (n : nat) (ts : Z) : M worker unit :=
  modify (fun s => {| s with global_ts := ts |}) ;;;
  rx_process n ;;;
  tx_process ;;;
  s <- get ;;
  zoom ccs (fun c s => {| s with ccs := c |})
    (congestion_control (global_ts s) (ack_cnt s) (traffic_todo s) (window_len s)).

(** What the report of [worker_loop] does besides its output: the counters start
    again. *)
Definition LOG_INTERVAL : Z := 100000.

Definition restart_counts (s : worker) : worker :=
  {| s with
     stats := {| shift_send_cnt := 0; shift_ack_cnt := 0; fast_retrans_trigger_cnt := 0;
       fast_retrans_pkt_cnt := 0; full_retrans_trigger_cnt := 0; full_retrans_pkt_cnt := 0;
       in_range_reduntant_ack_cnt := 0; out_range_reduntant_ack_cnt := 0;
       total_shift_send_cnt := u64 (total_shift_send_cnt (stats s) + shift_send_cnt (stats s));
       total_shift_ack_cnt := u64 (total_shift_ack_cnt (stats s) + shift_ack_cnt (stats s)) |};
     ccs := {| (ccs s) with cwnd_inc_cnt := 0; cwnd_dec_cnt := 0;
                            win_cnt := replicate (Z.to_nat MAX_WIN_LEN) 0 |};
     tp := tp_reset_counts (tp s) |}.

(** the body of the loop of [worker_loop]; [log_ts] is its local *)
Definition worker_loop_body (n : nat) (ts log_ts : Z) : M worker Z :=
  worker_round n ts ;;;
  if LOG_INTERVAL <? ts - log_ts then modify restart_counts ;;; ret ts else ret log_ts.

(** one round of [test_loop] ([NETCCL_WORKER_LOOPBACK]) *)
Definition worker_loopback_round : M worker unit :=
  r <- on_qp front_req ;;
  match r with
  | None => ret tt
  | Some so => on_qp pop_req ;;; on_qp (push_resp so) ;;; ret tt
  end.
End worker.
