(* ===== verification/Window.v ===== *)
(** The window of a worker as a list.

    The window is a ring of [MAX_WIN_LEN] slots; [ring w l] says that the slots
    from [to_ack] to [to_send] are, in order, the list [l].  This file shows
    what the operations on positions and the transmission loops do in terms of
    that list. *)

From S2P Require Import Prelude.
From S2P Require Import Types.
From S2P Require Import Endian.
From S2P Require Import Config.
From S2P Require Import Congestion.
From S2P Require Import QueuePair.
From S2P Require Import Worker.

(** * Positions *)

Section positions.
Context `{ConfigOk}.

(** The slot [k] positions after [a]. *)
Definition pos_at (a : Z) (k : nat) : Z := (a + Z.of_nat k) mod MAX_WIN_LEN.

Lemma land_max_win_len x : Z.land x (MAX_WIN_LEN - 1) = x mod MAX_WIN_LEN.
Proof.
  rewrite max_win_len_pow2. pose proof win_log_range.
  rewrite <- Z.land_ones by lia. by rewrite Z.ones_equiv, <- Z.sub_1_r.
Qed.

Lemma pos_at_range a k : 0 <= pos_at a k < MAX_WIN_LEN.
Proof. apply Z.mod_pos_bound. pose proof max_win_len_bounds. lia. Qed.

Lemma pos_at_0 a : 0 <= a < MAX_WIN_LEN -> pos_at a 0 = a.
Proof. intros Ha. unfold pos_at. rewrite Z.add_0_r. by apply Z.mod_small. Qed.

Lemma next_pos_at a k : get_next_position (pos_at a k) = pos_at a (S k).
Proof.
  unfold get_next_position, pos_at. rewrite land_max_win_len, Zplus_mod_idemp_l.
  f_equal. lia.
Qed.

Lemma prev_pos_at a k : get_prev_position (pos_at a (S k)) = pos_at a k.
Proof.
  unfold get_prev_position, pos_at. rewrite land_max_win_len, Zminus_mod_idemp_l.
  f_equal. lia.
Qed.

Lemma pos_at_add a i j : pos_at (pos_at a i) j = pos_at a (i + j).
Proof. unfold pos_at. rewrite Zplus_mod_idemp_l. f_equal. lia. Qed.

Lemma pos_at_cases a k :
  0 <= a < MAX_WIN_LEN -> Z.of_nat k < MAX_WIN_LEN ->
  pos_at a k = if a + Z.of_nat k <? MAX_WIN_LEN then a + Z.of_nat k
               else a + Z.of_nat k - MAX_WIN_LEN.
Proof.
  intros Ha Hk. unfold pos_at. destruct (Z.ltb_spec (a + Z.of_nat k) MAX_WIN_LEN).
  - apply Z.mod_small. lia.
  - symmetry. apply (Z.mod_unique _ _ 1); lia.
Qed.

Lemma pos_at_inj a i j :
  0 <= a < MAX_WIN_LEN -> Z.of_nat i < MAX_WIN_LEN -> Z.of_nat j < MAX_WIN_LEN ->
  pos_at a i = pos_at a j -> i = j.
Proof.
  intros Ha Hi Hj. rewrite !pos_at_cases by done.
  destruct (Z.ltb_spec (a + Z.of_nat i) MAX_WIN_LEN), (Z.ltb_spec (a + Z.of_nat j) MAX_WIN_LEN); lia.
Qed.

Lemma pos_at_eqb a i j :
  0 <= a < MAX_WIN_LEN -> Z.of_nat i < MAX_WIN_LEN -> Z.of_nat j < MAX_WIN_LEN ->
  (pos_at a i =? pos_at a j) = (i =? j)%nat.
Proof.
  intros Ha Hi Hj. destruct (Nat.eqb_spec i j) as [->|Hne]; [apply Z.eqb_refl|].
  apply Z.eqb_neq. by intros E%pos_at_inj.
Qed.

Lemma pos_at_valid a k : pos_at a k <> INVALID_POSITION.
Proof. pose proof (pos_at_range a k). pose proof invalid_position. intros E. lia. Qed.
End positions.

(** * The ring *)

Section ring.
Context `{ConfigOk}.

Record ring (w : window_t) (l : list pkt_state_t) : Prop := {
  ring_pkts : Forall (fun st => mbuf_ok (sp_pkt st)) (slots w);
  ring_slots_length : Z.of_nat (length (slots w)) = MAX_WIN_LEN;
  ring_to_ack : 0 <= to_ack w < MAX_WIN_LEN;
  ring_to_send : to_send w = pos_at (to_ack w) (length l);
  ring_length : Z.of_nat (length l) < MAX_WIN_LEN;
  ring_lookup : forall k st, l !! k = Some st ->
    znth (slots w) (pos_at (to_ack w) k) = Some st;
}.

Lemma ring_index w l k : ring w l -> (k < length l)%nat -> Z.of_nat k < MAX_WIN_LEN.
Proof. intros Hr Hk. pose proof (ring_length _ _ Hr). lia. Qed.

Lemma ring_mbuf w l i st : ring w l -> znth (slots w) i = Some st -> mbuf_ok (sp_pkt st).
Proof.
  intros Hr Hi. pose proof (znth_Some _ _ _ Hi). rewrite znth_lookup in Hi by lia.
  exact (Forall_lookup_1 _ _ _ _ (ring_pkts _ _ Hr) Hi).
Qed.

(** The window only depends on these fields. *)
Lemma ring_ext w w' l :
  ring w l -> slots w' = slots w -> to_ack w' = to_ack w -> to_send w' = to_send w ->
  ring w' l.
Proof. intros Hr E1 E2 E3. destruct Hr. constructor; rewrite ?E1, ?E2, ?E3; done. Qed.

Lemma ring_set w l k st :
  ring w l -> (k < length l)%nat -> mbuf_ok (sp_pkt st) ->
  ring {| w with slots := <[Z.to_nat (pos_at (to_ack w) k) := st]> (slots w) |}
       (<[k := st]> l).
Proof.
  intros Hr Hk Hm. pose proof (ring_index _ _ _ Hr Hk) as Hk'.
  pose proof (pos_at_range (to_ack w) k) as Hp. destruct Hr.
  constructor; cbn; rewrite ?length_insert; try done; [by apply Forall_insert|].
  intros j st' Hj. destruct (decide (j = k)) as [->|Hne].
  - rewrite list_lookup_insert_eq in Hj by done. simplify_eq.
    apply znth_insert_eq. lia.
  - rewrite list_lookup_insert_ne in Hj by done.
    rewrite znth_insert_ne; [by apply ring_lookup0|lia|].
    apply lookup_lt_Some in Hj. intros E. apply Hne. symmetry. eapply pos_at_inj; [..|exact E]; lia.
Qed.

Lemma ring_push w l st :
  ring w l -> Z.of_nat (length l) + 1 < MAX_WIN_LEN -> mbuf_ok (sp_pkt st) ->
  ring {| w with slots := <[Z.to_nat (to_send w) := st]> (slots w);
                 to_send := get_next_position (to_send w) |} (l ++ [st]).
Proof.
  intros Hr Hlen Hm. destruct Hr.
  pose proof (pos_at_range (to_ack w) (length l)) as Hp.
  constructor; cbn; rewrite ?length_insert, ?length_app; cbn [length]; try done; try lia.
  - by apply Forall_insert.
  - rewrite ring_to_send0, next_pos_at. f_equal. lia.
  - intros k st' Hk. rewrite ring_to_send0. destruct (decide (k = length l)) as [->|Hne].
    + rewrite list_lookup_middle in Hk by done. simplify_eq. apply znth_insert_eq. lia.
    + pose proof (lookup_lt_Some _ _ _ Hk) as Hlt. rewrite length_app in Hlt. simpl in Hlt.
      rewrite lookup_app_l in Hk by lia.
      rewrite znth_insert_ne; [by apply ring_lookup0|lia|].
      intros E. apply Hne. symmetry. eapply pos_at_inj; [..|exact E]; lia.
Qed.

Lemma ring_drop w l m :
  ring w l -> (m <= length l)%nat ->
  ring {| w with to_ack := pos_at (to_ack w) m |} (drop m l).
Proof.
  intros Hr Hm. destruct Hr. constructor; cbn; rewrite ?length_drop; try done; try lia.
  - apply pos_at_range.
  - rewrite pos_at_add. by replace (m + (length l - m))%nat with (length l) by lia.
  - intros k st Hk. rewrite pos_at_add. rewrite lookup_drop in Hk. by apply ring_lookup0.
Qed.
End ring.

(** * The tests of the worker on its window *)

Section tests.
Context `{ConfigOk, Spsc, TransportLaws}.

Lemma ring_eq_send w l k :
  ring w l -> (k <= length l)%nat ->
  (pos_at (to_ack w) k =? to_send w) = (k =? length l)%nat.
Proof.
  intros Hr Hk. pose proof (ring_length _ _ Hr). rewrite (ring_to_send _ _ Hr).
  apply pos_at_eqb; [apply Hr|lia..].
Qed.

Lemma ring_eq_ack w l k :
  ring w l -> (k <= length l)%nat -> (pos_at (to_ack w) k =? to_ack w) = (k =? 0)%nat.
Proof.
  intros Hr Hk. pose proof (ring_length _ _ Hr).
  rewrite <- (pos_at_eqb (to_ack w) k 0) by (apply Hr || lia).
  by rewrite (pos_at_0 (to_ack w)) by apply Hr.
Qed.

Lemma window_tx_empty_ring s l :
  ring (window s) l -> window_tx_empty s = match l with [] => true | _ => false end.
Proof.
  intros Hr. unfold window_tx_empty.
  rewrite <- (pos_at_0 (to_ack (window s))) by apply Hr.
  rewrite (ring_eq_send _ _ 0 Hr) by lia. by destruct l.
Qed.

Lemma window_len_ring s l : ring (window s) l -> window_len s = Z.of_nat (length l).
Proof.
  intros Hr. destruct Hr. unfold window_len. cbv zeta. rewrite ring_to_send0.
  rewrite pos_at_cases by done. destruct (Z.ltb_spec (to_ack (window s) + Z.of_nat (length l)) MAX_WIN_LEN).
  - rewrite (proj2 (Z.leb_le _ _)) by lia. lia.
  - rewrite (proj2 (Z.leb_nle _ _)) by lia. lia.
Qed.

Lemma runs_slot s i st Q : znth (slots (window s)) i = Some st -> Q st s -> runs (slot i) s Q.
Proof. intros Hi HQ. unfold slot. do 2 run_step. by eapply runs_the. Qed.

Lemma runs_has_acked s i st Q :
  znth (slots (window s)) i = Some st -> Q (acked st) s -> runs (has_acked i) s Q.
Proof.
  intros Hi HQ. unfold has_acked. run_step. eapply runs_slot; [done|]. by run_step.
Qed.

(** ** Transmission *)

(** Only the transport has changed: it has been offered [log]. *)
Definition sends (s s' : worker) (log : list (Z * mbuf)) : Prop :=
  s' = {| s with tp := tp s' |} /\ tp_inv (tp s')
  /\ tp_sent (tp s') = tp_sent (tp s) ++ log
  /\ (tp_pending (tp s') <= tp_pending (tp s) + length log)%nat.

Lemma sends_nil s : tp_inv (tp s) -> sends s s [].
Proof. intros Ht. split; [by destruct s|]. rewrite app_nil_r. simpl. split_and!; done || lia. Qed.

Lemma sends_window s s' log : sends s s' log -> window s' = window s.
Proof. intros [E _]. exact (f_equal window E). Qed.

Lemma sends_trans s1 s2 s3 l1 l2 : sends s1 s2 l1 -> sends s2 s3 l2 -> sends s1 s3 (l1 ++ l2).
Proof.
  intros (E1 & _ & L1 & P1) (E2 & Ht2 & L2 & P2). split; [|split; [done|]].
  - rewrite E2, E1. done.
  - rewrite L2, L1, app_assoc, length_app. split; [done|lia].
Qed.

(** [l] with the positions of its slots, the first being [i] after [a]. *)
Definition placed (a : Z) (i : nat) (l : list pkt_state_t) : list (Z * pkt_state_t) :=
  imap (fun k st => (pos_at a (i + k), st)) l.

Definition to_wire (p : Z * pkt_state_t) : Z * mbuf := (p.1, sp_pkt p.2).

Lemma placed_cons a i st l : placed a i (st :: l) = (pos_at a i, st) :: placed a (S i) l.
Proof.
  unfold placed. rewrite imap_cons, Nat.add_0_r. f_equal. apply imap_ext.
  intros k x _. unfold compose. simpl. do 2 f_equal. lia.
Qed.

Lemma length_placed a i l : length (placed a i l) = length l.
Proof. apply length_imap. Qed.

Lemma transmit_spec s i st :
  tp_inv (tp s) -> znth (slots (window s)) i = Some st -> mbuf_ok (sp_pkt st) ->
  runs (transmit i) s (fun _ s' => sends s s' [(i, sp_pkt st)]).
Proof.
  intros Ht Hi Hm. unfold transmit. run_step. eapply runs_slot; [done|].
  unfold on_tp. run_step. eapply runs_mono; [by apply tp_send_ok|].
  intros _ t' (Ht' & Hs & Hp). split; [done|]. cbn. rewrite Hs. split_and!; [done..|lia].
Qed.

(** The loop over the slots [i <= k < j] of the window. *)
Lemma transmit_loop_spec s l i n m :
  ring (window s) l -> tp_inv (tp s) -> (i + m <= length l)%nat -> (m <= n)%nat ->
  runs (ring_loop n (pos_at (to_ack (window s)) i) (pos_at (to_ack (window s)) (i + m)) transmit) s
    (fun _ s' => sends s s' (to_wire <$> placed (to_ack (window s)) i (take m (drop i l)))).
Proof.
  revert s i n. induction m as [|m IH]; intros s i n Hr Ht Hi Hn.
  { rewrite Nat.add_0_r. unfold runs. destruct n; cbn [ring_loop]; rewrite Z.eqb_refl;
      (exists tt, s; split; [done|by apply sends_nil]). }
  destruct n as [|n]; [lia|]. unfold runs. cbn [ring_loop]. pose proof (ring_length _ _ Hr).
  rewrite pos_at_eqb, (proj2 (Nat.eqb_neq _ _)) by (apply Hr || lia).
  destruct (lookup_lt_is_Some_2 l i) as [st Hst]; [lia|].
  pose proof (ring_lookup _ _ Hr _ _ Hst) as Hp.
  apply runs_bind. eapply runs_mono; [exact (transmit_spec s _ st Ht Hp (ring_mbuf _ _ _ _ Hr Hp))|].
  intros [] s1 Hs1. cbn beta in Hs1. pose proof Hs1 as (E & Ht1 & _). rewrite next_pos_at.
  pose proof (sends_window _ _ _ Hs1) as Ew.
  rewrite <- Ew. replace (i + S m)%nat with (S i + m)%nat by lia.
  eapply runs_mono; [apply IH; [by rewrite Ew|done|lia|lia]|].
  intros [] s2 Hs2. cbn beta in Hs2. rewrite (drop_S _ _ _ Hst). cbn [take].
  rewrite placed_cons. rewrite Ew in Hs2 |- *.
  apply (sends_trans _ _ _ [(pos_at (to_ack (window s)) i, sp_pkt st)] _ Hs1 Hs2).
Qed.

Lemma fuel_enough l : forall w, ring w l -> (length l <= fuel)%nat.
Proof. intros w Hr. pose proof (ring_length _ _ Hr). unfold fuel. lia. Qed.

Lemma transmit_range_spec s l i m :
  ring (window s) l -> tp_inv (tp s) -> (i + m <= length l)%nat ->
  runs (transmit_range (pos_at (to_ack (window s)) i) (pos_at (to_ack (window s)) (i + m))) s
    (fun _ s' => sends s s' (to_wire <$> placed (to_ack (window s)) i (take m (drop i l)))).
Proof.
  intros Hr Ht Hi. apply transmit_loop_spec; try done.
  pose proof (fuel_enough _ _ Hr). lia.
Qed.

Definition unacked (p : Z * pkt_state_t) : Prop := acked p.2 = false.
#[local] Instance unacked_dec p : Decision (unacked p).
Proof. unfold unacked. apply _. Defined.

(** What [transmit_unacked] offers of the slots of a list. *)
Definition unacked_log (a : Z) (i : nat) (l : list pkt_state_t) : list (Z * mbuf) :=
  to_wire <$> filter unacked (placed a i l).

Lemma unacked_log_cons a i st l :
  unacked_log a i (st :: l) =
    (if acked st then [] else [(pos_at a i, sp_pkt st)]) ++ unacked_log a (S i) l.
Proof.
  unfold unacked_log. rewrite placed_cons, filter_cons. unfold unacked at 1. simpl.
  case_decide as E; [by rewrite E|]. by destruct (acked st).
Qed.

Lemma transmit_unacked_spec s l i n cnt :
  ring (window s) l -> tp_inv (tp s) -> (i <= length l)%nat -> (length l - i <= n)%nat ->
  runs (transmit_unacked_loop n (pos_at (to_ack (window s)) i) (to_send (window s)) cnt) s
    (fun c s' => sends s s' (unacked_log (to_ack (window s)) i (drop i l))
       /\ u64 c = u64 (cnt + Z.of_nat (length (unacked_log (to_ack (window s)) i (drop i l))))).
Proof.
  revert s i cnt. induction n as [|n IH]; intros s i cnt Hr Ht Hi Hn;
    unfold runs; cbn [transmit_unacked_loop]; rewrite (ring_eq_send _ _ _ Hr Hi);
    destruct (Nat.eqb_spec i (length l)) as [->|Hne]; try lia.
  1,2: exists cnt, s; split; [done|]; rewrite drop_all; split; [by apply sends_nil|];
    simpl; by rewrite Z.add_0_r.
  destruct (lookup_lt_is_Some_2 l i) as [st Hst]; [lia|].
  pose proof (ring_lookup _ _ Hr _ _ Hst) as Hp. rewrite (drop_S _ _ _ Hst), unacked_log_cons.
  apply runs_bind. eapply runs_slot; [done|]. rewrite next_pos_at.
  destruct (acked st); [by apply IH; [..|lia|lia]|].
  apply runs_bind. eapply runs_mono; [exact (transmit_spec s _ st Ht Hp (ring_mbuf _ _ _ _ Hr Hp))|].
  intros [] s1 Hs1. cbn beta in Hs1. pose proof Hs1 as (E & Ht1 & _).
  pose proof (sends_window _ _ _ Hs1) as Ew. rewrite <- Ew.
  eapply runs_mono; [apply IH; [by rewrite Ew|done|lia|lia]|]. rewrite Ew.
  intros c s2 [Hs2 Hc]. split; [by eapply sends_trans|].
  rewrite Hc. wrap_tac. f_equal. rewrite length_app. simpl. lia.
Qed.
End tests.
