(* ===== verification/WorkerInv.v ===== *)
(** The invariant of a worker thread.

    [worker_inv s l base]: the window of [s] is the list [l] of packets of one
    group, with consecutive sequence numbers from [base] on; every packet
    belongs to a sub-operation the worker has taken; the generator continues the
    sequence. *)

From S2P Require Import Prelude.
From S2P Require Import Types.
From S2P Require Import Endian.
From S2P Require Import Config.
From S2P Require Import Congestion.
From S2P Require Import QueuePair.
From S2P Require Import Worker.
From S2P Require Import Window.

(** * Memory *)

Section memory.
(** [n] bytes at [p] can be accessed. *)
Definition in_memory (m : gmap Z (list Z)) (p : ptr) (n : Z) : Prop :=
  is_Some (buffer_read m p n).

Lemma in_memory_iff m p n :
  in_memory m p n <-> exists l, m !! p_block p = Some l
    /\ 0 <= p_off p /\ 0 <= n /\ p_off p + n <= Z.of_nat (length l).
Proof.
  unfold in_memory, buffer_read. split.
  - intros [d Hd]. destruct (m !! p_block p) as [l|]; [|done]. exists l. split; [done|].
    destruct (Z.leb_spec 0 (p_off p)), (Z.leb_spec 0 n),
      (Z.leb_spec (p_off p + n) (Z.of_nat (length l))); simpl in Hd; done || lia.
  - intros (l & -> & H1 & H2 & H3).
    rewrite !(proj2 (Z.leb_le _ _)) by lia. by eexists.
Qed.

Lemma buffer_read_length m p n d : buffer_read m p n = Some d -> Z.of_nat (length d) = n.
Proof.
  intros Hd. assert (in_memory m p n) as (l & Hl & ? & ? & ?)%in_memory_iff by by exists d.
  unfold buffer_read in Hd. rewrite Hl in Hd.
  rewrite !(proj2 (Z.leb_le _ _)) in Hd by lia. simplify_eq/=.
  rewrite length_take, length_drop. lia.
Qed.

Lemma in_memory_sub m p n i k :
  in_memory m p n -> 0 <= i -> 0 <= k -> i + k <= n -> in_memory m (ptr_add p i) k.
Proof.
  rewrite !in_memory_iff. intros (l & Hl & ? & ? & ?) ? ? ?. exists l. simpl.
  split; [done|]. lia.
Qed.

Lemma buffer_write_length m p d l :
  in_memory m p (Z.of_nat (length d)) -> m !! p_block p = Some l ->
  exists l', buffer_write m p d = <[p_block p := l']> m /\ length l' = length l.
Proof.
  intros (l0 & Hl0 & ? & ? & ?)%in_memory_iff Hl. rewrite Hl in Hl0. simplify_eq.
  unfold buffer_write. rewrite Hl. eexists. split; [done|].
  rewrite !length_app, length_take, length_drop. lia.
Qed.

(** A write within a buffer changes no bounds. *)
Lemma in_memory_write m p d p' n :
  in_memory m p (Z.of_nat (length d)) -> in_memory m p' n ->
  in_memory (buffer_write m p d) p' n.
Proof.
  intros Hp Hp'. pose proof (proj1 (in_memory_iff _ _ _) Hp) as (l & Hl & _).
  destruct (buffer_write_length m p d l Hp Hl) as (l' & -> & Hlen).
  rewrite in_memory_iff in Hp' |- *. destruct Hp' as (l0 & Hl0 & ? & ? & ?).
  destruct (decide (p_block p' = p_block p)) as [E|Hne].
  - rewrite E, Hl in Hl0. simplify_eq. exists l'. rewrite E, lookup_insert_eq, Hlen. done.
  - exists l0. by rewrite lookup_insert_ne by done.
Qed.

Lemma in_memory_write_iff m p d p' n :
  in_memory m p (Z.of_nat (length d)) ->
  in_memory (buffer_write m p d) p' n <-> in_memory m p' n.
Proof.
  intros Hp. split; [|by apply in_memory_write].
  pose proof (proj1 (in_memory_iff _ _ _) Hp) as (l & Hl & _).
  destruct (buffer_write_length m p d l Hp Hl) as (l' & -> & Hlen).
  rewrite !in_memory_iff. intros (l0 & Hl0 & Hb).
  destruct (decide (p_block p' = p_block p)) as [E|Hne].
  - rewrite E, lookup_insert_eq in Hl0. injection Hl0 as <-. exists l. rewrite E, <- Hlen. by split.
  - rewrite lookup_insert_ne in Hl0 by done. by exists l0.
Qed.

Lemma read_write_same m p d :
  in_memory m p (Z.of_nat (length d)) ->
  buffer_read (buffer_write m p d) p (Z.of_nat (length d)) = Some d.
Proof.
  intros (l & Hl & ? & ? & ?)%in_memory_iff.
  unfold buffer_read, buffer_write. rewrite Hl, lookup_insert_eq.
  rewrite !length_app, length_take, length_drop, !(proj2 (Z.leb_le _ _)) by lia.
  cbn [andb]. rewrite Nat2Z.id, drop_app_length' by (rewrite length_take; lia).
  by rewrite take_app_length.
Qed.

(** The memory holds bytes. *)
Definition mem_bytes (m : gmap Z (list Z)) : Prop :=
  forall b l, m !! b = Some l -> Forall is_byte l.

(** A later memory: the same buffers, and still bytes. *)
Definition mem_ext (m m' : gmap Z (list Z)) : Prop :=
  (forall p n, in_memory m p n -> in_memory m' p n) /\ (mem_bytes m -> mem_bytes m').

Lemma mem_ext_refl m : mem_ext m m.
Proof. done. Qed.

Lemma mem_ext_trans m1 m2 m3 : mem_ext m1 m2 -> mem_ext m2 m3 -> mem_ext m1 m3.
Proof. intros [H1 H1'] [H2 H2']. split; auto. Qed.

Lemma mem_ext_write m p d :
  in_memory m p (Z.of_nat (length d)) -> Forall is_byte d -> mem_ext m (buffer_write m p d).
Proof.
  intros Hp Hd. split; [intros p' n; by apply in_memory_write|].
  intros Hm b l. unfold buffer_write. destruct (m !! p_block p) as [l0|] eqn:E; [|apply Hm].
  destruct (decide (b = p_block p)) as [->|Hne]; [|rewrite lookup_insert_ne by done; apply Hm].
  rewrite lookup_insert_eq. intros ?. simplify_eq. pose proof (Hm _ _ E).
  rewrite !Forall_app. split_and!; [by apply Forall_take|done|by apply Forall_drop].
Qed.

Lemma buffer_read_bytes m p n d : mem_bytes m -> buffer_read m p n = Some d -> Forall is_byte d.
Proof.
  intros Hm. unfold buffer_read. destruct (m !! p_block p) as [l|] eqn:E; [|done].
  destruct (_ && _); [|done]. intros ?. simplify_eq. by apply Forall_take, Forall_drop, (Hm _ _ E).
Qed.

(** Two ranges that share no byte. *)
Definition disjoint_ranges (p : ptr) (n : Z) (p' : ptr) (n' : Z) : Prop :=
  p_block p <> p_block p' \/ p_off p + n <= p_off p' \/ p_off p' + n' <= p_off p.

Lemma read_write_other m p d p' n :
  in_memory m p (Z.of_nat (length d)) -> in_memory m p' n ->
  disjoint_ranges p (Z.of_nat (length d)) p' n ->
  buffer_read (buffer_write m p d) p' n = buffer_read m p' n.
Proof.
  intros (l & Hl & ? & ? & ?)%in_memory_iff (l' & Hl' & ? & ? & ?)%in_memory_iff Hdis.
  unfold buffer_read, buffer_write. rewrite Hl.
  destruct (decide (p_block p = p_block p')) as [E|Hne]; [|by rewrite lookup_insert_ne].
  rewrite <- E, Hl in Hl'. simplify_eq. rewrite <- E, lookup_insert_eq, Hl.
  rewrite !length_app, length_take, length_drop, !(proj2 (Z.leb_le _ _)) by lia.
  cbn [andb]. f_equal. destruct Hdis as [?|[Hd|Hd]]; [done|..].
  - rewrite app_assoc, drop_app_ge, drop_drop by (rewrite length_app, length_take; lia).
    do 2 f_equal. rewrite length_app, length_take. lia.
  - rewrite !firstn_skipn_comm. f_equal.
    rewrite take_app_le by (rewrite length_take; lia). rewrite take_take. f_equal. lia.
Qed.
End memory.

(** * Sub-operations and packets *)

(** A sub-operation a worker can process. *)
Record sub_op_ok (m : gmap Z (list Z)) (so : sub_op_t) : Prop := {
  sok_size : 0 <= so_size so < 2 ^ 32;
  sok_align : is_reduction (op so) = true -> so_size so mod 4 = 0;
  sok_agg_len : 0 < so_agg_len so < 2 ^ 16;
  sok_agg_addr : 0 <= so_agg_addr so < 2 ^ 16;
  sok_op : op_wf (op so);
  sok_mem : in_memory m (so_data so) (so_size so);
}.

(** A packet in flight, of group [g] and with sequence number [psn]. *)
Record slot_ok (m : gmap Z (list Z)) (g psn : Z) (st : pkt_state_t) : Prop := {
  slot_sub_op : exists so, sp_sub_op st = Some so
    /\ group_id (group (op so)) = g
    /\ (is_reduction (op so) = true -> sp_size st mod 4 = 0);
  slot_psn : sp_psn st = psn;
  slot_pkt_psn : get_psn (sp_pkt st) = psn;
  slot_size : 0 <= sp_size st <= PAYLOAD_SIZE;
  slot_mem : in_memory m (sp_data st) (sp_size st);
}.

(** The sub-operations that are answered when these packets are. *)
Definition held_of (l : list pkt_state_t) : list sub_op_t :=
  omap (fun st => if is_last st then sp_sub_op st else None) l.

Lemma held_of_app l1 l2 : held_of (l1 ++ l2) = held_of l1 ++ held_of l2.
Proof. apply omap_app. Qed.

Section invariant.
Context `{ConfigOk, SpscLaws, TransportLaws}.

(** The sequence number of the next packet. *)
Definition next_psn (s : worker) : Z :=
  match cur_sub_op (gen s) with
  | Some _ => u32 (start_psn (gen s) + pkt_sent (gen s))
  | None => u32 (group_psn_of (current_group_id s) s)
  end.

(** The sub-operation being cut is still in the work queue. *)
Definition gen_ok (s : worker) : Prop :=
  match cur_sub_op (gen s) with
  | None => True
  | Some so =>
    head (contents (wq (qp s))) = Some so
    /\ current_group_id s = group_id (group (op so))
    /\ current_switch_window_limit s = so_agg_len so `quot` 2
    /\ pkt_cnt (gen s) = packet_count (so_size so)
    /\ 0 <= pkt_sent (gen s) < pkt_cnt (gen s)
    /\ group_psn_of (current_group_id s) s = u32 (start_psn (gen s) + pkt_cnt (gen s))
  end.

Record worker_core (s : worker) (l : list pkt_state_t) (base : Z) : Prop := {
  wi_ring : ring (window s) l;
  wi_slots : forall k st, l !! k = Some st ->
    slot_ok (mem s) (current_group_id s) (u32 (base + Z.of_nat k)) st;
  wi_qp : qp_inv (qp s, held_of l);
  wi_reqs : Forall (sub_op_ok (mem s)) (contents (wq (qp s)));
  wi_gen : gen_ok s;
  wi_next : l <> [] -> next_psn s = u32 (base + Z.of_nat (length l));
  wi_mem : mem_bytes (mem s);
  wi_tp : tp_inv (tp s);
  wi_win_cnt : Z.of_nat (length (win_cnt (ccs s))) = MAX_WIN_LEN;
}.

(** [left_psn] and [right_psn] delimit the window. *)
Definition left_ok (s : worker) (l : list pkt_state_t) (base : Z) : Prop :=
  l <> [] -> left_psn (window s) = u32 base.
Definition right_ok (s : worker) (l : list pkt_state_t) (base : Z) : Prop :=
  l <> [] -> right_psn (window s) = u32 (base + Z.of_nat (length l) - 1).

Record worker_inv (s : worker) (l : list pkt_state_t) (base : Z) : Prop := {
  wi_core :> worker_core s l base;
  wi_left : left_ok s l base;
  wi_right : right_ok s l base;
}.

(** What the receiving side never changes. *)
Definition same_gen (s s' : worker) : Prop :=
  gen s' = gen s /\ group_psn s' = group_psn s
  /\ current_switch_window_limit s' = current_switch_window_limit s
  /\ current_group_id s' = current_group_id s.

Lemma same_gen_next_psn s s' : same_gen s s' -> next_psn s' = next_psn s.
Proof.
  intros (Eg & Ep & _ & Ec). unfold next_psn, group_psn_of. by rewrite Eg, Ep, Ec.
Qed.

Lemma same_gen_ok s s' :
  same_gen s s' -> contents (wq (qp s')) = contents (wq (qp s)) -> gen_ok s -> gen_ok s'.
Proof.
  intros (Eg & Ep & El & Ec) Ew. unfold gen_ok, group_psn_of. by rewrite Eg, Ep, El, Ec, Ew.
Qed.

Lemma slot_ok_mem m m' g psn st :
  (forall p n, in_memory m p n -> in_memory m' p n) -> slot_ok m g psn st -> slot_ok m' g psn st.
Proof. intros Hm []. constructor; eauto. Qed.

Lemma sub_op_ok_mem m m' so :
  (forall p n, in_memory m p n -> in_memory m' p n) -> sub_op_ok m so -> sub_op_ok m' so.
Proof. intros Hm []. constructor; eauto. Qed.

(** A step that changes neither the queue pair nor the generator, and of the
    window only flags of packets. *)
Lemma core_step s s' l l' base :
  worker_core s l base -> same_gen s s' -> qp s' = qp s ->
  ring (window s') l' -> length l' = length l -> held_of l' = held_of l ->
  mem_ext (mem s) (mem s') ->
  (forall k st, l' !! k = Some st ->
     slot_ok (mem s) (current_group_id s) (u32 (base + Z.of_nat k)) st) ->
  tp_inv (tp s') -> length (win_cnt (ccs s')) = length (win_cnt (ccs s)) ->
  worker_core s' l' base.
Proof.
  intros [] Hg Hq Hr Hlen Hheld [Hm Hmb] Hs Ht Hw. pose proof Hg as (_ & _ & _ & Ec).
  constructor; try done.
  - intros k st Hk. rewrite Ec. eapply slot_ok_mem; [done|]. by apply Hs.
  - by rewrite Hq, Hheld.
  - rewrite Hq. eapply Forall_impl; [done|]. intros so. by apply sub_op_ok_mem.
  - eapply same_gen_ok; [done|by rewrite Hq|done].
  - intros Hne. rewrite (same_gen_next_psn s s' Hg), Hlen. apply wi_next0.
    intros ->. by destruct l'.
  - by apply Hmb.
  - by rewrite Hw.
Qed.

Lemma core_same s s' l base :
  worker_core s l base -> same_gen s s' -> qp s' = qp s -> mem s' = mem s ->
  ring (window s') l -> tp_inv (tp s') -> length (win_cnt (ccs s')) = length (win_cnt (ccs s)) ->
  worker_core s' l base.
Proof.
  intros Hc Hg Hq Hm Hr Ht Hw. eapply core_step; try done.
  - by rewrite Hm.
  - apply Hc.
Qed.

Lemma core_sends s s' l base log :
  worker_core s l base -> sends s s' log -> worker_core s' l base.
Proof.
  intros Hc (E & Ht & _). rewrite E. apply (core_same s); try done. apply Hc.
Qed.

Lemma inv_sends s s' l base log :
  worker_inv s l base -> sends s s' log -> worker_inv s' l base.
Proof.
  intros [Hc Hl Hr] Hs. pose proof (sends_window _ _ _ Hs) as Ew.
  constructor; [by eapply core_sends|..]; unfold left_ok, right_ok; by rewrite Ew.
Qed.
End invariant.
