(* ===== verification/Receive.v ===== *)
(** The receiving half of a worker: where an acknowledgement belongs in the
    window, what is stored and retransmitted, and how the window slides. *)

From S2P Require Import Prelude.
From S2P Require Import Types.
From S2P Require Import Endian.
From S2P Require Import Config.
From S2P Require Import Congestion.
From S2P Require Import QueuePair.
From S2P Require Import Worker.
From S2P Require Import Window.
From S2P Require Import WorkerInv.

Section receive.
Context `{ConfigOk, SpscLaws, TransportLaws}.

(** * The slot of an acknowledgement *)

(** The index in the window of the packet that [m] acknowledges. *)
Definition ack_index (s : worker) (l : list pkt_state_t) (base : Z) (m : mbuf) : option nat :=
  let d := get_psn m ⊖ base in
  if (current_group_id s =? get_group_id m) && (d <? Z.of_nat (length l))
  then Some (Z.to_nat d) else None.

Lemma ack_index_lt s l base m k : ack_index s l base m = Some k -> (k < length l)%nat.
Proof.
  unfold ack_index. pose proof (wrap_range 32 (get_psn m - base) ltac:(lia)).
  destruct (_ && _) eqn:E; [|done]. apply andb_true_iff in E as [_ E%Z.ltb_lt].
  intros ?. simplify_eq. lia.
Qed.

Lemma get_position_index s l base m :
  worker_inv s l base ->
  get_position m s = match ack_index s l base m with
                     | Some k => pos_at (to_ack (window s)) k
                     | None => INVALID_POSITION
                     end.
Proof.
  intros [Hc Hleft Hright]. pose proof (wi_ring _ _ _ Hc) as Hr.
  unfold get_position, ack_index. cbv zeta. rewrite (window_tx_empty_ring _ _ Hr).
  pose proof (wrap_range 32 (get_psn m - base) ltac:(lia)) as Hd.
  pose proof (ring_length _ _ Hr) as Hlen. pose proof max_win_len_bounds.
  destruct l as [|st l]; [|rewrite (Hleft ltac:(done)), (Hright ltac:(done))]; cbn [orb].
  { destruct (_ && _) eqn:E; [|done]. apply andb_true_iff in E as [_ E%Z.ltb_lt]. simpl in E. lia. }
  destruct (current_group_id s =? get_group_id m); [|done]. cbn [negb andb]. wrap_tac.
  replace (base + Z.of_nat (length (st :: l)) - 1 - base) with (Z.of_nat (length l))
    by (simpl; lia).
  rewrite (wrap_small 32 (Z.of_nat (length l))) by (simpl in Hlen; lia).
  destruct (Z.leb_spec (get_psn m ⊖ base) (Z.of_nat (length l))).
  - rewrite (proj2 (Z.ltb_lt _ _)) by (simpl; lia).
    rewrite pos_at_cases by (apply Hr || (simpl in Hlen; lia)).
    rewrite Z2Nat.id by lia. rewrite (Z.add_comm (to_ack _)).
    destruct (Z.leb_spec MAX_WIN_LEN (get_psn m ⊖ base + to_ack (window s))).
    + by rewrite (proj2 (Z.ltb_nlt _ _)) by lia.
    + by rewrite (proj2 (Z.ltb_lt _ _)) by lia.
  - by rewrite (proj2 (Z.ltb_nlt _ _)) by (simpl; lia).
Qed.

(** The packets of the window have different sequence numbers, so
    [ack_index] finds the only packet with the number of [m]. *)
Lemma ack_index_Some s l base m k st :
  worker_core s l base -> l !! k = Some st ->
  current_group_id s = get_group_id m -> u32 (get_psn m) = sp_psn st ->
  ack_index s l base m = Some k.
Proof.
  intros Hc Hk Hg Hp. pose proof (ring_length _ _ (wi_ring _ _ _ Hc)).
  pose proof (lookup_lt_Some _ _ _ Hk). pose proof max_win_len_bounds.
  rewrite (slot_psn _ _ _ _ (wi_slots _ _ _ Hc _ _ Hk)) in Hp.
  assert (get_psn m ⊖ base = Z.of_nat k) as Ed.
  { rewrite <- wrap_sub_l, Hp. apply sub32_add. lia. }
  unfold ack_index. rewrite Ed, (proj2 (Z.eqb_eq _ _) Hg), (proj2 (Z.ltb_lt _ _)) by lia.
  by rewrite Nat2Z.id.
Qed.

Lemma ack_index_psn s l base m k st :
  worker_core s l base -> ack_index s l base m = Some k -> l !! k = Some st ->
  current_group_id s = get_group_id m /\ u32 (get_psn m) = sp_psn st.
Proof.
  intros Hc Ha Hk. rewrite (slot_psn _ _ _ _ (wi_slots _ _ _ Hc _ _ Hk)).
  unfold ack_index in Ha. pose proof (wrap_range 32 (get_psn m - base) ltac:(lia)).
  destruct (_ && _) eqn:E; [|done]. apply andb_true_iff in E as [E1%Z.eqb_eq E2].
  split; [done|]. simplify_eq. rewrite Z2Nat.id by lia. wrap_tac. f_equal. lia.
Qed.

(** * Fast retransmission *)

(** How many packets just before index [k] are not acknowledged. *)
Fixpoint gap (l : list pkt_state_t) (k : nat) : nat :=
  match k with
  | O => O
  | S k' => match l !! k' with
            | Some st => if acked st then O else S (gap l k')
            | None => O
            end
  end.

Lemma gap_le l k : (gap l k <= k)%nat.
Proof. induction k as [|k IH]; simpl; [lia|]. repeat case_match; lia. Qed.

(** What the acknowledgement of packet [k] triggers: the packets of the gap
    before it. *)
Definition gap_log (a : Z) (l : list pkt_state_t) (k : nat) : list (Z * mbuf) :=
  to_wire <$> placed a (k - gap l k) (take (gap l k) (drop (k - gap l k) l)).

Lemma collect_loop_spec s l k n cnt :
  ring (window s) l -> (k <= length l)%nat -> (k <= n)%nat ->
  exists c, collect_loop n (pos_at (to_ack (window s)) k) cnt s
    = Ok ((pos_at (to_ack (window s)) (k - gap l k), c), s).
Proof.
  intros Hr. revert k cnt. induction n as [|n IH]; intros k cnt Hk Hn.
  all: cbn [collect_loop]; unfold bind at 1, get; rewrite (ring_eq_ack _ _ k Hr) by lia.
  { replace k with O by lia. eexists. by rewrite Nat.eqb_refl. }
  destruct k as [|k]; [by eexists|]. cbn [Nat.eqb].
  rewrite prev_pos_at. destruct (lookup_lt_is_Some_2 l k) as [st Hst]; [lia|].
  unfold bind, has_acked, slot, get. unfold bind. rewrite (ring_lookup _ _ Hr _ _ Hst).
  cbn [the ret gap]. rewrite Hst. unfold ret. destruct (acked st).
  - eexists. by rewrite Nat.sub_0_r.
  - destruct (IH k (u64 (cnt + 1))) as [c Hc]; [lia..|]. exists c. rewrite Hc.
    by replace (S k - S (gap l k))%nat with (k - gap l k)%nat by lia.
Qed.

(** Bookkeeping that no theorem of this file reads: counters and the
    congestion state (but for the length of its table). *)
Definition bookkeeping (s s' : worker) : Prop :=
  s' = {| s with stats := stats s'; ccs := ccs s' |}
  /\ win_cnt (ccs s') = win_cnt (ccs s).

Lemma inv_bookkeeping s s' l base :
  bookkeeping s s' -> worker_inv s l base -> worker_inv s' l base.
Proof.
  intros [E Ew] [Hc Hl Hr]. rewrite E. constructor; try done.
  apply (core_same s); try done; [apply Hc..|]. by rewrite <- Ew.
Qed.

(** The whole of [collect_retrans]: the gap is retransmitted, nothing else. *)
Lemma collect_retrans_spec s l base k :
  worker_inv s l base -> (k < length l)%nat ->
  runs (collect_retrans (pos_at (to_ack (window s)) k)) s (fun _ s' =>
    worker_inv s' l base /\ qp s' = qp s /\ same_gen s s' /\ mem s' = mem s
    /\ ack_cnt s' = ack_cnt s /\ window s' = window s
    /\ tp_sent (tp s') = tp_sent (tp s) ++ gap_log (to_ack (window s)) l k
    /\ (tp_pending (tp s') <= tp_pending (tp s) + k)%nat).
Proof.
  intros Hi Hk. pose proof (wi_ring _ _ _ Hi) as Hr.
  pose proof (fuel_enough _ _ Hr) as Hf. pose proof (gap_le l k).
  unfold collect_retrans, on_stats, on_ccs. run_step.
  destruct (collect_loop_spec s l k fuel 0 Hr ltac:(lia) ltac:(lia)) as [c Hc].
  eexists _, _. split; [exact Hc|]. do 4 run_step. cbn.
  match goal with |- runs _ ?x _ => set (s1 := x) end.
  assert (worker_inv s1 l base) as Hi1 by (by apply (inv_bookkeeping s)).
  replace k with ((k - gap l k) + gap l k)%nat at 3 by lia.
  eapply runs_mono; [apply (transmit_range_spec s1 l (k - gap l k) (gap l k));
    [apply Hi1|apply Hi1|lia]|].
  intros [] s2 Hs. cbn beta in Hs. pose proof (inv_sends _ _ _ _ _ Hi1 Hs) as Hi2.
  destruct Hs as (E & _ & Hlog & Hp). split; [done|]. rewrite E.
  unfold gap_log. rewrite length_fmap, length_placed, length_take, length_drop in Hp. split_and!; try done. cbn in *. lia.
Qed.

(** * Storing the result *)

(** The payload as the host sees it: a reduction is a vector of integers in
    network order, anything else is copied as it is. *)
Definition host_data (o : op_t) (p : list Z) (size : Z) : list Z :=
  if is_reduction o then swap_words (take (Z.to_nat size) p) else take (Z.to_nat size) p.

(** The memory after the result of packet [st] of operation [o] has been stored. *)
Definition stored (mm : gmap Z (list Z)) (st : pkt_state_t) (o : op_t) (m : mbuf) :
    gmap Z (list Z) :=
  if need_rx o
  then buffer_write mm (sp_data st) (host_data o (payload (pkt m)) (sp_size st))
  else mm.

Lemma length_host_data o p size :
  0 <= size <= Z.of_nat (length p) -> (is_reduction o = true -> size mod 4 = 0) ->
  Z.of_nat (length (host_data o p size)) = size.
Proof.
  intros Hs Ha. unfold host_data.
  assert (length (take (Z.to_nat size) p) = Z.to_nat size) as Hl by (rewrite length_take; lia).
  destruct (is_reduction o); [|lia].
  pose proof (Z.div_mod size 4 ltac:(lia)). specialize (Ha eq_refl).
  pose proof (Z.div_pos size 4 ltac:(lia) ltac:(lia)).
  rewrite (length_swap_words _ (Z.to_nat (size / 4))); lia.
Qed.

Lemma host_data_bytes o p size : Forall is_byte p -> Forall is_byte (host_data o p size).
Proof.
  intros Hp. unfold host_data.
  destruct (is_reduction o); [apply swap_words_bytes|]; by apply Forall_take.
Qed.

(** The bytes stored fill the range of the packet. *)
Lemma stored_data_length mm g psn st so m :
  slot_ok mm g psn st -> sp_sub_op st = Some so -> mbuf_ok m ->
  Z.of_nat (length (host_data (op so) (payload (pkt m)) (sp_size st))) = sp_size st.
Proof.
  intros Hst Hso [Hlen _]. destruct (slot_sub_op _ _ _ _ Hst) as (so' & Hso' & _ & Ha).
  rewrite Hso in Hso'. simplify_eq. pose proof (slot_size _ _ _ _ Hst).
  apply length_host_data; [lia|done].
Qed.

Lemma stored_ext mm g psn st so m :
  slot_ok mm g psn st -> sp_sub_op st = Some so -> mbuf_ok m ->
  mem_ext mm (stored mm st (op so) m).
Proof.
  intros Hst Hso Hm. unfold stored. destruct (need_rx (op so)); [|apply mem_ext_refl].
  apply mem_ext_write; [|apply host_data_bytes, Hm].
  rewrite (stored_data_length _ _ _ _ _ _ Hst Hso Hm). apply Hst.
Qed.

Lemma store_payload_spec s g psn st so m :
  slot_ok (mem s) g psn st -> sp_sub_op st = Some so -> mbuf_ok m ->
  runs (store_payload st (op so) m) s (fun _ s' =>
    s' = {| s with mem := stored (mem s) st (op so) m |}).
Proof.
  intros Hst Hso [Hlen Hbytes]. destruct (slot_sub_op _ _ _ _ Hst) as (so' & Hso' & _ & Ha).
  rewrite Hso in Hso'. simplify_eq. destruct Hst as [_ _ _ Hsize [d Hd]].
  unfold store_payload, stored. destruct (need_rx (op so')) eqn:Hrx.
  2:{ run_step. by destruct s. }
  pose proof (buffer_read_length _ _ _ _ Hd) as Hld.
  assert ((if is_reduction (op so') then memcpy_be32toh_select d (payload (pkt m)) (sp_size st)
           else take (Z.to_nat (sp_size st)) (payload (pkt m)))
          = host_data (op so') (payload (pkt m)) (sp_size st)) as E.
  { unfold host_data, memcpy_be32toh_select. destruct (is_reduction (op so')); [|done].
    rewrite memcpy_words_Z by (auto || lia). by rewrite (drop_ge d), app_nil_r by lia. }
  run_step. unfold mem_read. do 2 run_step. eapply runs_the; [done|].
  unfold mem_write. run_step. by rewrite E.
Qed.

(** * One packet *)

(** The packet that [m] acknowledges, if it is not acknowledged yet. *)
Definition fresh_ack (s : worker) (l : list pkt_state_t) (base : Z) (m : mbuf) :
    option (nat * pkt_state_t) :=
  k ← ack_index s l base m;
  st ← l !! k;
  if acked st then None else Some (k, st).

Lemma fresh_ack_lookup s l base m k st :
  fresh_ack s l base m = Some (k, st) ->
  l !! k = Some st /\ acked st = false /\ ack_index s l base m = Some k.
Proof.
  unfold fresh_ack. destruct (ack_index s l base m) as [j|]; [|done].
  cbn [mbind option_bind]. destruct (l !! j) as [x|] eqn:E; [|done]. cbn [mbind option_bind].
  destruct (acked x) eqn:Ha; [done|]. by intros [= <- <-].
Qed.

(** What is in the memory after the store. *)
Lemma stored_read mm g psn st so m :
  slot_ok mm g psn st -> sp_sub_op st = Some so -> mbuf_ok m -> need_rx (op so) = true ->
  buffer_read (stored mm st (op so) m) (sp_data st) (sp_size st)
    = Some (host_data (op so) (payload (pkt m)) (sp_size st))
  /\ forall p n, in_memory mm p n -> disjoint_ranges (sp_data st) (sp_size st) p n ->
       buffer_read (stored mm st (op so) m) p n = buffer_read mm p n.
Proof.
  intros Hs Hso Hm Hrx.
  destruct (slot_sub_op _ _ _ _ Hs) as (so2 & Hso2 & _ & Ha). rewrite Hso in Hso2. simplify_eq.
  pose proof (length_host_data (op so2) (payload (pkt m)) (sp_size st)
    ltac:(pose proof (slot_size _ _ _ _ Hs); destruct Hm as [-> _]; lia) Ha) as Hl.
  pose proof (slot_mem _ _ _ _ Hs) as Hmem. unfold stored. rewrite Hrx.
  set (d := host_data _ _ _) in *. clearbody d. rewrite <- Hl in Hmem |- *.
  split; [by apply read_write_same|].
  intros p n Hp Hd. by apply read_write_other.
Qed.

Lemma gap_insert l k st : gap (<[k := st]> l) k = gap l k.
Proof.
  assert (forall j, (j <= k)%nat -> gap (<[k := st]> l) j = gap l j) as Hj; [|by apply Hj].
  induction j as [|j IH]; intros Hj; [done|]. simpl.
  rewrite list_lookup_insert_ne by lia. by rewrite IH by lia.
Qed.

Lemma gap_log_insert a l k st : gap_log a (<[k := st]> l) k = gap_log a l k.
Proof.
  unfold gap_log. rewrite gap_insert. do 2 f_equal. pose proof (gap_le l k).
  rewrite !firstn_skipn_comm. by rewrite take_insert_ge by lia.
Qed.

(** Nothing is retransmitted if the packet before is acknowledged. *)
Lemma gap_log_nil a l k : gap l k = 0%nat -> gap_log a l k = [].
Proof. intros E. unfold gap_log. by rewrite E. Qed.

Lemma held_of_ack l k st :
  l !! k = Some st -> held_of (<[k := {| st with acked := true |}]> l) = held_of l.
Proof.
  intros Hk. pose proof (lookup_lt_Some _ _ _ Hk).
  rewrite insert_take_drop by done. rewrite <- (take_drop_middle _ _ _ Hk) at 3.
  rewrite !held_of_app. done.
Qed.

(** [mark_acked], the store and the test of the packet before it. *)
Definition ack_at (s : worker) (k : nat) (st : pkt_state_t) (m : mbuf) (o : op_t) : worker :=
  {| s with
     ack_cnt := u64 (ack_cnt s + 1);
     window := {| (window s) with
       slots := <[Z.to_nat (pos_at (to_ack (window s)) k) := {| st with acked := true |}]>
                  (slots (window s)) |};
     mem := stored (mem s) st o m |}.

Lemma ack_at_inv s l base k st so m :
  worker_inv s l base -> l !! k = Some st -> sp_sub_op st = Some so ->
  mem_ext (mem s) (stored (mem s) st (op so) m) ->
  worker_inv (ack_at s k st m (op so)) (<[k := {| st with acked := true |}]> l) base.
Proof.
  intros [Hc Hl Hr] Hk Hso Hm. pose proof (lookup_lt_Some _ _ _ Hk) as Hlt.
  assert (<[k := {| st with acked := true |}]> l <> [] -> l <> []) as Hne.
  { intros Hn ->. by apply Hn. }
  constructor.
  - apply (core_step s _ l); try done.
    + apply (ring_set _ _ _ _ (wi_ring _ _ _ Hc)); [done|]. cbn.
      by apply (ring_mbuf _ _ _ _ (wi_ring _ _ _ Hc) (ring_lookup _ _ (wi_ring _ _ _ Hc) _ _ Hk)).
    + by rewrite length_insert.
    + by apply held_of_ack.
    + intros j st' Hj. destruct (decide (j = k)) as [->|Hjk].
      * rewrite list_lookup_insert_eq in Hj by done. simplify_eq.
        by destruct (wi_slots _ _ _ Hc _ _ Hk).
      * rewrite list_lookup_insert_ne in Hj by done. by apply Hc.
    + apply Hc.
  - intros Hn. by apply Hl, Hne.
  - intros Hn. rewrite length_insert. by apply Hr, Hne.
Qed.

(** What receiving one packet does. *)
Definition received (s : worker) (l : list pkt_state_t) (base : Z) (m : mbuf)
    (s' : worker) : Prop :=
  same_gen s s' /\ qp s' = qp s /\
  match fresh_ack s l base m with
  | None =>
    worker_inv s' l base /\ mem s' = mem s /\ ack_cnt s' = ack_cnt s /\ tp s' = tp s
  | Some (k, st) => exists so,
    sp_sub_op st = Some so
    /\ worker_inv s' (<[k := {| st with acked := true |}]> l) base
    /\ mem s' = stored (mem s) st (op so) m
    /\ ack_cnt s' = u64 (ack_cnt s + 1)
    /\ tp_sent (tp s') = tp_sent (tp s) ++ gap_log (to_ack (window s)) l k
    /\ (tp_pending (tp s') <= tp_pending (tp s) + k)%nat
  end.

(** The second half of [rx_process_one], for a fresh acknowledgement. *)
Lemma fresh_runs s l base k st m (K : M worker unit) Q :
  worker_inv s l base -> mbuf_ok m -> l !! k = Some st -> acked st = false ->
  (forall so, sp_sub_op st = Some so ->
     worker_inv (ack_at s k st m (op so)) (<[k := {| st with acked := true |}]> l) base ->
     runs K (ack_at s k st m (op so)) Q) ->
  runs (mark_acked (pos_at (to_ack (window s)) k) ;;;
        st <- slot (pos_at (to_ack (window s)) k) ;;
        so <- the NullDeref (sp_sub_op st) ;;
        store_payload st (op so) m ;;;
        K) s Q.
Proof.
  intros Hi Hm Hk Ha HK. pose proof (wi_ring _ _ _ Hi) as Hr.
  pose proof (ring_lookup _ _ Hr _ _ Hk) as Hp.
  pose proof (wi_slots _ _ _ Hi _ _ Hk) as Hs.
  destruct (slot_sub_op _ _ _ _ Hs) as (so & Hso & _).
  unfold mark_acked, set_slot, on_window. do 3 run_step. run_step.
  eapply runs_slot; [exact Hp|]. run_step. run_step. cbn.
  eapply runs_slot; [cbn; apply znth_insert_eq; apply znth_Some in Hp; exact Hp|].
  run_step. eapply runs_the; [exact Hso|]. run_step.
  eapply runs_mono; [eapply store_payload_spec; [|exact Hso|done]|].
  - cbn. by destruct Hs.
  - cbn beta. intros _ s' ->. apply (HK so Hso). apply (ack_at_inv s l base k st so m); try done. by eapply stored_ext.
Qed.

(** The test of the packet before it and the retransmission of the gap. *)
Lemma retrans_runs s l base k :
  worker_inv s l base -> (k < length l)%nat ->
  runs (s <- get ;;
        if pos_at (to_ack (window s)) k =? to_ack (window s) then ret tt
        else a <- has_acked (get_prev_position (pos_at (to_ack (window s)) k)) ;;
             if a then ret tt else collect_retrans (pos_at (to_ack (window s)) k)) s
    (fun _ s' => worker_inv s' l base /\ qp s' = qp s /\ same_gen s s' /\ mem s' = mem s
       /\ ack_cnt s' = ack_cnt s
       /\ tp_sent (tp s') = tp_sent (tp s) ++ gap_log (to_ack (window s)) l k
       /\ (tp_pending (tp s') <= tp_pending (tp s) + k)%nat).
Proof.
  intros Hi Hk. pose proof (wi_ring _ _ _ Hi) as Hr. do 2 run_step.
  rewrite (ring_eq_ack _ _ k Hr) by lia.
  assert (gap l k = 0%nat -> worker_inv s l base /\ qp s = qp s /\ same_gen s s /\ mem s = mem s
    /\ ack_cnt s = ack_cnt s
    /\ tp_sent (tp s) = tp_sent (tp s) ++ gap_log (to_ack (window s)) l k
    /\ (tp_pending (tp s) <= tp_pending (tp s) + k)%nat) as Hquiet.
  { intros Hg. rewrite (gap_log_nil _ _ _ Hg), app_nil_r. split_and!; done || lia. }
  destruct k as [|k]; cbn [Nat.eqb]; [run_step; by apply Hquiet|].
  rewrite prev_pos_at. destruct (lookup_lt_is_Some_2 l k) as [st Hst]; [lia|].
  run_step. eapply runs_has_acked; [by apply (ring_lookup _ _ Hr)|].
  destruct (acked st) eqn:Ha.
  { run_step. apply Hquiet. simpl. by rewrite Hst, Ha. }
  eapply runs_mono; [by apply (collect_retrans_spec s l base (S k))|].
  cbn beta. intros _ s' (? & ? & ? & ? & ? & ? & ? & ?). by split_and!.
Qed.

Lemma rx_process_one_runs s l base m :
  worker_inv s l base -> mbuf_ok m ->
  runs (rx_process_one m) s (fun _ s' => received s l base m s').
Proof.
  intros Hi Hm. unfold rx_process_one, on_ccs. do 4 run_step.
  match goal with |- runs _ ?x _ => set (s1 := x) end.
  assert (worker_inv s1 l base) as Hi1 by (by apply (inv_bookkeeping s)).
  rewrite (get_position_index s1 l base m Hi1).
  assert (ack_index s1 l base m = ack_index s l base m) as E by done. rewrite E.
  unfold received, fresh_ack. destruct (ack_index s l base m) as [k|] eqn:Hk; cbn [mbind option_bind].
  2:{ rewrite Z.eqb_refl. unfold on_stats. run_step. split; [done|]. split; [done|].
      split; [by apply (inv_bookkeeping s1)|done]. }
  rewrite (proj2 (Z.eqb_neq _ _)) by apply pos_at_valid.
  pose proof (ack_index_lt _ _ _ _ _ Hk) as Hlt.
  destruct (lookup_lt_is_Some_2 l k Hlt) as [st Hst]. rewrite Hst.
  cbn [mbind option_bind]. pose proof (wi_ring _ _ _ Hi1) as Hr.
  run_step. eapply runs_has_acked; [by apply (ring_lookup _ _ Hr)|].
  destruct (acked st) eqn:Ha.
  { unfold on_stats. run_step. split; [done|]. split; [done|].
    split; [by apply (inv_bookkeeping s1)|done]. }
  eapply (fresh_runs s1 l); [done..|]. intros so Hso Hi2.
  eapply runs_mono; [apply (retrans_runs _ _ base k Hi2); by rewrite length_insert|].
  cbn beta. intros _ s' (Hi3 & Hq & Hg & Hmem & Hcnt & Hlog & Hp).
  rewrite gap_log_insert in Hlog. split; [exact Hg|]. split; [exact Hq|].
  by exists so.
Qed.

(** * Sliding the window *)

(** The length of the longest acknowledged prefix. *)
Fixpoint acked_len (l : list pkt_state_t) : nat :=
  match l with
  | [] => O
  | st :: l => if acked st then S (acked_len l) else O
  end.

Lemma acked_len_le l : (acked_len l <= length l)%nat.
Proof. induction l as [|st l IH]; simpl; [lia|]. case_match; lia. Qed.

(** What answering the packets [p] at the head of the window does. *)
Definition answers (s s' : worker) (p r : list pkt_state_t) : Prop :=
  s' = {| s with qp := qp s'; stats := stats s' |}
  /\ qp_inv (qp s', held_of r)
  /\ contents (cq (qp s')) = contents (cq (qp s)) ++ held_of p
  /\ contents (wq (qp s')) = contents (wq (qp s)).

Lemma answers_nil s r : qp_inv (qp s, held_of r) -> answers s s [] r.
Proof. intros Hq. split; [by destruct s|]. split; [done|]. by rewrite app_nil_r. Qed.

Lemma complete_pkt_spec s g psn st r :
  slot_ok (mem s) g psn st -> qp_inv (qp s, held_of (st :: r)) ->
  runs (complete_pkt st) s (fun _ s' => answers s s' [st] r).
Proof.
  intros Hs Hq. destruct (slot_sub_op _ _ _ _ Hs) as (so & Hso & _).
  unfold complete_pkt, answers. unfold held_of in Hq |- *. cbn in Hq |- *.
  destruct (is_last st); [|run_step; rewrite app_nil_r; split; [by destruct s|done]].
  rewrite Hso in Hq |- *. run_step. eapply runs_the; [done|].
  unfold on_qp. do 2 run_step. eapply runs_mono; [apply push_resp_inv, Hq|].
  cbn beta. intros r' q (-> & Hq' & Ew & Ec & _). apply runs_assert; [done|].
  split; [done|]. split; [exact Hq'|by split].
Qed.

Lemma answers_trans s1 s2 s3 p1 p2 r1 r2 :
  answers s1 s2 p1 r1 -> answers s2 s3 p2 r2 -> answers s1 s3 (p1 ++ p2) r2.
Proof.
  intros (E1 & _ & C1 & W1) (E2 & Q2 & C2 & W2). split; [by rewrite E2, E1|].
  split; [done|]. by rewrite held_of_app, C2, C1, W2, W1, app_assoc.
Qed.

Lemma shift_ack_loop_spec s l base i n :
  ring (window s) l ->
  (forall k st, l !! k = Some st ->
     slot_ok (mem s) (current_group_id s) (u32 (base + Z.of_nat k)) st) ->
  qp_inv (qp s, held_of (drop i l)) -> (i <= length l)%nat -> (length l - i <= n)%nat ->
  runs (shift_ack_loop n (pos_at (to_ack (window s)) i) (to_send (window s))) s
    (fun ta s' => let m := acked_len (drop i l) in
       ta = pos_at (to_ack (window s)) (i + m)
       /\ answers s s' (take m (drop i l)) (drop (i + m) l)).
Proof.
  revert s i. induction n as [|n IH]; intros s i Hr Hs Hq Hi Hn;
    unfold runs; cbn [shift_ack_loop]; rewrite (ring_eq_send _ _ _ Hr Hi);
    destruct (Nat.eqb_spec i (length l)) as [->|Hne]; try lia.
  1,2: eexists _, s; split; [done|]; cbv zeta; rewrite drop_all; cbn [acked_len];
    rewrite Nat.add_0_r; split; [done|]; by apply answers_nil; rewrite drop_all in Hq |- *.
  destruct (lookup_lt_is_Some_2 l i) as [st Hst]; [lia|].
  pose proof (ring_lookup _ _ Hr _ _ Hst) as Hp.
  rewrite (drop_S _ _ _ Hst) in Hq |- *. cbv zeta. cbn [acked_len].
  apply runs_bind. eapply runs_has_acked; [done|].
  destruct (acked st).
  2:{ run_step. rewrite Nat.add_0_r. split; [done|]. apply answers_nil. by rewrite (drop_S _ _ _ Hst). }
  run_step. eapply runs_slot; [done|]. run_step.
  eapply runs_mono; [exact (complete_pkt_spec s _ _ st _ (Hs _ _ Hst) Hq)|].
  intros [] s1 Ha1. cbn beta in Ha1. unfold on_stats. do 2 run_step.
  match goal with |- runs _ ?x _ => set (s2 := x) end.
  assert (answers s s2 [st] (drop (S i) l)) as Ha2.
  { destruct Ha1 as (E & Q & C & W). unfold s2. split; [by rewrite E|done]. }
  clearbody s2. clear Ha1 s1. rewrite next_pos_at. pose proof Ha2 as (E & Q & _).
  assert (window s2 = window s) as Ew by (by rewrite E). rewrite <- Ew.
  eapply runs_mono; [apply (IH s2 (S i)); [by rewrite Ew| |done|lia|lia]|].
  { rewrite E. exact Hs. }
  cbv zeta. intros ta s3 [-> Ha3]. rewrite Ew, <- Nat.add_succ_comm. split; [done|].
  cbn [take]. by apply (answers_trans _ _ _ [st] _ _ _ Ha2).
Qed.

(** [shift_ack] answers the longest acknowledged prefix and drops it. *)
Definition slid (s : worker) (l : list pkt_state_t) (base : Z) (s' : worker) : Prop :=
  let m := acked_len l in
  worker_inv s' (drop m l) (base + Z.of_nat m)
  /\ contents (cq (qp s')) = contents (cq (qp s)) ++ held_of (take m l)
  /\ contents (wq (qp s')) = contents (wq (qp s))
  /\ same_gen s s' /\ mem s' = mem s /\ tp s' = tp s /\ ack_cnt s' = ack_cnt s.

Lemma core_slide s s' l base m :
  worker_core s l base -> (m <= length l)%nat ->
  answers s s' (take m l) (drop m l) ->
  worker_core {| s' with window := {| (window s') with to_ack := pos_at (to_ack (window s)) m |} |}
    (drop m l) (base + Z.of_nat m).
Proof.
  intros Hc Hm (E & Q & _ & W). constructor; cbn [window qp mem gen ccs tp current_group_id].
  - apply (ring_ext {| (window s) with to_ack := pos_at (to_ack (window s)) m |});
      [by apply ring_drop; [apply Hc|]|..]; by rewrite E.
  - intros k st Hk. rewrite lookup_drop in Hk. rewrite E.
    replace (base + Z.of_nat m + Z.of_nat k) with (base + Z.of_nat (m + k)) by lia.
    by apply Hc.
  - exact Q.
  - rewrite W. rewrite E. apply Hc.
  - pose proof (wi_gen _ _ _ Hc) as Hg. unfold gen_ok in *. cbn. rewrite W. rewrite E. exact Hg.
  - intros Hne. rewrite length_drop. transitivity (next_psn s); [by rewrite E|].
    rewrite (wi_next _ _ _ Hc); [f_equal; lia|]. intros ->. by rewrite drop_nil in Hne.
  - rewrite E. apply Hc.
  - rewrite E. apply Hc.
  - rewrite E. apply Hc.
Qed.

Lemma shift_ack_runs s l base :
  worker_inv s l base -> runs shift_ack s (fun _ s' => slid s l base s').
Proof.
  intros [Hc Hl Hr0]. pose proof (wi_ring _ _ _ Hc) as Hr. pose proof (acked_len_le l) as Hm.
  unfold shift_ack. do 2 run_step. run_step.
  rewrite <- (pos_at_0 (to_ack (window s))) by apply Hr.
  eapply runs_mono; [apply (shift_ack_loop_spec s l base 0 fuel Hr);
    [apply Hc|apply Hc|lia|pose proof (fuel_enough _ _ Hr); lia]|].
  cbv zeta. rewrite drop_0. cbn [Nat.add]. intros ta s1 [-> Ha].
  unfold on_window. do 4 run_step.
  pose proof (core_slide s s1 l base _ Hc Hm Ha) as Hc2.
  set (s2 := {| s1 with window := _ |}) in *. destruct Ha as (E & _ & C & W).
  rewrite (window_tx_empty_ring _ _ (wi_ring _ _ _ Hc2)).
  assert (right_ok s2 (drop (acked_len l) l) (base + Z.of_nat (acked_len l))) as Hr2.
  { unfold right_ok, s2. cbn. rewrite E. cbn. intros Hne. rewrite Hr0.
    - f_equal. rewrite length_drop. lia.
    - intros ->. by rewrite drop_nil in Hne. }
  assert (forall left, (drop (acked_len l) l <> [] -> left = u32 (base + Z.of_nat (acked_len l))) ->
    slid s l base {| s2 with window := {| (window s2) with left_psn := left |} |}) as Hfin.
  { intros left Hleft. unfold slid. cbv zeta. split; [constructor|].
    - apply (core_same s2); try done; [|apply Hc2]. by eapply ring_ext; [apply Hc2|..].
    - exact Hleft.
    - exact Hr2.
    - split; [exact C|]. split; [exact W|]. unfold s2. by rewrite E. }
  destruct (drop (acked_len l) l) as [|st r] eqn:Ed; [by do 3 run_step; apply Hfin|].
  run_step. apply runs_bind.
  pose proof (ring_lookup _ _ (wi_ring _ _ _ Hc2) 0 st eq_refl) as Hp.
  rewrite pos_at_0 in Hp by apply (wi_ring _ _ _ Hc2).
  eapply runs_slot; [exact Hp|]. do 2 run_step. apply Hfin. intros _.
  rewrite (slot_pkt_psn _ _ _ _ (wi_slots _ _ _ Hc2 0 st eq_refl)). f_equal. lia.
Qed.

(** * The receive loop *)

(** The same packets, some of them acknowledged meanwhile. *)
Definition marks (l l' : list pkt_state_t) : Prop :=
  Forall2 (fun st st' => st' = st \/ st' = {| st with acked := true |}) l l'.

#[export] Instance marks_refl : Reflexive marks.
Proof. intros l. apply Forall_Forall2_diag, Forall_true. by left. Qed.

#[export] Instance marks_trans : Transitive marks.
Proof.
  intros l1 l2 l3 H12. revert l3.
  induction H12 as [|x y l l' Hxy _ IH]; intros l3 H23; inversion H23 as [|? z ? ? Hyz]; subst.
  - constructor.
  - constructor; [|by apply IH]. destruct Hxy as [-> | ->], Hyz as [-> | ->]; auto.
Qed.

Lemma marks_insert l k st : l !! k = Some st -> marks l (<[k := {| st with acked := true |}]> l).
Proof.
  intros Hk. rewrite <- (list_insert_id l k st Hk) at 1.
  apply Forall2_insert; [reflexivity|by right].
Qed.

Definition unacked_count (l : list pkt_state_t) : nat :=
  length (filter (fun st => acked st = false) l).

Lemma unacked_count_insert l k st :
  l !! k = Some st -> acked st = false ->
  unacked_count l = S (unacked_count (<[k := {| st with acked := true |}]> l)).
Proof.
  intros Hk Ha. pose proof (lookup_lt_Some _ _ _ Hk). unfold unacked_count.
  rewrite insert_take_drop by done. rewrite <- (take_drop_middle _ _ _ Hk) at 1.
  rewrite !filter_app, !length_app, !filter_cons. simpl.
  rewrite decide_True by done. simpl. lia.
Qed.

(** The receive loop ends: every packet it retransmits may bring one more
    packet, but only a fresh acknowledgement retransmits, at most a window of
    packets, and there are at most as many of those as unacknowledged
    packets. *)
Definition rx_measure (s : worker) (l : list pkt_state_t) : nat :=
  tp_pending (tp s) + unacked_count l * Z.to_nat MAX_WIN_LEN.

Lemma received_inv s l base m s' :
  worker_inv s l base -> mbuf_ok m -> received s l base m s' ->
  exists l', worker_inv s' l' base /\ marks l l' /\ same_gen s s' /\ qp s' = qp s
    /\ mem_ext (mem s) (mem s') /\ (rx_measure s' l' <= rx_measure s l)%nat.
Proof.
  intros Hi Hm (Hg & Hq & Hf). unfold fresh_ack in Hf.
  pose proof (ring_length _ _ (wi_ring _ _ _ Hi)) as Hlen.
  destruct (ack_index s l base m) as [k|] eqn:Hk; cbn in Hf.
  2:{ destruct Hf as (Hi' & Em & _ & Et). exists l. unfold rx_measure. rewrite Et, Em. by split_and!. }
  pose proof (ack_index_lt _ _ _ _ _ Hk) as Hlt.
  destruct (lookup_lt_is_Some_2 l k Hlt) as [st Hst]. rewrite Hst in Hf. cbn in Hf.
  destruct (acked st) eqn:Ha.
  { destruct Hf as (Hi' & Em & _ & Et). exists l. unfold rx_measure. rewrite Et, Em. by split_and!. }
  destruct Hf as (so & Hso & Hi' & Em & _ & _ & Hp). eexists. split; [exact Hi'|].
  split; [by apply marks_insert|]. split; [done|]. split; [done|].
  split; [rewrite Em; by eapply stored_ext; [apply (wi_slots _ _ _ Hi _ _ Hst)|..]|]. unfold rx_measure.
  rewrite (unacked_count_insert l k st Hst Ha). lia.
Qed.

Lemma inv_tp s l base t :
  worker_inv s l base -> tp_inv t -> worker_inv {| s with tp := t |} l base.
Proof.
  intros [Hc Hl Hr] Ht. constructor; [|done..].
  apply (core_same s); try done; apply Hc.
Qed.

Lemma rx_loop_runs n s l base :
  worker_inv s l base -> (rx_measure s l <= n)%nat ->
  runs (rx_loop n) s (fun _ s' => exists l',
    worker_inv s' l' base /\ marks l l' /\ same_gen s s' /\ qp s' = qp s
    /\ mem_ext (mem s) (mem s')).
Proof.
  revert s l. induction n as [|n IH]; intros s l Hi Hn; cbn [rx_loop].
  all: unfold on_tp; do 2 run_step; eapply runs_mono; [apply tp_receive_ok, Hi|]; cbn beta.
  all: intros r t (Ht & _ & Hr); destruct r as [m|];
    [destruct Hr as [Hm Hp]|run_step; exists l; split; [by apply inv_tp|done]].
  { unfold rx_measure in Hn. lia. }
  pose proof (inv_tp _ _ _ t Hi Ht) as Hi1. run_step.
  eapply runs_mono; [by apply (rx_process_one_runs _ l base m)|].
  cbn beta. intros _ s1 Hrx. destruct (received_inv _ _ _ _ _ Hi1 Hm Hrx)
    as (l1 & Hi2 & Hm1 & Hg & Hq & He & Hle).
  do 2 run_step. eapply runs_mono; [apply tp_drop_ok, Hi2|]. cbn beta.
  intros _ t2 (Ht2 & _ & Hp2). do 2 run_step.
  pose proof (inv_tp _ _ _ t2 Hi2 Ht2) as Hi3.
  destruct (_ && _); [run_step; by exists l1|].
  eapply runs_mono; [apply (IH _ l1 Hi3)|].
  - unfold rx_measure in *. cbn in Hle |- *. rewrite Hp2. lia.
  - cbn beta. intros _ s2 (l2 & Hi4 & Hm2 & Hg2 & Hq2 & He2). exists l2. split; [done|].
    split; [by transitivity l1|]. split; [|split; [by rewrite Hq2|exact (mem_ext_trans _ _ _ He He2)]].
    unfold same_gen in *. cbn in *. intuition congruence.
Qed.

Lemma rx_process_runs n s l base :
  worker_inv s l base -> (rx_measure s l <= n)%nat ->
  runs (rx_process n) s (fun _ s' => exists l' m,
    marks l l' /\ m = acked_len l' /\ worker_inv s' (drop m l') (base + Z.of_nat m)
    /\ contents (cq (qp s')) = contents (cq (qp s)) ++ held_of (take m l')
    /\ contents (wq (qp s')) = contents (wq (qp s))
    /\ same_gen s s' /\ mem_ext (mem s) (mem s')).
Proof.
  intros Hi Hn. unfold rx_process. run_step. eapply runs_mono; [by apply rx_loop_runs|].
  cbn beta. intros _ s1 (l1 & Hi1 & Hm & Hg & Hq & He).
  eapply runs_mono; [by apply shift_ack_runs|].
  intros _ s2 (Hi2 & Hc & Hw & Hg2 & Em & _). rewrite Hq in Hc, Hw.
  exists l1, (acked_len l1). split_and!; try done; [|by rewrite Em].
  unfold same_gen in *. intuition congruence.
Qed.

(** * The claims *)

(** An acknowledgement is attributed to the slot of the packet in flight
    that carries its sequence number, wherever in the ring and across the wrap
    of the sequence numbers; one of another group or outside the window to no
    slot. *)
Theorem get_position_spec s l base m :
  worker_inv s l base ->
  (forall k st, l !! k = Some st -> current_group_id s = get_group_id m ->
     u32 (get_psn m) = sp_psn st ->
     get_position m s = pos_at (to_ack (window s)) k)
  /\ ((forall k st, l !! k = Some st ->
         ~ (current_group_id s = get_group_id m /\ u32 (get_psn m) = sp_psn st)) ->
      get_position m s = INVALID_POSITION).
Proof.
  intros Hi. rewrite (get_position_index s l base m Hi). split.
  - intros k st Hk Hg Hp. by rewrite (ack_index_Some s l base m k st) by (done || apply Hi).
  - intros Hno. destruct (ack_index s l base m) as [k|] eqn:Hk; [|done].
    destruct (lookup_lt_is_Some_2 l k) as [st Hst]; [by eapply ack_index_lt|].
    exfalso. eapply Hno; [exact Hst|]. by eapply ack_index_psn; [apply Hi|..].
Qed.

(** C12: a packet changes a worker only if it acknowledges a packet in flight
    for the first time: then that packet is marked, its payload stored (for a
    receiver of the operation) and the gap of unacknowledged packets just
    before it retransmitted.  Any other packet leaves window, memory and
    network alone. *)
Theorem rx_process_one_spec s l base m :
  worker_inv s l base -> mbuf_ok m ->
  runs (rx_process_one m) s (fun _ s' => same_gen s s' /\ qp s' = qp s /\
    match fresh_ack s l base m with
    | None =>
      worker_inv s' l base /\ mem s' = mem s /\ ack_cnt s' = ack_cnt s /\ tp s' = tp s
    | Some (k, st) => exists so,
      sp_sub_op st = Some so
      /\ worker_inv s' (<[k := {| st with acked := true |}]> l) base
      /\ mem s' = stored (mem s) st (op so) m
      /\ ack_cnt s' = u64 (ack_cnt s + 1)
      /\ tp_sent (tp s') = tp_sent (tp s) ++ gap_log (to_ack (window s)) l k
    end).
Proof.
  intros Hi Hm. eapply runs_mono; [by apply rx_process_one_runs|].
  cbn beta. intros _ s' (Hg & Hq & Hf). split; [done|]. split; [done|].
  destruct (fresh_ack s l base m) as [[k st]|]; [|done].
  destruct Hf as (so & ? & ? & ? & ? & ? & _). by exists so.
Qed.

(** C16: after a packet of an operation that receives data has been
    acknowledged, its range of the operation's buffer holds the payload in
    host order, and no byte outside that range has changed. *)
Theorem rx_stores_payload s l base m k st so :
  worker_inv s l base -> mbuf_ok m -> fresh_ack s l base m = Some (k, st) ->
  sp_sub_op st = Some so -> need_rx (op so) = true ->
  runs (rx_process_one m) s (fun _ s' =>
    buffer_read (mem s') (sp_data st) (sp_size st)
      = Some (host_data (op so) (payload (pkt m)) (sp_size st))
    /\ forall p n, in_memory (mem s) p n -> disjoint_ranges (sp_data st) (sp_size st) p n ->
         buffer_read (mem s') p n = buffer_read (mem s) p n).
Proof.
  intros Hi Hm Hf Hso Hrx. eapply runs_mono; [by apply (rx_process_one_runs s l base m)|].
  cbn beta. intros _ s' (_ & _ & Hs). rewrite Hf in Hs.
  destruct Hs as (so' & Hso' & _ & -> & _). rewrite Hso in Hso'. simplify_eq.
  destruct (fresh_ack_lookup _ _ _ _ _ _ Hf) as (Hk & _).
  apply (stored_read _ _ _ _ _ _ (wi_slots _ _ _ Hi _ _ Hk) Hso Hm Hrx).
Qed.

(** C13: [shift_ack] answers exactly the sub-operations that end in the longest
    acknowledged prefix of the window, in order, and slides past that prefix. *)
Theorem shift_ack_spec s l base :
  worker_inv s l base ->
  runs shift_ack s (fun _ s' => exists p r,
    l = p ++ r /\ Forall (fun st => acked st = true) p
    /\ (forall st, head r = Some st -> acked st = false)
    /\ worker_inv s' r (base + Z.of_nat (length p))
    /\ contents (cq (qp s')) = contents (cq (qp s)) ++ held_of p
    /\ contents (wq (qp s')) = contents (wq (qp s))).
Proof.
  intros Hi. eapply runs_mono; [by apply shift_ack_runs|].
  intros _ s' (Hi' & Hc & Hw & _). exists (take (acked_len l) l), (drop (acked_len l) l).
  rewrite take_drop, length_take, Nat.min_l by apply acked_len_le.
  assert (Forall (fun st => acked st = true) (take (acked_len l) l)
    /\ forall st, head (drop (acked_len l) l) = Some st -> acked st = false) as [Hp Hr].
  { clear. induction l as [|st l [IH1 IH2]]; [done|]. simpl.
    destruct (acked st) eqn:E; simpl; [split; [by constructor|done]|].
    split; [constructor|]. intros ? [= <-]. done. }
  split; [done|]. split; [done|]. split; [done|]. split; [done|]. by split.
Qed.
End receive.
