(* ===== verification/Packet.v ===== *)
(** The packets of a sub-operation: how [gen_pkt] cuts it and how [fill_pkt]
    fills a packet. *)

From S2P Require Import Prelude.
From S2P Require Import Types.
From S2P Require Import Endian.
From S2P Require Import Config.
From S2P Require Import Congestion.
From S2P Require Import QueuePair.
From S2P Require Import Worker.
From S2P Require Import Window.
From S2P Require Import WorkerInv.
From S2P Require Import Receive.

(** * Cutting a sub-operation into packets *)

(** Packet [k] of a sub-operation of [size] bytes carries [cut_size size k]
    bytes from offset [k * PAYLOAD_SIZE] on. *)
Definition cut_size (size k : Z) : Z := Z.min PAYLOAD_SIZE (size - k * PAYLOAD_SIZE).

Lemma packet_count_eq size :
  0 <= size < 2 ^ 32 ->
  packet_count size = if size =? 0 then 1 else (size + PAYLOAD_SIZE - 1) / PAYLOAD_SIZE.
Proof.
  intros Hs. unfold packet_count. cbv zeta. unfold PAYLOAD_SIZE, PAYLOAD_LEN, sizeof_int32 in *.
  pose proof (Z.div_mod (size + 64 * 4 - 1) (64 * 4) ltac:(lia)).
  pose proof (Z.mod_pos_bound (size + 64 * 4 - 1) (64 * 4) ltac:(lia)).
  rewrite wrap_small by lia.
  destruct (Z.eqb_spec size 0) as [->|]; [done|]. by rewrite (proj2 (Z.eqb_neq _ _)) by lia.
Qed.

(** The last packet is the one that reaches the end. *)
Lemma packet_count_bounds size :
  0 <= size < 2 ^ 32 ->
  1 <= packet_count size < 2 ^ 32
  /\ (packet_count size - 1) * PAYLOAD_SIZE <= size <= packet_count size * PAYLOAD_SIZE
  /\ (0 < size -> (packet_count size - 1) * PAYLOAD_SIZE < size).
Proof.
  intros Hs. rewrite packet_count_eq by done. unfold PAYLOAD_SIZE, PAYLOAD_LEN, sizeof_int32.
  destruct (Z.eqb_spec size 0); [lia|].
  pose proof (Z.div_mod (size + 64 * 4 - 1) (64 * 4) ltac:(lia)).
  pose proof (Z.mod_pos_bound (size + 64 * 4 - 1) (64 * 4) ltac:(lia)). lia.
Qed.

Lemma cut_size_range size k :
  0 <= size < 2 ^ 32 -> 0 <= k < packet_count size ->
  0 <= k * PAYLOAD_SIZE /\ 0 <= cut_size size k <= PAYLOAD_SIZE
  /\ k * PAYLOAD_SIZE + cut_size size k <= size.
Proof.
  intros Hs Hk. pose proof (packet_count_bounds size Hs) as (_ & Hb & _).
  unfold cut_size, PAYLOAD_SIZE, PAYLOAD_LEN, sizeof_int32 in *. lia.
Qed.

(** The next packet starts where this one ends, and the last ends at the end. *)
Lemma cut_size_next size k :
  0 <= size < 2 ^ 32 -> 0 <= k < packet_count size ->
  k * PAYLOAD_SIZE + cut_size size k
    = if k + 1 =? packet_count size then size else (k + 1) * PAYLOAD_SIZE.
Proof.
  intros Hs Hk. pose proof (packet_count_bounds size Hs) as (_ & Hb & _).
  unfold cut_size, PAYLOAD_SIZE, PAYLOAD_LEN, sizeof_int32 in *.
  destruct (Z.eqb_spec (k + 1) (packet_count size)) as [E|E]; [rewrite <- E in Hb|]; lia.
Qed.

Lemma cut_size_aligned size k :
  size mod 4 = 0 -> cut_size size k mod 4 = 0.
Proof.
  intros Hs. unfold cut_size, PAYLOAD_SIZE, PAYLOAD_LEN, sizeof_int32.
  destruct (Z.min_spec (64 * 4) (size - k * (64 * 4))) as [[_ ->]|[_ ->]]; [done|].
  replace (size - k * (64 * 4)) with (size + (- (64 * k)) * 4) by lia.
  by rewrite Z_mod_plus_full.
Qed.

(** What [cut_packet] writes, without wrap-arounds. *)
Lemma cut_packet_eq g so st m :
  sub_op_ok m so -> pkt_cnt g = packet_count (so_size so) -> 0 <= pkt_sent g < pkt_cnt g ->
  cut_packet g so st =
    {| st with
       acked := false;
       sp_sub_op := Some so;
       sp_data := ptr_add (so_data so) (pkt_sent g * PAYLOAD_SIZE);
       sp_size := cut_size (so_size so) (pkt_sent g);
       sp_psn := u32 (start_psn g + pkt_sent g);
       is_last := pkt_sent g + 1 =? packet_count (so_size so) |}.
Proof.
  intros Hso Hc Hs. pose proof (sok_size _ _ Hso) as Hsz. rewrite Hc in Hs.
  pose proof (packet_count_bounds _ Hsz) as (Hn & _ & _).
  pose proof (cut_size_range _ _ Hsz Hs) as (H0 & H1 & H2).
  unfold cut_packet. cbv zeta. rewrite (wrap_small 32 (pkt_sent g * PAYLOAD_SIZE)) by lia.
  rewrite (wrap_small 32 (so_size so - _)), (wrap_small 32 (pkt_sent g + 1)) by lia.
  by rewrite Hc.
Qed.

(** Reading the packets of a range one after the other. *)
Definition read_packets (m : gmap Z (list Z)) (p : ptr) (size : Z) (ks : list Z) :
    option (list (list Z)) :=
  mapM (fun k => buffer_read m (ptr_add p (k * PAYLOAD_SIZE)) (cut_size size k)) ks.

Lemma buffer_read_app m p a b d :
  0 <= a -> 0 <= b -> buffer_read m p (a + b) = Some d ->
  exists d1 d2, buffer_read m p a = Some d1 /\ buffer_read m (ptr_add p a) b = Some d2
    /\ d = d1 ++ d2.
Proof.
  intros Ha Hb Hd. assert (in_memory m p (a + b)) as (l & Hl & ? & ? & ?)%in_memory_iff by by exists d.
  unfold buffer_read in *. cbn [p_block p_off ptr_add]. rewrite Hl in *.
  rewrite !(proj2 (Z.leb_le _ _)) in Hd by lia. rewrite !(proj2 (Z.leb_le _ _)) by lia.
  cbn in *. simplify_eq. do 2 eexists. split; [done|]. split; [done|].
  replace (Z.to_nat (a + b)) with (Z.to_nat a + Z.to_nat b)%nat by lia.
  rewrite Z2Nat.inj_add, <- drop_drop by lia. by rewrite take_take_drop.
Qed.

Lemma read_packets_suffix m p size k n d :
  0 <= size < 2 ^ 32 -> 0 <= k -> k + Z.of_nat n = packet_count size -> (0 < n)%nat ->
  buffer_read m (ptr_add p (k * PAYLOAD_SIZE)) (size - k * PAYLOAD_SIZE) = Some d ->
  exists ds, read_packets m p size (seqZ k (Z.of_nat n)) = Some ds /\ concat ds = d.
Proof.
  intros Hs. revert k d. induction n as [|n IH]; intros k d Hk Hn Hpos Hd; [lia|].
  rewrite seqZ_cons by lia. unfold read_packets. cbn [mapM].
  pose proof (cut_size_range size k Hs ltac:(lia)) as (_ & Hc & _).
  pose proof (cut_size_next size k Hs ltac:(lia)) as Hnext.
  replace (Z.pred (Z.of_nat (S n))) with (Z.of_nat n) by lia. rewrite <- Z.add_1_r.
  destruct (Z.eqb_spec (k + 1) (packet_count size)) as [E|E].
  - replace n with O by lia. replace (size - k * PAYLOAD_SIZE) with (cut_size size k) in Hd by lia.
    rewrite Hd. cbn. eexists. split; [done|]. simpl. by rewrite app_nil_r.
  - replace (size - k * PAYLOAD_SIZE) with (cut_size size k + (size - (k + 1) * PAYLOAD_SIZE)) in Hd by lia.
    apply buffer_read_app in Hd as (d1 & d2 & H1 & H2 & ->); [|lia|].
    2:{ pose proof (cut_size_range size (k + 1) Hs ltac:(lia)). lia. }
    rewrite ptr_add_add, Hnext in H2.
    destruct (IH (k + 1) d2) as (ds & Hds & <-); [lia..|done|].
    unfold read_packets in Hds. rewrite H1. cbn. rewrite Hds. cbn. by eexists.
Qed.

Section packet.
Context `{ConfigOk, SpscLaws, TransportLaws}.

(** Packet [k] of [so], [p0] being the sequence number of packet 0. *)
Definition cut (so : sub_op_t) (p0 : Z) (st : pkt_state_t) (k : Z) : pkt_state_t :=
  cut_packet {| pkt_sent := k; start_psn := p0; pkt_cnt := packet_count (so_size so);
                cur_sub_op := Some so |} so st.

(** C17: the packets cut from a sub-operation partition its data: read in order
    they give the data back, none is larger than a payload, their sequence
    numbers are consecutive and exactly the last one is flagged as last. *)
Theorem cut_packets_partition m so p0 st d :
  sub_op_ok m so -> buffer_read m (so_data so) (so_size so) = Some d ->
  let n := packet_count (so_size so) in
  (exists ds, mapM (fun k => buffer_read m (sp_data (cut so p0 st k)) (sp_size (cut so p0 st k)))
                (seqZ 0 n) = Some ds /\ concat ds = d)
  /\ forall k, 0 <= k < n ->
       0 <= sp_size (cut so p0 st k) <= PAYLOAD_SIZE
       /\ sp_psn (cut so p0 st k) = u32 (p0 + k)
       /\ is_last (cut so p0 st k) = (k =? n - 1).
Proof.
  intros Hso Hd n. pose proof (sok_size _ _ Hso) as Hs.
  pose proof (packet_count_bounds _ Hs) as (Hn & _).
  assert (forall k, 0 <= k < n -> cut so p0 st k = {| st with
     acked := false; sp_sub_op := Some so;
     sp_data := ptr_add (so_data so) (k * PAYLOAD_SIZE);
     sp_size := cut_size (so_size so) k; sp_psn := u32 (p0 + k);
     is_last := k + 1 =? n |}) as Hcut.
  { intros k Hk. unfold cut. by rewrite (cut_packet_eq _ so st m). }
  split.
  - destruct (read_packets_suffix m (so_data so) (so_size so) 0 (Z.to_nat n) d) as (ds & Hds & E);
      [done|lia|lia|lia|by rewrite Z.mul_0_l, Z.sub_0_r, ptr_add_0|].
    exists ds. split; [|done]. rewrite Z2Nat.id in Hds by lia. rewrite <- Hds.
    unfold read_packets. apply Forall_mapM_ext, Forall_forall. intros k Hk%elem_of_seqZ.
    by rewrite Hcut by lia.
  - intros k Hk. rewrite Hcut by done. cbn.
    pose proof (cut_size_range _ _ Hs Hk) as (_ & ? & _). split_and!; try done; try lia.
Qed.

(** * Filling a packet *)

(** The fields of a filled packet, as a receiver in network order reads them. *)
Record filled (so : sub_op_t) (st : pkt_state_t) (m : mbuf) : Prop := {
  filled_coll : betoh 1 (h_coll_type (inc (pkt m))) = op_code (op so);
  filled_group : betoh 1 (h_group_id (inc (pkt m))) = group_id (group (op so));
  filled_rank : betoh 1 (h_rank (inc (pkt m))) = g_rank (group (op so));
  filled_root : betoh 1 (h_root (inc (pkt m))) = root (op so);
  filled_agg : betoh 2 (h_agg_addr (inc (pkt m))) = u16 (so_agg_addr so + sp_psn st mod so_agg_len so);
  filled_psn : get_psn m = sp_psn st;
  filled_dst : betoh 4 (dst_addr (ip (pkt m))) = switch_ip (group (op so));
  filled_len : betoh 2 (total_length (ip (pkt m))) + sizeof_eth_hdr = pkt_len m;
  filled_data_len : data_len m = pkt_len m;
  filled_pkt_len : pkt_len m = if need_tx (op so) then sizeof_netccl_pkt
                               else sizeof_netccl_pkt - sizeof_payload;
}.

(** The state after [fill_pkt]: only the packet buffer has changed. *)
Definition refilled (st st' : pkt_state_t) : Prop := st' = {| st with sp_pkt := sp_pkt st' |}.

(** The packet buffer of [st] holds the data of its range in the memory [m]. *)
Definition holds_data (m : gmap Z (list Z)) (so : sub_op_t) (st : pkt_state_t) : Prop :=
  exists old d, Z.of_nat (length old) = PAYLOAD_SIZE /\ Forall is_byte old
    /\ buffer_read m (sp_data st) (sp_size st) = Some d /\ Forall is_byte d
    /\ (need_tx (op so) = true ->
        payload (pkt (sp_pkt st)) = fill_payload (op so) old d (sp_size st)).

Lemma fill_pkt_runs s so st :
  sub_op_ok (mem s) so -> sp_sub_op st = Some so -> 0 <= sp_psn st < 2 ^ 32 ->
  in_memory (mem s) (sp_data st) (sp_size st) ->
  runs (fill_pkt st) s (fun st' s' =>
    s' = s /\ refilled st st' /\ filled so st (sp_pkt st')
    /\ exists d, buffer_read (mem s) (sp_data st) (sp_size st) = Some d
       /\ payload (pkt (sp_pkt st')) =
            if need_tx (op so)
            then fill_payload (op so) (payload (pkt (sp_pkt st))) d (sp_size st)
            else payload (pkt (sp_pkt st))).
Proof.
  intros Hso E Hpsn [d Hd]. pose proof (sok_agg_len _ _ Hso) as Hlen.
  pose proof (sok_op _ _ Hso) as Hop. pose proof (op_group_wf _ Hop) as Hg.
  unfold fill_pkt. run_step. eapply runs_the; [done|]. cbv zeta.
  unfold fill_inc. rewrite (proj2 (Z.eqb_neq (so_agg_len so) 0)) by lia.
  run_step. eapply runs_the; [done|].
  assert (forall p, filled so st {| data_len := pkt_size_of (op so); pkt_len := pkt_size_of (op so);
    pkt := {| (pkt (sp_pkt st)) with
      ip := {| (ip (pkt (sp_pkt st))) with
        total_length := htobe_store 2 (pkt_size_of (op so) - sizeof_eth_hdr);
        dst_addr := htobe_store 4 (switch_ip (group (op so))) |};
      inc := {|
        h_coll_type := htobe 1 (op_code (op so));
        h_group_id := htobe 1 (group_id (group (op so)));
        h_rank := htobe 1 (g_rank (group (op so)));
        h_root := htobe 1 (root (op so));
        h_agg_addr := htobe 2 (u16 (so_agg_addr so + sp_psn st mod so_agg_len so));
        h_psn := htobe 4 (sp_psn st) |};
      payload := p |} |}) as Hfill.
  { intros p. destruct Hop as [? ? ? _], Hg.
    constructor; cbn [pkt inc ip h_coll_type h_group_id h_rank h_root h_agg_addr h_psn dst_addr
                      total_length pkt_len data_len]; unfold get_psn; cbn [pkt inc h_psn].
    all: rewrite ?betoh_htobe by (done || (apply wrap_range; done)); try done.
    - unfold htobe_store, htobe_ptr. by rewrite betoh_htobe, wrap_small by (apply wrap_range || idtac; done).
    - unfold htobe_store, htobe_ptr. rewrite betoh_htobe by (by apply wrap_range).
      unfold pkt_size_of. by destruct (need_tx (op so)). }
  destruct (need_tx (op so)) eqn:Etx.
  - run_step. unfold mem_read. do 3 run_step. eapply runs_the; [done|]. do 2 run_step.
    split; [done|]. split; [done|]. split; [apply Hfill|]. by exists d.
  - do 3 run_step. split; [done|]. split; [done|]. split; [apply Hfill|]. by exists d.
Qed.

(** The payload of a filled packet, decoded as the receiver decodes it, is the
    data; the rest is padding. *)
Lemma fill_payload_spec o old d size :
  Z.of_nat (length old) = PAYLOAD_SIZE -> Z.of_nat (length d) = size -> size <= PAYLOAD_SIZE ->
  (is_reduction o = true -> size mod 4 = 0) -> Forall is_byte d ->
  let p := fill_payload o old d size in
  Z.of_nat (length p) = PAYLOAD_SIZE
  /\ host_data o p size = d
  /\ drop (Z.to_nat size) p = replicate (Z.to_nat (PAYLOAD_SIZE - size)) 0.
Proof.
  intros Hold Hd Hsize Ha Hb p.
  set (q := if is_reduction o then memcpy_htobe32_select old d size
            else take (Z.to_nat size) d ++ drop (Z.to_nat size) old).
  assert (exists e, q = e ++ drop (Z.to_nat size) old /\ Z.of_nat (length e) = size
    /\ (if is_reduction o then swap_words e else e) = d) as (e & Eq & Hle & He).
  { unfold q. rewrite <- (take_ge d (Z.to_nat size)) by lia.
    destruct (is_reduction o); [|exists (take (Z.to_nat size) d); rewrite take_take, length_take;
      split_and!; [by rewrite Nat.min_id|lia|done]].
    specialize (Ha eq_refl). pose proof (Z.div_mod size 4 ltac:(lia)).
    pose proof (Z.div_pos size 4 ltac:(lia) ltac:(lia)).
    rewrite (take_ge d) by lia. exists (swap_words d).
    rewrite (length_swap_words d (Z.to_nat (size / 4))) by lia.
    rewrite memcpy_words_Z, take_ge by (done || lia). split_and!; [done|lia|].
    apply (swap_words_involutive _ (Z.to_nat (size / 4))). lia. }
  assert (p = e ++ replicate (Z.to_nat (PAYLOAD_SIZE - size)) 0) as ->.
  { unfold p, fill_payload. fold q. rewrite Eq. cbv zeta.
    destruct (Z.ltb_spec size PAYLOAD_SIZE); [by rewrite take_app_length' by lia|].
    replace (Z.to_nat (PAYLOAD_SIZE - size)) with O by lia. by rewrite drop_ge by lia. }
  split_and!.
  - rewrite length_app, length_replicate. lia.
  - unfold host_data. by rewrite take_app_length' by lia.
  - by rewrite drop_app_length' by lia.
Qed.

Lemma fill_payload_bytes o old d size :
  Z.of_nat (length old) = PAYLOAD_SIZE -> Z.of_nat (length d) = size -> size <= PAYLOAD_SIZE ->
  (is_reduction o = true -> size mod 4 = 0) -> Forall is_byte d -> Forall is_byte old ->
  Forall is_byte (fill_payload o old d size).
Proof.
  intros Hold Hd Hsize Ha Hb Hob.
  assert (Forall is_byte (if is_reduction o then memcpy_htobe32_select old d size
            else take (Z.to_nat size) d ++ drop (Z.to_nat size) old)) as Hq.
  { destruct (is_reduction o); [rewrite memcpy_words_Z by (done || lia || by apply Ha)|];
      apply Forall_app; (split; [|by apply Forall_drop]); try apply swap_words_bytes;
      by apply Forall_take. }
  unfold fill_payload. cbv zeta. destruct (size <? PAYLOAD_SIZE); [|done].
  apply Forall_app. split; [by apply Forall_take|]. apply Forall_replicate. unfold is_byte. lia.
Qed.

(** A filled packet is a packet buffer again. *)
Lemma fill_mbuf_ok o (old new : mbuf) d size :
  mbuf_ok old -> Z.of_nat (length d) = size -> size <= PAYLOAD_SIZE ->
  (is_reduction o = true -> size mod 4 = 0) -> Forall is_byte d ->
  payload (pkt new) = (if need_tx o then fill_payload o (payload (pkt old)) d size
                       else payload (pkt old)) ->
  mbuf_ok new.
Proof.
  intros [Hl Hb] Hd Hs Ha Hdb E. unfold mbuf_ok. rewrite E. destruct (need_tx o); [|done].
  split; [by apply fill_payload_spec|by apply fill_payload_bytes].
Qed.

(** C18: [fill_pkt] writes every header field so that it reads back in network
    order, puts the packet into the aggregator range of the sub-operation, and
    its payload decodes to the data, padded with zeros. *)
Theorem fill_pkt_spec s so st d :
  sub_op_ok (mem s) so -> sp_sub_op st = Some so -> 0 <= sp_psn st < 2 ^ 32 ->
  Z.of_nat (length (payload (pkt (sp_pkt st)))) = PAYLOAD_SIZE ->
  sp_size st <= PAYLOAD_SIZE -> (is_reduction (op so) = true -> sp_size st mod 4 = 0) ->
  buffer_read (mem s) (sp_data st) (sp_size st) = Some d -> Forall is_byte d ->
  so_agg_addr so + so_agg_len so <= 2 ^ 16 ->
  runs (fill_pkt st) s (fun st' s' =>
    s' = s /\ refilled st st' /\ filled so st (sp_pkt st')
    /\ so_agg_addr so <= betoh 2 (h_agg_addr (inc (pkt (sp_pkt st'))))
         < so_agg_addr so + so_agg_len so
    /\ (need_tx (op so) = true ->
          let p := payload (pkt (sp_pkt st')) in
          Z.of_nat (length p) = PAYLOAD_SIZE
          /\ host_data (op so) p (sp_size st) = d
          /\ drop (Z.to_nat (sp_size st)) p
               = replicate (Z.to_nat (PAYLOAD_SIZE - sp_size st)) 0)).
Proof.
  intros Hso E Hpsn Hlen Hsize Ha Hd Hb Hagg.
  eapply runs_mono; [by apply (fill_pkt_runs s so st); [..|by exists d]|].
  intros st' s' (-> & Hr & Hf & d' & Hd' & Hp). rewrite Hd in Hd'. simplify_eq.
  split_and!; try done.
  - pose proof (sok_agg_len _ _ Hso). pose proof (sok_agg_addr _ _ Hso).
    pose proof (Z.mod_pos_bound (sp_psn st) (so_agg_len so) ltac:(lia)).
    rewrite (filled_agg _ _ _ Hf), wrap_small by lia. lia.
  - pose proof (sok_agg_len _ _ Hso). pose proof (sok_agg_addr _ _ Hso).
    pose proof (Z.mod_pos_bound (sp_psn st) (so_agg_len so) ltac:(lia)).
    rewrite (filled_agg _ _ _ Hf), wrap_small by lia. lia.
  - intros Htx. cbv zeta. rewrite Hp, Htx.
    apply fill_payload_spec; try done. by apply buffer_read_length in Hd.
Qed.
End packet.
