(* ===== verification/Slices.v ===== *)
(** The packets of a list of sub-operations, in the order a worker cuts them:
    what is in flight, and what is still to be cut, are consecutive pieces of
    that list. *)

From stdpp Require Import sorting.
From S2P Require Import Prelude.
From S2P Require Import Types.
From S2P Require Import Config.
From S2P Require Import QueuePair.
From S2P Require Import Worker.
From S2P Require Import Window.
From S2P Require Import WorkerInv.
From S2P Require Import Packet.

(** Packet [sl_no] of the sub-operation [sl_op]. *)
Record slice := { sl_op : sub_op_t; sl_no : Z }.

Definition sl_data (x : slice) : ptr := ptr_add (so_data (sl_op x)) (sl_no x * PAYLOAD_SIZE).
Definition sl_size (x : slice) : Z := cut_size (so_size (sl_op x)) (sl_no x).
Definition sl_last (x : slice) : bool := sl_no x + 1 =? packet_count (so_size (sl_op x)).

(** The packets of a sub-operation from number [k] on, and those of a list. *)
Definition slices_from (k : Z) (so : sub_op_t) : list slice :=
  (fun i => {| sl_op := so; sl_no := i |}) <$> seqZ k (packet_count (so_size so) - k).
Definition slices (ops : list sub_op_t) : list slice := ops ≫= slices_from 0.

(** The sub-operations whose last packet is among these. *)
Definition lasts (xs : list slice) : list sub_op_t :=
  omap (fun x => if sl_last x then Some (sl_op x) else None) xs.

(** [st] holds the packet [x]. *)
Definition is_slice (st : pkt_state_t) (x : slice) : Prop :=
  sp_sub_op st = Some (sl_op x) /\ sp_data st = sl_data x /\ sp_size st = sl_size x
  /\ is_last st = sl_last x.

Definition size_ok (so : sub_op_t) : Prop := 0 <= so_size so < 2 ^ 32.

Lemma slices_cons so ops : slices (so :: ops) = slices_from 0 so ++ slices ops.
Proof. done. Qed.
Lemma slices_app ops1 ops2 : slices (ops1 ++ ops2) = slices ops1 ++ slices ops2.
Proof. apply bind_app. Qed.

Lemma slices_from_cons k so :
  k < packet_count (so_size so) ->
  slices_from k so = {| sl_op := so; sl_no := k |} :: slices_from (k + 1) so.
Proof.
  intros Hk. unfold slices_from. rewrite seqZ_cons by lia. cbn [fmap list_fmap]. rewrite Z.add_1_r.
  repeat f_equal. lia.
Qed.

Lemma slices_from_end so : slices_from (packet_count (so_size so)) so = [].
Proof. unfold slices_from. by rewrite Z.sub_diag. Qed.

(** Induction over the packets of a sub-operation from the last one back. *)
Lemma from_last_ind (n : Z) (P : Z -> Prop) :
  P n -> (forall k, k < n -> P (k + 1) -> P k) -> forall k, k <= n -> P k.
Proof.
  intros Hn Hs k Hk. replace k with (n - Z.of_nat (Z.to_nat (n - k))) by lia.
  generalize (Z.to_nat (n - k)). induction n0 as [|j IH]; [by rewrite Z.sub_0_r|].
  apply Hs; [lia|]. by replace (n - Z.of_nat (S j) + 1) with (n - Z.of_nat j) by lia.
Qed.

Lemma lasts_app xs ys : lasts (xs ++ ys) = lasts xs ++ lasts ys.
Proof. apply omap_app. Qed.

Lemma lasts_from k so : k < packet_count (so_size so) -> lasts (slices_from k so) = [so].
Proof.
  set (n := packet_count (so_size so)). intros Hk.
  enough (forall j, j <= n -> lasts (slices_from j so) = if j <? n then [so] else []) as Hall.
  { rewrite (Hall k) by lia. by rewrite (proj2 (Z.ltb_lt _ _)). }
  apply from_last_ind; [by rewrite Z.ltb_irrefl; unfold n; rewrite slices_from_end|].
  intros j Hj IH. rewrite slices_from_cons, (proj2 (Z.ltb_lt _ _)) by done.
  unfold lasts in *. cbn. rewrite IH. unfold sl_last. cbn. fold n.
  destruct (Z.eqb_spec (j + 1) n), (Z.ltb_spec (j + 1) n); done || lia.
Qed.

Lemma count_pos so : size_ok so -> 0 < packet_count (so_size so).
Proof. intros Hs. pose proof (packet_count_bounds _ Hs). lia. Qed.

Lemma lasts_slices ops : Forall size_ok ops -> lasts (slices ops) = ops.
Proof.
  induction 1 as [|so ops Hs Hops IH]; [done|].
  rewrite slices_cons, lasts_app, lasts_from, IH by by apply count_pos. done.
Qed.

Lemma held_lasts l xs : Forall2 is_slice l xs -> held_of l = lasts xs.
Proof.
  induction 1 as [|st x l xs (E & _ & _ & El) Hl IH]; [done|].
  unfold held_of, lasts in *. cbn. rewrite El, E, IH. done.
Qed.

Lemma slices_from_app k so xs ys :
  slices_from k so = xs ++ ys -> ys = slices_from (k + Z.of_nat (length xs)) so.
Proof.
  revert k. induction xs as [|x xs IH]; intros k; cbn [app length]; [by rewrite Z.add_0_r|].
  destruct (Z.lt_ge_cases k (packet_count (so_size so))) as [Hk|Hk].
  - rewrite slices_from_cons by done. intros [= _ E]. rewrite (IH _ E). f_equal. lia.
  - unfold slices_from at 1. rewrite seqZ_nil by lia. done.
Qed.

(** Once as many sub-operations have ended as there are before it, all their
    packets are over. *)
Lemma slices_covered ops1 ops2 pre suf :
  slices (ops1 ++ ops2) = pre ++ suf -> Forall size_ok ops1 -> lasts pre = ops1 ->
  exists z, pre = slices ops1 ++ z.
Proof.
  revert pre. induction ops1 as [|so ops1 IH]; intros pre E Hs Hl; [by exists pre|].
  apply Forall_cons in Hs as [Hso Hs]. apply count_pos in Hso.
  change ((so :: ops1) ++ ops2) with (so :: (ops1 ++ ops2)) in E. rewrite slices_cons in E.
  rewrite slices_cons. apply app_eq_inv in E as [(z & E & ->)|(z & -> & E)].
  - pose proof (lasts_from 0 so Hso) as El. rewrite E, lasts_app, Hl in El.
    cbn [app] in El. injection El as [-> El]%app_eq_nil.
    pose proof (slices_from_app _ _ _ _ E) as Ez.
    destruct (Z.lt_ge_cases (0 + Z.of_nat (length pre)) (packet_count (so_size so))) as [Hlt|Hge].
    + rewrite Ez, lasts_from in El by done. discriminate.
    + unfold slices_from in Ez. rewrite seqZ_nil in Ez by lia. subst z.
      exists []. rewrite E, !app_nil_r. done.
  - rewrite lasts_app, lasts_from in Hl by done. cbn [app] in Hl. injection Hl as Hl.
    destruct (IH z E Hs Hl) as [z' ->]. exists z'. by rewrite app_assoc.
Qed.

(** ** Ranges *)

Definition apart (x y : slice) : Prop := disjoint_ranges (sl_data x) (sl_size x) (sl_data y) (sl_size y).
Definition ops_apart (a b : sub_op_t) : Prop :=
  disjoint_ranges (so_data a) (so_size a) (so_data b) (so_size b).

Lemma disjoint_sym p n p' n' : disjoint_ranges p n p' n' -> disjoint_ranges p' n' p n.
Proof. unfold disjoint_ranges. intuition congruence. Qed.

(** Parts of disjoint ranges are disjoint. *)
Lemma disjoint_sub p n p' n' i k j l :
  disjoint_ranges p n p' n' -> 0 <= i -> i + k <= n -> 0 <= j -> j + l <= n' ->
  disjoint_ranges (ptr_add p i) k (ptr_add p' j) l.
Proof. unfold disjoint_ranges, ptr_add. cbn. intros [?|[?|?]] ????; [by left|right; left|right; right]; lia. Qed.

(** The packets of a sub-operation lie in its range. *)
Lemma elem_of_slices_from k so x :
  x ∈ slices_from k so -> 0 <= k -> sl_op x = so /\ k <= sl_no x < packet_count (so_size so).
Proof. intros (i & -> & Hi%elem_of_seqZ)%list_elem_of_fmap Hk. cbn. split; [done|lia]. Qed.

Lemma slice_in_op x :
  size_ok (sl_op x) -> 0 <= sl_no x < packet_count (so_size (sl_op x)) ->
  0 <= sl_no x * PAYLOAD_SIZE /\ 0 <= sl_size x <= PAYLOAD_SIZE
  /\ sl_no x * PAYLOAD_SIZE + sl_size x <= so_size (sl_op x).
Proof. intros Hs Hk. by apply cut_size_range. Qed.

Lemma slices_from_apart k so :
  size_ok so -> 0 <= k <= packet_count (so_size so) -> StronglySorted apart (slices_from k so).
Proof.
  intros Hs. revert k. set (n := packet_count (so_size so)).
  enough (forall k, k <= n -> 0 <= k -> StronglySorted apart (slices_from k so)) as Hall.
  { intros k ?. apply Hall; lia. }
  apply (from_last_ind n (fun k => 0 <= k -> StronglySorted apart (slices_from k so)));
    [by intros _; unfold n; rewrite slices_from_end; constructor|].
  intros k Hk IH Hk0. rewrite slices_from_cons by done. constructor; [apply IH; lia|].
  apply Forall_forall. intros x Hx. apply elem_of_slices_from in Hx as [Ex Hx]; [|lia].
  destruct x as [so' i]. cbn in Ex, Hx. subst so'. unfold apart, sl_data, sl_size. cbn [sl_op sl_no].
  right. left. cbn. pose proof (cut_size_next (so_size so) k Hs ltac:(lia)) as E. fold n in E.
  pose proof (packet_count_bounds _ Hs) as (_ & Hb & _). fold n in Hb.
  rewrite (proj2 (Z.eqb_neq (k + 1) n)) in E by lia. unfold PAYLOAD_SIZE, PAYLOAD_LEN, sizeof_int32 in *. nia.
Qed.

Lemma elem_of_slices ops x :
  x ∈ slices ops -> sl_op x ∈ ops /\ 0 <= sl_no x < packet_count (so_size (sl_op x)).
Proof.
  intros (so & Hx & Hso)%list_elem_of_bind. apply elem_of_slices_from in Hx as [-> ?]; [|lia]. done.
Qed.

Lemma apart_ops x y :
  size_ok (sl_op x) -> size_ok (sl_op y) ->
  0 <= sl_no x < packet_count (so_size (sl_op x)) -> 0 <= sl_no y < packet_count (so_size (sl_op y)) ->
  ops_apart (sl_op x) (sl_op y) -> apart x y.
Proof.
  intros Hx Hy Hix Hiy Ho. destruct (slice_in_op x Hx Hix) as (? & ? & ?).
  destruct (slice_in_op y Hy Hiy) as (? & ? & ?).
  unfold apart, sl_data. by eapply disjoint_sub.
Qed.

Lemma slices_apart ops :
  Forall size_ok ops -> StronglySorted ops_apart ops -> StronglySorted apart (slices ops).
Proof.
  induction ops as [|so ops IH]; intros Hs Ha; [constructor|].
  apply Forall_cons in Hs as [Hso Hs]. apply StronglySorted_inv in Ha as [Ha Hall].
  rewrite slices_cons. apply StronglySorted_app_2.
  - intros x y [Ex Hx]%elem_of_slices_from [Hy Hiy]%elem_of_slices; [|done].
    rewrite Forall_forall in Hs, Hall. rewrite <- Ex in *. apply apart_ops; auto.
  - apply slices_from_apart; [done|]. apply count_pos in Hso. lia.
  - by apply IH.
Qed.

Lemma sorted_lookup {A} (R : A -> A -> Prop) l i j x y :
  StronglySorted R l -> (i < j)%nat -> l !! i = Some x -> l !! j = Some y -> R x y.
Proof.
  intros Hl Hij Hi Hj. rewrite <- (take_drop_middle _ _ _ Hi) in Hl, Hj.
  apply StronglySorted_app in Hl as (_ & _ & [_ Hall]%StronglySorted_inv).
  pose proof (lookup_lt_Some _ _ _ Hi). rewrite lookup_app_r in Hj by (rewrite length_take; lia).
  rewrite length_take in Hj. replace (j - i `min` length l)%nat with (S (j - i - 1)) in Hj by lia.
  by apply (Forall_lookup_1 _ _ _ _ Hall Hj).
Qed.

Lemma slices_lookup_apart ops i j x y :
  Forall size_ok ops -> StronglySorted ops_apart ops ->
  slices ops !! i = Some x -> slices ops !! j = Some y -> i <> j -> apart x y.
Proof.
  intros Hs Ha Hi Hj Hne. pose proof (slices_apart _ Hs Ha) as Hall.
  destruct (Nat.lt_total i j) as [Hlt|[?|Hlt]]; [|done|].
  - by apply (sorted_lookup _ _ _ _ _ _ Hall Hlt).
  - apply disjoint_sym. by apply (sorted_lookup _ _ _ _ _ _ Hall Hlt).
Qed.

(** ** Hosts with operations of the same sizes *)

Definition same_shape (x y : slice) : Prop :=
  so_size (sl_op x) = so_size (sl_op y) /\ sl_no x = sl_no y.

Lemma slices_same_shape ops ops' :
  so_size <$> ops = so_size <$> ops' -> Forall2 same_shape (slices ops) (slices ops').
Proof.
  revert ops'. induction ops as [|so ops IH]; intros [|so' ops'] E; try done.
  rewrite !fmap_cons in E. injection E as Es E. rewrite !slices_cons. apply Forall2_app; [|by apply IH].
  unfold slices_from. rewrite Es. apply Forall2_fmap_2, Forall2_same_length_lookup_2; [done|].
  intros i a b Ha Hb. simplify_eq. done.
Qed.

(** * What a worker has to cut *)

Section worker.
Context `{ConfigOk, SpscLaws, TransportLaws}.

Definition to_cut (s : worker) : list slice :=
  match cur_sub_op (gen s), contents (wq (qp s)) with
  | Some _, so :: rest => slices_from (pkt_sent (gen s)) so ++ slices rest
  | _, ops => slices ops
  end.

(** From [s] to [s'] the packets [new] have been cut. *)
Definition cuts (s : worker) (new : list pkt_state_t) (s' : worker) : Prop :=
  exists xs, Forall2 is_slice new xs /\ to_cut s = xs ++ to_cut s'.

Lemma to_cut_same s s' :
  gen s' = gen s -> contents (wq (qp s')) = contents (wq (qp s)) -> to_cut s' = to_cut s.
Proof. unfold to_cut. by intros -> ->. Qed.

Lemma cuts_nil s s' : to_cut s' = to_cut s -> cuts s [] s'.
Proof. intros E. by exists []. Qed.

Lemma cuts_app s1 s2 s3 l1 l2 : cuts s1 l1 s2 -> cuts s2 l2 s3 -> cuts s1 (l1 ++ l2) s3.
Proof.
  intros (xs & Hx & E1) (ys & Hy & E2). exists (xs ++ ys).
  split; [by apply Forall2_app|by rewrite E1, E2, app_assoc].
Qed.

(** The sub-operations in the queue are those whose last packet is to be cut. *)
Lemma lasts_to_cut s :
  gen_ok s -> Forall (sub_op_ok (mem s)) (contents (wq (qp s))) -> lasts (to_cut s) = contents (wq (qp s)).
Proof.
  unfold gen_ok, to_cut. intros Hg Hreqs.
  assert (Forall size_ok (contents (wq (qp s)))) as Hs
    by (eapply Forall_impl; [exact Hreqs|]; intros so; apply sok_size).
  destruct (cur_sub_op (gen s)) as [so|]; [|by apply lasts_slices].
  destruct Hg as (Hh & _ & _ & Ec & Hk & _). destruct (contents (wq (qp s))) as [|so' rest]; [done|].
  injection Hh as ->. apply Forall_cons in Hs as [_ Hs].
  rewrite lasts_app, lasts_from, lasts_slices by (done || lia). done.
Qed.

(** A sub-operation that is handed over adds its packets. *)
Lemma to_cut_push s so q :
  gen_ok s -> contents (wq q) = contents (wq (qp s)) ++ [so] ->
  to_cut {| s with qp := q |} = to_cut s ++ slices [so].
Proof.
  unfold gen_ok, to_cut. cbn [gen qp]. intros Hg ->. destruct (cur_sub_op (gen s)) as [so'|].
  - destruct Hg as (Hh & _). destruct (contents (wq (qp s))) as [|so'' rest]; [done|].
    cbn [app]. by rewrite slices_app, app_assoc.
  - rewrite <- slices_app. by destruct (contents (wq (qp s))).
Qed.
End worker.
