(* ===== verification/Send.v ===== *)
(** The sending half of a worker: packet generation, the growth of the window
    and the retransmission after a timeout. *)

From S2P Require Import Prelude.
From S2P Require Import Types.
From S2P Require Import Endian.
From S2P Require Import Config.
From S2P Require Import Congestion.
From S2P Require Import QueuePair.
From S2P Require Import Worker.
From S2P Require Import Window.
From S2P Require Import WorkerInv.
From S2P Require Import Receive.
From S2P Require Import Packet.
From S2P Require Import Slices.

Section send.
Context `{ConfigOk, SpscLaws, TransportLaws}.

Definition group_of (so : sub_op_t) : Z := group_id (group (op so)).

(** * Taking a sub-operation *)

Lemma runs_front_req s Q :
  Q (head (contents (wq (qp s)))) s -> runs (on_qp front_req) s Q.
Proof.
  intros HQ. eexists _, s. split; [|exact HQ].
  unfold on_qp, zoom. rewrite front_req_spec. by destruct s.
Qed.

(** Only the generator (and its view of the group) has changed. *)
Definition gen_changed (s s' : worker) : Prop :=
  s' = {| s with gen := gen s'; group_psn := group_psn s'; current_group_id := current_group_id s';
                 current_switch_window_limit := current_switch_window_limit s';
                 traffic_todo := traffic_todo s' |}.

(** The number of the next packet of group [g]. *)
Definition stream_next (g : Z) (s : worker) : Z :=
  match cur_sub_op (gen s) with
  | Some _ => next_psn s
  | None => u32 (group_psn_of g s)
  end.

Lemma same_gen_stream g s s' : same_gen s s' -> stream_next g s' = stream_next g s.
Proof.
  intros Hg. unfold stream_next, group_psn_of. rewrite (same_gen_next_psn _ _ Hg).
  destruct Hg as (-> & -> & _). done.
Qed.

(** Why [gen_pkt] produces nothing. *)
Definition nothing_to_send (s : worker) : Prop :=
  cur_sub_op (gen s) = None
  /\ (contents (wq (qp s)) = []
      \/ window_tx_empty s = false
         /\ exists so, head (contents (wq (qp s))) = Some so /\ group_of so <> current_group_id s).

Lemma next_sub_op_runs s (P : Prop) :
  gen_ok s -> Forall (sub_op_ok (mem s)) (contents (wq (qp s))) ->
  (P -> forall so, head (contents (wq (qp s))) = Some so -> window_tx_empty s = true ->
     group_of so = current_group_id s) ->
  runs next_sub_op s (fun b s' => gen_changed s s' /\
    if b then exists so rest,
      contents (wq (qp s)) = so :: rest /\ cur_sub_op (gen s') = Some so /\ gen_ok s'
      /\ next_psn s' = stream_next (group_of so) s
      /\ (P -> next_psn s' = next_psn s /\ current_group_id s' = current_group_id s)
      /\ to_cut s' = to_cut s
    else nothing_to_send s /\ s' = {| s with traffic_todo := false |}).
Proof.
  intros Hg Hreqs HP. unfold next_sub_op, set_todo. do 2 run_step. unfold gen_ok in Hg.
  destruct (cur_sub_op (gen s)) as [so|] eqn:Ecur.
  { run_step. split; [by destruct s|]. pose proof (proj1 Hg) as Hh.
    destruct (contents (wq (qp s))) as [|x rest] eqn:Ew; [done|]. simplify_eq/=.
    exists so, rest. split_and!; try done; [unfold gen_ok|unfold stream_next]; by rewrite Ecur, ?Ew. }
  run_step. apply runs_front_req. destruct (contents (wq (qp s))) as [|so rest] eqn:Ew; cbn [head].
  { do 3 run_step. split; [done|]. split; [|done]. split; [done|]. by left. }
  do 2 run_step. cbn. fold (group_of so).
  destruct (negb (current_group_id s =? group_of so) && negb (window_tx_empty s)) eqn:Eb.
  { do 3 run_step. split; [done|]. split; [|done].
    apply andb_true_iff in Eb as [Eb1%negb_true_iff%Z.eqb_neq Eb2%negb_true_iff].
    split; [done|]. right. split; [done|]. exists so. rewrite Ew. split; [done|congruence]. }
  do 3 run_step. cbn. split; [done|]. exists so, rest. split; [done|]. split; [done|].
  apply Forall_cons in Hreqs as [Hso _].
  pose proof (packet_count_bounds _ (sok_size _ _ Hso)) as (Hn & _).
  unfold group_psn_of. split; [|split; [|split]].
  4: { unfold to_cut. by rewrite Ecur, Ew. }
  - unfold gen_ok, group_psn_of. cbn. rewrite Ew, lookup_insert_eq. by split_and!; try done; lia.
  - unfold next_psn, stream_next. rewrite Ecur. cbn. by rewrite Z.add_0_r.
  - intros p. assert (group_of so = current_group_id s) as Eg.
    { apply andb_false_iff in Eb as [Eb|Eb]; apply negb_false_iff in Eb.
      - apply Z.eqb_eq in Eb. done.
      - by apply (HP p so). }
    split; [|done]. unfold next_psn, group_psn_of. rewrite Ecur. cbn. by rewrite Z.add_0_r, Eg.
Qed.

(** * Producing a packet *)

(** In the loop of [shift_send] the window still has its old [to_send]. *)
Definition at_send (ts : Z) (s : worker) : worker :=
  {| s with window := {| (window s) with to_send := ts |} |}.

(** What sending leaves alone. *)
Definition same_rest (s s' : worker) : Prop :=
  mem s' = mem s /\ cc (ccs s') = cc (ccs s) /\ global_ts s' = global_ts s
  /\ ack_cnt s' = ack_cnt s /\ prev_ack_cnt s' = prev_ack_cnt s.

Lemma same_rest_trans s1 s2 s3 : same_rest s1 s2 -> same_rest s2 s3 -> same_rest s1 s3.
Proof. unfold same_rest. intuition congruence. Qed.

Lemma next_sub_op_core ts s s' l base :
  worker_core (at_send ts s) l base -> gen_changed s s' -> gen_ok s' ->
  (l <> [] -> next_psn s' = next_psn s /\ current_group_id s' = current_group_id s) ->
  worker_core (at_send ts s') l base.
Proof.
  intros Hc E Hg Hn. constructor.
  - rewrite E. apply Hc.
  - intros k st Hk. destruct (Hn ltac:(by intros ->)) as [_ Ec].
    pose proof (wi_slots _ _ _ Hc _ _ Hk) as Hs. cbn in Hs |- *. rewrite Ec, E. exact Hs.
  - rewrite E. apply Hc.
  - rewrite E. apply Hc.
  - exact Hg.
  - intros Hne. destruct (Hn Hne) as [En _]. pose proof (wi_next _ _ _ Hc Hne) as Hw.
    transitivity (next_psn s'); [done|]. rewrite En. exact Hw.
  - rewrite E. apply Hc.
  - rewrite E. apply Hc.
  - rewrite E. apply Hc.
Qed.

(** The packet is put into the window and, if it is the last one, its
    sub-operation leaves the work queue. *)
Definition produced (s s' : worker) (ts : Z) (st : pkt_state_t) (so : sub_op_t) : Prop :=
  s' = {| s with window := {| (window s) with slots := <[Z.to_nat ts := st]> (slots (window s)) |};
                 qp := qp s';
                 gen := {| (gen s) with
                   pkt_sent := pkt_sent (gen s) + 1;
                   cur_sub_op := if is_last st then None else Some so |} |}
  /\ acked st = false /\ sp_sub_op st = Some so
  /\ is_last st = (pkt_sent (gen s) + 1 =? pkt_cnt (gen s))
  /\ sp_data st = ptr_add (so_data so) (pkt_sent (gen s) * PAYLOAD_SIZE)
  /\ sp_size st = cut_size (so_size so) (pkt_sent (gen s))
  /\ sp_psn st = u32 (start_psn (gen s) + pkt_sent (gen s))
  /\ filled so st (sp_pkt st) /\ mbuf_ok (sp_pkt st) /\ holds_data (mem s) so st.

Lemma cut_slot m so g st :
  sub_op_ok m so -> pkt_cnt g = packet_count (so_size so) -> 0 <= pkt_sent g < pkt_cnt g ->
  in_memory m (sp_data (cut_packet g so st)) (sp_size (cut_packet g so st)).
Proof.
  intros Hso Hc Hk. rewrite (cut_packet_eq g so st m) by done. cbn. rewrite Hc in Hk.
  destruct (cut_size_range _ _ (sok_size _ _ Hso) Hk) as (? & ? & ?).
  apply (in_memory_sub _ _ (so_size so)); [apply Hso|lia..].
Qed.

Lemma filled_pkt so st st' : refilled st st' -> filled so st (sp_pkt st') -> filled so st' (sp_pkt st').
Proof. intros E []. rewrite E. by constructor. Qed.

Lemma produce_pkt_runs s ts l base so rest :
  worker_core (at_send ts s) l base -> contents (wq (qp s)) = so :: rest ->
  cur_sub_op (gen s) = Some so -> 0 <= ts < Z.of_nat (length (slots (window s))) ->
  runs (produce_pkt ts) s (fun _ s' => exists st,
    produced s s' ts st so
    /\ qp_inv (qp s', held_of (l ++ [st]))
    /\ contents (cq (qp s')) = contents (cq (qp s))
    /\ held_of [st] ++ contents (wq (qp s')) = contents (wq (qp s))).
Proof.
  intros Hc Ew Ecur Hts. pose proof (wi_gen _ _ _ Hc) as Hg. unfold gen_ok in Hg.
  cbn in Hg. rewrite Ecur in Hg. destruct Hg as (_ & _ & _ & Hcnt & Hsent & _).
  pose proof (wi_reqs _ _ _ Hc) as Hreqs. cbn in Hreqs. rewrite Ew in Hreqs.
  apply Forall_cons in Hreqs as [Hso _].
  pose proof (packet_count_bounds _ (sok_size _ _ Hso)) as (Hn & _).
  unfold produce_pkt. do 2 run_step. rewrite Ecur. run_step. eapply runs_the; [done|].
  destruct (znth_is_Some (slots (window s)) ts Hts) as [st0 Hst0].
  run_step. eapply runs_slot; [done|]. run_step.
  eapply runs_mono; [apply (fill_pkt_runs s so (cut_packet (gen s) so st0)); try done|].
  { by apply wrap_range. }
  { by apply cut_slot. }
  intros st s' (-> & Hr & Hf & d & Hd & Hpay). apply (filled_pkt _ _ _ Hr) in Hf.
  pose proof (ring_mbuf _ _ _ _ (wi_ring _ _ _ Hc) Hst0) as Hmb0.
  assert (holds_data (mem s) so st) as Hdat.
  { exists (payload (pkt (sp_pkt st0))), d. destruct Hmb0 as [? ?].
    pose proof (f_equal sp_data Hr) as Ed. pose proof (f_equal sp_size Hr) as Es. cbn in Ed, Es.
    rewrite Ed, Es. split_and!; try done; [by eapply buffer_read_bytes; [apply Hc|]|].
    intros Htx. by rewrite Hpay, Htx. }
  assert (mbuf_ok (sp_pkt st)) as Hmb.
  { pose proof (buffer_read_length _ _ _ _ Hd) as Hld.
    rewrite (cut_packet_eq _ _ _ (mem s)) in Hpay, Hd, Hld by done.
    rewrite Hcnt in Hsent. pose proof (cut_size_range _ _ (sok_size _ _ Hso) Hsent) as (_ & ? & _).
    refine (fill_mbuf_ok (op so) (sp_pkt st0) _ d _ _ Hld _ _ _ Hpay).
    - done.
    - cbn. lia.
    - intros Hred. by apply cut_size_aligned, (sok_align _ _ Hso).
    - by eapply buffer_read_bytes; [apply Hc|]. }
  rewrite (cut_packet_eq _ _ _ (mem s)) in Hr by done. rewrite <- Hcnt in Hr.
  assert (acked st = false /\ sp_sub_op st = Some so
    /\ is_last st = (pkt_sent (gen s) + 1 =? pkt_cnt (gen s))
    /\ sp_data st = ptr_add (so_data so) (pkt_sent (gen s) * PAYLOAD_SIZE)
    /\ sp_size st = cut_size (so_size so) (pkt_sent (gen s))
    /\ sp_psn st = u32 (start_psn (gen s) + pkt_sent (gen s))) as (E1 & E2 & E3 & E4 & E5 & E6)
    by (by rewrite Hr).
  unfold set_slot, on_window, on_gen. do 4 run_step. cbn.
  rewrite (wrap_small 32 (pkt_sent (gen s) + 1)) by lia.
  pose proof (wi_qp _ _ _ Hc) as Hq. cbn [qp at_send] in Hq.
  assert (held_of [st] = if is_last st then [so] else []) as Eh.
  { unfold held_of. cbn. rewrite E2. by destruct (is_last st). }
  destruct (is_last st) eqn:El.
  - run_step. unfold on_qp. run_step. cbn.
    eapply runs_mono; [exact (pop_req_inv _ _ _ _ Hq Ew)|]. cbn beta.
    intros _ q (Hq' & Eq & Ec & _). do 1 run_step. exists st. cbn. unfold produced. cbn.
    rewrite El, held_of_app, Eh. split; [by split_and!|]. split; [exact Hq'|]. split; [exact Ec|]. by rewrite E2, Eq, Ew.
  - run_step. exists st. unfold produced. cbn. rewrite El, held_of_app, Eh, app_nil_r, Ecur.
    split; [by split_and!|]. by split; [exact Hq|].
Qed.

(** The packet produced continues the window. *)
Lemma produced_slot s s' ts l base so st rest :
  worker_core (at_send ts s) l base -> contents (wq (qp s)) = so :: rest ->
  cur_sub_op (gen s) = Some so -> produced s s' ts st so ->
  slot_ok (mem s) (current_group_id s) (u32 (start_psn (gen s) + pkt_sent (gen s))) st.
Proof.
  intros Hc Ew Ecur (_ & _ & Eso & _ & Ed & Es & Ep & Hf & _).
  pose proof (wi_gen _ _ _ Hc) as Hg. unfold gen_ok in Hg. cbn in Hg.
  rewrite Ecur in Hg. destruct Hg as (_ & Eg & _ & Hcnt & Hsent & _). rewrite Hcnt in Hsent.
  pose proof (wi_reqs _ _ _ Hc) as Hreqs. cbn in Hreqs. rewrite Ew in Hreqs.
  apply Forall_cons in Hreqs as [Hso _].
  destruct (cut_size_range _ _ (sok_size _ _ Hso) Hsent) as (? & ? & ?).
  constructor.
  - exists so. split; [done|]. split; [done|]. intros Hred. rewrite Es.
    by apply cut_size_aligned, (sok_align _ _ Hso).
  - done.
  - by rewrite (filled_psn _ _ _ Hf).
  - rewrite Es. lia.
  - rewrite Ed, Es. apply (in_memory_sub _ _ (so_size so)); [apply Hso|lia..].
Qed.

Lemma produced_cuts s s' ts so st rest :
  gen_ok s -> contents (wq (qp s)) = so :: rest -> cur_sub_op (gen s) = Some so ->
  produced s s' ts st so -> held_of [st] ++ contents (wq (qp s')) = contents (wq (qp s)) ->
  cuts s [st] s'.
Proof.
  unfold gen_ok. intros Hg Ew Ecur (E & _ & Eso & El & Ed & Es & _) Hh. rewrite Ecur in Hg.
  destruct Hg as (_ & _ & _ & Hcnt & Hsent & _). rewrite Hcnt in El, Hsent.
  exists [{| sl_op := so; sl_no := pkt_sent (gen s) |}]. split; [by repeat constructor|].
  assert (cur_sub_op (gen s') = (if is_last st then None else Some so)
    /\ pkt_sent (gen s') = pkt_sent (gen s) + 1) as [Ec Ep] by by rewrite E.
  unfold to_cut. rewrite Ecur, Ew, Ec, Ep, slices_from_cons by lia. cbn [app]. f_equal.
  unfold held_of in Hh. cbn in Hh. rewrite Eso, Ew in Hh. destruct (is_last st).
  - cbn in Hh. injection Hh as ->. symmetry in El. apply Z.eqb_eq in El.
    rewrite El, slices_from_end. by destruct rest.
  - cbn in Hh. by rewrite Hh.
Qed.

Lemma produced_core s s' ts l base so st rest :
  worker_core (at_send ts s) l base -> contents (wq (qp s)) = so :: rest ->
  cur_sub_op (gen s) = Some so -> produced s s' ts st so ->
  qp_inv (qp s', held_of (l ++ [st])) ->
  held_of [st] ++ contents (wq (qp s')) = contents (wq (qp s)) ->
  Z.of_nat (length l) + 1 < MAX_WIN_LEN ->
  exists base', (l <> [] -> base' = base) /\ (l = [] -> u32 base' = next_psn s)
    /\ worker_core (at_send (get_next_position ts) s') (l ++ [st]) base'.
Proof.
  intros Hc Ew Ecur Hp Hq Hh Hlen.
  pose proof (produced_slot s s' ts l base so st rest Hc Ew Ecur Hp) as Hslot.
  destruct Hp as (E & _ & Eso & El & _ & _ & _ & _ & Hmb & _).
  pose proof (wi_gen _ _ _ Hc) as Hg. unfold gen_ok in Hg. cbn in Hg.
  rewrite Ecur in Hg. destruct Hg as (Hhead & Eg & Elim & Hcnt & Hsent & Hgp).
  set (p := start_psn (gen s) + pkt_sent (gen s)) in *.
  set (base' := match l with [] => p | _ => base end).
  assert (u32 (base' + Z.of_nat (length l)) = u32 p) as Ebase.
  { pose proof (wi_next _ _ _ Hc) as Hn. unfold next_psn in Hn. cbn in Hn. rewrite Ecur in Hn.
    unfold base'. destruct l as [|x l']; [by rewrite Z.add_0_r|]. by rewrite <- Hn by done. }
  exists base'. split; [by destruct l|]. split; [intros ->; unfold next_psn; by rewrite Ecur|].
  assert (l <> [] -> base' = base) as Hb by (by destruct l). clearbody base'.
  pose proof (ring_push _ _ st (wi_ring _ _ _ Hc) Hlen Hmb) as Hring.
  constructor.
  - rewrite E. exact Hring.
  - rewrite E. cbn. intros k st' Hk. destruct (decide (k = length l)) as [->|Hne].
    + rewrite list_lookup_middle in Hk by done. simplify_eq. by rewrite Ebase.
    + pose proof (lookup_lt_Some _ _ _ Hk) as Hlt. rewrite length_app in Hlt. simpl in Hlt.
      rewrite lookup_app_l in Hk by lia. rewrite Hb by (intros ->; simpl in *; lia).
      exact (wi_slots _ _ _ Hc _ _ Hk).
  - exact Hq.
  - pose proof (wi_reqs _ _ _ Hc) as Hreqs. cbn in Hreqs. rewrite <- Hh in Hreqs.
    apply Forall_app in Hreqs as [_ Hreqs]. rewrite E. exact Hreqs.
  - rewrite E. unfold gen_ok. cbn. unfold held_of in Hh. cbn in Hh. rewrite Eso in Hh.
    destruct (is_last st); [done|]. cbn in Hh. rewrite Hh.
    symmetry in El. apply Z.eqb_neq in El. split_and!; done || lia.
  - intros _. rewrite length_app. simpl length.
    replace (base' + Z.of_nat (length l + 1)) with ((base' + Z.of_nat (length l)) + 1) by lia.
    rewrite <- wrap_add_l, Ebase, wrap_add_l. rewrite E. unfold next_psn, group_psn_of. cbn.
    destruct (is_last st); [|f_equal; unfold p; lia].
    symmetry in El. apply Z.eqb_eq in El. unfold group_psn_of in Hgp. cbn in Hgp. rewrite Hgp. wrap_tac.
    f_equal. unfold p. lia.
  - rewrite E. apply Hc.
  - rewrite E. apply Hc.
  - rewrite E. apply Hc.
Qed.

(** * The loop of [shift_send] *)

Record sending (s : worker) (l : list pkt_state_t) (base ts : Z) : Prop := {
  sd_core : worker_core (at_send ts s) l base;
  sd_left : left_ok s l base;
  (* an empty window can take a packet of any group *)
  sd_group : window_tx_empty s = true ->
    exists g, Forall (fun so => group_of so = g) (contents (wq (qp s)))
      /\ (l <> [] -> current_group_id s = g);
  sd_nonempty : window_tx_empty s = false -> l <> [];
}.

(** The generator has run dry, or the next sub-operation is of another group. *)
Definition stopped (s : worker) : Prop :=
  cur_sub_op (gen s) = None
  /\ (contents (wq (qp s)) = []
      \/ exists so, head (contents (wq (qp s))) = Some so /\ group_of so <> current_group_id s).

(** The slot of the window that a generated packet has been put into. *)
Definition put (w : window_t) (ts : Z) (st : pkt_state_t) : window_t :=
  {| w with slots := <[Z.to_nat ts := st]> (slots w) |}.

(** Where the generator stands after a packet of sub-operation [so]. *)
Definition tracked (s : worker) (l : list pkt_state_t) (base' : Z) (s' : worker)
    (so : sub_op_t) : Prop :=
  so ∈ contents (wq (qp s)) /\ current_group_id s' = group_of so
  /\ current_switch_window_limit s' = so_agg_len so `quot` 2
  /\ (l = [] -> u32 base' = stream_next (group_of so) s).

Lemma gen_pkt_runs s l base ts :
  sending s l base ts -> Z.of_nat (length l) + 1 < MAX_WIN_LEN ->
  runs (gen_pkt ts) s (fun b s' => same_rest s s' /\ tp s' = tp s /\
    if b then exists st so base',
      (l <> [] -> base' = base) /\ acked st = false
      /\ sp_sub_op st = Some so /\ filled so st (sp_pkt st) /\ holds_data (mem s) so st
      /\ tracked s l base' s' so
      /\ worker_core (at_send (get_next_position ts) s') (l ++ [st]) base'
      /\ window s' = put (window s) ts st
      /\ (window_tx_empty s = true -> exists g,
            Forall (fun so => group_of so = g) (contents (wq (qp s'))) /\ current_group_id s' = g)
      /\ contents (cq (qp s')) = contents (cq (qp s))
      /\ held_of [st] ++ contents (wq (qp s')) = contents (wq (qp s))
      /\ cuts s [st] s'
    else s' = {| s with traffic_todo := false |} /\ stopped s).
Proof.
  intros [Hc Hl Hg Hne] Hlen. unfold gen_pkt. run_step.
  eapply runs_mono; [apply (next_sub_op_runs s (l <> []))|].
  - exact (wi_gen _ _ _ Hc).
  - exact (wi_reqs _ _ _ Hc).
  - intros Hl0 so Hhead Hemp. destruct (Hg Hemp) as (g & Hall & Hcur).
    rewrite (Hcur Hl0). destruct (contents (wq (qp s))); [done|]. simplify_eq/=.
    by apply Forall_cons in Hall as [? _].
  - intros b s1 [E Hb]. destruct b.
    2:{ run_step. destruct Hb as [[Hcur Hwhy] ->]. do 3 (split; [done|]). split; [done|].
        destruct Hwhy as [?|[_ ?]]; [by left|by right]. }
    destruct Hb as (so & rest & Ew & Ecur & Hgen & Hnext & Hsame & Ecut).
    pose proof (next_sub_op_core ts s s1 l base Hc E Hgen Hsame) as Hc1.
    assert (qp s1 = qp s) as Eq by (by rewrite E). assert (window s1 = window s) as Ewin by (by rewrite E).
    pose proof (wi_ring _ _ _ Hc1) as Hr.
    assert (0 <= ts < Z.of_nat (length (slots (window s1)))) as Hts.
    { pose proof (ring_to_send _ _ Hr) as Et. pose proof (ring_slots_length _ _ Hr) as Hsl.
      cbn in Et, Hsl. rewrite Et, Hsl. apply pos_at_range. }
    assert (current_group_id s1 = group_of so
      /\ current_switch_window_limit s1 = so_agg_len so `quot` 2) as [Hgid Hlim].
    { unfold gen_ok in Hgen. rewrite Ecur in Hgen. by destruct Hgen as (_ & ? & ? & _). }
    rewrite <- Eq in Ew.
    run_step. eapply runs_mono; [by apply (produce_pkt_runs s1 ts l base so rest)|].
    intros _ s2 (st & Hp & Hq & Hcq & Hh). run_step.
    destruct (produced_core s1 s2 ts l base so st rest Hc1 Ew Ecur Hp Hq Hh Hlen) as (base' & Hb' & Hb0 & Hc2).
    pose proof Hp as (E2 & Ha & Eso & _ & _ & _ & _ & Hf & _ & Hdat).
    assert (mem s1 = mem s) as Em by (by rewrite E). rewrite Em in Hdat.
    split; [rewrite E2, E; done|]. split; [rewrite E2, E; done|].
    exists st, so, base'. do 5 (split; [done|]). split.
    { split; [rewrite <- Eq, Ew; by left|]. rewrite E2. cbn.
      split; [done|]. split; [done|]. intros Hl0. by rewrite Hb0. }
    split; [done|]. split; [by rewrite E2, Ewin|]. split.
    + intros Hemp. destruct (Hg Hemp) as (g & Hall & _). rewrite <- Eq, <- Hh in Hall.
      exists g. split; [by apply Forall_app in Hall as [_ ?]|].
      rewrite Hh, Ew in Hall. apply Forall_cons in Hall as [<- _].
      rewrite E2. unfold gen_ok in Hgen. rewrite Ecur in Hgen. by destruct Hgen as (_ & -> & _).
    + split; [by rewrite Hcq, Eq|]. split; [by rewrite Hh, Eq|].
      destruct (produced_cuts s1 s2 ts so st rest Hgen Ew Ecur Hp Hh) as (xs & Hxs & Ex).
      exists xs. by rewrite <- Ecut.
Qed.

Lemma after_gen_runs s l base ts st :
  worker_core (at_send (get_next_position ts) s) (l ++ [st]) base ->
  ts = pos_at (to_ack (window s)) (length l) -> left_ok s l base ->
  runs (after_gen (Z.of_nat (length l)) ts) s (fun _ s' =>
    worker_core (at_send (get_next_position ts) s') (l ++ [st]) base
    /\ left_ok s' (l ++ [st]) base
    /\ same_gen s s' /\ qp s' = qp s /\ same_rest s s'
    /\ to_ack (window s') = to_ack (window s) /\ to_send (window s') = to_send (window s)
    /\ last_ack_time_stamp (window s') = last_ack_time_stamp (window s)
    /\ tp_sent (tp s') = tp_sent (tp s) ++ [(ts, sp_pkt st)]).
Proof.
  intros Hc Ets Hl. pose proof (wi_ring _ _ _ Hc) as Hr.
  assert ((l ++ [st]) !! length l = Some st) as Hst by (by rewrite list_lookup_middle).
  pose proof (ring_lookup _ _ Hr _ _ Hst) as Hp. cbn in Hp. rewrite <- Ets in Hp.
  unfold after_gen. run_step.
  eapply (runs_mono _ _ (fun _ s' => exists left, (l = [] \/ l <> [] /\ left = left_psn (window s))
    /\ (l = [] -> left = u32 base)
    /\ s' = {| s with window := {| (window s) with left_psn := left |} |})).
  { destruct l as [|x l]; cbn [length].
    - change (Z.of_nat 0 =? 0) with true. cbv iota. do 2 run_step. rewrite pos_at_0 in Ets by (pose proof (ring_to_ack _ _ Hr); done).
      rewrite Ets in Hp. run_step. eapply runs_slot; [done|]. unfold on_window. run_step.
      exists (get_psn (sp_pkt st)). split; [by left|]. split; [|done]. intros _.
      rewrite (slot_pkt_psn _ _ _ _ (wi_slots _ _ _ Hc 0 st eq_refl)). f_equal. simpl. lia.
    - rewrite (proj2 (Z.eqb_neq _ _)) by lia. run_step.
      exists (left_psn (window s)). split; [by right|]. split; [done|].
      by destruct s as [[]]. }
  intros _ s1 (left & Hleft & Hleft0 & ->).
  assert (left = u32 base) as El.
  { destruct Hleft as [?|[? ->]]; [by apply Hleft0|by apply Hl]. }
  run_step. eapply runs_mono; [apply (transmit_spec _ ts st); [apply Hc|exact Hp|exact (ring_mbuf _ _ _ _ Hr Hp)]|].
  intros _ s2 (E & Ht & Hlog & _). unfold on_stats. run_step. rewrite E. cbn.
  split; [|split; [by intros _|]].
  - apply (core_same (at_send (get_next_position ts) s)); try done.
    apply (ring_ext _ _ _ Hr); done.
  - do 6 (split; [done|]). exact Hlog.
Qed.

(** One iteration of the loop. *)
Lemma sending_step s l base ts s1 st so base1 s2 :
  sending s l base ts ->
  (l <> [] -> base1 = base) -> sp_sub_op st = Some so ->
  window s1 = put (window s) ts st ->
  (window_tx_empty s = true -> exists g,
     Forall (fun so => group_of so = g) (contents (wq (qp s1))) /\ current_group_id s1 = g) ->
  worker_core (at_send (get_next_position ts) s2) (l ++ [st]) base1 ->
  left_ok s2 (l ++ [st]) base1 -> same_gen s1 s2 -> qp s2 = qp s1 ->
  to_ack (window s2) = to_ack (window s1) -> to_send (window s2) = to_send (window s1) ->
  sending s2 (l ++ [st]) base1 (get_next_position ts).
Proof.
  intros Hs Hb Hso Ew Hg Hc Hl (_ & _ & _ & Ec) Eq Ea Es.
  assert (window_tx_empty s2 = window_tx_empty s) as Ee.
  { unfold window_tx_empty. by rewrite Ea, Es, Ew. }
  constructor; try done.
  - rewrite Ee, Eq, Ec. intros He. destruct (Hg He) as (g & Hall & Hcur). by exists g.
  - intros _ Hn. by apply app_eq_nil in Hn as [_ ?].
Qed.

(** A packet fresh from the memory of [s]. *)
Definition fresh_packet (s : worker) (st : pkt_state_t) : Prop :=
  acked st = false
  /\ exists so, sp_sub_op st = Some so /\ filled so st (sp_pkt st) /\ holds_data (mem s) so st.

Lemma fresh_packet_mem s s' st : mem s' = mem s -> fresh_packet s' st -> fresh_packet s st.
Proof. unfold fresh_packet. by intros ->. Qed.

(** The packets the loop has added, in the order they were transmitted. *)
Definition added (s : worker) (l new : list pkt_state_t) (s' : worker) : Prop :=
  Forall (fresh_packet s) new
  /\ tp_sent (tp s') = tp_sent (tp s) ++ (to_wire <$> placed (to_ack (window s)) (length l) new)
  /\ contents (cq (qp s')) = contents (cq (qp s))
  /\ held_of new ++ contents (wq (qp s')) = contents (wq (qp s))
  /\ to_ack (window s') = to_ack (window s)
  /\ last_ack_time_stamp (window s') = last_ack_time_stamp (window s)
  /\ same_rest s s' /\ cuts s new s'.

Lemma added_nil s l : added s l [] s.
Proof. unfold added, same_rest. cbn. rewrite app_nil_r. split_and!; try done. by apply cuts_nil. Qed.

Lemma added_cons s l st new s1 s' :
  to_ack (window s1) = to_ack (window s) ->
  last_ack_time_stamp (window s1) = last_ack_time_stamp (window s) -> same_rest s s1 ->
  fresh_packet s st ->
  tp_sent (tp s1) = tp_sent (tp s) ++ [(pos_at (to_ack (window s)) (length l), sp_pkt st)] ->
  contents (cq (qp s1)) = contents (cq (qp s)) ->
  held_of [st] ++ contents (wq (qp s1)) = contents (wq (qp s)) -> cuts s [st] s1 ->
  added s1 (l ++ [st]) new s' -> added s l (st :: new) s'.
Proof.
  intros Ea El Hr Hst Ht Hc Hh Hcut (Hall & Ht' & Hc' & Hh' & Ea' & El' & Hr' & Hcut').
  split.
  { constructor; [done|]. eapply Forall_impl; [exact Hall|].
    intros x. by apply fresh_packet_mem, Hr. } split; [|split; [|split; [|split; [|split; [|split]]]]].
  - rewrite Ht', Ht, placed_cons, length_app, Ea. simpl length.
    replace (length l + 1)%nat with (S (length l)) by lia. by rewrite <- app_assoc.
  - by rewrite Hc'.
  - rewrite (held_of_app [st] new : held_of (st :: new) = _), <- app_assoc, Hh'. done.
  - by rewrite Ea'.
  - by rewrite El'.
  - by eapply same_rest_trans.
  - by apply (cuts_app s s1 s' [st]).
Qed.

(** Where the generator stands after the packets [new]. *)
Definition tracks (s : worker) (l new : list pkt_state_t) (base' : Z) (s' : worker) : Prop :=
  match new with
  | [] => same_gen s s'
  | _ => exists so so', so ∈ contents (wq (qp s)) /\ so' ∈ contents (wq (qp s))
    /\ current_group_id s' = group_of so
    /\ current_switch_window_limit s' = so_agg_len so `quot` 2
    /\ (l = [] -> u32 base' = stream_next (group_of so') s)
  end.

Lemma tracks_cons s l st new base1 base' s1 s2 s' so :
  tracked s l base1 s1 so -> same_gen s1 s2 -> qp s2 = qp s1 ->
  held_of [st] ++ contents (wq (qp s1)) = contents (wq (qp s)) -> base' = base1 ->
  tracks s2 (l ++ [st]) new base' s' -> tracks s l (st :: new) base' s'.
Proof.
  intros (Hin & Hg & Hlim & Hb) (_ & _ & El & Ec) Eq Hh -> Ht. destruct new as [|st' new].
  - destruct Ht as (_ & _ & El' & Ec'). exists so, so. by rewrite Ec', Ec, El', El.
  - destruct Ht as (so' & _ & Hin' & _ & Hg' & Hl' & _). exists so', so. split; [|done].
    rewrite <- Hh, <- Eq. apply elem_of_app. by right.
Qed.

Lemma shift_send_loop_runs n expect s l base ts :
  sending s l base ts -> expect <= MAX_WIN_LEN - 1 -> expect - Z.of_nat (length l) <= Z.of_nat n ->
  runs (shift_send_loop n expect (Z.of_nat (length l)) ts) s (fun r s' => exists new base',
    sending s' (l ++ new) base' r.2 /\ r.1 = Z.of_nat (length (l ++ new))
    /\ (l <> [] -> base' = base)
    /\ (new = [] \/ Z.of_nat (length (l ++ new)) <= expect)
    /\ (Z.of_nat (length (l ++ new)) < expect -> stopped s')
    /\ tracks s l new base' s' /\ added s l new s').
Proof.
  intros Hs He. revert s l base ts Hs. induction n as [|n IH]; intros s l base ts Hs Hn;
    unfold runs; cbn [shift_send_loop];
    destruct (Z.ltb_spec (Z.of_nat (length l)) expect) as [Hlt|Hge]; try lia.
  1,3: eexists _, s; split; [done|]; exists [], base; rewrite app_nil_r; cbn [fst snd];
    split_and!; [done|done|done|by left|lia|done|by apply added_nil].
  apply runs_bind. eapply runs_mono; [apply (gen_pkt_runs s l base ts Hs); lia|].
  cbn beta. intros [] s1 (Hr1 & Et1 & Hb).
  2:{ run_step. destruct Hb as [-> Hstop]. exists [], base. rewrite app_nil_r. cbn [fst snd].
      split_and!; try done; [|by left|by apply (added_nil s)].
      destruct Hs as [Hc Hl Hg Hne]. constructor; try done.
      apply (core_same (at_send ts s)); try done; apply Hc. }
  destruct Hb as (st & so & base1 & Hb1 & Hack & Hso & Hf & Hdat & Htr & Hc1 & Ew & Hg1 & Hcq & Hh & Hcut).
  pose proof (ring_to_send _ _ (wi_ring _ _ _ (sd_core _ _ _ _ Hs))) as Ets. cbn in Ets.
  apply runs_bind. eapply runs_mono; [apply (after_gen_runs s1 l base1 ts st Hc1)|].
  { by rewrite Ew. }
  { intros Hl. rewrite (Hb1 Hl), Ew. by apply Hs. }
  cbn beta. intros _ s2 (Hc2 & Hl2 & Hg2 & Eq2 & Hr2 & Ea2 & Es2 & Els2 & Hlog2).
  pose proof (sending_step _ _ _ _ _ _ _ _ _ Hs Hb1 Hso Ew Hg1 Hc2 Hl2 Hg2 Eq2 Ea2 Es2) as Hs2.
  replace (Z.of_nat (length l) + 1) with (Z.of_nat (length (l ++ [st])))
    by (rewrite length_app; simpl; lia).
  eapply runs_mono; [apply (IH s2 _ base1 _ Hs2); rewrite length_app; simpl; lia|].
  intros r s3 (new & base2 & Hs3 & Er & Hb2 & Hle & Hstop & Htr3 & Hadd).
  rewrite <- app_assoc in Hs3, Er, Hle, Hstop. exists (st :: new), base2. split_and!; try done.
  - intros Hl. rewrite Hb2 by (by destruct l). by apply Hb1.
  - right. destruct Hle as [-> | Hle]; [|done]. rewrite length_app. simpl. lia.
  - eapply tracks_cons; try done. apply Hb2. by destruct l.
  - apply (added_cons s l st new s2 s3); try done.
    + by rewrite Ea2, Ew.
    + by rewrite Els2, Ew.
    + by eapply same_rest_trans.
    + split; [done|]. by exists so.
    + by rewrite Hlog2, Et1, Ets.
    + by rewrite Eq2.
    + by rewrite Eq2.
    + destruct Hcut as (xs & Hxs & Ex). exists xs. split; [done|]. rewrite Ex. f_equal.
      symmetry. apply to_cut_same; [apply Hg2|by rewrite Eq2].
Qed.

(** * [shift_send] *)

(** Before an empty window is filled, the queued sub-operations must be of one
    group: [gen_pkt] tests for an empty window with the old [to_send]. *)
Definition uniform (s : worker) : Prop :=
  exists g, Forall (fun so => group_of so = g) (contents (wq (qp s))).

(** The window is closed at [ts]. *)
Definition closed (s s' : worker) (ts cwa_right : Z) (cwa : bool) : Prop :=
  s' = {| s with ccs := {| (ccs s) with cwnd_achieved := cwa |};
                 window := {| (window s) with to_send := ts; right_psn := cwa_right |} |}.

Lemma close_window_runs s l base win_len ts :
  worker_core (at_send ts s) l base ->
  runs (close_window win_len ts) s (fun _ s' => exists right cwa,
    closed s s' ts right cwa /\ (l <> [] -> right = u32 (base + Z.of_nat (length l) - 1))).
Proof.
  intros Hc. unfold close_window. do 2 run_step. run_step.
  apply (runs_mono _ _ (fun _ s' => exists cwa,
    s' = {| s with ccs := {| (ccs s) with cwnd_achieved := cwa |} |})).
  { unfold on_ccs. destruct (_ <=? win_len); run_step; [by exists true|].
    exists (cwnd_achieved (ccs s)). by destruct s as [? ? ? ? ? ? ? []]. }
  intros _ s1 [cwa ->]. unfold on_window. do 4 run_step.
  match goal with |- runs _ ?x _ => set (s2 := x) end.
  pose proof (wi_ring _ _ _ Hc) as Hr.
  assert (ring (window s2) l) as Hr2 by (by apply (ring_ext _ _ _ Hr)).
  rewrite (window_tx_empty_ring s2 l Hr2).
  destruct l as [|st l' _] using rev_ind.
  { do 3 run_step. by exists 0, cwa. }
  assert (match l' ++ [st] with [] => true | _ => false end = false) as -> by (by destruct l').
  assert ((l' ++ [st]) !! length l' = Some st) as Hst by (by rewrite list_lookup_middle).
  pose proof (ring_lookup _ _ Hr2 _ _ Hst) as Hp.
  rewrite (ring_to_send _ _ Hr2), length_app. cbn [length].
  rewrite Nat.add_1_r, prev_pos_at.
  run_step. apply runs_bind. eapply runs_slot; [exact Hp|]. do 2 run_step.
  eexists _, cwa. split; [done|]. intros _.
  rewrite (slot_pkt_psn _ _ _ _ (wi_slots _ _ _ Hc _ _ Hst)). f_equal. lia.
Qed.

(** What [shift_send] does to the window and the network. *)
Definition grown (s : worker) (l new : list pkt_state_t) (base base' : Z) (s' : worker) : Prop :=
  worker_inv s' (l ++ new) base' /\ (l <> [] -> base' = base)
  /\ (new = [] \/ Z.of_nat (length (l ++ new)) <= expect_win_len s)
  /\ (Z.of_nat (length (l ++ new)) < expect_win_len s -> stopped s')
  /\ tracks s l new base' s'
  /\ added s l new s'.

Lemma closed_grown s l new base base' s1 s2 ts right cwa :
  sending s1 (l ++ new) base' ts -> closed s1 s2 ts right cwa ->
  (l ++ new <> [] -> right = u32 (base' + Z.of_nat (length (l ++ new)) - 1)) ->
  (l <> [] -> base' = base) ->
  (new = [] \/ Z.of_nat (length (l ++ new)) <= expect_win_len s) ->
  (Z.of_nat (length (l ++ new)) < expect_win_len s -> stopped s1) ->
  tracks s l new base' s1 -> added s l new s1 -> grown s l new base base' s2.
Proof.
  intros [Hc Hl _ _] E Hright Hb Hle Hstop Htr Hadd. rewrite E.
  split; [|split_and!; try done; by destruct new].
  constructor; [|done|done]. apply (core_same (at_send ts s1)); try done; [|apply Hc].
  by apply (ring_ext _ _ _ (wi_ring _ _ _ Hc)).
Qed.

Lemma sending_start s l base :
  worker_inv s l base -> (l = [] -> uniform s) -> sending s l base (to_send (window s)).
Proof.
  intros [Hc Hl _] Hu.
  assert (at_send (to_send (window s)) s = s) as Es by by destruct s as [[]].
  constructor; [by rewrite Es|done|..];
    rewrite (window_tx_empty_ring _ _ (wi_ring _ _ _ Hc)); destruct l; try done.
  intros _. destruct (Hu eq_refl) as [g Hg]. by exists g.
Qed.

Lemma shift_send_runs s l base :
  worker_inv s l base -> (l = [] -> uniform s) ->
  runs shift_send s (fun _ s' => exists new base', grown s l new base base' s').
Proof.
  intros Hi Hu. pose proof (wi_ring _ _ _ Hi) as Hr. pose proof (ring_length _ _ Hr).
  unfold shift_send. do 2 run_step. rewrite (window_len_ring _ _ Hr). run_step.
  eapply runs_mono;
    [apply (shift_send_loop_runs _ _ _ _ base _ (sending_start _ _ _ Hi Hu)); unfold expect_win_len, fuel; lia|].
  cbn beta. intros r s1 (new & base' & Hs1 & -> & Hb & Hle & Hstop & Htr & Hadd).
  eapply runs_mono; [apply (close_window_runs s1 (l ++ new) base'), Hs1|].
  intros _ s2 (right & cwa & E & Hright). exists new, base'. by eapply closed_grown.
Qed.

(** * Timeouts *)

(** A retransmission after a timeout: every unacknowledged packet of the window
    once, in order; the congestion control restarts. *)
Definition resent (s s' : worker) (l : list pkt_state_t) : Prop :=
  tp_sent (tp s') = tp_sent (tp s) ++ unacked_log (to_ack (window s)) 0 l
  /\ qp s' = qp s /\ same_gen s s' /\ mem s' = mem s /\ ack_cnt s' = ack_cnt s
  /\ global_ts s' = global_ts s
  /\ to_ack (window s') = to_ack (window s)
  /\ (l <> [] -> last_ack_time_stamp (window s') = global_ts s
                 /\ cc (ccs s') = cc_reinit (global_ts s) (cc (ccs s))).

Lemma full_retrans_runs s l base :
  worker_inv s l base ->
  runs full_retrans s (fun _ s' => worker_inv s' l base /\ resent s s' l).
Proof.
  intros Hi. pose proof (wi_ring _ _ _ Hi) as Hr.
  unfold full_retrans, resent. do 2 run_step. rewrite (window_tx_empty_ring _ _ Hr).
  destruct l as [|st l].
  { run_step. split; [done|]. unfold unacked_log. cbn. rewrite app_nil_r.
    do 7 (split; [done|]). done. }
  unfold on_window, on_stats, on_ccs, transmit_unacked. do 5 run_step.
  match goal with |- runs _ ?x _ => set (s1 := x) end.
  assert (worker_inv s1 (st :: l) base) as Hi1.
  { destruct Hi as [Hc Hl0 Hr0]. constructor; [|done|done].
    apply (core_same s); try done; [|apply Hc]. by apply (ring_ext _ _ _ Hr). }
  pose proof (wi_ring _ _ _ Hi1) as Hr1.
  pose proof (transmit_unacked_spec s1 (st :: l) 0 fuel 0 Hr1 (wi_tp _ _ _ Hi1)) as Ht.
  rewrite pos_at_0, drop_0 in Ht by apply Hr1.
  pose proof (fuel_enough _ _ Hr1) as Hf. cbn in Hf.
  eapply runs_mono; [apply Ht; simpl; lia|].
  cbn beta. intros c s2 [Hs _]. pose proof (inv_sends _ _ _ _ _ Hi1 Hs) as Hi2.
  destruct Hs as (E & _ & Hlog & _). do 3 run_step. split.
  - apply (inv_bookkeeping s2); [|exact Hi2]. by split.
  - cbn. rewrite E. do 7 (split; [done|]). done.
Qed.

(** The decision of [tx_process]. *)
Definition last_ack (s : worker) : Z :=
  if ack_cnt s =? prev_ack_cnt s then last_ack_time_stamp (window s) else global_ts s.
Definition timed_out (s : worker) : bool := TIMEOUT_TIME <=? global_ts s - last_ack s.

(** What one call of [tx_process] transmits. *)
Definition tx_log (s : worker) (l new : list pkt_state_t) : list (Z * mbuf) :=
  (if timed_out s then unacked_log (to_ack (window s)) 0 l else [])
  ++ (to_wire <$> placed (to_ack (window s)) (length l) new).

Lemma inv_stamp s l base t c :
  worker_inv s l base ->
  worker_inv {| s with prev_ack_cnt := c;
                       window := {| (window s) with last_ack_time_stamp := t |} |} l base.
Proof.
  intros [Hc Hl Hr]. constructor; [|done|done]. apply (core_same s); try done; [|apply Hc].
  by apply (ring_ext _ _ _ (wi_ring _ _ _ Hc)).
Qed.

(** The first two steps of [tx_process]. *)
Lemma tx_prepare_runs s l base (K : M worker unit) Q :
  worker_inv s l base ->
  (forall s1, worker_inv s1 l base -> qp s1 = qp s -> same_gen s s1 -> mem s1 = mem s ->
     global_ts s1 = global_ts s -> ack_cnt s1 = ack_cnt s ->
     to_ack (window s1) = to_ack (window s) ->
     tp_sent (tp s1) = tp_sent (tp s)
       ++ (if timed_out s then unacked_log (to_ack (window s)) 0 l else []) ->
     runs K s1 Q) ->
  runs ((if ack_cnt s =? prev_ack_cnt s then ret tt
         else modify (fun s => {| s with prev_ack_cnt := ack_cnt s |}) ;;;
              on_window (fun w => {| w with last_ack_time_stamp := global_ts s |})) ;;;
        s <- get ;;
        (if TIMEOUT_TIME <=? global_ts s - last_ack_time_stamp (window s)
         then full_retrans else ret tt) ;;;
        K) s Q.
Proof.
  intros Hi HK. run_step.
  apply (runs_mono _ _ (fun _ s' => exists c,
    s' = {| s with prev_ack_cnt := c;
                   window := {| (window s) with last_ack_time_stamp := last_ack s |} |})).
  { unfold on_window, last_ack. destruct (ack_cnt s =? prev_ack_cnt s).
    - run_step. exists (prev_ack_cnt s). by destruct s as [[]].
    - do 3 run_step. by eexists. }
  intros _ s1 [c ->]. do 2 run_step. run_step.
  pose proof (inv_stamp s l base (last_ack s) c Hi) as Hi1. cbn [global_ts window last_ack_time_stamp].
  unfold timed_out in HK. destruct (TIMEOUT_TIME <=? global_ts s - last_ack s).
  - eapply runs_mono; [apply (full_retrans_runs _ _ _ Hi1)|].
    intros _ s2 (Hi2 & Hlog & Eq & Hg & Hm & Ha & Ht & Hta & _). by apply HK.
  - run_step. apply HK; try done. by rewrite app_nil_r.
Qed.

Lemma tracks_gen s s1 l new base' s' :
  same_gen s s1 -> qp s1 = qp s -> tracks s1 l new base' s' -> tracks s l new base' s'.
Proof.
  intros Hg Eq. unfold tracks. destruct new.
  - unfold same_gen in *. intuition congruence.
  - rewrite Eq. intros (so & so' & ? & ? & ? & ? & Hb). exists so, so'. split_and!; try done.
    by rewrite <- (same_gen_stream _ _ _ Hg).
Qed.

Lemma tx_process_runs s l base :
  worker_inv s l base -> (l = [] -> uniform s) ->
  runs tx_process s (fun _ s' => exists new base',
    worker_inv s' (l ++ new) base' /\ (l <> [] -> base' = base)
    /\ tp_sent (tp s') = tp_sent (tp s) ++ tx_log s l new
    /\ contents (cq (qp s')) = contents (cq (qp s))
    /\ held_of new ++ contents (wq (qp s')) = contents (wq (qp s))
    /\ mem s' = mem s
    /\ (new = [] \/ Z.of_nat (length (l ++ new)) <= current_switch_window_limit s)
    /\ Forall (fresh_packet s) new
    /\ to_ack (window s') = to_ack (window s)
    /\ tracks s l new base' s' /\ cuts s new s').
Proof.
  intros Hi Hu. unfold tx_process. do 2 run_step. apply (tx_prepare_runs s l base _ _ Hi).
  intros s1 Hi1 Eq Hg Hm Ht Ha Hta Hlog. run_step.
  eapply runs_mono; [apply (shift_send_runs s1 l base Hi1); unfold uniform; by rewrite Eq|].
  intros _ s2 (new & base' & Hi2 & Hb & Hle & _ & Htr & Hadd).
  destruct Hadd as (Hall & Hs & Hcq & Hh & Ea & _ & Hrest).
  apply (tracks_gen s) in Htr; [|done..].
  assert (new = [] \/ Z.of_nat (length (l ++ new)) <= current_switch_window_limit s) as Hlim.
  { destruct Hle as [?|Hle]; [by left|right]. unfold expect_win_len in Hle.
    destruct Hg as (_ & _ & <- & _). lia. }
  assert (Forall (fresh_packet s) new) as Hnew.
  { eapply Forall_impl; [exact Hall|]. intros st. by apply fresh_packet_mem. }
  rewrite Hta in Ea.
  assert (tp_sent (tp s2) = tp_sent (tp s) ++ tx_log s l new) as Hlog2.
  { rewrite Hs, Hlog, Hta. unfold tx_log. by rewrite <- app_assoc. }
  rewrite Eq in Hcq, Hh. destruct Hrest as ((Hm2 & _) & Hcut). rewrite Hm in Hm2.
  assert (cuts s new s2) as Hcut2.
  { destruct Hcut as (xs & Hxs & Ex). exists xs. split; [done|]. rewrite <- Ex.
    symmetry. apply to_cut_same; [apply Hg|by rewrite Eq]. }
  do 2 run_step. unfold on_window. destruct (window_tx_empty s2); run_step; exists new, base'.
  - split; [destruct s2; apply (inv_stamp _ _ _ _ _ Hi2)|].
    do 8 (split; [done|]). split; [by destruct new|exact Hcut2].
  - by do 10 (split; [done|]).
Qed.

(** * The claims *)

(** C14: [shift_send] appends freshly cut packets to the window, transmits each
    once and in order, never grows the window beyond the window size, the
    switch memory limit, the congestion window and the burst limit, and stops
    short of them only when nothing can be sent.  When the window is empty, the
    sub-operations waiting have to be of one group ([uniform]). *)
Theorem shift_send_spec s l base :
  worker_inv s l base -> (l = [] -> uniform s) ->
  let limit := Z.min (MAX_WIN_LEN - 1) (Z.min (current_switch_window_limit s)
                 (Z.min (f64_trunc (cwnd (cc (ccs s)))) (Z.of_nat (length l) + MAX_PKT_BURST))) in
  runs shift_send s (fun _ s' => exists new base',
    worker_inv s' (l ++ new) base' /\ (l <> [] -> base' = base)
    /\ (new = [] \/ Z.of_nat (length (l ++ new)) <= limit)
    /\ (Z.of_nat (length (l ++ new)) < limit -> stopped s')
    /\ Forall (fun st => acked st = false
         /\ exists so, sp_sub_op st = Some so /\ filled so st (sp_pkt st)) new
    /\ tp_sent (tp s') = tp_sent (tp s)
         ++ (to_wire <$> placed (to_ack (window s)) (length l) new)
    /\ contents (cq (qp s')) = contents (cq (qp s))
    /\ held_of new ++ contents (wq (qp s')) = contents (wq (qp s))).
Proof.
  intros Hi Hu limit. eapply runs_mono; [by apply (shift_send_runs s l base)|].
  intros _ s' (new & base' & Hi' & Hb & Hle & Hstop & _ & (Hall & Hlog & Hcq & Hh & _)).
  unfold expect_win_len in Hle, Hstop. rewrite (window_len_ring _ _ (wi_ring _ _ _ Hi)) in Hle, Hstop.
  exists new, base'. do 4 (split; [done|]). split; [|by split_and!].
  eapply Forall_impl; [exact Hall|]. intros st (? & so & ? & ? & _). split; [done|]. by exists so.
Qed.

(** A timeout retransmits exactly the unacknowledged packets of the window,
    each once and in order, and restarts the congestion control. *)
Theorem full_retrans_spec s l base :
  worker_inv s l base ->
  runs full_retrans s (fun _ s' => worker_inv s' l base
    /\ tp_sent (tp s') = tp_sent (tp s)
         ++ (to_wire <$> filter unacked (placed (to_ack (window s)) 0 l))
    /\ (l <> [] -> last_ack_time_stamp (window s') = global_ts s
                   /\ cc (ccs s') = cc_reinit (global_ts s) (cc (ccs s)))).
Proof.
  intros Hi. eapply runs_mono; [by apply full_retrans_runs|].
  intros _ s' (Hi' & Hlog & _ & _ & _ & _ & _ & _ & Ht). split; [done|]. by split.
Qed.

(** C27: [tx_process] retransmits the unacknowledged packets exactly when no new
    acknowledgement has come for [TIMEOUT_TIME]; then it sends new packets;
    it answers nothing and leaves the memory alone. *)
Theorem tx_process_spec s l base :
  worker_inv s l base -> (l = [] -> uniform s) ->
  let quiet := if ack_cnt s =? prev_ack_cnt s
               then global_ts s - last_ack_time_stamp (window s) else 0 in
  runs tx_process s (fun _ s' => exists new base',
    worker_inv s' (l ++ new) base' /\ (l <> [] -> base' = base)
    /\ tp_sent (tp s') = tp_sent (tp s)
         ++ (if TIMEOUT_TIME <=? quiet
             then to_wire <$> filter unacked (placed (to_ack (window s)) 0 l) else [])
         ++ (to_wire <$> placed (to_ack (window s)) (length l) new)
    /\ contents (cq (qp s')) = contents (cq (qp s))
    /\ held_of new ++ contents (wq (qp s')) = contents (wq (qp s))
    /\ mem s' = mem s).
Proof.
  intros Hi Hu quiet. eapply runs_mono; [by apply (tx_process_runs s l base)|].
  assert (quiet = global_ts s - last_ack s) as Eq.
  { unfold quiet, last_ack. destruct (_ =? _); lia. }
  intros _ s' (new & base' & Hi' & Hb & Hlog & Hcq & Hh & Hm & _). exists new, base'.
  split; [done|]. split; [done|]. split; [|done]. by rewrite Hlog, Eq.
Qed.
End send.
