(* ===== verification/WorkerSafety.v ===== *)
(** The worker thread as a whole: rounds of [worker_loop] interleaved with the
    requests of the load balancer and the arrival of packets. *)

From S2P Require Import Prelude.
From S2P Require Import Types.
From S2P Require Import Endian.
From S2P Require Import Config.
From S2P Require Import Congestion.
From S2P Require Import QueuePair.
From S2P Require Import Worker.
From S2P Require Import Window.
From S2P Require Import WorkerInv.
From S2P Require Import Receive.
From S2P Require Import Packet.
From S2P Require Import Send.

Section safety.
Context `{ConfigOk, SpscLaws, TransportLaws}.

(** * One round *)

Lemma marks_held l l' : marks l l' -> held_of l' = held_of l.
Proof.
  induction 1 as [|st st' l l' [-> | ->] _ IH]; [done|..]; unfold held_of in *; cbn; by rewrite IH.
Qed.

(** Everything a worker has been handed and not been relieved of. *)
Definition backlog (s : worker) (l : list pkt_state_t) : list sub_op_t :=
  contents (cq (qp s)) ++ held_of l ++ contents (wq (qp s)).

Lemma inv_time s l base ts :
  worker_inv s l base -> worker_inv {| s with global_ts := ts |} l base.
Proof. intros [Hc Hl Hr]. constructor; [|done|done]. apply (core_same s); try done; apply Hc. Qed.

Lemma inv_ccs s l base c :
  worker_inv s l base -> length (win_cnt c) = length (win_cnt (ccs s)) ->
  worker_inv {| s with ccs := c |} l base.
Proof. intros [Hc Hl Hr] Hw. constructor; [|done|done]. apply (core_same s); try done; apply Hc. Qed.

Lemma inv_congestion s l base c :
  worker_inv s l base ->
  congestion_control (global_ts s) (ack_cnt s) (traffic_todo s) (window_len s) (ccs s) = Ok (tt, c) ->
  worker_inv {| s with ccs := c |} l base.
Proof.
  intros Hi Hrun. pose proof (wi_ring _ _ _ Hi) as Hr. pose proof (ring_length _ _ Hr).
  rewrite (window_len_ring _ _ Hr) in Hrun. apply inv_ccs; [done|].
  refine (proj1 (runs_det _ _ _ _ _ Hrun (congestion_control_runs _ _ _ _ _ _))).
  rewrite (wi_win_cnt _ _ _ Hi). lia.
Qed.

Lemma worker_round_runs n ts s l base :
  worker_inv s l base -> uniform s -> (rx_measure s l <= n)%nat ->
  runs (worker_round n ts) s (fun _ s' => exists l' base',
    worker_inv s' l' base' /\ backlog s' l' = backlog s l /\ mem_ext (mem s) (mem s')
    /\ exists taken, contents (wq (qp s)) = taken ++ contents (wq (qp s'))).
Proof.
  intros Hi Hu Hn. unfold worker_round. do 3 run_step.
  eapply runs_mono; [apply (rx_process_runs n _ l base (inv_time _ _ _ ts Hi) Hn)|].
  cbn beta. intros _ s1 (l1 & m & Hm & _ & Hi1 & Hcq1 & Hwq1 & _ & He). cbn in Hcq1, Hwq1, He.
  run_step. eapply runs_mono; [apply (tx_process_runs _ _ _ Hi1)|].
  { intros _. unfold uniform. by rewrite Hwq1. }
  intros _ s2 (new & base2 & Hi2 & _ & _ & Hcq2 & Hh2 & Em & _). do 2 run_step.
  pose proof (wi_ring _ _ _ Hi2) as Hr2. pose proof (ring_length _ _ Hr2).
  rewrite (window_len_ring _ _ Hr2). run_step.
  eapply runs_mono; [apply congestion_control_runs; rewrite (wi_win_cnt _ _ _ Hi2); lia|].
  intros _ c [Hc _]. exists (drop m l1 ++ new), base2. split; [by apply inv_ccs|]. cbn. split.
  - unfold backlog. cbn. rewrite Hcq2, Hcq1, held_of_app, <- (marks_held _ _ Hm).
    rewrite <- (take_drop m l1) at 3. rewrite held_of_app, <- !app_assoc, Hh2, Hwq1. done.
  - split; [by rewrite Em|]. exists (held_of new). by rewrite Hh2, Hwq1.
Qed.

Lemma inv_restart s l base : worker_inv s l base -> worker_inv (restart_counts s) l base.
Proof.
  intros [Hc Hl Hr]. pose proof max_win_len_bounds.
  pose proof (tp_reset_ok _ (wi_tp _ _ _ Hc)) as [Ht _].
  constructor; [|done|done]. apply (core_same s); try done; [apply Hc|]. cbn.
  rewrite length_replicate. pose proof (wi_win_cnt _ _ _ Hc). lia.
Qed.

Lemma worker_loop_body_runs n ts lt s l base :
  worker_inv s l base -> uniform s -> (rx_measure s l <= n)%nat ->
  runs (worker_loop_body n ts lt) s (fun _ s' => exists l' base',
    worker_inv s' l' base' /\ backlog s' l' = backlog s l /\ mem_ext (mem s) (mem s')
    /\ exists taken, contents (wq (qp s)) = taken ++ contents (wq (qp s'))).
Proof.
  intros Hi Hu Hn. unfold worker_loop_body. run_step.
  eapply runs_mono; [by apply (worker_round_runs n ts s l base)|]. cbn beta.
  intros _ s1 (l1 & base1 & Hi1 & Hrest). destruct (_ <? _); [do 3 run_step|run_step]; exists l1, base1.
  - split; [by apply inv_restart|exact Hrest].
  - by split.
Qed.

(** * The worker and its environment *)

Record wsys := {
  ws : worker;
  w_pushed : list sub_op_t;     (** everything the load balancer has handed over *)
  w_collected : list sub_op_t;  (** everything it has collected *)
  w_log_ts : Z;                 (** [log_ts] of [worker_loop] *)
}.

(** Steps while every sub-operation is of group [g]. *)
Inductive wstep (g : Z) : wsys -> wsys -> Prop :=
  | w_round st n ts lt s' :
      worker_loop_body n ts (w_log_ts st) (ws st) = Ok (lt, s') ->
      wstep g st {| st with ws := s'; w_log_ts := lt |}
  | w_push st so q' :
      sub_op_ok (mem (ws st)) so -> group_of so = g ->
      push_req so (qp (ws st)) = Ok (true, q') ->
      wstep g st {| st with ws := {| (ws st) with qp := q' |};
                            w_pushed := w_pushed st ++ [so] |}
  | w_collect st so q1 q' :
      front_resp (qp (ws st)) = Ok (Some so, q1) -> pop_resp q1 = Ok (tt, q') ->
      wstep g st {| st with ws := {| (ws st) with qp := q' |};
                            w_collected := w_collected st ++ [so] |}
  | w_network st t :
      tp_inv t -> wstep g st {| st with ws := {| (ws st) with tp := t |} |}.

(** A worker as [dpdk_init] leaves it. *)
Record worker_start (s : worker) : Prop := {
  start_ring : ring (window s) [];
  start_qp : qp s = new_queue_pair;
  start_gen : cur_sub_op (gen s) = None;
  start_mem : mem_bytes (mem s);
  start_tp : tp_inv (tp s);
  start_win_cnt : Z.of_nat (length (win_cnt (ccs s))) = MAX_WIN_LEN;
}.

Definition w_reachable (g : Z) (st : wsys) : Prop :=
  exists s, worker_start s
    /\ rtc (wstep g) {| ws := s; w_pushed := []; w_collected := []; w_log_ts := 0 |} st.

Definition w_inv (g : Z) (st : wsys) : Prop :=
  exists l base, worker_inv (ws st) l base
    /\ Forall (fun so => group_of so = g) (contents (wq (qp (ws st))))
    /\ w_pushed st = w_collected st ++ backlog (ws st) l.

Lemma worker_start_inv s : worker_start s -> worker_inv s [] 0.
Proof.
  intros [Hr Hq Hg Hm Ht Hw]. constructor; [constructor|by intros ?..]; try done.
  - rewrite Hq. by apply new_queue_pair_inv.
  - rewrite Hq. cbn [wq]. unfold new_queue_pair. cbn [wq]. by rewrite contents_new.
  - unfold gen_ok. by rewrite Hg.
Qed.

Lemma start_inv g s :
  worker_start s -> w_inv g {| ws := s; w_pushed := []; w_collected := []; w_log_ts := 0 |}.
Proof.
  intros Hs. exists [], 0. unfold backlog. cbn [ws w_pushed w_collected].
  split; [by apply worker_start_inv|]. rewrite (start_qp _ Hs).
  unfold new_queue_pair. cbn [wq cq]. by rewrite !contents_new.
Qed.

(** The other side of the queue pair keeps the invariant. *)
Lemma inv_requester s l base q' :
  worker_inv s l base -> qp_inv (q', held_of l) ->
  Forall (sub_op_ok (mem s)) (contents (wq q')) ->
  (forall so, head (contents (wq (qp s))) = Some so -> head (contents (wq q')) = Some so) ->
  worker_inv {| s with qp := q' |} l base.
Proof.
  intros [Hc Hl Hr] Hq Hreqs Hhead. constructor; [|done|done]. destruct Hc. constructor; try done.
  unfold gen_ok in *. cbn. destruct (cur_sub_op (gen s)); [|done].
  destruct wi_gen as [Hh ?]. by split; [apply Hhead|].
Qed.

Lemma worker_push_inv s l base so q' :
  worker_inv s l base -> sub_op_ok (mem s) so -> push_req so (qp s) = Ok (true, q') ->
  worker_inv {| s with qp := q' |} l base
  /\ contents (wq q') = contents (wq (qp s)) ++ [so] /\ contents (cq q') = contents (cq (qp s)).
Proof.
  intros Hi Hso Hpush. pose proof (wi_qp _ _ _ Hi) as Hq.
  pose proof (runs_det _ _ _ _ _ Hpush (push_req_inv _ _ so QUEUE_SIZE_u64 Hq)) as (Hq' & _ & Ew & Ec & _).
  split; [|by split]. apply inv_requester; try done; rewrite Ew.
  - apply Forall_app. split; [apply Hi|by apply Forall_singleton].
  - intros x. by destruct (contents (wq (qp s))).
Qed.

Lemma worker_collect_inv s l base so q1 q' :
  worker_inv s l base -> front_resp (qp s) = Ok (Some so, q1) -> pop_resp q1 = Ok (tt, q') ->
  worker_inv {| s with qp := q' |} l base
  /\ contents (wq q') = contents (wq (qp s)) /\ so :: contents (cq q') = contents (cq (qp s)).
Proof.
  intros Hi Hf Hpop. pose proof (wi_qp _ _ _ Hi) as Hq.
  rewrite front_resp_spec in Hf. injection Hf as Hf <-.
  destruct (contents (cq (qp s))) as [|x r] eqn:Ex; simplify_eq/=.
  pose proof (runs_det _ _ _ _ _ Hpop (pop_resp_inv _ _ so r QUEUE_SIZE_u64 Hq Ex)) as (Hq' & Ew & Ec & _).
  split; [|split; [done|by rewrite Ec]]. apply inv_requester; try done; rewrite Ew; [apply Hi|done].
Qed.

(** More fuel does not change the result of a round. *)
Lemma rx_loop_fuel n k s r : rx_loop n s = Ok r -> rx_loop (n + k) s = Ok r.
Proof.
  revert s. induction n as [|n IH]; intros s; destruct k as [|k]; rewrite ?Nat.add_0_r; try done;
    cbn [rx_loop Nat.add]; unfold bind, get;
    destruct (on_tp tp_receive s) as [[[m|] s1]|]; try done;
    destruct (rx_process_one m s1) as [[[] s2]|]; try done;
    destruct (on_tp (tp_drop m) s2) as [[[] s3]|]; try done;
    destruct (_ && _); try done. apply IH.
Qed.

Lemma worker_round_fuel n k ts s r :
  worker_round n ts s = Ok r -> worker_round (n + k) ts s = Ok r.
Proof.
  unfold worker_round, rx_process, modify, bind.
  match goal with |- context [rx_loop n ?x] => pose proof (rx_loop_fuel n k x) as Hf;
    destruct (rx_loop n x) as [p|] end; [|done].
  by rewrite (Hf p eq_refl).
Qed.

Lemma worker_loop_body_fuel n k ts lt s r :
  worker_loop_body n ts lt s = Ok r -> worker_loop_body (n + k) ts lt s = Ok r.
Proof.
  unfold worker_loop_body, bind.
  destruct (worker_round n ts s) as [p|] eqn:E; [|done]. by rewrite (worker_round_fuel _ _ _ _ _ E).
Qed.

Lemma wstep_inv g st st' : w_inv g st -> wstep g st st' -> w_inv g st'.
Proof.
  intros (l & base & Hi & Hg & Hp) Hs.
  destruct Hs as [st n ts lt s' Hrun|st so q' Hso Hgrp Hpush|st so q1 q' Hf Hpop|st t Ht].
  - apply (worker_loop_body_fuel _ (rx_measure (ws st) l)) in Hrun.
    pose proof (runs_det _ _ _ _ _ Hrun (worker_loop_body_runs (n + rx_measure (ws st) l) ts _ _ l base Hi (ex_intro _ g Hg) ltac:(lia)))
      as (l' & base' & Hi' & Hb & _ & taken & Ht).
    exists l', base'. cbn. split; [done|]. rewrite Hb. split; [|done].
    rewrite Ht in Hg. by apply Forall_app in Hg as [_ ?].
  - destruct (worker_push_inv _ _ _ _ _ Hi Hso Hpush) as (Hi' & Ew & Ec).
    exists l, base. unfold backlog. cbn. rewrite Ew, Ec. split; [done|]. split.
    + apply Forall_app. split; [done|by apply Forall_singleton].
    + rewrite Hp. unfold backlog. by rewrite <- !app_assoc.
  - destruct (worker_collect_inv _ _ _ _ _ _ Hi Hf Hpop) as (Hi' & Ew & Ec).
    exists l, base. unfold backlog in *. cbn. rewrite Ew. split; [done|]. split; [done|].
    rewrite Hp, <- Ec. by rewrite <- !app_assoc.
  - exists l, base. by split; [apply inv_tp|].
Qed.

Lemma w_reachable_inv g st : w_reachable g st -> w_inv g st.
Proof.
  intros (s & Hs & Hr).
  refine (rtc_ind_r (fun st => w_inv g st) _ _ _ st Hr); [by apply start_inv|].
  intros y z _ Hstep Hi. by apply (wstep_inv g y).
Qed.

(** C3: as long as the worker is handed sub-operations of one group only, no
    assertion of a round fails, no array is left, no loop runs forever,
    whatever packets arrive. *)
Theorem worker_never_faults g st ts :
  w_reachable g st -> exists n r, worker_loop_body n ts (w_log_ts st) (ws st) = Ok r.
Proof.
  intros (l & base & Hi & Hg & _)%w_reachable_inv.
  destruct (worker_loop_body_runs (rx_measure (ws st) l) ts (w_log_ts st) _ l base Hi
    (ex_intro _ g Hg) (le_n _)) as (lt & s' & Hrun & _). by eexists _, _.
Qed.

(** A worker answers the sub-operations in the order it was handed them,
    each exactly once: what it was handed is what was collected, then the
    answers in the completion queue, then the sub-operations that end in the
    window, then the work queue. *)
Theorem worker_answers_in_order g st :
  w_reachable g st -> exists l,
    ring (window (ws st)) l
    /\ w_pushed st = w_collected st ++ contents (cq (qp (ws st)))
                      ++ held_of l ++ contents (wq (qp (ws st))).
Proof.
  intros (l & base & Hi & _ & Hp)%w_reachable_inv. exists l. split; [apply Hi|exact Hp].
Qed.
End safety.
