(* ===== verification/Node.v ===== *)
(** The program on one host: the client, the load balancer thread and the worker
    threads, over the memory they share.

    [Pipeline.v] shows the way of an operation with workers that do anything
    as long as they answer in order; [WorkerSafety.v] shows a worker with a load
    balancer that hands over anything.  Here the two are put together: a worker is
    the code of [worker.cpp], the sub-operations it is handed are those the code
    of [load_balancer.cpp] makes, and every thread reads and writes the same
    memory. *)

From S2P Require Import Prelude.
From S2P Require Import Types.
From S2P Require Import Endian.
From S2P Require Import Config.
From S2P Require Import Congestion.
From S2P Require Import QueuePair.
From S2P Require Import LoadBalancer.
From S2P Require Import Pipeline.
From S2P Require Import Worker.
From S2P Require Import Window.
From S2P Require Import WorkerInv.
From S2P Require Import Receive.
From S2P Require Import Packet.
From S2P Require Import Send.
From S2P Require Import WorkerSafety.

Section node.
Context `{ConfigOk, SpscLaws, TransportLaws}.

(** * The pieces of a round

    The threads of the program are interleaved at the granularity of the functions a
    round of [worker_loop] calls, one packet at a time in the receive loop. *)

Inductive piece : worker -> worker -> Prop :=
  | p_network s t :
    (** [receive] or [drop] of the packet buffer, or the device *)
    tp_inv t -> piece s {| s with tp := t |}
  | p_receive s m s' : mbuf_ok m -> rx_process_one m s = Ok (tt, s') -> piece s s'
  | p_slide s s' : shift_ack s = Ok (tt, s') -> piece s s'
  | p_transmit s s' : tx_process s = Ok (tt, s') -> piece s s'
  | p_clock s ts : piece s {| s with global_ts := ts |}
  | p_congestion s c :
    congestion_control (global_ts s) (ack_cnt s) (traffic_todo s) (window_len s) (ccs s) = Ok (tt, c) ->
    piece s {| s with ccs := c |}
  | p_report s : piece s (restart_counts s).

(** What a piece does to the queue pair, seen by the load balancer. *)
Record piece_ok (s : worker) (l : list pkt_state_t) (s' : worker) (l' : list pkt_state_t) : Prop := {
  po_backlog : backlog s' l' = backlog s l;
  po_mem : mem_ext (mem s) (mem s');
  po_taken : contents (wq (qp s')) `suffix_of` contents (wq (qp s));
}.

(** The parts of [piece_ok] that are the same before and after. *)
Lemma piece_ok_same s l s' l' :
  qp s' = qp s -> held_of l' = held_of l -> mem_ext (mem s) (mem s') -> piece_ok s l s' l'.
Proof. intros Eq Eh Em. constructor; unfold backlog; rewrite ?Eq, ?Eh; done. Qed.

Lemma piece_inv s s' l base :
  worker_inv s l base -> uniform s -> piece s s' ->
  exists l' base', worker_inv s' l' base' /\ piece_ok s l s' l'.
Proof.
  intros Hi Hu Hp. destruct Hp as [s t Ht|s m s' Hm Hrun|s s' Hrun|s s' Hrun|s ts|s c Hrun|s].
  - exists l, base. split; [by apply inv_tp|by apply piece_ok_same].
  - pose proof (runs_det _ _ _ _ _ Hrun (rx_process_one_runs _ l base m Hi Hm)) as Hr.
    destruct (received_inv _ _ _ _ _ Hi Hm Hr) as (l1 & Hi1 & Hmk & _ & Eq & He & _).
    exists l1, base. split; [done|]. apply piece_ok_same; [done|by apply marks_held|done].
  - pose proof (runs_det _ _ _ _ _ Hrun (shift_ack_runs _ l base Hi)) as (Hi1 & Ec & Ew & _ & Em & _).
    exists (drop (acked_len l) l), (base + Z.of_nat (acked_len l)). split; [done|]. constructor.
    + unfold backlog. rewrite Ec, Ew, <- app_assoc, (app_assoc (held_of _)), <- held_of_app.
      by rewrite take_drop.
    + by rewrite Em.
    + by rewrite Ew.
  - pose proof (runs_det _ _ _ _ _ Hrun (tx_process_runs _ l base Hi (fun _ => Hu)))
      as (new & base1 & Hi1 & _ & _ & Ec & Eh & Em & _).
    exists (l ++ new), base1. split; [done|]. constructor.
    + unfold backlog. by rewrite Ec, held_of_app, <- app_assoc, Eh.
    + by rewrite Em.
    + exists (held_of new). by rewrite Eh.
  - exists l, base. split; [by apply inv_time|by apply piece_ok_same].
  - exists l, base. split; [by apply inv_congestion|by apply piece_ok_same].
  - exists l, base. split; [by apply inv_restart|by apply piece_ok_same].
Qed.

(** A round is a run of pieces. *)
Lemma pieces_rx n s l base r :
  worker_inv s l base -> rx_loop n s = Ok r -> rtc piece s r.2.
Proof.
  revert s l r. induction n as [|n IH]; intros s l r Hi; cbn [rx_loop]; unfold bind, on_tp, zoom.
  all: destruct (tp_receive_ok (tp s) (wi_tp _ _ _ Hi)) as (o & t & -> & Ht & _ & Hr).
  all: destruct o as [m|]; [|by intros [= <-]; cbn; apply rtc_once, p_network].
  all: destruct Hr as [Hm _]; pose proof (inv_tp _ _ _ t Hi Ht) as Hi1.
  all: destruct (rx_process_one_runs _ l base m Hi1 Hm) as ([] & s1 & E1 & Hrx); rewrite E1.
  all: destruct (received_inv _ _ _ _ _ Hi1 Hm Hrx) as (l1 & Hi2 & _).
  all: destruct (tp_drop_ok m (tp s1) (wi_tp _ _ _ Hi2)) as ([] & t2 & -> & Ht2 & _).
  all: assert (rtc piece s {| s1 with tp := t2 |}) as Hrtc by
    (eapply rtc_l; [by apply (p_network _ t)|]; eapply rtc_l; [by apply (p_receive _ m)|];
     by apply rtc_once, p_network).
  all: cbn; destruct (_ && _); [by intros [= <-]|].
  { done. }
  intros Hn. etransitivity; [exact Hrtc|]. eapply IH; [by apply inv_tp|exact Hn].
Qed.

Lemma pieces_body n ts lt s l base r :
  worker_inv s l base -> worker_loop_body n ts lt s = Ok r -> rtc piece s r.2.
Proof.
  intros Hi. unfold worker_loop_body, worker_round, rx_process, modify, bind, get, zoom.
  destruct (rx_loop n _) as [[[] s1]|] eqn:E1; [|done].
  pose proof (pieces_rx _ _ _ _ _ (inv_time _ _ _ ts Hi) E1) as H1'. cbn [snd] in H1'.
  destruct (shift_ack s1) as [[[] s2]|] eqn:E2; [|done].
  destruct (tx_process s2) as [[[] s3]|] eqn:E3; [|done].
  destruct (congestion_control _ _ _ _ _) as [[[] c]|] eqn:E4; [|done].
  assert (rtc piece s {| s3 with ccs := c |}) as Hrtc.
  { eapply rtc_l; [apply (p_clock s ts)|]. etransitivity; [exact H1'|].
    eapply rtc_l; [by apply p_slide|]. eapply rtc_l; [by apply p_transmit|].
    by apply rtc_once, p_congestion. }
  destruct (_ <? _); intros [= <-]; [|done]. eapply rtc_r; [exact Hrtc|apply p_report].
Qed.

(** * The system *)

Context (nworker : Z) (Hn : 0 < nworker < 2 ^ 31) (g : Z).

Record node := {
  n_shm : queue_pair_t op_t QUEUE_SIZE;   (** client and load balancer *)
  n_mem : gmap Z (list Z);                (** the memory all threads share *)
  n_threads : list worker;                (** [thread_ctx], with its queue pairs *)
  n_posted : list op_t;                   (** every operation the client has posted *)
  n_collected : list op_t;                (** every answer the client has collected *)
}.

(** A thread at the shared memory. *)
Definition at_mem (m : gmap Z (list Z)) (w : worker) : worker := {| w with mem := m |}.

(** What the load balancer sees of the threads, and what it leaves. *)
Definition lb_of (st : node) : lb_state :=
  {| shm_qp := n_shm st; thread_qp := qp <$> n_threads st |}.
Definition with_lb (st : node) (lb : lb_state) : node :=
  {| st with n_shm := shm_qp lb;
             n_threads := zip_with (fun w q => {| w with qp := q |}) (n_threads st) (thread_qp lb) |}.

(** An operation the client may post: its buffer is in the memory, it is of the
    group and the group has an aggregator for every worker. *)
Record op_fits (m : gmap Z (list Z)) (o : op_t) : Prop := {
  of_ok : op_ok o;
  of_mem : in_memory m (shm_buffer o) (op_size o);
  of_agg : nworker <= g_agg_len (group o);
  of_group : group_id (group o) = g;
}.

Inductive node_step : node -> node -> Prop :=
  | ns_write st m :
    (** the client allocates and fills its buffers *)
    mem_ext (n_mem st) m -> node_step st {| st with n_mem := m |}
  | ns_post st o q' :
    op_fits (n_mem st) o -> push_req o (n_shm st) = Ok (true, q') ->
    node_step st {| st with n_shm := q'; n_posted := n_posted st ++ [o] |}
  | ns_refused st o q' :
    push_req o (n_shm st) = Ok (false, q') -> node_step st {| st with n_shm := q' |}
  | ns_collect st o q1 q' :
    front_resp (n_shm st) = Ok (Some o, q1) -> pop_resp q1 = Ok (tt, q') ->
    node_step st {| st with n_shm := q'; n_collected := n_collected st ++ [o] |}
  | ns_complete st b lb :
    try_complete_op nworker (lb_of st) = Ok (b, lb) -> node_step st (with_lb st lb)
  | ns_balance st b lb :
    try_post_op nworker (lb_of st) = Ok (b, lb) -> node_step st (with_lb st lb)
  | ns_work st i w w' :
    n_threads st !! i = Some w -> piece (at_mem (n_mem st) w) w' ->
    node_step st {| st with n_mem := mem w'; n_threads := <[i := w']> (n_threads st) |}.

(** The program as [main] leaves it. *)
Record node_start (st : node) : Prop := {
  nst_shm : n_shm st = new_queue_pair;
  nst_mem : mem_bytes (n_mem st);
  nst_count : length (n_threads st) = Z.to_nat nworker;
  nst_threads : forall i w, n_threads st !! i = Some w -> worker_start (at_mem (n_mem st) w);
  nst_posted : n_posted st = [];
  nst_collected : n_collected st = [];
}.

Definition node_reachable (st : node) : Prop := exists st0, node_start st0 /\ rtc node_step st0 st.

(** * The invariant *)

(** The node, as the pipeline sees it. *)
Definition sys_of (st : node) (ls : list (list pkt_state_t)) : sys :=
  {| s_lb := lb_of st; s_held := held_of <$> ls;
     s_posted := n_posted st; s_collected := n_collected st |}.

(** Thread [w] with the packets [l] in flight. *)
Definition thread_inv (m : gmap Z (list Z)) (w : worker) (l : list pkt_state_t) : Prop :=
  exists base, worker_inv (at_mem m w) l base
    /\ Forall (fun so => group_of so = g) (contents (wq (qp w))).

Record node_inv_with (ls : list (list pkt_state_t)) (st : node) : Prop := {
  ni_sys : sys_inv nworker (sys_of st ls);
  ni_posted : Forall (op_fits (n_mem st)) (n_posted st);
  ni_threads : Forall2 (thread_inv (n_mem st)) (n_threads st) ls;
}.

Definition node_inv (st : node) : Prop := exists ls, node_inv_with ls st.

Lemma op_fits_ext m m' o : mem_ext m m' -> op_fits m o -> op_fits m' o.
Proof. intros [Hm _] []. constructor; auto. Qed.

(** ** The parts of an operation *)

Lemma part_ok m o i :
  op_fits m o -> 0 <= i < nworker ->
  sub_op_ok m (sub_op_of nworker o i) /\ group_of (sub_op_of nworker o i) = g.
Proof.
  intros [[Hwf Hred] Hmem Hagg Hg] Hi. split; [|done].
  pose proof (sub_offset_bound nworker Hn o i Hwf ltac:(lia)) as H1'.
  pose proof (sub_offset_bound nworker Hn o (i + 1) Hwf ltac:(lia)) as H2'.
  rewrite sub_offset_S in H2' by lia. pose proof (sub_size_nonneg nworker o i) as H3'.
  pose proof (op_size_u32 _ Hwf). pose proof (g_agg_len_u16 _ (op_group_wf _ Hwf)).
  constructor; cbn [op so_data so_size so_agg_addr so_agg_len sub_op_of make_sub_op].
  - lia.
  - intros Hr. rewrite (sub_size_eq nworker Hn o i Hwf Hi), (Hred Hr).
    assert ((if i =? nworker - 1 then 0 else 0) = 0) as -> by (by case_match).
    rewrite Z.add_0_r, Z.mul_comm. apply Z_mod_mult.
  - rewrite sub_agg_len_eq by done. split; [apply Z.div_str_pos; lia|].
    apply Z.div_lt_upper_bound; nia.
  - by apply wrap_range.
  - done.
  - by apply (in_memory_sub _ _ (op_size o)); [|lia..].
Qed.

(** Everything in the queues of a thread is a part of a posted operation. *)
Lemma requests_ok m inflight sy i q h :
  sys_inv_with nworker inflight sy -> Forall (op_fits m) (s_posted sy) ->
  thread_qp (s_lb sy) !! i = Some q -> s_held sy !! i = Some h ->
  Forall (fun so => sub_op_ok m so /\ group_of so = g) (contents (wq q)).
Proof.
  intros Hs Hp Hq Hh. destruct (thread_lookup _ _ _ _ _ _ Hs Hq Hh) as [[Ht _] _].
  destruct Hs as (Hlen & _ & _ & Hpost & _). cbn in Hlen. rewrite length_fmap in Hlen.
  pose proof (lookup_lt_Some _ _ _ Hq) as Hi.
  rewrite Hpost, !Forall_app in Hp. destruct Hp as (_ & _ & Hp & _).
  assert (Forall (fun so => sub_op_ok m so /\ group_of so = g) (parts nworker inflight i)) as Hall.
  { unfold parts. rewrite Forall_fmap. eapply Forall_impl; [exact Hp|]. intros o Ho.
    apply part_ok; [done|lia]. }
  rewrite <- Ht, !Forall_app in Hall. by destruct Hall as (_ & _ & Hall).
Qed.

(** ** Memory and threads *)

Lemma thread_inv_ext m m' w l : mem_ext m m' -> thread_inv m w l -> thread_inv m' w l.
Proof.
  intros Hm (base & [Hc Hl Hr] & Hg). exists base. split; [|done]. constructor; [|done|done].
  eapply (core_step (at_mem m w)); try done; apply Hc.
Qed.

Lemma threads_ext m m' ws ls :
  mem_ext m m' -> Forall2 (thread_inv m) ws ls -> Forall2 (thread_inv m') ws ls.
Proof. intros Hm Hall. eapply Forall2_impl; [exact Hall|]. intros w l. by apply thread_inv_ext. Qed.

Lemma node_thread ls st i w :
  node_inv_with ls st -> n_threads st !! i = Some w ->
  exists l, ls !! i = Some l /\ thread_inv (n_mem st) w l.
Proof. intros Hi Hw. by eapply Forall2_lookup_l; [apply (ni_threads _ _ Hi)|]. Qed.

(** ** The load balancer *)

Lemma lb_of_with_lb st lb :
  length (thread_qp lb) = length (n_threads st) -> lb_of (with_lb st lb) = lb.
Proof.
  intros Hl. destruct lb as [q qs]. unfold lb_of, with_lb. cbn in *. f_equal.
  apply list_eq. intros i. rewrite list_lookup_fmap, lookup_zip_with.
  destruct (n_threads st !! i) as [w|] eqn:Ew, (qs !! i) as [q'|] eqn:Eq; try done.
  apply lookup_lt_Some in Eq. apply lookup_ge_None in Ew. lia.
Qed.

(** A thread whose queue pair the load balancer has moved to [q']. *)
Lemma thread_requester m w l (q' : queue_pair_t sub_op_t QUEUE_SIZE) :
  thread_inv m w l -> qp_inv (q', held_of l) ->
  Forall (fun so => sub_op_ok m so /\ group_of so = g) (contents (wq q')) ->
  contents (wq (qp w)) `prefix_of` contents (wq q') ->
  thread_inv m {| w with qp := q' |} l.
Proof.
  intros (base & Hi & _) Hq Hall [k Hpre]. exists base. apply Forall_and in Hall as [Hok Hgrp].
  split; [|done]. apply (inv_requester (at_mem m w)); try done. cbn. rewrite Hpre.
  by destruct (contents (wq (qp w))).
Qed.

Lemma lb_step_inv ls st lb :
  node_inv_with ls st -> sys_inv nworker {| (sys_of st ls) with s_lb := lb |} ->
  requests_grow (lb_of st) lb -> node_inv_with ls (with_lb st lb).
Proof.
  intros [Hs Hp Ht] [inflight Hs'] Hgrow.
  assert (length (thread_qp lb) = length (n_threads st)) as Hlen.
  { destruct Hs as [? (Hl & _)]. destruct Hs' as (Hl' & _). cbn in Hl, Hl'.
    rewrite !length_fmap in *. congruence. }
  assert (sys_of (with_lb st lb) ls = {| (sys_of st ls) with s_lb := lb |}) as Esys.
  { unfold sys_of. by rewrite lb_of_with_lb. }
  constructor; [rewrite Esys; by exists inflight|done|].
  apply Forall2_same_length_lookup_2; cbn [n_threads with_lb n_mem].
  - rewrite length_zip_with, Hlen, Nat.min_id. by eapply Forall2_length.
  - intros i w' l Hw' Hl. apply lookup_zip_with_Some in Hw' as (w & q' & -> & Hw & Hq').
    assert (s_held {| (sys_of st ls) with s_lb := lb |} !! i = Some (held_of l)) as Hh
      by (cbn; by rewrite list_lookup_fmap, Hl).
    destruct (thread_lookup _ _ _ _ _ _ Hs' Hq' Hh) as [_ Hqp].
    apply thread_requester; [by eapply Forall2_lookup_lr| done| |].
    + by apply (requests_ok _ inflight {| (sys_of st ls) with s_lb := lb |} i _ (held_of l)).
    + apply (Hgrow i); [cbn; by rewrite list_lookup_fmap, Hw|done].
Qed.

(** ** The threads *)

Lemma at_mem_mem w : at_mem (mem w) w = w.
Proof. by destruct w. Qed.

(** A thread that has kept its backlog has kept its part of the pipeline. *)
Lemma thread_ok_backlog inflight i w l w' l' :
  thread_ok nworker inflight i (abs (qp w)) (held_of l) -> qp_inv (qp w', held_of l') ->
  backlog w' l' = backlog w l -> thread_ok nworker inflight i (abs (qp w')) (held_of l').
Proof.
  intros [Ht _] [En _] Hb. unfold backlog in Hb. cbn in Ht.
  split; cbn; [by rewrite Hb|]. rewrite En.
  assert (length (contents (cq (qp w')) ++ held_of l' ++ contents (wq (qp w'))) = length inflight) as Hlen
    by (rewrite Hb, Ht; unfold parts; by rewrite length_fmap).
  rewrite !length_app in Hlen. lia.
Qed.

Lemma work_inv ls st i w w' :
  node_inv_with ls st -> n_threads st !! i = Some w -> piece (at_mem (n_mem st) w) w' ->
  node_inv {| st with n_mem := mem w'; n_threads := <[i := w']> (n_threads st) |}.
Proof.
  intros Hinv Hw Hp. destruct (node_thread _ _ _ _ Hinv Hw) as (l & Hl & base & Hi & Hg).
  destruct (piece_inv _ _ l base Hi (ex_intro _ g Hg) Hp) as (l' & base' & Hi' & [Hb Hm Ht]).
  destruct Hinv as [[inflight Hs] Hpost Hthr].
  assert (thread_qp (s_lb (sys_of st ls)) !! i = Some (qp w)) as Hq
    by (cbn; by rewrite list_lookup_fmap, Hw).
  assert (s_held (sys_of st ls) !! i = Some (held_of l)) as Hh
    by (cbn; by rewrite list_lookup_fmap, Hl).
  exists (<[i := l']> ls). constructor.
  - assert (sys_of {| st with n_mem := mem w'; n_threads := <[i := w']> (n_threads st) |} (<[i := l']> ls)
            = with_thread (sys_of st ls) i (qp w') (held_of l')) as ->
      by (unfold sys_of, with_thread, lb_of; cbn; by rewrite !list_fmap_insert).
    apply (with_thread_inv nworker _ inflight i (qp w) (qp w') (held_of l)); [done..|].
    eapply thread_ok_backlog; [|apply Hi'|exact Hb].
    exact (proj1 (thread_lookup _ _ _ _ _ _ Hs Hq Hh)).
  - eapply Forall_impl; [exact Hpost|]. intros o. by apply op_fits_ext.
  - cbn. apply Forall2_insert; [by eapply threads_ext|].
    exists base'. rewrite at_mem_mem. split; [done|]. destruct Ht as [k Hk]. cbn in Hk.
    rewrite Hk in Hg. by apply Forall_app in Hg as [_ ?].
Qed.

(** ** The invariant holds *)

Lemma node_start_inv st : node_start st -> node_inv st.
Proof.
  intros [Hshm Hmem Hcount Hthr Hpost Hcoll]. exists (replicate (Z.to_nat nworker) []). constructor.
  - assert (sys_of st (replicate (Z.to_nat nworker) []) = sys_init nworker) as ->; [|apply sys_init_inv].
    unfold sys_of, sys_init, lb_of. rewrite Hshm, Hpost, Hcoll, fmap_replicate. do 2 f_equal.
    apply list_eq. intros i. rewrite list_lookup_fmap.
    destruct (n_threads st !! i) as [w|] eqn:Ew; cbn.
    + symmetry. apply lookup_replicate. apply lookup_lt_Some in Ew as Hi.
      rewrite Hcount in Hi. split; [|done]. exact (start_qp _ (Hthr i w Ew)).
    + symmetry. apply lookup_ge_None. rewrite length_replicate, <- Hcount.
      by apply lookup_ge_None.
  - by rewrite Hpost.
  - apply Forall2_same_length_lookup_2; [by rewrite length_replicate|].
    intros i w l Hw Hl. apply lookup_replicate in Hl as [-> _]. exists 0. specialize (Hthr i w Hw).
    split; [by apply worker_start_inv|]. pose proof (start_qp _ Hthr) as Eq. cbn in Eq.
    rewrite Eq. unfold new_queue_pair. cbn [wq]. by rewrite contents_new.
Qed.

Lemma client_inv ls st q' posted collected :
  node_inv_with ls st ->
  sys_inv nworker {| (with_shm (sys_of st ls) q') with s_posted := posted; s_collected := collected |} ->
  Forall (op_fits (n_mem st)) posted ->
  node_inv {| st with n_shm := q'; n_posted := posted; n_collected := collected |}.
Proof. intros [_ _ Ht] Hs Hp. exists ls. by constructor. Qed.

Lemma node_step_inv st st' : node_inv st -> node_step st st' -> node_inv st'.
Proof.
  intros [ls Hi] Hst. pose proof Hi as [Hs Hp Ht]. destruct Hst as
    [st m Hm|st o q' Ho Hpush|st o q' Hpush|st o q1 q' Hf Hpop|st b lb Hrun|st b lb Hrun|st i w w' Hw Hpc].
  - exists ls. constructor; [exact Hs| |by eapply threads_ext].
    eapply Forall_impl; [exact Hp|]. intros o. by apply op_fits_ext.
  - assert (Forall (op_fits (n_mem st)) (n_posted st ++ [o])) as Hp' by by apply Forall_app_2, Forall_singleton.
    apply (client_inv ls st q' _ (n_collected st)); [done| |done].
    apply (client_step_inv nworker (sys_of st ls)); [done|]. left. exists o, q', true.
    split; [done|]. split; [intros _; apply Ho|done].
  - apply (client_inv ls st q' (n_posted st) (n_collected st)); [done| |done].
    apply (client_step_inv nworker (sys_of st ls)); [done|]. left. exists o, q', false.
    split; [done|]. split; [done|]. cbn. by rewrite app_nil_r.
  - apply (client_inv ls st q' (n_posted st)); [done| |done].
    apply (client_step_inv nworker (sys_of st ls)); [done|]. right. by exists o, q1, q'.
  - destruct Hs as [inflight Hs]. destruct (runs_det _ _ _ _ _ Hrun (lb_complete_runs nworker Hn _ _ Hs)).
    exists ls. by apply lb_step_inv.
  - destruct Hs as [inflight Hs]. destruct (runs_det _ _ _ _ _ Hrun (lb_post_runs nworker Hn _ _ Hs)).
    exists ls. by apply lb_step_inv.
  - by eapply work_inv.
Qed.

Lemma node_reachable_inv st : node_reachable st -> node_inv st.
Proof.
  intros (st0 & H0' & Hr). refine (rtc_ind_r node_inv st0 _ _ st Hr); [by apply node_start_inv|].
  intros y z _ Hst Hi. by eapply node_step_inv.
Qed.

(** ** Rounds are runs *)

Lemma work_rtc st i w w' :
  n_threads st !! i = Some w -> rtc piece (at_mem (n_mem st) w) w' ->
  rtc node_step st {| st with n_mem := mem w'; n_threads := <[i := w']> (n_threads st) |}.
Proof.
  intros Hw Hr. remember (at_mem (n_mem st) w) as w0 eqn:E. revert st w Hw E.
  induction Hr as [w0|w0 w1 w2 Hp Hr IH]; intros st w Hw ->.
  - apply rtc_once, (ns_work st i w); [done|].
    assert (piece (at_mem (n_mem st) w) {| (at_mem (n_mem st) w) with global_ts := global_ts w |}) as Hp
      by apply p_clock.
    by destruct w.
  - eapply rtc_l; [by eapply ns_work|].
    set (st1 := {| st with n_mem := mem w1; n_threads := <[i := w1]> (n_threads st) |}).
    assert (n_threads st1 !! i = Some w1) as Hw1.
    { cbn. apply list_lookup_insert_eq. by eapply lookup_lt_Some. }
    specialize (IH st1 w1 Hw1 (eq_sym (at_mem_mem w1))). cbn in IH.
    by rewrite list_insert_insert_eq in IH.
Qed.

Lemma with_lb_twice st lb1 lb2 :
  length (thread_qp lb1) = length (n_threads st) ->
  with_lb (with_lb st lb1) lb2 = with_lb st lb2.
Proof.
  intros Hl. unfold with_lb. cbn. f_equal. apply list_eq. intros i.
  rewrite !lookup_zip_with. destruct (n_threads st !! i) as [w|] eqn:Ew; [|done]. cbn.
  destruct (thread_qp lb1 !! i) as [q1|] eqn:Eq; [done|].
  apply lookup_ge_None in Eq. apply lookup_lt_Some in Ew. lia.
Qed.

Lemma sys_inv_threads ls st lb :
  node_inv_with ls st -> sys_inv nworker {| (sys_of st ls) with s_lb := lb |} ->
  length (thread_qp lb) = length (n_threads st).
Proof.
  intros [[? (Hl & _)] _ _] [? (Hl' & _)]. cbn in Hl, Hl'. rewrite !length_fmap in *. congruence.
Qed.

Lemma lb_round_rtc st b lb :
  node_inv st -> load_balancer_round nworker (lb_of st) = Ok (b, lb) ->
  rtc node_step st (with_lb st lb).
Proof.
  intros [ls Hi]. pose proof Hi as [[inflight Hs] _ _]. unfold load_balancer_round, bind.
  destruct (lb_complete_runs nworker Hn _ _ Hs) as (b1 & lb1 & E1 & Hs1 & _). cbn [s_lb sys_of] in E1.
  rewrite E1. pose proof (sys_inv_threads _ _ _ Hi Hs1) as Hl.
  destruct (try_post_op nworker lb1) as [[b2 lb2]|] eqn:E2; [|done]. intros [= _ <-].
  rewrite <- (with_lb_twice st lb1) by done.
  eapply rtc_l; [by eapply ns_complete|]. eapply rtc_once, ns_balance.
  by rewrite lb_of_with_lb.
Qed.

(** * Properties *)

(** C1: no thread of the program ever faults as long as the client keeps to
    [op_fits]: its operations are of one group, with buffers in the shared
    memory, reductions of whole integers, and the group has at least as many
    aggregators as there are workers.  In every state a round of the load balancer
    and a round of every worker run to their end, whatever packets arrive, and
    each is a run of the system. *)
Theorem node_never_faults st :
  node_reachable st ->
  (exists b lb, load_balancer_round nworker (lb_of st) = Ok (b, lb)
     /\ rtc node_step st (with_lb st lb))
  /\ forall i w ts lt, n_threads st !! i = Some w ->
       exists n lt' w', worker_loop_body n ts lt (at_mem (n_mem st) w) = Ok (lt', w')
         /\ rtc node_step st
              {| st with n_mem := mem w'; n_threads := <[i := w']> (n_threads st) |}.
Proof.
  intros Hr. pose proof (node_reachable_inv _ Hr) as Hinv. pose proof Hinv as [ls Hi]. split.
  - destruct (lb_round_runs nworker Hn _ (ni_sys _ _ Hi)) as (b & lb & E).
    exists b, lb. split; [done|]. by eapply lb_round_rtc.
  - intros i w ts lt Hw. destruct (node_thread _ _ _ _ Hi Hw) as (l & _ & base & Hw' & Hg).
    destruct (worker_loop_body_runs _ ts lt _ l base Hw' (ex_intro _ g Hg) (le_n _))
      as (lt' & w' & E & _).
    eexists _, lt', w'. split; [exact E|]. apply (work_rtc st i w); [done|].
    by apply (pieces_body _ _ _ _ _ _ _ Hw' E).
Qed.

(** C5: a client that keeps to [op_fits] (as for the theorem before) gets its
    answers in the order of its operations, and an operation is answered only after every worker has answered its part of it:
    what the client has posted is what it has collected, then the answers waiting
    for it, then the operations at work, then those still in the queue; and
    every worker's answers, packets in flight and requests are its parts of the
    operations at work, in that order. *)
Theorem node_serves_in_order st :
  node_reachable st -> exists inflight,
    n_posted st = n_collected st ++ contents (cq (n_shm st)) ++ inflight ++ contents (wq (n_shm st))
    /\ forall i w, n_threads st !! i = Some w -> exists l, ring (window w) l
         /\ contents (cq (qp w)) ++ held_of l ++ contents (wq (qp w)) = parts nworker inflight i.
Proof.
  intros Hr. destruct (node_reachable_inv _ Hr) as [ls Hi]. pose proof Hi as [[inflight Hs] _ _].
  exists inflight. split; [by destruct Hs as (_ & _ & _ & Hp & _)|].
  intros i w Hw. destruct (node_thread _ _ _ _ Hi Hw) as (l & Hl & base & Hw' & _).
  exists l. split; [apply Hw'|].
  refine (proj1 (proj1 (thread_lookup nworker (sys_of st ls) inflight i (qp w) (held_of l) Hs _ _))).
  - cbn. by rewrite list_lookup_fmap, Hw.
  - cbn. by rewrite list_lookup_fmap, Hl.
Qed.
End node.
