(* ===== verification/WorkerLoop.v ===== *)
(** [worker_loop] with its clock: the time stamps, the measurements and the report
    around the functions of [Worker.v].

    The clock of the host is the sequence [now] of its readings.
    [get_time_stamp] reads it on every fourth call only, so a round may run with the
    time of an earlier one; [round_time_spec] says which. *)

From S2P Require Import Prelude.
From S2P Require Import Types.
From S2P Require Import Endian.
From S2P Require Import Config.
From S2P Require Import Congestion.
From S2P Require Import QueuePair.
From S2P Require Import Worker.

Section loop.
Context `{Config, Spsc, Transport} (now : nat -> Z).

(** * The clock *)

(** The static variables of [get_time_stamp], and how often the clock has been
    read. *)
Record clock := { c_cnt : Z; c_ts : Z; c_reads : nat }.

Definition clock_start : clock := {| c_cnt := 0; c_ts := 0; c_reads := 0 |}.

Definition get_time_stamp_imm : M clock Z := fun c =>
  Ok (now (c_reads c), {| c with c_reads := S (c_reads c) |}).

Definition get_time_stamp : M clock Z :=
  c <- get ;;
  (if Z.land (c_cnt c) 3 =? 0
   then ts <- get_time_stamp_imm ;; modify (fun c => {| c with c_ts := ts |})
   else ret tt) ;;;
  modify (fun c => {| c with c_cnt := u32 (c_cnt c + 1) |}) ;;;
  gets c_ts.

(** * The loop *)

Record loop_state := {
  l_worker : worker;
  l_clock : clock;
  loop_cnt : Z;        (** uint64_t *)
  base_ts : Z;
  tr : Z;
  tt_ : Z;             (** [tt] *)
  log_ts : Z;
}.

Definition on_worker {A} (m : M worker A) : M loop_state A :=
  zoom l_worker (fun w s => {| s with l_worker := w |}) m.
Definition on_clock {A} (m : M clock A) : M loop_state A :=
  zoom l_clock (fun c s => {| s with l_clock := c |}) m.

(** before the loop *)
Definition loop_init (w : worker) : M clock loop_state :=
  base <- get_time_stamp ;;
  c <- get ;;
  ret {| l_worker := w; l_clock := c; loop_cnt := 0; base_ts := base; tr := 0; tt_ := 0; log_ts := 0 |}.

(** the report: [log_ts], the counters *)
Definition report (global_ts : Z) : M loop_state unit :=
  modify (fun s => {| s with log_ts := global_ts; l_worker := restart_counts (l_worker s);
                             tr := 0; tt_ := 0 |}).

(** the body of the loop; [n] is the fuel of the receive loop *)
Definition loop_round (n : nat) : M loop_state unit :=
  modify (fun s => {| s with loop_cnt := u64 (loop_cnt s + 1) |}) ;;;
  t <- on_clock get_time_stamp ;;
  s <- get ;;
  on_worker (modify (fun w => {| w with global_ts := t - base_ts s |})) ;;;
  t1 <- on_clock get_time_stamp_imm ;;
  on_worker (rx_process n) ;;;
  t2 <- on_clock get_time_stamp_imm ;;
  on_worker tx_process ;;;
  t3 <- on_clock get_time_stamp_imm ;;
  s <- get ;;
  (if traffic_todo (l_worker s)
   then modify (fun s => {| s with tt_ := tt_ s + (t2 - t1); tr := tr s + (t3 - t2) |})
   else ret tt) ;;;
  on_worker (w <- get ;;
             zoom ccs (fun c w => {| w with ccs := c |})
               (congestion_control (global_ts w) (ack_cnt w) (traffic_todo w) (window_len w))) ;;;
  s' <- get ;;
  if LOG_INTERVAL <? (t - base_ts s) - log_ts s' then report (t - base_ts s) else ret tt.

(** [k] rounds before [daemon_quit] is seen *)
Fixpoint loop_rounds (k n : nat) : M loop_state unit :=
  match k with O => ret tt | S k => loop_round n ;;; loop_rounds k n end.

(** [test_loop] *)
Fixpoint test_loop (k : nat) : M worker unit :=
  match k with O => ret tt | S k => worker_loopback_round ;;; test_loop k end.

(** [worker_loop]: the mode it runs in, and [k] rounds *)
Definition worker_loop (worker_loopback : bool) (k n : nat) (w : worker) : outcome worker :=
  if worker_loopback
  then match test_loop k w with Ok (_, w') => Ok w' | Err f => Err f end
  else
    match loop_init w clock_start with
    | Err f => Err f
    | Ok (s, _) => match loop_rounds k n s with Ok (_, s') => Ok (l_worker s') | Err f => Err f end
    end.

(** * Lemmas *)

(** A call of [get_time_stamp] always succeeds. *)
Definition stamp (c : clock) : Z * clock :=
  let c' := if Z.land (c_cnt c) 3 =? 0 then {| c with c_ts := now (c_reads c); c_reads := S (c_reads c) |}
            else c in
  (c_ts c', {| c' with c_cnt := u32 (c_cnt c + 1) |}).

Lemma get_time_stamp_eq c : get_time_stamp c = Ok (stamp c).
Proof. unfold get_time_stamp, stamp, bind, get, modify, gets. by destruct (_ =? 0). Qed.

(** A round is [worker_loop_body] at the time it reads. *)
Record round_of (s : loop_state) (lt : Z) (w : worker) (s' : loop_state) : Prop := {
  ro_worker : l_worker s' = w;
  ro_log_ts : log_ts s' = lt;
  ro_base : base_ts s' = base_ts s;
  ro_cnt : loop_cnt s' = u64 (loop_cnt s + 1);
  ro_clock : l_clock s' = let c := (stamp (l_clock s)).2 in {| c with c_reads := 3 + c_reads c |};
}.

#[local] Opaque rx_process tx_process congestion_control restart_counts wrap.

Lemma loop_round_body n s :
  match worker_loop_body n ((stamp (l_clock s)).1 - base_ts s) (log_ts s) (l_worker s) with
  | Ok (lt, w) => exists s', loop_round n s = Ok (tt, s') /\ round_of s lt w s'
  | Err f => loop_round n s = Err f
  end.
Proof.
  unfold loop_round, worker_loop_body, worker_round, report, on_worker, on_clock, get_time_stamp_imm,
    zoom, bind, get, modify.
  cbn [l_clock base_ts]. rewrite get_time_stamp_eq. destruct (stamp (l_clock s)) as [t c] eqn:Es.
  cbn. destruct (rx_process n _) as [[[] w1]|]; [|done].
  cbn. destruct (tx_process w1) as [[[] w2]|]; [|done].
  cbn. destruct (traffic_todo w2) eqn:Et; cbn; rewrite ?Et.
  all: destruct (congestion_control _ _ _ _ _) as [[[] cs]|]; cbn; [|reflexivity].
  all: destruct (LOG_INTERVAL <? _); eexists; (split; [reflexivity|]).
  all: constructor; cbn [l_worker log_ts base_ts loop_cnt l_clock]; rewrite ?Es; reflexivity.
Qed.

#[local] Transparent wrap.

(** ** The time of a round *)

(** The reading that call [k] of [get_time_stamp] returns: call 0 is before the loop,
    the calls between read the clock again for the measurements. *)
Definition stamp_at (k : nat) : nat := if (k <? 4)%nat then 0 else 13 * (k / 4) - 3.

(** The clock before round [k]. *)
Definition clock_at (k : nat) : clock :=
  {| c_cnt := u32 (Z.of_nat k + 1); c_ts := now (stamp_at k); c_reads := 1 + 3 * k + k / 4 |}.

Definition round_time (k : nat) : Z := now (stamp_at (S k)) - now 0.

Lemma land_3 x : Z.land (u32 x) 3 = x mod 4.
Proof.
  change 3 with (Z.ones 2). rewrite Z.land_ones by lia. apply (wrap_pow2_split 32 2). lia.
Qed.

(** How the quotient by 4 goes on. *)
Lemma next_quarter k :
  (Z.of_nat k + 1) mod 4 = 0 /\ (S k / 4 = S (k / 4) /\ k = 4 * (k / 4) + 3)%nat
  \/ (Z.of_nat k + 1) mod 4 <> 0 /\ (S k / 4 = k / 4)%nat.
Proof.
  pose proof (Nat.div_mod_eq k 4). pose proof (Nat.div_mod_eq (S k) 4).
  pose proof (Nat.mod_upper_bound k 4 ltac:(lia)). pose proof (Nat.mod_upper_bound (S k) 4 ltac:(lia)).
  assert ((Z.of_nat k + 1) mod 4 = Z.of_nat (S k mod 4)) as -> by (rewrite Nat2Z.inj_mod; f_equal; lia).
  lia.
Qed.

Lemma stamp_at_quarter k : stamp_at k = if (k / 4 =? 0)%nat then 0%nat else (13 * (k / 4) - 3)%nat.
Proof.
  unfold stamp_at. destruct (Nat.ltb_spec k 4), (Nat.eqb_spec (k / 4) 0) as [E|E]; try done.
  - by rewrite Nat.div_small in E.
  - apply Nat.div_small_iff in E; lia.
Qed.

Lemma stamp_clock_at k :
  (stamp (clock_at k)).1 = now (stamp_at (S k))
  /\ (let c := (stamp (clock_at k)).2 in {| c with c_reads := 3 + c_reads c |}) = clock_at (S k).
Proof.
  unfold stamp. cbn [c_cnt clock_at]. rewrite land_3. unfold clock_at. cbn [c_reads c_ts].
  rewrite wrap_add_l, !stamp_at_quarter.
  replace (Z.of_nat k + 1 + 1) with (Z.of_nat (S k) + 1) by lia.
  destruct (next_quarter k) as [[E [Eq Ek]]|[E Eq]]; rewrite Eq.
  - rewrite E. cbn [Z.eqb fst snd c_ts c_reads c_cnt Nat.eqb].
    replace (1 + 3 * k + k / 4)%nat with (13 * S (k / 4) - 3)%nat by lia.
    split; [done|]. f_equal. lia.
  - rewrite (proj2 (Z.eqb_neq _ _)) by done. cbn [fst snd c_ts c_reads c_cnt]. split; [done|].
    f_equal. lia.
Qed.

(** ** The rounds *)

(** [k] bodies of the loop from round [i] on *)
Fixpoint bodies (k i n : nat) (lt : Z) : M worker Z :=
  match k with
  | O => ret lt
  | S k => lt <- worker_loop_body n (round_time i) lt ;; bodies k (S i) n lt
  end.

Lemma loop_rounds_bodies k i n s :
  l_clock s = clock_at i -> base_ts s = now 0 ->
  match bodies k i n (log_ts s) (l_worker s) with
  | Ok (lt, w) => exists s', loop_rounds k n s = Ok (tt, s') /\ l_worker s' = w /\ log_ts s' = lt
  | Err f => loop_rounds k n s = Err f
  end.
Proof.
  revert i s. induction k as [|k IH]; intros i s Hc Hb; [by exists s|].
  cbn [bodies loop_rounds]. unfold bind. pose proof (loop_round_body n s) as Hr.
  destruct (stamp_clock_at i) as [E1 E2]. rewrite Hc, Hb, E1 in Hr. fold (round_time i) in Hr.
  destruct (worker_loop_body n (round_time i) (log_ts s) (l_worker s)) as [[lt w]|f]; [|by rewrite Hr].
  destruct Hr as (s1 & -> & [Hw Hl Hb1 _ Hc1]). rewrite Hc, E2 in Hc1.
  specialize (IH (S i) s1 Hc1 (eq_trans Hb1 Hb)). by rewrite Hw, Hl in IH.
Qed.

Lemma stamp_at_mono i j : (i <= j)%nat -> (stamp_at i <= stamp_at j)%nat.
Proof.
  intros Hij. rewrite !stamp_at_quarter. pose proof (Nat.Div0.div_le_mono i j 4 Hij).
  destruct (Nat.eqb_spec (i / 4) 0), (Nat.eqb_spec (j / 4) 0); lia.
Qed.

(** * Properties *)

(** C34: [worker_loop] runs the bodies of [worker_loop_body] one after the other, at
    the times [round_time]; the counters and measurements around them change
    nothing a worker does. *)
Theorem worker_loop_spec k n w :
  worker_loop false k n w
  = match bodies k 0 n 0 w with Ok (_, w') => Ok w' | Err f => Err f end.
Proof.
  unfold worker_loop, loop_init, bind, get. rewrite get_time_stamp_eq. cbn [stamp clock_start c_cnt].
  unfold ret. match goal with |- context [loop_rounds k n ?x] => set (s0 := x) end.
  pose proof (loop_rounds_bodies k 0 n s0 eq_refl eq_refl) as Hb. cbn [l_worker log_ts s0] in Hb.
  destruct (bodies k 0 n 0 w) as [[lt w']|f]; [|by rewrite Hb].
  by destruct Hb as (s' & -> & -> & _).
Qed.

(** With a clock that does not run backwards the times of the rounds start at 0
    and never decrease, so no difference of two of them wraps; the time of
    round [j] is at most ten readings old, those of three rounds. *)
Theorem round_time_spec i j :
  (forall a b, (a <= b)%nat -> now a <= now b) -> (i <= j)%nat ->
  0 <= round_time i <= round_time j
  /\ (c_reads (clock_at j) <= stamp_at (S j) + 10)%nat.
Proof.
  intros Hnow Hij. unfold round_time. split.
  - pose proof (Hnow 0%nat (stamp_at (S i)) ltac:(lia)).
    pose proof (Hnow _ _ (stamp_at_mono (S i) (S j) ltac:(lia))). lia.
  - rewrite stamp_at_quarter. cbn [c_reads clock_at].
    pose proof (Nat.div_mod_eq (S j) 4). pose proof (Nat.mod_upper_bound (S j) 4 ltac:(lia)).
    destruct (next_quarter j) as [[_ [Eq Ek]]|[_ Eq]]; destruct (Nat.eqb_spec (S j / 4) 0); lia.
Qed.
End loop.

Lemma round_time_spec_witness :
  0 <= round_time Z.of_nat 2 <= round_time Z.of_nat 7
  /\ round_time Z.of_nat 2 = 0 /\ round_time Z.of_nat 7 = 23.
Proof.
  split; [|by vm_compute].
  apply (round_time_spec Z.of_nat 2 7); [intros a b Hab|]; lia.
Defined.
