(* ===== verification/BufferedNet.v ===== *)
(** The packet buffer as the network of a worker: [transmit] and [rx_process]
    call [send], [receive] and [drop] of [queue_process_buffer].  It implements
    [Transport] and satisfies [TransportLaws].

    The buffer queues pointers.  A pointer to the packet buffer of a slot is the
    slot; the slot keeps its buffer, so a packet that is still queued when
    its slot is filled again goes out with the new contents.  That loses the old
    packet and sends the new one once more, both of which the network may do
    anyway; the pointers themselves go out in order ([nic_gets_offers]). *)

From S2P Require Import Prelude.
From S2P Require Import Types.
From S2P Require Import Endian.
From S2P Require Import Config.
From S2P Require Import Congestion.
From S2P Require Import QueuePair.
From S2P Require Import ProcessBuffer.
From S2P Require Import Worker.
From S2P Require Import Window.
From S2P Require Import WorkerInv.
From S2P Require Import Receive.
From S2P Require Import Packet.
From S2P Require Import Send.
From S2P Require Import WorkerSafety.

(** A pointer to a packet buffer. *)
Inductive buffer_ptr :=
  | SlotBuffer (position : Z)  (** of a slot of the window *)
  | Received (m : mbuf).       (** filled by the device *)

Definition arrived_ok (b : buffer_ptr) : Prop := exists m, b = Received m /\ mbuf_ok m.

(** The device delivers packets, and only finitely many unless the host sends:
    [arriving] are still to come, and at most one more for each packet it
    accepts. *)
Class Arrivals `{NicLaws buffer_ptr} := {
  arriving : nic -> nat;
  arriving_tx : forall p q l n,
    (arriving (rte_eth_tx_burst p q l n).2
      <= arriving n + Z.to_nat (rte_eth_tx_burst p q l n).1)%nat;
  arriving_rx : forall p q k n, 0 <= k ->
    (arriving (rte_eth_rx_burst p q k n).2 + length (rte_eth_rx_burst p q k n).1 <= arriving n)%nat;
  arriving_free : forall b n, arriving (rte_pktmbuf_free b n) = arriving n;
  rx_burst_ok : forall p q k n, Forall arrived_ok (rte_eth_rx_burst p q k n).1;
}.

Section buffered.
Context {nc : Nic buffer_ptr} {nl : NicLaws buffer_ptr} {arr : Arrivals}.

(** * What the operations do to the device *)

(** More packets have been exchanged. *)
Definition exchanged (d d' : nic) : Prop :=
  (exists new, delivered d' = delivered d ++ new /\ Forall arrived_ok new)
  /\ (exists more, wire d' = wire d ++ more)
  /\ (arriving d' + length (delivered d') + length (wire d)
       <= arriving d + length (delivered d) + length (wire d'))%nat.

#[local] Instance exchanged_refl : Reflexive exchanged.
Proof.
  intros d. split; [|split; [|lia]]; exists []; by rewrite app_nil_r.
Qed.

#[local] Instance exchanged_trans : Transitive exchanged.
Proof.
  intros d1 d2 d3 ((n1 & E1 & F1) & (m1 & W1) & L1) ((n2 & E2 & F2) & (m2 & W2) & L2).
  split; [|split; [|lia]].
  - exists (n1 ++ n2). rewrite E2, E1, app_assoc. split; [done|]. by apply Forall_app.
  - exists (m1 ++ m2). by rewrite W2, W1, app_assoc.
Qed.

Lemma exchanged_tx p q l d : exchanged d (rte_eth_tx_burst p q l d).2.
Proof.
  pose proof (tx_burst_count p q l d). pose proof (arriving_tx p q l d). unfold exchanged.
  rewrite tx_burst_delivered, tx_burst_wire, length_app, length_take.
  split; [exists []; by rewrite app_nil_r|]. split; [by eexists|lia].
Qed.

Lemma exchanged_rx p q k d : 0 <= k -> exchanged d (rte_eth_rx_burst p q k d).2.
Proof.
  intros Hk. pose proof (arriving_rx p q k d Hk). unfold exchanged.
  rewrite rx_burst_delivered, rx_burst_wire, length_app.
  split; [eexists; split; [done|apply rx_burst_ok]|]. split; [exists []; by rewrite app_nil_r|lia].
Qed.

Lemma exchanged_free b d : exchanged d (rte_pktmbuf_free b d).
Proof.
  pose proof (arriving_free b d). unfold exchanged. rewrite free_wire, free_delivered.
  split; [exists []; by rewrite app_nil_r|]. split; [exists []; by rewrite app_nil_r|lia].
Qed.

(** An operation of the buffer exchanges packets with the device, if the buffer
    has a receive burst. *)
Definition exchanges {A} (m : M (pb_state buffer_ptr) A) : Prop := forall s a s',
  m s = Ok (a, s') -> 0 <= rx_size (pb s) ->
  exchanged (dev s) (dev s') /\ rx_size (pb s') = rx_size (pb s).

Lemma exchanges_bind {A C} (m : M (pb_state buffer_ptr) A) (k : A -> M _ C) :
  exchanges m -> (forall a, exchanges (k a)) -> exchanges (bind m k).
Proof.
  intros Hm Hk s c s'. unfold bind. destruct (m s) as [[a s1]|] eqn:E; [|done].
  intros Ek Hs. destruct (Hm _ _ _ E Hs) as [H1 E1].
  destruct (Hk a _ _ _ Ek ltac:(by rewrite E1)) as [H2 E2].
  split; [by etransitivity|congruence].
Qed.

(** Operations that leave the device alone. *)
Lemma exchanges_local {A} (m : M (pb_state buffer_ptr) A) :
  (forall s a s', m s = Ok (a, s') -> dev s' = dev s /\ rx_size (pb s') = rx_size (pb s)) ->
  exchanges m.
Proof. intros Hm s a s' E _. by destruct (Hm _ _ _ E) as [-> ->]. Qed.

Lemma exchanges_ret {A} (a : A) : exchanges (ret a).
Proof. apply exchanges_local. by intros s a' s' [= <- <-]. Qed.

Lemma exchanges_get : exchanges get.
Proof. apply exchanges_local. by intros s a s' [= <- <-]. Qed.

Lemma exchanges_upd f :
  (forall p, rx_size (f p) = rx_size p) -> exchanges (ProcessBuffer.upd f).
Proof. intros Hf. apply exchanges_local. intros s a s' [= <- <-]. by rewrite <- (Hf (pb s)). Qed.

Lemma exchanges_the {A} e (o : option A) : exchanges (the e o).
Proof. apply exchanges_local. intros s a s'. destruct o; [|done]. by intros [= <- <-]. Qed.

Lemma exchanges_if {A} (b : bool) (m1 m2 : M (pb_state buffer_ptr) A) :
  exchanges m1 -> exchanges m2 -> exchanges (if b then m1 else m2).
Proof. by destruct b. Qed.

Lemma exchanges_in_bounds {T} i (l : list T) : exchanges (assert_in_bounds i l).
Proof.
  apply exchanges_local. unfold assert_in_bounds. intros s a s'.
  destruct (_ && _); [|done]. by intros [= <- <-].
Qed.

Lemma exchanges_while fuel cond (body : M (pb_state buffer_ptr) unit) :
  exchanges body -> exchanges (while fuel cond body).
Proof.
  intros Hb. induction fuel as [|fuel IH]; intros s a s'; cbn [while]; destruct (cond s); try done.
  - intros [= <- <-]. by split.
  - by apply (exchanges_bind body (fun _ => while fuel cond body) Hb).
  - intros [= <- <-]. by split.
Qed.

Lemma exchanges_tx_burst i n : exchanges (tx_burst i n).
Proof.
  intros s k s'. unfold tx_burst, bind, get.
  destruct (the NullDeref (packets i n (tx_bufs (pb s))) s) as [[l s1]|] eqn:E; [|done].
  unfold the in E. destruct (packets _ _ _) as [l0|]; [|done]. injection E as El Es. subst l0 s1.
  pose proof (exchanged_tx (portid (pb s)) (queueid (pb s)) l (dev s)) as Ht.
  destruct (rte_eth_tx_burst _ _ _ _) as [k' d]. cbn in Ht |- *. by intros [= <- <-] _.
Qed.

Lemma exchanges_rx_burst : exchanges rx_burst.
Proof.
  intros s k s'. unfold rx_burst, bind, get. intros E Hs.
  pose proof (exchanged_rx (portid (pb s)) (queueid (pb s)) (rx_size (pb s)) (dev s) Hs) as Hx.
  destruct (rte_eth_rx_burst _ _ _ _) as [l d]. cbn in Hx, E. injection E as <- <-. by split.
Qed.

Create HintDb exchanges.
#[local] Hint Resolve exchanges_ret exchanges_get exchanges_the exchanges_in_bounds
  exchanges_tx_burst exchanges_rx_burst : exchanges.
#[local] Hint Extern 0 (exchanges (ProcessBuffer.upd _)) => (apply exchanges_upd; done) : exchanges.

Ltac exchange := cbv zeta; repeat first
  [ solve [auto 1 with exchanges nocore] | apply exchanges_if | apply exchanges_while
  | apply exchanges_bind; [|intros ?] ].

Lemma exchanges_flush_once : exchanges flush_once.
Proof. unfold flush_once. exchange. Qed.
#[local] Hint Resolve exchanges_flush_once : exchanges.

Lemma exchanges_receive : exchanges receive.
Proof. unfold receive, check_flush_timer, next_rx. exchange. Qed.

Lemma exchanges_send fuel b : exchanges (send fuel b).
Proof. unfold send. exchange. Qed.

(** * The transport *)

(** How often the device may refuse in a row. *)
Context (f : nat) (Hlive : live_nic f).

Record buffered_net := {
  b_pb : pb_state buffer_ptr;
  b_offered : list (Z * mbuf);  (** everything sent so far; the code has no such field *)
}.

Definition on_pb {A} (m : M (pb_state buffer_ptr) A) : M buffered_net A :=
  zoom b_pb (fun p t => {| t with b_pb := p |}) m.

Definition buffered_send (position : Z) (m : mbuf) : M buffered_net unit :=
  on_pb (send (S f) (SlotBuffer position)) ;;;
  modify (fun t => {| t with b_offered := b_offered t ++ [(position, m)] |}).

(** The device delivers no pointer to a slot ([rx_burst_ok]). *)
Definition buffered_receive : M buffered_net (option mbuf) :=
  r <- on_pb receive ;;
  match r with
  | None => ret None
  | Some (Received m) => ret (Some m)
  | Some (SlotBuffer _) => fail OutOfBounds
  end.

#[local] Instance buffered_transport : Transport := {|
  transport := buffered_net;
  tp_send := buffered_send;
  tp_receive := buffered_receive;
  tp_drop m := on_pb (drop (Received m));
  tp_rx_sw t := rx_sw_buffered_pkt_cnt (b_pb t);
  tp_rx_hw t := rx_hw_buffered_pkt_cnt (b_pb t);
  tp_reset_counts t := {| t with b_pb := {| (b_pb t) with
    pb := {| (pb (b_pb t)) with total_tx_nb := 0; total_rx_nb := 0 |} |} |};
|}.

(** [q] is waiting to be sent, [r] has been received. *)
Record buffered_repr (t : buffered_net) (q r : list buffer_ptr) : Prop := {
  br_repr : repr (b_pb t) q r;
  br_received : Forall arrived_ok r;
  br_offers : wire (dev (b_pb t)) ++ q = SlotBuffer <$> (b_offered t).*1;
}.

Definition buffered_inv (t : buffered_net) : Prop := exists q r, buffered_repr t q r.

Definition buffered_pending (t : buffered_net) : nat :=
  arriving (dev (b_pb t)) + Z.to_nat (tx_nb (pb (b_pb t)))
  + Z.to_nat (rx_nb (pb (b_pb t)) - rx_iter (pb (b_pb t))).

Lemma pending_repr t q r :
  repr (b_pb t) q r ->
  buffered_pending t = (arriving (dev (b_pb t)) + length q + length r)%nat.
Proof.
  intros Hr. unfold buffered_pending. rewrite (tx_nb_length _ _ _ Hr), (rx_nb_length _ _ _ Hr). lia.
Qed.

Lemma runs_exchanged {A} (m : M (pb_state buffer_ptr) A) s Q :
  exchanges m -> 0 <= rx_size (pb s) -> runs m s Q ->
  runs m s (fun a s' => Q a s' /\ exchanged (dev s) (dev s')).
Proof. intros He Hs (a & s' & E & HQ). exists a, s'. split; [done|]. split; [done|]. by eapply He. Qed.

Lemma buffered_send_ok i m t :
  buffered_inv t -> runs (buffered_send i m) t (fun _ t' =>
    buffered_inv t' /\ b_offered t' = b_offered t ++ [(i, m)]
    /\ (buffered_pending t' <= S (buffered_pending t))%nat).
Proof.
  intros (q & r & [Hr Hrx Ho]). unfold buffered_send, on_pb. do 2 run_step.
  pose proof (rx_size_range _ _ _ Hr).
  eapply runs_mono; [apply runs_exchanged; [apply exchanges_send|lia|by apply send_runs]|].
  cbn beta. intros _ s' [(q' & Hr' & _ & Hd & Hw) (_ & _ & Hx)]. run_step. cbn.
  rewrite (pending_repr _ _ _ Hr). rewrite (pending_repr {| b_pb := s'; b_offered := _ |} _ _ Hr').
  apply (f_equal length) in Hw as Hl. rewrite !length_app in Hl. rewrite Hd in Hx. cbn in Hl |- *.
  split_and!; [|done|lia]. exists q', r. constructor; cbn; try done.
  by rewrite !fmap_app, <- Ho, Hw, app_assoc.
Qed.

Lemma buffered_receive_ok t :
  buffered_inv t -> runs buffered_receive t (fun o t' =>
    buffered_inv t' /\ b_offered t' = b_offered t
    /\ match o with Some m => mbuf_ok m /\ (buffered_pending t' < buffered_pending t)%nat
                   | None => True end).
Proof.
  intros (q & r & [Hr Hrx Ho]). unfold buffered_receive, on_pb. do 2 run_step.
  pose proof (rx_size_range _ _ _ Hr).
  eapply runs_mono; [apply runs_exchanged; [apply exchanges_receive|lia|by apply receive_fifo]|].
  cbn beta. intros o s' [(k & new & r' & Hr' & _ & Hw & Hd & Eo & _) ((new' & Hd' & Hnew) & _ & Hx)].
  rewrite Hd in Hd'. apply app_inv_head in Hd' as <-.
  assert (Forall arrived_ok (r ++ new)) as Hall by by apply Forall_app.
  assert (buffered_inv {| b_pb := s'; b_offered := b_offered t |}) as Hi.
  { exists (list.drop k q), r'. constructor; cbn; [done| |by rewrite Hw, <- app_assoc, take_drop].
    rewrite Eo in Hall. destruct o; [by apply Forall_cons in Hall as [_ ?]|done]. }
  rewrite (pending_repr _ _ _ Hr). rewrite Hd, Hw, !length_app, length_take in Hx.
  destruct o as [b|]; [|run_step; by split_and!].
  apply (f_equal length) in Eo as El. rewrite length_app in El. cbn in El.
  rewrite Eo in Hall. apply Forall_cons in Hall as [(m & -> & Hm) _]. run_step.
  rewrite (pending_repr {| b_pb := s'; b_offered := _ |} _ _ Hr'), length_drop. cbn.
  split_and!; try done. lia.
Qed.

Lemma buffered_drop_ok m t :
  buffered_inv t -> runs (on_pb (drop (Received m))) t (fun _ t' =>
    buffered_inv t' /\ b_offered t' = b_offered t /\ buffered_pending t' = buffered_pending t).
Proof.
  intros (q & r & [Hr Hrx Ho]). unfold on_pb, drop. do 2 run_step. apply runs_upd. run_step. cbn.
  pose proof (arriving_free (Received m) (dev (b_pb t))). split_and!; [|done|unfold buffered_pending; cbn; lia].
  exists q, r. constructor; cbn; [by destruct Hr|done|]. by rewrite free_wire.
Qed.

#[export] Instance buffered_transport_laws : TransportLaws.
Proof.
  unshelve eapply (@Build_TransportLaws buffered_transport buffered_inv b_offered buffered_pending).
  - intros i m t Ht _. by apply buffered_send_ok.
  - intros t Ht. by apply buffered_receive_ok.
  - intros m t Ht. by apply buffered_drop_ok.
  - intros t (q & r & [Hr Hrx Ho]). split; [|done]. exists q, r. constructor; [by destruct Hr|done|done].
Defined.

Lemma buffered_inv_fresh port queue rxs txs d :
  0 < rxs < 2 ^ 16 -> 0 < txs < 2 ^ 15 -> wire d = [] ->
  buffered_inv {| b_pb := PB (new_process_buffer port queue rxs txs) d; b_offered := [] |}.
Proof.
  intros Hrx Htx Hd. exists [], []. constructor; cbn; [by apply new_process_buffer_repr|done|].
  by rewrite Hd.
Qed.

(** ** A worker over the packet buffer *)

Context {cfg : Config} {cfg_ok : ConfigOk} {spsc : Spsc} {spsc_laws : SpscLaws}.

(** C32: over the packet buffer, the device gets the packets of a worker in the
    order in which the worker transmits them, none left out and none twice: what
    it has accepted, and then the queue of the buffer, are the slots the worker
    has offered. *)
Theorem nic_gets_offers g st :
  w_reachable g st -> exists q,
    wire (dev (b_pb (tp (ws st)))) ++ q = SlotBuffer <$> (b_offered (tp (ws st))).*1
    /\ Z.of_nat (length q) <= tx_size (pb (b_pb (tp (ws st)))).
Proof.
  intros (l & base & Hi & _)%w_reachable_inv.
  destruct (wi_tp _ _ _ Hi) as (q & r & [Hr _ Ho]). exists q. split; [exact Ho|].
  rewrite <- (tx_nb_length _ _ _ Hr). apply Hr.
Qed.
End buffered.
