(* ===== verification/LocalNet.v ===== *)
(** The packet loopback of a worker (namespace [local] of [worker.cpp], used
    with [NETCCL_PACKET_LOOPBACK]): a packet that is sent comes back through a
    local queue.  It implements [Transport] and satisfies [TransportLaws].

    The copy of the packet ([rte_pktmbuf_copy]) is the packet's contents at the
    time of the call.  The device of the worker receives nothing in this mode,
    so both receive counts are 0 and the receive loop takes one packet a round. *)

From S2P Require Import Prelude.
From S2P Require Import Types.
From S2P Require Import Endian.
From S2P Require Import Worker.

Record local_net := {
  local_queue : list mbuf;
  offered : list (Z * mbuf);  (** everything sent so far; the code has no such field *)
}.

Definition local_send (position : Z) (m : mbuf) : M local_net unit :=
  modify (fun t => {| local_queue := local_queue t ++ [m];
                      offered := offered t ++ [(position, m)] |}).

Definition local_receive : M local_net (option mbuf) :=
  t <- get ;;
  match local_queue t with
  | [] => ret None
  | m :: l => modify (fun t => {| t with local_queue := l |}) ;;; ret (Some m)
  end.

#[export] Instance local_transport : Transport := {|
  transport := local_net;
  tp_send := local_send;
  tp_receive := local_receive;
  tp_drop _ := ret tt;
  tp_rx_sw _ := 0;
  tp_rx_hw _ := 0;
  tp_reset_counts t := t;
|}.

#[export] Instance local_transport_laws : TransportLaws.
Proof.
  unshelve eapply (@Build_TransportLaws local_transport
    (fun t => Forall mbuf_ok (local_queue t)) offered (fun t => length (local_queue t))).
  - intros i m t Ht Hm. eexists _, _. split; [done|]. cbn. split; [|split; [done|]].
    + apply Forall_app. split; [done|by apply Forall_singleton].
    + rewrite length_app. simpl. lia.
  - intros t Ht. unfold runs. cbn. unfold local_receive, bind, get.
    destruct (local_queue t) as [|m l] eqn:E; cbn; eexists _, _; (split; [done|]).
    + split; [|done]. by rewrite E.
    + cbn. apply Forall_cons in Ht as [? ?]. simpl. split_and!; done || lia.
  - intros m t Ht. by eexists _, _.
  - by intros t Ht.
Defined.
