(* ===== verification/Host.v ===== *)
(** What the program finds out about its host: the interface with a given
    address ([get_dev_by_ip] of [net_utils.hpp]), the CPUs of a NUMA node
    ([net_utils.hpp], [main.cpp]) and the environment ([common.hpp]).

    The answers of the operating system (the list of [getifaddrs], the sockets
    listed in [/proc/cpuinfo], the environment) are arguments. *)

From stdpp Require Import strings pretty sorting.
From S2P Require Import Prelude.

#[local] Open Scope Z_scope.

(** * The environment *)

Section environment.
Context (getenv : string -> option string).

Definition get_env (env : string) : string := default EmptyString (getenv env).

Definition get_env_default (env default_val : string) : string :=
  let ret := get_env env in
  if decide (ret = EmptyString) then default_val else ret.

Definition get_env_required (env : string) : outcome string :=
  let ret := get_env env in
  if decide (ret = EmptyString) then Err (Exited 1) else Ok ret.
End environment.

(** * The interface with an address *)

(** An entry of the list of [getifaddrs]; the address is the family and, for
    [AF_INET], the [s_addr], and may be null. *)
Record ifaddr := {
  ifa_name : string;
  ifa_addr : option (Z * Z);
}.

Definition AF_INET : Z := 2.

(** the loop of [get_dev_by_ip] *)
Fixpoint find_if (addr : Z) (if_list : list ifaddr) : outcome string :=
  match if_list with
  | [] => Ok EmptyString
  | ifa :: l =>
    match ifa_addr ifa with
    | None => Err NullDeref
    | Some (family, a) =>
      if (family =? AF_INET) && (a =? addr) then Ok (ifa_name ifa) else find_if addr l
    end
  end.

Definition get_dev_by_ip (inet_aton : string -> option Z)
    (getifaddrs : option (list ifaddr)) (ip_addr : string) : outcome string :=
  match inet_aton ip_addr with
  | None => Ok EmptyString
  | Some addr =>
    match getifaddrs with
    | None => Ok EmptyString
    | Some if_list => find_if addr if_list
    end
  end.

(** * The CPUs of a node *)

(** [*max_element(l.begin(), l.end())]; the end of an empty list is not
    an element *)
Definition max_element (l : list Z) : option Z :=
  match l with [] => None | x :: l => Some (foldl Z.max x l) end.

(** the loop of [get_cpu_list_with_socket_index], from CPU [cpu] on *)
Fixpoint push_cpus (cpu : Z) (socket_list : list Z) (cpu_list : list (list Z)) :
    outcome (list (list Z)) :=
  match socket_list with
  | [] => Ok cpu_list
  | s :: l =>
    match znth cpu_list s with
    | None => Err OutOfBounds
    | Some c => push_cpus (cpu + 1) l (<[Z.to_nat s := c ++ [cpu]]> cpu_list)
    end
  end.

(** [socket_list] is what [get_socket_list_with_cpu_index] reads, the socket
    of every CPU *)
Definition get_cpu_list_with_socket_index (socket_list : list Z) : outcome (list (list Z)) :=
  match max_element socket_list with
  | None => Err OutOfBounds
  | Some m => push_cpus 0 socket_list (replicate (Z.to_nat (1 + m)) [])
  end.

Definition get_cpu_list_by_socket (socket_list : list Z) (socket : Z) : outcome (list Z) :=
  match get_cpu_list_with_socket_index socket_list with
  | Err f => Err f
  | Ok cpu_list =>
    if (socket <? 0) || (Z.of_nat (length cpu_list) <=? socket) then Ok []
    else match znth cpu_list socket with Some l => Ok l | None => Err OutOfBounds end
  end.

Definition cpu_list_on_node (socket_list : list Z) (node thread_cnt : Z) : outcome (list Z) :=
  match get_cpu_list_by_socket socket_list node with
  | Err f => Err f
  | Ok cpu_list =>
    if decide (cpu_list = []) then Err AssertFailed
    else if negb ((thread_cnt <=? Z.of_nat (length cpu_list)) && (0 <? thread_cnt))
    then Err AssertFailed
    else Ok (take (Z.to_nat thread_cnt) (reverse cpu_list))
  end.

Definition cpu_list_to_string (cpu_list : list Z) : string :=
  String.concat "," ((fun cpu : Z => pretty cpu) <$> cpu_list).

(** the [--lcores] argument of [dpdk_init] *)
Definition lcores_arg (cpu_list : list Z) : string :=
  ("(0-" ++ pretty (Z.of_nat (length cpu_list) - 1) ++ ")@("
   ++ cpu_list_to_string cpu_list ++ ")")%string.

Example lcores_arg_3 : lcores_arg [15; 14; 13] = "(0-2)@(15,14,13)"%string.
Proof. reflexivity. Qed.

(** * Properties *)

(** The entries before the first match. *)
Definition is_match (addr : Z) (ifa : ifaddr) : Prop := ifa_addr ifa = Some (AF_INET, addr).

#[global] Instance is_match_dec addr ifa : Decision (is_match addr ifa).
Proof. unfold is_match. apply _. Defined.

Definition has_addr (ifa : ifaddr) : Prop := is_Some (ifa_addr ifa).

Lemma find_if_skip addr pre l :
  Forall has_addr pre -> Forall (fun i => ~ is_match addr i) pre ->
  find_if addr (pre ++ l) = find_if addr l.
Proof.
  induction pre as [|i pre IH]; [done|]. intros Ha Hm.
  apply Forall_cons_1 in Ha as [[[f a] Hi] Ha]. apply Forall_cons_1 in Hm as [Hn Hm].
  simpl. rewrite Hi. unfold is_match in Hn. rewrite Hi in Hn.
  destruct (Z.eqb_spec f AF_INET) as [->|]; [|by apply IH].
  destruct (Z.eqb_spec a addr) as [->|]; [done|]. by apply IH.
Qed.

(** The loop of [get_dev_by_ip] answers with the name of the first
    interface that has the address, with the empty string when there is none, and it
    dereferences a null pointer exactly when an interface without an
    address comes first. *)
Theorem get_dev_by_ip_spec aton ip addr if_list :
  aton ip = Some addr ->
  (exists pre i post, if_list = pre ++ i :: post
     /\ Forall has_addr pre /\ Forall (fun i => ~ is_match addr i) pre
     /\ (is_match addr i /\ get_dev_by_ip aton (Some if_list) ip = Ok (ifa_name i)
         \/ ifa_addr i = None /\ get_dev_by_ip aton (Some if_list) ip = Err NullDeref))
  \/ Forall has_addr if_list /\ Forall (fun i => ~ is_match addr i) if_list
     /\ get_dev_by_ip aton (Some if_list) ip = Ok EmptyString.
Proof.
  intros Hip. unfold get_dev_by_ip. rewrite Hip.
  assert (forall pre l, Forall has_addr pre -> Forall (fun i => ~ is_match addr i) pre ->
    (exists q i post, pre ++ l = q ++ i :: post /\ Forall has_addr q
       /\ Forall (fun i => ~ is_match addr i) q
       /\ (is_match addr i /\ find_if addr (pre ++ l) = Ok (ifa_name i)
           \/ ifa_addr i = None /\ find_if addr (pre ++ l) = Err NullDeref))
    \/ Forall has_addr (pre ++ l) /\ Forall (fun i => ~ is_match addr i) (pre ++ l)
       /\ find_if addr (pre ++ l) = Ok EmptyString) as Hgen; [|by apply (Hgen [])].
  intros pre l. revert pre. induction l as [|i l IH]; intros pre Ha Hm.
  - right. rewrite find_if_skip, app_nil_r by done. done.
  - destruct (ifa_addr i) as [[f a]|] eqn:E.
    + destruct (decide (is_match addr i)) as [Hi|Hi].
      * left. exists pre, i, l. rewrite find_if_skip by done. split_and!; try done.
        left. split; [done|]. simpl. unfold is_match in Hi. rewrite Hi, !Z.eqb_refl. done.
      * specialize (IH (pre ++ [i])). rewrite <- app_assoc in IH. apply IH.
        -- apply Forall_app_2, Forall_singleton; [done|]. by eexists.
        -- by apply Forall_app_2, Forall_singleton.
    + left. exists pre, i, l. rewrite find_if_skip by done. split_and!; try done.
      right. split; [done|]. simpl. by rewrite E.
Qed.

(** The CPUs of a node, in ascending order. *)
Definition cpus_of (socket_list : list Z) (node : Z) : list Z :=
  filter (fun c => znth socket_list c = Some node) (seqZ 0 (Z.of_nat (length socket_list))).

(** The CPUs among [cpu], [cpu + 1], ... whose sockets are [l] that are on
    [node]. *)
Fixpoint cpus_from (cpu : Z) (l : list Z) (node : Z) : list Z :=
  match l with
  | [] => []
  | s :: l => (if decide (s = node) then [cpu] else []) ++ cpus_from (cpu + 1) l node
  end.

Lemma cpus_from_of pre l node :
  filter (fun c => znth (pre ++ l) c = Some node)
    (seqZ (Z.of_nat (length pre)) (Z.of_nat (length l)))
  = cpus_from (Z.of_nat (length pre)) l node.
Proof.
  revert pre. induction l as [|s l IH]; intros pre; [done|].
  specialize (IH (pre ++ [s])). rewrite <- app_assoc, length_app in IH. simpl in IH.
  rewrite seqZ_cons by (simpl; lia). rewrite filter_cons.
  replace (Z.of_nat (length (pre ++ [s]))) with (Z.of_nat (length pre) + 1) in IH
    by (rewrite length_app; simpl; lia).
  replace (Z.of_nat (length pre + 1)) with (Z.of_nat (length pre) + 1) in IH by lia.
  replace (Z.pred (Z.of_nat (length (s :: l)))) with (Z.of_nat (length l)) by (simpl; lia).
  unfold Z.succ. simpl cpus_from. rewrite <- IH.
  rewrite znth_lookup, Nat2Z.id, list_lookup_middle by lia.
  destruct (decide (s = node)) as [->|Hn].
  - by rewrite decide_True.
  - rewrite decide_False by congruence. done.
Qed.

Lemma push_cpus_spec l cpu acc :
  Forall (fun s => 0 <= s < Z.of_nat (length acc)) l ->
  exists acc', push_cpus cpu l acc = Ok acc' /\ length acc' = length acc
    /\ forall node c, znth acc node = Some c -> znth acc' node = Some (c ++ cpus_from cpu l node).
Proof.
  revert cpu acc. induction l as [|s l IH]; intros cpu acc Hl.
  - exists acc. split_and!; [done..|]. intros node c ->. simpl. by rewrite app_nil_r.
  - apply Forall_cons_1 in Hl as [Hs Hl]. simpl.
    destruct (znth_is_Some acc s Hs) as [c Hc]. rewrite Hc.
    destruct (IH (cpu + 1) (<[Z.to_nat s := c ++ [cpu]]> acc)) as (acc' & -> & Hlen & Hacc).
    { by rewrite length_insert. }
    exists acc'. rewrite length_insert in Hlen. split_and!; [done..|].
    intros node d Hd. destruct (decide (s = node)) as [->|Hne].
    + rewrite app_assoc. apply Hacc. rewrite znth_insert_eq by done. congruence.
    + apply Hacc. rewrite znth_insert_ne by lia. by rewrite Hd.
Qed.

Lemma max_element_spec l m :
  max_element l = Some m -> Forall (fun x => x <= m) l.
Proof.
  destruct l as [|x l]; [done|]. simpl. intros [= <-].
  assert (forall y, y <= foldl Z.max y l /\ Forall (fun z => z <= foldl Z.max y l) l) as H.
  { induction l as [|z l IH]; intros y; simpl; [split; [lia|done]|].
    destruct (IH (y `max` z)). split; [lia|]. constructor; [lia|done]. }
  constructor; apply H.
Qed.

Lemma elem_of_cpus_of sl node c : c ∈ cpus_of sl node <-> znth sl c = Some node.
Proof.
  unfold cpus_of. rewrite list_elem_of_filter, elem_of_seqZ. split; [by intros []|].
  intros Hc. split; [done|]. apply znth_Some in Hc. lia.
Qed.

Lemma cpus_of_eq sl node : cpus_of sl node = cpus_from 0 sl node.
Proof. apply (cpus_from_of []). Qed.

Lemma cpus_from_sorted cpu l node :
  StronglySorted Z.lt (cpus_from cpu l node) /\ Forall (fun c => cpu <= c) (cpus_from cpu l node).
Proof.
  revert cpu. induction l as [|s l IH]; intros cpu; simpl; [by repeat constructor|].
  destruct (IH (cpu + 1)) as [Hs Hb].
  assert (Forall (fun c => cpu <= c) (cpus_from (cpu + 1) l node)) by
    (eapply Forall_impl; [exact Hb|]; simpl; lia).
  destruct (decide (s = node)); simpl; [|done].
  split; [|constructor; [lia|done]].
  constructor; [done|]. eapply Forall_impl; [exact Hb|]. simpl. lia.
Qed.

Lemma get_cpu_list_by_socket_spec sl node :
  sl <> [] -> Forall (fun s => 0 <= s) sl ->
  get_cpu_list_by_socket sl node = Ok (cpus_of sl node).
Proof.
  intros Hsl Hpos. unfold get_cpu_list_by_socket, get_cpu_list_with_socket_index.
  destruct (max_element sl) as [m|] eqn:Em; [|by destruct sl].
  pose proof (max_element_spec _ _ Em) as Hm.
  assert (0 <= m) as Hm0.
  { destruct sl as [|x sl]; [done|]. apply Forall_cons_1 in Hpos as [? _].
    apply Forall_cons_1 in Hm as [? _]. lia. }
  destruct (push_cpus_spec sl 0 (replicate (Z.to_nat (1 + m)) [])) as (acc & -> & Hlen & Hacc).
  { rewrite length_replicate. apply Forall_forall. intros x Hx. rewrite Forall_forall in Hpos, Hm.
    specialize (Hpos _ Hx). specialize (Hm _ Hx). lia. }
  rewrite length_replicate in Hlen. rewrite Hlen.
  destruct (Z.ltb_spec node 0), (Z.leb_spec (Z.of_nat (Z.to_nat (1 + m))) node); simpl;
    [| | |rewrite (Hacc node []);
          [by rewrite cpus_of_eq|rewrite znth_lookup by lia; apply lookup_replicate_2; lia]].
  all: symmetry; f_equal; apply elem_of_nil_inv; intros c Hc; apply elem_of_cpus_of in Hc;
    rewrite Forall_forall in Hpos, Hm; pose proof (znth_Some _ _ _ Hc);
    rewrite znth_lookup in Hc by lia; apply list_elem_of_lookup_2 in Hc;
    specialize (Hpos _ Hc); specialize (Hm _ Hc); simpl in *; lia.
Qed.

Lemma StronglySorted_reverse {A} (R : relation A) l :
  StronglySorted R l -> StronglySorted (flip R) (reverse l).
Proof.
  induction 1 as [|x l Hl IH Hx]; [by constructor|]. rewrite reverse_cons.
  apply StronglySorted_app_2; [|done|by repeat constructor].
  intros y z Hy ->%list_elem_of_singleton. rewrite elem_of_reverse in Hy.
  rewrite Forall_forall in Hx. unfold flip. exact (Hx _ Hy).
Qed.

(** [cpu_list_on_node] answers with [thread_cnt] CPUs of the node, the highest
    numbered ones in descending order, and fails its assertion exactly when
    the node has fewer CPUs or [thread_cnt] is not positive. *)
Theorem cpu_list_on_node_spec sl node thread_cnt :
  sl <> [] -> Forall (fun s => 0 <= s) sl ->
  match cpu_list_on_node sl node thread_cnt with
  | Ok l =>
    Z.of_nat (length l) = thread_cnt
    /\ StronglySorted Z.gt l
    /\ Forall (fun c => znth sl c = Some node) l
    /\ (forall c c', znth sl c = Some node -> c ∉ l -> c' ∈ l -> c < c')
  | Err f => f = AssertFailed /\ ~ 0 < thread_cnt <= Z.of_nat (length (cpus_of sl node))
  end.
Proof.
  intros Hsl Hpos. unfold cpu_list_on_node. rewrite get_cpu_list_by_socket_spec by done.
  set (cpus := cpus_of sl node).
  destruct (decide (cpus = [])) as [->|_]; [simpl; split; [done|lia]|].
  destruct (Z.leb_spec thread_cnt (Z.of_nat (length cpus))), (Z.ltb_spec 0 thread_cnt);
    simpl; [|split; [done|lia]..].
  pose proof (take_drop (Z.to_nat thread_cnt) (reverse cpus)) as Hsplit.
  assert (StronglySorted Z.gt (reverse cpus)) as Hs.
  { pose proof (StronglySorted_reverse Z.lt cpus) as Hr.
    eapply (StronglySorted_fmap id (flip Z.lt) Z.gt) in Hr; [by rewrite list_fmap_id in Hr| |].
    - intros x y ?. unfold flip in *. simpl in *. lia.
    - unfold cpus. rewrite cpus_of_eq. apply cpus_from_sorted. }
  rewrite <- Hsplit in Hs. pose proof Hs as (Hlt & Ht & _)%StronglySorted_app.
  split_and!; [|done| |].
  - rewrite length_take, length_reverse. lia.
  - apply Forall_take, Forall_reverse, Forall_forall. intros c. apply elem_of_cpus_of.
  - intros c c' Hc Hn Hc'. apply elem_of_cpus_of in Hc.
    fold cpus in Hc. rewrite <- elem_of_reverse in Hc. rewrite <- Hsplit in Hc.
    apply elem_of_app in Hc as [Hc|Hc]; [done|]. specialize (Hlt _ _ Hc' Hc). lia.
Qed.
