(* ===== verification/Scan.v ===== *)
(** [fscanf], as far as [net_utils.hpp] uses it, over the characters that are
    left in a file.

    [scan] runs the directives of a format one after the other; it ends with
    the values assigned, with how it ended, and with the rest of the file. *)

From Stdlib Require Import Ascii.
From S2P Require Import Prelude.

Abbreviation text := (list ascii).

(** * Characters *)

Definition code (c : ascii) : Z := Z.of_N (N_of_ascii c).

(** [isspace]: blank, and \t \n \v \f \r *)
Definition is_space (c : ascii) : bool := (code c =? 32) || ((9 <=? code c) && (code c <=? 13)).
Definition is_newline (c : ascii) : bool := code c =? 10.
Definition is_digit (c : ascii) : bool := (48 <=? code c) && (code c <=? 57).
Definition digit (c : ascii) : Z := code c - 48.

Definition newline : ascii := ascii_of_N 10.
Definition digit_char (d : Z) : ascii := ascii_of_N (Z.to_N (d + 48)).

(** The longest prefix of characters with [P], and the rest. *)
Fixpoint span (P : ascii -> bool) (s : text) : text * text :=
  match s with
  | [] => ([], [])
  | c :: s' => if P c then let '(a, b) := span P s' in (c :: a, b) else ([], s)
  end.

Definition skip_space (s : text) : text := (span is_space s).2.

(** The number the digits stand for. *)
Definition dec_value (ds : text) : Z := foldl (fun a c => 10 * a + digit c) 0 ds.

(** * Directives *)

Inductive directive :=
  | White              (** white space in the format *)
  | Lit (c : ascii)
  | Str                (** %s *)
  | Skip_str           (** %*s *)
  | Int                (** %d *)
  | Skip_int           (** %*d *)
  | Skip_line          (** %*[^\n] *)
  | Skip_char.         (** %*c *)

Inductive value := VInt (z : Z) | VStr (s : text).

(** What a directive yields: it matches, with a value or none, it does not
    match, or the file has ended. *)
Inductive matched := Matches (v : option value) (rest : text) | Mismatch (rest : text) | End_of_file.

Definition scan_str (s : text) : matched :=
  match span (fun c => negb (is_space c)) (skip_space s) with
  | ([], _) => End_of_file
  | (w, rest) => Matches (Some (VStr w)) rest
  end.

(** an optional sign and digits *)
Definition scan_int (s : text) : matched :=
  let s := skip_space s in
  let '(sign, s) :=
    match s with
    | c :: s' => if code c =? 45 then (-1, s') else if code c =? 43 then (1, s') else (1, s)
    | [] => (1, [])
    end in
  match span is_digit s with
  | ([], []) => End_of_file
  | ([], rest) => Mismatch rest
  | (ds, rest) => Matches (Some (VInt (sign * dec_value ds))) rest
  end.

(** An assignment that is suppressed. *)
Definition suppress (m : matched) : matched :=
  match m with Matches _ rest => Matches None rest | _ => m end.

Definition scan1 (d : directive) (s : text) : matched :=
  match d with
  | White => Matches None (skip_space s)
  | Lit c =>
    match s with
    | [] => End_of_file
    | c' :: s' => if code c' =? code c then Matches None s' else Mismatch s
    end
  | Str => scan_str s
  | Skip_str => suppress (scan_str s)
  | Int => scan_int s
  | Skip_int => suppress (scan_int s)
  | Skip_line =>
    match span (fun c => negb (is_newline c)) s with
    | ([], []) => End_of_file
    | ([], _) => Mismatch s
    | (_, rest) => Matches None rest
    end
  | Skip_char => match s with [] => End_of_file | _ :: s' => Matches None s' end
  end.

(** The values assigned, whether the end of the file was met, and the rest. *)
Fixpoint scan (fmt : list directive) (s : text) : list value * bool * text :=
  match fmt with
  | [] => ([], false, s)
  | d :: fmt =>
    match scan1 d s with
    | End_of_file => ([], true, [])
    | Mismatch rest => ([], false, rest)
    | Matches v rest =>
      let '(vs, eof, rest) := scan fmt rest in (option_list v ++ vs, eof, rest)
    end
  end.

(** The result of [fscanf]: the number of assignments, or [EOF] if the file
    ended before the first. *)
Definition EOF : Z := -1.
Definition scan_ret (vs : list value) (eof : bool) : Z :=
  match vs with [] => if eof then EOF else 0 | _ => Z.of_nat (length vs) end.

(** * Lemmas *)

Lemma span_app P s : (span P s).1 ++ (span P s).2 = s.
Proof.
  induction s as [|c s IH]; [done|]. cbn. destruct (P c); [|done].
  destruct (span P s) as [a b]. cbn in *. by rewrite IH.
Qed.

Lemma length_span P s : (length (span P s).2 <= length s)%nat.
Proof. rewrite <- (span_app P s) at 2. rewrite length_app. lia. Qed.

(** A run of characters with [P] up to one without. *)
Lemma span_stop P w c s :
  Forall (fun x => P x = true) w -> P c = false -> span P (w ++ c :: s) = (w, c :: s).
Proof.
  intros Hw Hc. induction Hw as [|x w Hx Hw IH]; cbn; [by rewrite Hc|]. by rewrite Hx, IH.
Qed.

Lemma skip_space_stop w c s :
  Forall (fun x => is_space x = true) w -> is_space c = false -> skip_space (w ++ c :: s) = c :: s.
Proof. intros Hw Hc. unfold skip_space. by rewrite span_stop. Qed.

Lemma skip_space_twice s : skip_space (skip_space s) = skip_space s.
Proof.
  unfold skip_space. induction s as [|c s IH]; [done|]. cbn.
  destruct (is_space c) eqn:E; [|cbn; by rewrite E]. by destruct (span is_space s).
Qed.

Lemma scan_int_skip s : scan_int (skip_space s) = scan_int s.
Proof. unfold scan_int. by rewrite skip_space_twice. Qed.

Lemma scan_str_skip s : scan_str (skip_space s) = scan_str s.
Proof. unfold scan_str. by rewrite skip_space_twice. Qed.

Lemma scan_str_word w c s b :
  Forall (fun x => is_space x = true) b -> Forall (fun x => is_space x = false) w -> w <> [] ->
  is_space c = true -> scan_str (b ++ w ++ c :: s) = Matches (Some (VStr w)) (c :: s).
Proof.
  intros Hb Hw Hne Hc. unfold scan_str. destruct w as [|x w]; [done|].
  apply Forall_cons_1 in Hw as [Hx Hw]. cbn [app]. rewrite skip_space_stop by done.
  change (x :: w ++ c :: s) with ((x :: w) ++ c :: s). rewrite span_stop; [done| |by rewrite Hc].
  constructor; [by rewrite Hx|]. eapply Forall_impl; [exact Hw|]. intros y ->. done.
Qed.

Lemma digit_not_space c : is_digit c = true -> is_space c = false.
Proof.
  unfold is_digit, is_space. intros [H1 H2]%andb_prop.
  apply Z.leb_le in H1. apply Z.leb_le in H2.
  apply orb_false_intro; [apply Z.eqb_neq; lia|apply andb_false_intro2, Z.leb_gt; lia].
Qed.

Lemma scan_int_digits ds c s b :
  Forall (fun x => is_space x = true) b -> Forall (fun x => is_digit x = true) ds -> ds <> [] ->
  is_digit c = false -> scan_int (b ++ ds ++ c :: s) = Matches (Some (VInt (dec_value ds))) (c :: s).
Proof.
  intros Hb Hds Hne Hc. unfold scan_int. destruct ds as [|x ds]; [done|].
  pose proof Hds as [Hx _]%Forall_cons_1. cbn [app].
  rewrite skip_space_stop by (auto using digit_not_space).
  unfold is_digit in Hx. apply andb_prop in Hx as [H1%Z.leb_le H2%Z.leb_le].
  rewrite !(proj2 (Z.eqb_neq _ _)) by lia.
  change (x :: ds ++ c :: s) with ((x :: ds) ++ c :: s). rewrite span_stop by done.
  by rewrite Z.mul_1_l.
Qed.

(** * Decimal numbers *)

(** [printf] of a number that is not negative, with [fuel] digits at most *)
Fixpoint print_digits (fuel : nat) (n : Z) : text :=
  match fuel with
  | O => []
  | S fuel =>
    if n <? 10 then [digit_char n] else print_digits fuel (n / 10) ++ [digit_char (n mod 10)]
  end.

Definition print_dec (n : Z) : text := print_digits (S (Z.to_nat (Z.log2 n))) n.

Lemma code_digit_char d : 0 <= d < 10 -> code (digit_char d) = d + 48.
Proof.
  intros Hd. unfold code, digit_char. rewrite N_ascii_embedding by lia. lia.
Qed.

Lemma is_digit_char d : 0 <= d < 10 -> is_digit (digit_char d) = true.
Proof. intros Hd. unfold is_digit. rewrite code_digit_char by done. lia. Qed.

Lemma print_digits_spec fuel n :
  0 <= n < 2 ^ Z.of_nat fuel -> (0 < fuel)%nat ->
  Forall (fun c => is_digit c = true) (print_digits fuel n) /\ print_digits fuel n <> []
  /\ dec_value (print_digits fuel n) = n.
Proof.
  revert n. induction fuel as [|fuel IH]; intros n Hn Hf; [lia|]. cbn [print_digits].
  destruct (Z.ltb_spec n 10) as [Hlt|Hge].
  - split_and!; [|done|].
    + apply Forall_singleton, is_digit_char. lia.
    + unfold dec_value, digit. cbn. rewrite code_digit_char by lia. lia.
  - rewrite Nat2Z.inj_succ, Z.pow_succ_r in Hn by lia.
    pose proof (Z.div_mod n 10 ltac:(lia)). pose proof (Z.mod_pos_bound n 10 ltac:(lia)).
    destruct fuel as [|fuel]; [cbn in Hn; lia|].
    destruct (IH (n / 10)) as (Hall & Hne & Hv); [lia|lia|]. split_and!.
    + apply Forall_app_2; [done|]. by apply Forall_singleton, is_digit_char.
    + by intros [? ?]%app_eq_nil.
    + unfold dec_value in *. rewrite foldl_app, Hv. cbn. unfold digit.
      rewrite code_digit_char by done. lia.
Qed.

Lemma print_dec_spec n :
  0 <= n -> Forall (fun c => is_digit c = true) (print_dec n) /\ print_dec n <> []
  /\ dec_value (print_dec n) = n.
Proof.
  intros Hn. apply print_digits_spec; [|lia]. split; [done|].
  rewrite Nat2Z.inj_succ, Z2Nat.id by apply Z.log2_nonneg.
  destruct (decide (n = 0)) as [->|]; [done|]. apply Z.log2_spec. lia.
Qed.

(** ** Progress *)

(** No directive puts anything back into the file. *)
Definition shortens (s : text) (m : matched) : Prop :=
  match m with Matches _ r | Mismatch r => (length r <= length s)%nat | End_of_file => True end.

Lemma shortens_str s : shortens s (scan_str s).
Proof.
  unfold scan_str, skip_space. pose proof (length_span is_space s).
  pose proof (length_span (fun c => negb (is_space c)) (span is_space s).2).
  destruct (span _ (span is_space s).2) as [[|? ?] ?]; cbn in *; [done|lia].
Qed.

Lemma shortens_int s : shortens s (scan_int s).
Proof.
  unfold scan_int. pose proof (length_span is_space s). fold (skip_space s) in *.
  assert (forall sign u, (length u <= length (skip_space s))%nat ->
    shortens s match span is_digit u with
               | ([], []) => End_of_file
               | ([], r) => Mismatch r
               | (ds, r) => Matches (Some (VInt (sign * dec_value ds))) r
               end) as Hu.
  { intros sign u Hu. pose proof (length_span is_digit u).
    destruct (span is_digit u) as [[|? ?] [|? ?]]; cbn in *; try done; lia. }
  destruct (skip_space s) as [|c u]; [done|].
  destruct (code c =? 45); [apply Hu; cbn; lia|]. destruct (code c =? 43); apply Hu; cbn; lia.
Qed.

Lemma shortens_suppress s m : shortens s m -> shortens s (suppress m).
Proof. by destruct m. Qed.

Lemma shortens_scan1 d s : shortens s (scan1 d s).
Proof.
  destruct d; cbn [scan1]; auto using shortens_str, shortens_int, shortens_suppress.
  - apply length_span.
  - destruct s as [|c' s]; [done|]. destruct (_ =? _); cbn; lia.
  - pose proof (length_span (fun c => negb (is_newline c)) s).
    destruct (span _ s) as [[|? ?] [|? ?]]; cbn in *; done || lia.
  - destruct s as [|c s]; [done|]. cbn. lia.
Qed.

Lemma scan_shorter fmt s : (length (scan fmt s).2 <= length s)%nat.
Proof.
  revert s. induction fmt as [|d fmt IH]; intros s; cbn [scan]; [done|].
  pose proof (shortens_scan1 d s) as Hd. destruct (scan1 d s) as [v r|r|]; cbn in *; [|done|lia].
  specialize (IH r). destruct (scan fmt r) as [[vs e] rest]. cbn in *. lia.
Qed.

(** One directive of a format. *)
Lemma scan_cons d fmt s v r vs eof rest :
  scan1 d s = Matches v r -> scan fmt r = (vs, eof, rest) ->
  scan (d :: fmt) s = (option_list v ++ vs, eof, rest).
Proof. intros E1 E2. cbn [scan]. by rewrite E1, E2. Qed.

Lemma scan_suppressed_word w c s b :
  Forall (fun x => is_space x = true) b -> Forall (fun x => is_space x = false) w -> w <> [] ->
  is_space c = true -> scan1 Skip_str (b ++ w ++ c :: s) = Matches None (c :: s).
Proof. intros Hb Hw Hne Hc. cbn [scan1]. by rewrite scan_str_word. Qed.

(** A format that starts with a word consumes something or meets the end of
    the file. *)
Lemma scan_word_progress d fmt s vs eof rest :
  d = Str \/ d = Skip_str -> scan (d :: fmt) s = (vs, eof, rest) ->
  (length rest < length s)%nat \/ (vs = [] /\ eof = true).
Proof.
  intros Hd. cbn [scan].
  assert (forall v r, scan_str s = Matches v r -> (length r < length s)%nat) as Hstr.
  { unfold scan_str, skip_space. intros v r. pose proof (length_span is_space s).
    pose proof (span_app (fun c => negb (is_space c)) (span is_space s).2) as Happ.
    destruct (span _ (span is_space s).2) as [[|a w] r']; [done|]. intros [= _ <-].
    apply (f_equal length) in Happ. rewrite length_app in Happ. cbn in Happ. lia. }
  assert ((exists v r, scan1 d s = Matches v r /\ (length r < length s)%nat)
          \/ scan1 d s = End_of_file) as [(v & r & -> & Hr)| ->].
  { destruct Hd as [-> | ->]; cbn [scan1];
      (destruct (scan_str s) as [v r| |] eqn:E; [left|exfalso|by right]).
    1, 3: by eexists _, _; split; [done|eapply Hstr].
    all: unfold scan_str in E; destruct (span _ _) as [[|? ?] ?]; done. }
  - pose proof (scan_shorter fmt r). destruct (scan fmt r) as [[vs' e'] rest']. cbn in *.
    intros [= _ _ <-]. left. lia.
  - intros [= <- <- <-]. by right.
Qed.
