(* ===== verification/HostFiles.v ===== *)
(** What the program reads from files and device tables of its host: the rest
    of the host discovery of [net_utils.hpp].  The answers of the operating
    system (the contents of files, the result of [ioctl] and [inet_pton]) are
    arguments; so is the value a variable has before it is assigned. *)

From Stdlib Require Import Ascii String.
From stdpp Require Import sorting.
From S2P Require Import Prelude.
From S2P Require Import Endian.
From S2P Require Import Host.
From S2P Require Import Scan.

#[local] Open Scope Z_scope.

Definition chars (s : string) : text := list_ascii_of_string s.
Definition colon : ascii := ":"%char.
Definition tab : ascii := ascii_of_N 9.
Definition space : ascii := " "%char.

(** * Addresses *)

(** [ipv4_to_int]; [uninit] is what the address holds if [inet_pton] fails *)
Definition ipv4_to_int (inet_pton : string -> option Z) (uninit : Z) (ip : string) : Z :=
  betoh 4 (default uninit (inet_pton ip)).

(** [union ibv_gid], seen as [global] *)
Record ibv_gid := { subnet_prefix : Z; interface_id : Z }.

Definition ipv4_to_gid (ip : Z) : ibv_gid :=
  {| subnet_prefix := 0; interface_id := htobe 8 (Z.lor 0x0000ffff00000000 ip) |}.
Definition gid_to_ipv4 (gid : ibv_gid) : Z := u32 (betoh 8 (interface_id gid)).

Definition hex_char (d : Z) : ascii := ascii_of_N (Z.to_N (if d <? 10 then 48 + d else 87 + d)).

(** "%04x" for a number of 16 bits *)
Definition hex4 (x : Z) : text :=
  (fun i => hex_char (Z.land (Z.shiftr x (4 * i)) 15)) <$> [3; 2; 1; 0].

(** The memory of a gid. *)
Definition gid_bytes (gid : ibv_gid) : list Z := le_bytes 8 (subnet_prefix gid) ++ le_bytes 8 (interface_id gid).

(** [ntohs(((uint16_t* )&gid)[i])] *)
Definition gid_word (gid : ibv_gid) (i : nat) : Z := betoh 2 (le_num (take 2 (drop (2 * i) (gid_bytes gid)))).

(** [gid_to_str]: [s] after the turns [i .. len - 1] *)
Fixpoint gid_words (gid : ibv_gid) (len : nat) (ks : list nat) (s : text) : text :=
  match ks with
  | [] => s
  | i :: ks =>
    let s := s ++ hex4 (gid_word gid i) in
    gid_words gid len ks (if (i <? len - 1)%nat then s ++ [colon] else s)
  end.
Definition gid_to_str (gid : ibv_gid) : text := gid_words gid 8 (seq 0 8) [].

(** * The PCI address of a network device and its node *)

Definition IFNAMSIZ : Z := 16.

(** [strcpy] into [ifr_name], then [ioctl]: the [bus_info] of the device *)
Definition get_pci_by_dev (ethtool_drvinfo : text -> option text) (dev : text) : outcome text :=
  if IFNAMSIZ <=? Z.of_nat (length dev) then Err OutOfBounds
  else Ok (default [] (ethtool_drvinfo dev)).

Definition numa_path (pci : text) : text :=
  chars "/sys/bus/pci/devices/" ++ pci ++ chars "/numa_node".

(** [sprintf] into [char path[128]], then [fopen] and [fscanf] *)
Definition get_socket_by_pci (fopen : text -> option text) (pci : text) : outcome Z :=
  if 128 <=? Z.of_nat (length (numa_path pci)) then Err OutOfBounds
  else
    match fopen (numa_path pci) with
    | None => Ok (-1)
    | Some file =>
      match scan [Int] file with
      | ([VInt socket], _, _) => Ok socket
      | _ => Ok (-1)
      end
    end.

(** * The sockets of the CPUs *)

(** ** [grep] *)

(** The lines of a file; the last may lack its end. *)
Fixpoint lines (s : text) : list text :=
  match s with
  | [] => []
  | c :: s =>
    if is_newline c then [] :: lines s
    else match lines s with [] => [[c]] | l :: ls => (c :: l) :: ls end
  end.

Fixpoint starts (pat l : text) : bool :=
  match pat, l with
  | [], _ => true
  | p :: pat, c :: l => (code p =? code c) && starts pat l
  | _, [] => false
  end.

Fixpoint contains (pat l : text) : bool :=
  starts pat l || match l with [] => false | _ :: l => contains pat l end.

Definition unlines (ls : list text) : text := ls ≫= (fun l => l ++ [newline]).

Definition grep (pat s : text) : text := unlines (filter (fun l => contains pat l = true) (lines s)).

(** ** The loop of [get_socket_list_with_cpu_index] *)

(** "%*s %*s : %d%*[^\n]%*c" *)
Definition physical_fmt : list directive :=
  [Skip_str; White; Skip_str; White; Lit colon; White; Int; Skip_line; Skip_char].

(** [socket_id] keeps its value when nothing is assigned. *)
Fixpoint read_sockets (n : nat) (socket_id : Z) (s : text) : outcome (list Z) :=
  let '(vs, eof, rest) := scan physical_fmt s in
  if scan_ret vs eof =? EOF then Ok []
  else
    let socket_id := match vs with VInt z :: _ => z | _ => socket_id end in
    match n with
    | O => Err NoFuel
    | S n =>
      match read_sockets n socket_id rest with
      | Ok l => Ok (socket_id :: l)
      | Err f => Err f
      end
    end.

(** [cpuinfo] is the contents of [/proc/cpuinfo] if the pipe could be opened. *)
Definition get_socket_list_with_cpu_index (uninit : Z) (cpuinfo : option text) : outcome (list Z) :=
  match cpuinfo with
  | Some t => let s := grep (chars "physical id") t in read_sockets (length s) uninit s
  | None => Err (Exited 0)
  end.

(** [cpu_list_on_node] with what the host says. *)
Definition host_cpu_list (uninit : Z) (cpuinfo : option text) (node thread_cnt : Z) : outcome (list Z) :=
  match get_socket_list_with_cpu_index uninit cpuinfo with
  | Ok sl => cpu_list_on_node sl node thread_cnt
  | Err f => Err f
  end.

(** * The InfiniBand devices ([ENABLE_IB_UTILS]) *)

(** [show_devices] prints the names of [ibv_get_device_list]; a null list is reported to the error
    output only. *)
Definition show_devices (ibv_get_device_list : option (list text)) : text :=
  match ibv_get_device_list with
  | Some names => unlines (chars "Devices:" :: names)
  | None => []
  end.

(** [find_device]: the number of the first device with the name.  Its label [free_list] frees the
    list even if there is none: [ibv_free_device_list] says what becomes of that. *)
Definition find_device (ibv_get_device_list : option (list text)) (ibv_free_device_list : outcome unit)
    (name : text) : outcome (option nat) :=
  match ibv_get_device_list with
  | Some names => Ok (fst <$> list_find (fun n => n = name) names)
  | None => match ibv_free_device_list with Ok _ => Ok None | Err f => Err f end
  end.

(** "%s %*s %*d ==> %s %*[^\n]%*c" *)
Definition ibdev_fmt : list directive :=
  [Str; White; Skip_str; White; Skip_int; White; Lit "="%char; Lit "="%char; Lit ">"%char; White;
   Str; White; Skip_line; Skip_char].

(** What [fscanf] leaves in [ib_dev_buf] and [dev_buf]. *)
Definition buffers (vs : list value) (ib_dev dev : text) : text * text :=
  match vs with
  | VStr a :: VStr b :: _ => (a, b)
  | VStr a :: _ => (a, dev)
  | _ => (ib_dev, dev)
  end.

(** A word that does not fit into a buffer of 64 bytes. *)
Definition overflows (v : value) : bool :=
  match v with VStr w => 64 <=? Z.of_nat (length w) | VInt _ => false end.

(** The loop of both functions over the output of [ibdev2netdev]. *)
Fixpoint find_ib (n : nat) (found : text -> text -> option text) (ib_dev dev s : text) : outcome text :=
  let '(vs, eof, rest) := scan ibdev_fmt s in
  if scan_ret vs eof =? EOF then Ok []
  else if existsb overflows vs then Err OutOfBounds
  else
    let '(ib_dev, dev) := buffers vs ib_dev dev in
    match found ib_dev dev with
    | Some r => Ok r
    | None => match n with O => Err NoFuel | S n => find_ib n found ib_dev dev rest end
    end.

Definition dev_to_ib_dev (uninit s dev : text) : outcome text :=
  find_ib (length s) (fun ib_buf dev_buf => if decide (dev = dev_buf) then Some ib_buf else None)
    uninit uninit s.
Definition ib_dev_to_dev (uninit s ib_dev : text) : outcome text :=
  find_ib (length s) (fun ib_buf dev_buf => if decide (ib_dev = ib_buf) then Some dev_buf else None)
    uninit uninit s.

(** * Lemmas *)

(** ** Lines *)

Definition no_newline (l : text) : Prop := Forall (fun c => is_newline c = false) l.

Lemma lines_line l s : no_newline l -> lines (l ++ newline :: s) = l :: lines s.
Proof. induction 1 as [|c l Hc Hl IH]; [done|]. cbn [lines app]. by rewrite Hc, IH. Qed.

Lemma unlines_cons l ls : unlines (l :: ls) = l ++ newline :: unlines ls.
Proof. unfold unlines. rewrite bind_cons, <- app_assoc. done. Qed.

Lemma length_unlines ls : (length ls <= length (unlines ls))%nat.
Proof.
  induction ls as [|l ls IH]; [done|]. rewrite unlines_cons, length_app. cbn [length]. lia.
Qed.

Lemma lines_unlines ls : Forall no_newline ls -> lines (unlines ls) = ls.
Proof.
  induction 1 as [|l ls Hl Hls IH]; [done|]. by rewrite unlines_cons, lines_line, IH.
Qed.

Lemma grep_unlines pat ls :
  Forall no_newline ls ->
  grep pat (unlines ls) = unlines (filter (fun l => contains pat l = true) ls).
Proof. intros Hls. unfold grep. by rewrite lines_unlines. Qed.

(** ** The lines the kernel prints *)

(** [seq_printf(m, "physical id\t: %d\n", ...)] without its end *)
Definition physical_line (n : Z) : text :=
  chars "physical" ++ space :: chars "id" ++ [tab; colon; space] ++ print_dec n.

Lemma scan_physical b n s :
  Forall (fun c => is_space c = true) b -> 0 <= n ->
  scan physical_fmt (b ++ physical_line n ++ newline :: s) = ([VInt n], false, newline :: s).
Proof.
  intros Hb Hn. destruct (print_dec_spec n Hn) as (Hd & Hne & Hv).
  unfold physical_fmt, physical_line. rewrite <- !app_assoc.
  eapply (scan_cons _ _ _ None _ [VInt n]).
  { apply (scan_suppressed_word (chars "physical") space); (done || by repeat constructor). }
  eapply (scan_cons _ _ _ None _ [VInt n]); [reflexivity|].
  eapply (scan_cons _ _ _ None _ [VInt n]).
  { apply (scan_suppressed_word (chars "id") tab _ []); (done || by repeat constructor). }
  eapply (scan_cons _ _ _ None _ [VInt n]); [reflexivity|].
  eapply (scan_cons _ _ _ None _ [VInt n]); [reflexivity|].
  eapply (scan_cons _ _ _ None _ [VInt n]); [reflexivity|].
  apply (scan_cons _ _ _ (Some (VInt n)) (newline :: s) []); [|reflexivity].
  cbn [scan1]. rewrite scan_int_skip. rewrite <- Hv at 2.
  apply (scan_int_digits _ newline s [space]); (done || by repeat constructor).
Qed.

(** ** The sockets the program reads *)

(** A line of [/proc/cpuinfo]: the socket of a CPU, or another line. *)
Inductive cpuinfo_line := Physical (n : Z) | Other (l : text).

Definition line_text (x : cpuinfo_line) : text :=
  match x with Physical n => physical_line n | Other l => l end.
Definition line_ok (x : cpuinfo_line) : Prop :=
  match x with
  | Physical n => 0 <= n
  | Other l => no_newline l /\ contains (chars "physical id") l = false
  end.

(** The file, and what it says. *)
Definition cpuinfo_text (xs : list cpuinfo_line) : text := unlines (line_text <$> xs).
Definition physical_ids (xs : list cpuinfo_line) : list Z :=
  omap (fun x => match x with Physical n => Some n | Other _ => None end) xs.

Lemma physical_line_no_newline n : 0 <= n -> no_newline (physical_line n).
Proof.
  intros Hn. destruct (print_dec_spec n Hn) as (Hd & _). unfold physical_line, no_newline.
  rewrite !Forall_app. split; [by repeat constructor|]. constructor; [done|].
  rewrite !Forall_app. split_and!; [by repeat constructor..|].
  eapply Forall_impl; [exact Hd|]. intros c Hc%digit_not_space.
  unfold is_space, is_newline in *. apply Z.eqb_neq. intros E. by rewrite E in Hc.
Qed.

Lemma grep_cpuinfo xs :
  Forall line_ok xs ->
  grep (chars "physical id") (cpuinfo_text xs) = unlines (physical_line <$> physical_ids xs).
Proof.
  intros Hok. unfold cpuinfo_text. rewrite grep_unlines.
  - f_equal. induction Hok as [|x xs Hx Hok IH]; [done|].
    destruct x as [n|l]; cbn [fmap list_fmap line_text physical_ids omap list_omap].
    + by rewrite filter_cons_True, IH.
    + rewrite filter_cons_False; [done|]. destruct Hx as [_ ->]. done.
  - apply Forall_fmap. eapply Forall_impl; [exact Hok|]. intros [n|l]; cbn; [|by intros []].
    apply physical_line_no_newline.
Qed.

(** Reading goes on after the line end the last scan has left. *)
Lemma read_sockets_lines ids n uninit b :
  Forall (fun x => 0 <= x) ids -> Forall (fun c => is_space c = true) b -> (length ids <= n)%nat ->
  read_sockets n uninit (b ++ unlines (physical_line <$> ids)) = Ok ids.
Proof.
  intros Hids. revert n uninit b. induction Hids as [|x ids Hx Hids IH]; intros n uninit b Hb Hn.
  - cbn. rewrite app_nil_r.
    assert (scan physical_fmt b = ([], true, [])) as E.
    { unfold physical_fmt. cbn [scan scan1]. unfold scan_str, skip_space.
      assert (span is_space b = (b, [])) as ->; [|done]. clear Hn.
      induction Hb as [|c b Hc Hb IHb]; [done|]. cbn. by rewrite Hc, IHb. }
    destruct n; cbn [read_sockets]; by rewrite E.
  - destruct n as [|n]; [cbn in Hn; lia|]. cbn [fmap list_fmap]. rewrite unlines_cons.
    cbn [read_sockets]. rewrite scan_physical by done. cbn [scan_ret length]. cbn [Z.eqb].
    change (newline :: ?s) with ([newline] ++ s). rewrite IH; [done|by repeat constructor|cbn in Hn; lia].
Qed.

(** ** The loop ends *)

Lemma read_sockets_ends n uninit s :
  (length s <= n)%nat -> exists l, read_sockets n uninit s = Ok l.
Proof.
  revert uninit s. induction n as [|n IH]; intros uninit s Hn; cbn [read_sockets];
    destruct (scan physical_fmt s) as [[vs eof] rest] eqn:E;
    pose proof (scan_word_progress Skip_str _ s vs eof rest (or_intror eq_refl) E) as [Hlt|[-> ->]];
    try (by eexists); [lia|].
  destruct (_ =? _); [by eexists|].
  match goal with |- context [read_sockets n ?z rest] => destruct (IH z rest ltac:(lia)) as [l ->] end.
  by eexists.
Qed.

(** ** The output of [ibdev2netdev] *)

(** "mlx5_1 port 1 ==> ens10f1 (Up)" *)
Record ibdev_line := { il_ib : text; il_port : Z; il_dev : text; il_state : text }.

Definition ibdev_text (x : ibdev_line) : text :=
  il_ib x ++ space :: chars "port" ++ space :: print_dec (il_port x) ++ space :: chars "==>" ++
  space :: il_dev x ++ space :: chars "(" ++ il_state x ++ chars ")".

(** A name of a device: not empty, without white space, and short enough for the
    buffers. *)
Definition name_ok (w : text) : Prop :=
  w <> [] /\ Forall (fun c => is_space c = false) w /\ Z.of_nat (length w) < 64.

Record ibdev_ok (x : ibdev_line) : Prop := {
  io_ib : name_ok (il_ib x);
  io_port : 0 <= il_port x;
  io_dev : name_ok (il_dev x);
  io_state : no_newline (il_state x);
}.

Lemma scan_ibdev x s :
  ibdev_ok x ->
  scan ibdev_fmt (ibdev_text x ++ newline :: s) = ([VStr (il_ib x); VStr (il_dev x)], false, s).
Proof.
  intros [(Hne1 & Hw1 & _) Hp (Hne2 & Hw2 & _) Hst].
  destruct (print_dec_spec _ Hp) as (Hd & Hne & Hv).
  unfold ibdev_fmt, ibdev_text. repeat first [rewrite <- app_assoc | rewrite <- app_comm_cons].
  eapply (scan_cons _ _ _ (Some (VStr (il_ib x))) _ [VStr (il_dev x)]).
  { apply (scan_str_word _ space _ []); done. }
  eapply (scan_cons _ _ _ None _ [VStr (il_dev x)]); [reflexivity|].
  eapply (scan_cons _ _ _ None _ [VStr (il_dev x)]).
  { apply (scan_suppressed_word (chars "port") space _ []); (done || by repeat constructor). }
  eapply (scan_cons _ _ _ None _ [VStr (il_dev x)]); [reflexivity|].
  eapply (scan_cons _ _ _ None _ [VStr (il_dev x)]).
  { cbn [scan1]. rewrite scan_int_skip.
    refine (f_equal suppress (scan_int_digits (print_dec (il_port x)) space _ [space] _ _ _ _));
      (done || by repeat constructor). }
  do 5 (eapply (scan_cons _ _ _ None _ [VStr (il_dev x)]); [reflexivity|]).
  eapply (scan_cons _ _ _ (Some (VStr (il_dev x))) _ []).
  { cbn [scan1]. rewrite scan_str_skip. by apply (scan_str_word _ space _ [space]); repeat constructor. }
  eapply (scan_cons _ _ _ None _ []); [reflexivity|].
  eapply (scan_cons _ _ _ None (newline :: s) []); [|reflexivity].
  cbn [scan1]. change (skip_space _) with ("("%char :: il_state x ++ [")"%char] ++ newline :: s).
  rewrite app_assoc. change ("("%char :: ?u ++ newline :: s) with (("("%char :: u) ++ newline :: s).
  rewrite span_stop; [done| |done]. constructor; [done|]. apply Forall_app_2; [|by repeat constructor].
  eapply Forall_impl; [exact Hst|]. by intros c ->.
Qed.

Lemma find_ib_lines es n found a b :
  Forall ibdev_ok es -> (length es <= n)%nat ->
  find_ib n found a b (unlines (ibdev_text <$> es))
  = Ok (default [] (head (omap (fun x => found (il_ib x) (il_dev x)) es))).
Proof.
  intros Hes. revert n a b. induction Hes as [|x es Hx Hes IH]; intros n a b Hn; [by destruct n|].
  destruct n as [|n]; [cbn in Hn; lia|]. cbn [fmap list_fmap]. rewrite unlines_cons. cbn [find_ib].
  rewrite scan_ibdev by done. cbn [scan_ret length buffers].
  destruct (io_ib _ Hx) as (_ & _ & H1), (io_dev _ Hx) as (_ & _ & H2).
  cbn [existsb overflows]. rewrite !(proj2 (Z.leb_gt _ _)) by done. cbn [orb omap list_omap].
  cbn. destruct (found (il_ib x) (il_dev x)); [done|]. apply IH. cbn in Hn. lia.
Qed.

(** The first entry with a key, if no two entries have the same. *)
Lemma first_with_key {A} (key f : A -> text) es x :
  NoDup (key <$> es) -> x ∈ es ->
  head (omap (fun y => if decide (key x = key y) then Some (f y) else None) es) = Some (f x).
Proof.
  induction es as [|y es IH]; [by intros _ ?%not_elem_of_nil|]. intros Hnd Hx.
  apply NoDup_cons in Hnd as [Hy Hnd]. cbn [omap list_omap].
  destruct (decide (key x = key y)) as [E|Hne].
  - cbn. apply elem_of_cons in Hx as [-> |Hx]; [done|].
    destruct Hy. change (key y ∈ key <$> es). rewrite <- E. by apply list_elem_of_fmap_2.
  - apply elem_of_cons in Hx as [-> |Hx]; [done|]. by apply IH.
Qed.

(** ** Gids *)

Lemma mapped_address ip : 0 <= ip < 2 ^ 32 -> Z.lor 0x0000ffff00000000 ip = 0xffff * 2 ^ 32 + ip.
Proof.
  intros Hip. change 0x0000ffff00000000 with (0xffff * 2 ^ 32). symmetry. apply Z.add_nocarry_lor.
  apply Z.bits_inj'. intros j Hj. rewrite Z.land_spec, Z.bits_0, <- Z.shiftl_mul_pow2 by lia.
  destruct (decide (j < 32)); [by rewrite Z.shiftl_spec_low|].
  rewrite <- (Z.mod_small ip (2 ^ 32)), Z.mod_pow2_bits_high, andb_false_r by lia. done.
Qed.

(** The low bytes of a number do not depend on the rest. *)
Lemma le_bytes_low n c x : le_bytes n (c * 256 ^ Z.of_nat n + x) = le_bytes n x.
Proof.
  revert x. induction n as [|n IH]; intros x; [done|]. cbn [le_bytes].
  rewrite Nat2Z.inj_succ, Z.pow_succ_r by lia.
  replace (c * (256 * 256 ^ Z.of_nat n) + x) with (x + (c * 256 ^ Z.of_nat n) * 256) by lia.
  by rewrite Z_mod_plus_full, Z.div_add, Z.add_comm, IH by lia.
Qed.

Lemma le_bytes_app n m x : le_bytes (n + m) x = le_bytes n x ++ le_bytes m (x / 256 ^ Z.of_nat n).
Proof.
  revert x. induction n as [|n IH]; intros x; [by rewrite Z.div_1_r|]. cbn [le_bytes Nat.add app].
  rewrite IH, Nat2Z.inj_succ, Z.pow_succ_r, Z.div_div by lia. done.
Qed.

(** The search ends: with a name, or with a word that is too long. *)
Lemma find_ib_ends n found a b s :
  (length s <= n)%nat -> find_ib n found a b s <> Err NoFuel.
Proof.
  revert a b s. induction n as [|n IH]; intros a b s Hn; cbn [find_ib];
    destruct (scan ibdev_fmt s) as [[vs eof] rest] eqn:E;
    (pose proof (scan_word_progress Str _ s vs eof rest (or_introl eq_refl) E) as [Hlt|[-> ->]]; [|done]);
    [lia|].
  destruct (_ =? _); [done|]. destruct (existsb _ _); [done|].
  destruct (buffers vs a b) as [a' b']. destruct (found a' b'); [done|]. apply IH. lia.
Qed.

(** * Properties *)

(** Whatever [/proc/cpuinfo] holds, the loop that reads the sockets of the CPUs ends. *)
Theorem socket_list_ends uninit t :
  exists l, get_socket_list_with_cpu_index uninit (Some t) = Ok l.
Proof. by apply read_sockets_ends. Qed.

(** C35: the program reads the socket of every CPU off [/proc/cpuinfo], whatever the
    other lines are, and puts its threads on CPUs of the node of the NIC, the
    highest numbered first; it gives up exactly if the node has fewer than
    [thread_cnt] CPUs or [thread_cnt] is not positive. *)
Theorem host_cpu_list_spec uninit xs node thread_cnt :
  Forall line_ok xs -> physical_ids xs <> [] ->
  let sl := physical_ids xs in
  match host_cpu_list uninit (Some (cpuinfo_text xs)) node thread_cnt with
  | Ok l =>
    Z.of_nat (length l) = thread_cnt
    /\ StronglySorted Z.gt l
    /\ Forall (fun c => znth sl c = Some node) l
    /\ (forall c c', znth sl c = Some node -> c ∉ l -> c' ∈ l -> c < c')
  | Err f => f = AssertFailed /\ ~ 0 < thread_cnt <= Z.of_nat (length (cpus_of sl node))
  end.
Proof.
  intros Hok Hne sl. unfold host_cpu_list, get_socket_list_with_cpu_index.
  assert (Forall (fun x => 0 <= x) sl) as Hpos.
  { unfold sl, physical_ids. clear Hne. induction Hok as [|[n|l] xs Hx Hok IH]; [done|..]; cbn; auto. }
  rewrite grep_cpuinfo by done. change (unlines ?x) with ([] ++ unlines x) at 2.
  rewrite read_sockets_lines; [by apply cpu_list_on_node_spec|done|done|].
  rewrite <- (length_fmap physical_line). apply length_unlines.
Qed.

(** On the output of [ibdev2netdev] for devices with different names,
    [dev_to_ib_dev] and [ib_dev_to_dev] find the partner of every device, so each
    undoes the other. *)
Theorem ib_dev_roundtrip uninit es x :
  Forall ibdev_ok es -> NoDup (il_ib <$> es) -> NoDup (il_dev <$> es) -> x ∈ es ->
  let out := unlines (ibdev_text <$> es) in
  dev_to_ib_dev uninit out (il_dev x) = Ok (il_ib x)
  /\ ib_dev_to_dev uninit out (il_ib x) = Ok (il_dev x).
Proof.
  intros Hes Hib Hdev Hx. unfold dev_to_ib_dev, ib_dev_to_dev.
  assert (length es <= length (unlines (ibdev_text <$> es)))%nat
    by (rewrite <- (length_fmap ibdev_text); apply length_unlines).
  split; rewrite find_ib_lines by done.
  - by rewrite (first_with_key il_dev il_ib).
  - by rewrite (first_with_key il_ib il_dev).
Qed.


Lemma mapped_bytes ip :
  0 <= ip < 2 ^ 32 ->
  le_bytes 8 (interface_id (ipv4_to_gid ip)) = [0; 0; 255; 255] ++ reverse (le_bytes 4 ip).
Proof.
  intros Hip. unfold ipv4_to_gid. cbn [interface_id]. rewrite mapped_address by done. unfold htobe, bswap.
  pose proof (le_bytes_le_num (reverse (le_bytes 8 (0xffff * 2 ^ 32 + ip)))) as E.
  rewrite length_reverse, length_le_bytes in E. rewrite E by apply Forall_reverse, le_bytes_bytes.
  change 8%nat with (4 + 4)%nat. rewrite le_bytes_app, reverse_app. change (2 ^ 32) with (256 ^ Z.of_nat 4).
  rewrite le_bytes_low. f_equal. rewrite Z.div_add_l, Z.div_small by (cbn; lia). done.
Qed.

Lemma word_of_bytes a b : is_byte a -> is_byte b -> betoh 2 (le_num [a; b]) = 256 * a + b.
Proof.
  intros Ha Hb. unfold is_byte in *. unfold betoh, htobe, bswap.
  change 2%nat with (length [a; b]). rewrite le_bytes_le_num by by do 2 (constructor; [done|]). cbn. lia.
Qed.

Lemma four_bytes ip :
  0 <= ip < 2 ^ 32 ->
  exists a b c d, le_bytes 4 ip = [d; c; b; a] /\ is_byte a /\ is_byte b /\ is_byte c /\ is_byte d
    /\ ip / 2 ^ 16 = 256 * a + b /\ ip mod 2 ^ 16 = 256 * c + d.
Proof.
  intros Hip. pose proof (le_bytes_bytes 4 ip) as Hb. pose proof (le_num_le_bytes 4 ip) as Hn.
  rewrite Z.mod_small in Hn by (cbn; lia). pose proof (length_le_bytes 4 ip) as Hl.
  destruct (le_bytes 4 ip) as [|d [|c [|b [|a [|]]]]]; try discriminate.
  repeat (apply Forall_cons in Hb as [? Hb]). unfold is_byte in *. exists a, b, c, d. cbn [le_num] in Hn.
  split; [done|]. do 4 (split; [done|]).
  change (2 ^ 16) with 65536. rewrite Z.mod_eq by lia.
  assert (ip / 65536 = 256 * a + b) as -> by (symmetry; apply (Z.div_unique_pos _ _ _ (256 * c + d)); lia). lia.
Qed.

(** The address of a gid that [ipv4_to_gid] has made is the address again, and
    [gid_to_str] prints the gid as the IPv4-mapped IPv6 address of that
    address: its last two words are the halves of the address. *)
Theorem gid_roundtrip ip :
  0 <= ip < 2 ^ 32 ->
  gid_to_ipv4 (ipv4_to_gid ip) = ip
  /\ gid_to_str (ipv4_to_gid ip)
     = chars "0000:0000:0000:0000:0000:ffff:" ++ hex4 (ip / 2 ^ 16) ++ colon :: hex4 (ip mod 2 ^ 16).
Proof.
  intros Hip. split.
  - unfold gid_to_ipv4, ipv4_to_gid. cbn [interface_id]. rewrite mapped_address by done.
    rewrite betoh_htobe by lia. unfold wrap. rewrite Z.add_comm, Z_mod_plus_full. by apply Z.mod_small.
  - unfold gid_to_str. cbn [gid_words seq Nat.ltb Nat.leb Nat.sub]. unfold gid_word, gid_bytes.
    rewrite mapped_bytes by done.
    destruct (four_bytes ip Hip) as (a & b & c & d & -> & Ha & Hb & Hc & Hd & -> & ->).
    rewrite <- !word_of_bytes by done. reflexivity.
Qed.
