(* ===== verification/Main.v ===== *)
(** Bringing the program up ([main.cpp]): the CPUs, the port and its queues, the
    flow rules that steer the packets of a worker to the queue of that worker,
    the contexts of the workers and their launch.

    DPDK is not part of the repository: its calls are the interface [Dpdk], the
    documented effect of a successful call is [DpdkLaws].  [port_cfg] is what
    the calls have configured a port to; the code never reads it. *)

From stdpp Require Import strings pretty.
From S2P Require Import Prelude.
From S2P Require Import Types.
From S2P Require Import Endian.
From S2P Require Import Config.
From S2P Require Import Host.

#[local] Open Scope Z_scope.

(** * Flow rules *)

(** The items of [rte_flow_item] the code uses; an item without [spec] matches
    every header of its type. *)
Inductive flow_item :=
  | ITEM_TYPE_END
  | ITEM_TYPE_ETH
  | ITEM_TYPE_IPV4 (spec mask : ipv4_hdr).

Inductive flow_action :=
  | ACTION_TYPE_END
  | ACTION_TYPE_DROP
  | ACTION_TYPE_QUEUE (index : Z).

Record flow_rule := {
  attr_ingress : Z;
  attr_priority : Z;
  pattern : list flow_item;
  actions : list flow_action;
}.

Definition RTE_ETHER_TYPE_IPV4 : Z := 2048.  (** 0x0800 *)

(** [ipv4_hdr{}] *)
Definition zero_ipv4 : ipv4_hdr := {|
  version_ihl := 0; type_of_service := 0; total_length := 0; packet_id := 0;
  fragment_offset := 0; time_to_live := 0; next_proto_id := 0; hdr_checksum := 0;
  src_addr := 0; dst_addr := 0;
|}.

Definition ipv4_fields (h : ipv4_hdr) : list Z :=
  [version_ihl h; type_of_service h; total_length h; packet_id h; fragment_offset h;
   time_to_live h; next_proto_id h; hdr_checksum h; src_addr h; dst_addr h].

(** The documented meaning of a pattern: every item before [END] matches; a
    field matches when it agrees with the [spec] under the [mask]. *)
Definition ipv4_matches (spec mask h : ipv4_hdr) : Prop :=
  zip_with Z.land (ipv4_fields h) (ipv4_fields mask)
  = zip_with Z.land (ipv4_fields spec) (ipv4_fields mask).

#[global] Instance ipv4_matches_dec spec mask h : Decision (ipv4_matches spec mask h).
Proof. unfold ipv4_matches. apply _. Defined.

Fixpoint pattern_matches (l : list flow_item) (p : netccl_pkt) : Prop :=
  match l with
  | [] | ITEM_TYPE_END :: _ => True
  | ITEM_TYPE_ETH :: l => pattern_matches l p
  | ITEM_TYPE_IPV4 spec mask :: l =>
    ether_type p = htobe 2 RTE_ETHER_TYPE_IPV4 /\ ipv4_matches spec mask (ip p)
    /\ pattern_matches l p
  end.

#[global] Instance pattern_matches_dec l p : Decision (pattern_matches l p).
Proof. induction l as [|[] l IH]; simpl; apply _. Defined.

(** * The interface of DPDK *)

Class Dpdk := {
  dpdk : Type;
  pool : Type;
  eal_init : list string -> dpdk -> Z * dpdk;
  (** name, number of buffers, cache size, data room *)
  pktmbuf_pool_create : string -> Z -> Z -> Z -> dpdk -> option pool * dpdk;
  dev_count_avail : dpdk -> Z;
  dev_get_port_by_name : string -> dpdk -> Z * Z;
  dev_is_valid_port : Z -> dpdk -> bool;
  dev_info_get : Z -> dpdk -> Z * Z;                 (** result, [tx_offload_capa] *)
  dev_configure : Z -> Z -> Z -> Z -> dpdk -> Z * dpdk;
  adjust_nb_desc : Z -> Z -> Z -> dpdk -> Z * (Z * Z);
  rx_queue_setup : Z -> Z -> Z -> option pool -> dpdk -> Z * dpdk;
  tx_queue_setup : Z -> Z -> Z -> Z -> dpdk -> Z * dpdk;
  dev_start : Z -> dpdk -> Z * dpdk;
  macaddr_get : Z -> dpdk -> Z;
  promiscuous_enable : Z -> dpdk -> Z * dpdk;
  flow_validate : Z -> flow_rule -> dpdk -> Z;
  rte_flow_create : Z -> flow_rule -> dpdk -> bool * dpdk;  (** is the handle not null? *)
  (** [rte_eal_remote_launch(worker_loop, ctx of the worker, lcore)] *)
  remote_launch : Z -> Z -> dpdk -> Z * dpdk;
  TX_OFFLOAD_MBUF_FAST_FREE : Z;
  RTE_PKTMBUF_HEADROOM : Z;
  RTE_MBUF_DEFAULT_BUF_SIZE : Z;
}.

(** Constants of the worker's [common.hpp], which is not in the repository. *)
Class NetConfig := {
  IPPROTO_NETCCL : Z;
  RX_BUFFER_CACHE : Z;
  has_tx_queue_count : bool;  (** [#ifdef rte_eth_tx_queue_count] *)
}.

(** What the host answers; [socket_list] is the socket of every CPU. *)
Class HostInfo := {
  inet_aton : string -> option Z;
  getifaddrs : option (list ifaddr);
  get_pci_by_dev : string -> string;
  get_socket_by_pci : string -> Z;
  socket_list : list Z;
  ipv4_to_int : string -> Z;
  (** the shared memory exists; its queue pair exists and is not null *)
  shm_exists : bool;
  shm_queue_pair : bool;
}.

(** * The state *)

(** The fields of [thread_ctx_t] that [dpdk_init] sets; the window and the packet
    buffer by the arguments of their constructors. *)
Record thread_ctx_t `{Dpdk} := {
  port_id : Z;
  worker_id : Z;
  tx_mbuf_pool : pool;
  rx_mbuf_pool : pool;
  prefill_eth_type : Z;
  prefill_ip : ipv4_hdr;
  pb_port : Z;
  pb_queue : Z;
  pb_rx_size : Z;
  pb_tx_size : Z;
}.

Record main_state `{Dpdk} := {
  dp : dpdk;
  drop_rule : bool;    (** [static bool drop] of [flow_init_queue] *)
  thread_ctx : list (option thread_ctx_t);
}.

(** [v[i]] of a [vector] *)
Definition vector_at {S A} (l : list A) (i : Z) : M S A := the OutOfBounds (znth l i).

Section operations.
Context `{Config, Dpdk, NetConfig, HostInfo}.

(** A call of DPDK. *)
Definition call {A} (f : dpdk -> A * dpdk) : M main_state A := fun s =>
  let '(a, d) := f (dp s) in Ok (a, {| s with dp := d |}).

Definition lift {A} (o : outcome A) : M main_state A := fun s =>
  match o with Ok a => Ok (a, s) | Err f => Err f end.

(** ** The port *)

Definition nb_txd_init : Z :=
  u16 (if has_tx_queue_count then MAX_WIN_LEN else 2 * MAX_PKT_BURST).

(** The two loops of [port_init]. *)
Definition setup_rx_queues (port nb_rxd : Z) (pools : list pool) (qs : list Z) :
    M main_state unit :=
  for_each qs (fun q =>
    p <- vector_at pools q ;;
    retval <- call (rx_queue_setup port q nb_rxd (Some p)) ;;
    assert (retval =? 0)).

Definition setup_tx_queues (port nb_txd offloads : Z) (qs : list Z) : M main_state unit :=
  for_each qs (fun q =>
    retval <- call (tx_queue_setup port q nb_txd offloads) ;;
    assert (retval =? 0)).

Definition port_init (port nqueues : Z) (mbuf_pool : list pool) : M main_state Z :=
  if nqueues =? 0 then ret 0
  else
    let rx_queues := u16 nqueues in
    let tx_queues := u16 nqueues in
    s <- get ;;
    if negb (dev_is_valid_port port (dp s)) then ret (-1)
    else
      let '(retval, capa) := dev_info_get port (dp s) in
      assert (retval =? 0) ;;;
      let offloads := if Z.land capa TX_OFFLOAD_MBUF_FAST_FREE =? 0 then 0
                      else TX_OFFLOAD_MBUF_FAST_FREE in
      retval <- call (dev_configure port rx_queues tx_queues offloads) ;;
      assert (retval =? 0) ;;;
      s <- get ;;
      let '(retval, (nb_rxd, nb_txd)) := adjust_nb_desc port (u16 MAX_WIN_LEN) nb_txd_init (dp s) in
      assert (retval =? 0) ;;;
      setup_rx_queues port nb_rxd mbuf_pool (seqZ 0 rx_queues) ;;;
      setup_tx_queues port nb_txd offloads (seqZ 0 tx_queues) ;;;
      retval <- call (dev_start port) ;;
      assert (retval =? 0) ;;;
      s <- get ;;
      assert (macaddr_get port (dp s) =? 0) ;;;
      retval <- call (promiscuous_enable port) ;;
      assert (retval =? 0) ;;;
      ret 0.

(** ** The flow rules *)

Definition drop_everything : flow_rule := {|
  attr_ingress := 1; attr_priority := 1;
  pattern := [ITEM_TYPE_END];
  actions := [ACTION_TYPE_DROP; ACTION_TYPE_END];
|}.

Definition queue_spec (queue_id : Z) : ipv4_hdr := {| zero_ipv4 with
  type_of_service := htobe_store 1 (Z.shiftl queue_id 2);
  next_proto_id := htobe_store 1 IPPROTO_NETCCL;
|}.
Definition queue_mask : ipv4_hdr := {| zero_ipv4 with
  type_of_service := htobe_store 1 252;
  next_proto_id := htobe_store 1 255;
|}.

Definition queue_rule (queue_id : Z) : flow_rule := {|
  attr_ingress := 1; attr_priority := 0;
  pattern := [ITEM_TYPE_ETH; ITEM_TYPE_IPV4 (queue_spec queue_id) queue_mask; ITEM_TYPE_END];
  actions := [ACTION_TYPE_QUEUE queue_id; ACTION_TYPE_END];
|}.

(** the result: is the handle not null? *)
Definition flow_create (port : Z) (r : flow_rule) : M main_state bool :=
  s <- get ;;
  if flow_validate port r (dp s) =? 0 then call (rte_flow_create port r) else ret false.

Definition flow_init_queue (port queue_id : Z) : M main_state bool :=
  s <- get ;;
  (if drop_rule s then
     modify (fun s => {| s with drop_rule := false |}) ;;;
     flow_create port drop_everything ;;;
     ret tt
   else ret tt) ;;;
  flow_create port (queue_rule queue_id).

(** the loop of [flow_init] *)
Fixpoint flow_loop (port : Z) (qs : list Z) : M main_state Z :=
  match qs with
  | [] => ret 0
  | q :: qs =>
    f <- flow_init_queue port (u16 q) ;;
    if (f : bool) then flow_loop port qs else ret (-1)
  end.

Definition flow_init (port nqueue : Z) : M main_state Z := flow_loop port (seqZ 0 (u16 nqueue)).

(** ** The contexts of the workers *)

(** The IPv4 header [dpdk_init] prefills the packets of a worker with. *)
Definition prefill_ip_hdr (ip : string) (worker : Z) : ipv4_hdr := {|
  version_ihl := htobe_store 1 69;                          (** 0x45 *)
  type_of_service := htobe_store 1 (u8 (Z.lor (Z.shiftl worker 2) 1));
  total_length := htobe_store 2 0;
  packet_id := htobe_store 2 0;
  fragment_offset := htobe_store 2 16384;                   (** 0x4000 *)
  time_to_live := htobe_store 1 64;
  next_proto_id := htobe_store 1 IPPROTO_NETCCL;
  hdr_checksum := htobe_store 2 0;
  src_addr := htobe_store 4 (ipv4_to_int ip);
  dst_addr := htobe_store 4 0;
|}.

Definition new_ctx (ip : string) (port worker : Z) (tx rx : pool) : thread_ctx_t := {|
  port_id := port;
  worker_id := worker;
  tx_mbuf_pool := tx;
  rx_mbuf_pool := rx;
  prefill_eth_type := htobe_store 2 RTE_ETHER_TYPE_IPV4;
  prefill_ip := prefill_ip_hdr ip worker;
  pb_port := port;
  pb_queue := worker;
  pb_rx_size := MAX_PKT_BURST;
  pb_tx_size := MAX_PKT_BURST;
|}.

(** the loop that creates the packet pools of the workers: (TX, RX) *)
Fixpoint create_pools (ip : string) (workers : list Z) (acc : list (pool * pool)) :
    M main_state (list (pool * pool)) :=
  match workers with
  | [] => ret acc
  | i :: l =>
    let pool_name := ("MBUF_" ++ ip ++ "_" ++ pretty i)%string in
    tx <- call (pktmbuf_pool_create ("TX_" ++ pool_name) MAX_WIN_LEN 0
                  (RTE_PKTMBUF_HEADROOM + sizeof_netccl_pkt)) ;;
    rx <- call (pktmbuf_pool_create ("RX_" ++ pool_name) MAX_WIN_LEN RX_BUFFER_CACHE
                  RTE_MBUF_DEFAULT_BUF_SIZE) ;;
    match tx, rx with
    | Some tx, Some rx => create_pools ip l (acc ++ [(tx, rx)])
    | _, _ => fail AssertFailed
    end
  end.

(** the body of the loop that launches the threads; the constructor of the
    packet buffer asserts that its receive burst is a multiple of 8 *)
Definition launch_worker (ip : string) (port : Z) (pools : list (pool * pool)) (lcore_id : Z) :
    M main_state unit :=
  let worker := lcore_id - 1 in
  s <- get ;;
  _ <- vector_at (thread_ctx s) worker ;;
  p <- vector_at pools worker ;;
  modify (fun s => {| s with thread_ctx :=
    <[Z.to_nat worker := Some (new_ctx ip port worker p.1 p.2)]> (thread_ctx s) |}) ;;;
  assert (MAX_PKT_BURST mod 8 =? 0) ;;;
  retval <- call (remote_launch lcore_id worker) ;;
  assert (retval =? 0).

Definition launch (ip : string) (port nworker nthread : Z) (pools : list (pool * pool)) :
    M main_state unit :=
  modify (fun s => {| s with thread_ctx := replicate (Z.to_nat nworker) None |}) ;;;
  for_each (seqZ 1 (nthread - 1)) (launch_worker ip port pools).

Definition shm_init : M main_state unit :=
  if shm_exists then assert shm_queue_pair else fail (Exited 1).

(** [dpdk_init] up to the call of [load_balancer] *)
Definition dpdk_init (nthread nworker : Z) (ip : string) : M main_state unit :=
  dev <- lift (get_dev_by_ip inet_aton getifaddrs ip) ;;
  assert (negb (bool_decide (dev = EmptyString))) ;;;
  let pci := get_pci_by_dev dev in
  assert (negb (bool_decide (pci = EmptyString))) ;;;
  let node := get_socket_by_pci pci in
  assert (negb (node =? -1)) ;;;
  cpu_list <- lift (cpu_list_on_node socket_list node nthread) ;;
  retval <- call (eal_init ["netccl"; "--in-memory"; "--lcores"; lcores_arg cpu_list]) ;;
  assert (0 <=? retval) ;;;
  pools <- create_pools ip (seqZ 0 nworker) [] ;;
  s <- get ;;
  assert (0 <? dev_count_avail (dp s)) ;;;
  let '(retval, port) := dev_get_port_by_name pci (dp s) in
  assert (retval =? 0) ;;;
  retval <- port_init port nworker (pools.*2) ;;
  assert (retval =? 0) ;;;
  retval <- flow_init port nworker ;;
  assert (retval =? 0) ;;;
  launch ip port nworker nthread pools ;;;
  shm_init.

(** [main] after the number of threads has been parsed *)
Definition main (getenv : string -> option string) (nthread : Z) : M main_state unit :=
  ip <- lift (get_env_required getenv "NETCCL_BIND_ADDR") ;;
  dpdk_init nthread (nthread - 1) ip.
End operations.

(** * What the code relies on *)

(** What the calls have configured a port to. *)
Record port_cfg `{Dpdk} := {
  n_queues : Z * Z;            (** RX, TX *)
  rx_pools : gmap Z pool;      (** the pool of every RX queue *)
  tx_descs : gmap Z Z;         (** the descriptors of every TX queue *)
  started : bool;
  rules : list flow_rule;
}.

Class DpdkLaws `{Dpdk} := {
  (** the calls succeed *)
  willing : dpdk -> Prop;
  cfg : Z -> dpdk -> port_cfg;
  launched : dpdk -> list (Z * Z);
  (** what the NIC does with a packet it receives *)
  nic_action : Z -> dpdk -> netccl_pkt -> flow_action -> Prop;

  (** [r] is the result of a successful call that changes the configuration of
      port [p] by [f] *)
  succeeds (d : dpdk) (p : Z) (f : port_cfg -> port_cfg) (r : Z * dpdk) : Prop :=
    r.1 = 0 /\ willing r.2 /\ launched r.2 = launched d /\ cfg p r.2 = f (cfg p d);

  eal_init_ok : forall l d p, willing d -> succeeds d p id (0, (eal_init l d).2)
    /\ 0 <= (eal_init l d).1;
  pool_create_ok : forall name n c r d p, willing d ->
    is_Some (pktmbuf_pool_create name n c r d).1
    /\ succeeds d p id (0, (pktmbuf_pool_create name n c r d).2);
  dev_count_ok : forall d, willing d -> 0 < dev_count_avail d;
  port_by_name_ok : forall n d, willing d -> (dev_get_port_by_name n d).1 = 0;
  valid_port_ok : forall p d, willing d -> dev_is_valid_port p d = true;
  dev_info_ok : forall p d, willing d -> (dev_info_get p d).1 = 0;
  configure_ok : forall p rx tx o d, willing d ->
    succeeds d p (fun c => {| c with n_queues := (rx, tx) |}) (dev_configure p rx tx o d);
  adjust_ok : forall p rx tx d, willing d -> (adjust_nb_desc p rx tx d).1 = 0;
  rx_setup_ok : forall p q n m d, willing d ->
    succeeds d p (fun c => {| c with rx_pools := <[q := m]> (rx_pools c) |})
      (rx_queue_setup p q n (Some m) d);
  tx_setup_ok : forall p q n o d, willing d ->
    succeeds d p (fun c => {| c with tx_descs := <[q := n]> (tx_descs c) |})
      (tx_queue_setup p q n o d);
  start_ok : forall p d, willing d ->
    succeeds d p (fun c => {| c with started := true |}) (dev_start p d);
  macaddr_ok : forall p d, willing d -> macaddr_get p d = 0;
  promiscuous_ok : forall p d, willing d -> succeeds d p id (promiscuous_enable p d);
  validate_ok : forall p r d, willing d -> flow_validate p r d = 0;
  flow_create_ok : forall p r d, willing d -> (rte_flow_create p r d).1 = true
    /\ succeeds d p (fun c => {| c with rules := rules c ++ [r] |}) (0, (rte_flow_create p r d).2);
  launch_ok : forall l w d p, willing d ->
    (remote_launch l w d).1 = 0 /\ willing (remote_launch l w d).2
    /\ launched (remote_launch l w d).2 = launched d ++ [(l, w)]
    /\ cfg p (remote_launch l w d).2 = cfg p d;
  (** a packet some rule matches is handled by a matching rule of the highest
      priority (the lowest number) *)
  nic_action_ok : forall p d pkt a, willing d -> nic_action p d pkt a ->
    (exists r, r ∈ rules (cfg p d) /\ pattern_matches (pattern r) pkt) ->
    exists r, r ∈ rules (cfg p d) /\ pattern_matches (pattern r) pkt
      /\ head (actions r) = Some a
      /\ forall r', r' ∈ rules (cfg p d) -> pattern_matches (pattern r') pkt ->
           attr_priority r <= attr_priority r';
}.

(** * Properties *)

(** ** Which packets a rule matches *)

Lemma land_252 t : 0 <= t < 2 ^ 8 -> Z.land t 252 = 4 * (t / 4).
Proof.
  intros Ht. replace 252 with (Z.shiftl (Z.ones 6) 2) by reflexivity.
  apply Z.bits_inj'. intros n Hn.
  replace (4 * (t / 4)) with (Z.shiftl (Z.shiftr t 2) 2)
    by (rewrite Z.shiftl_mul_pow2, Z.shiftr_div_pow2 by lia; change (2 ^ 2) with 4; lia).
  rewrite Z.land_spec. rewrite !Z.shiftl_spec by done.
  destruct (Z.ltb_spec n 2).
  - rewrite !(Z.testbit_neg_r _ (n - 2)) by lia. by rewrite andb_false_r.
  - rewrite Z.shiftr_spec by lia. replace (n - 2 + 2) with n by lia.
    rewrite Z.testbit_ones_nonneg by lia.
    destruct (Z.ltb_spec (n - 2) 6); [by rewrite andb_true_r|].
    rewrite andb_false_r. symmetry. 
    destruct (decide (t = 0)) as [->|]; [apply Z.bits_0|].
    apply Z.bits_above_log2; [lia|].
    apply (Z.lt_le_trans _ 8); [apply Z.log2_lt_pow2; lia|lia].
Qed.

Section steering.
Context `{NetConfig} (Hproto : 0 <= IPPROTO_NETCCL < 2 ^ 8).

(** The worker a packet belongs to: the upper six bits of its type of service. *)
Definition tos_worker (t : Z) : Z := t / 4.

Definition ipv4_bytes_ok (h : ipv4_hdr) : Prop :=
  0 <= type_of_service h < 2 ^ 8 /\ 0 <= next_proto_id h < 2 ^ 8.

Lemma queue_rule_matches q p :
  ipv4_bytes_ok (ip p) ->
  pattern_matches (pattern (queue_rule q)) p <->
    ether_type p = htobe 2 RTE_ETHER_TYPE_IPV4
    /\ tos_worker (type_of_service (ip p)) = q mod 64
    /\ next_proto_id (ip p) = IPPROTO_NETCCL.
Proof.
  intros [Ht Hp]. simpl. unfold ipv4_matches, ipv4_fields. simpl.
  rewrite !Z.land_0_r. unfold htobe_store, htobe_ptr. simpl.
  change (wrap (8 * Z.of_nat 1) 252) with 252. change (wrap (8 * Z.of_nat 1) 255) with (Z.ones 8).
  change (8 * Z.of_nat 1) with 8.
  rewrite !land_252 by (done || by apply wrap_range).
  rewrite !Z.land_ones by lia. rewrite (Z.mod_small (next_proto_id _)) by done.
  change (u8 IPPROTO_NETCCL mod 2 ^ 8) with (u8 (u8 IPPROTO_NETCCL)).
  rewrite wrap_wrap, (wrap_small 8 IPPROTO_NETCCL) by done.
  assert (u8 (Z.shiftl q 2) / 4 = q mod 64) as Hq.
  { rewrite Z.shiftl_mul_pow2 by lia. unfold wrap. change (2 ^ 2) with 4. change (2 ^ 8) with (64 * 4).
    rewrite Z.mul_mod_distr_r, Z.div_mul by lia. done. }
  rewrite Hq. unfold tos_worker. split.
  - intros (He & Hf & _). simplify_eq Hf. intros. split_and!; [done|lia|done].
  - intros (-> & -> & ->). split_and!; done.
Qed.

(** The packets of a worker and their copies: the switch and the routers may
    have changed everything but the protocol and the upper six bits of the
    type of service (the lower two carry the congestion marks). *)
Definition belongs_to `{Dpdk} (c : thread_ctx_t) (p : netccl_pkt) : Prop :=
  ether_type p = prefill_eth_type c
  /\ next_proto_id (ip p) = next_proto_id (prefill_ip c)
  /\ 0 <= type_of_service (ip p) < 2 ^ 8
  /\ tos_worker (type_of_service (ip p)) = tos_worker (type_of_service (prefill_ip c)).

Lemma prefill_tos w :
  tos_worker (htobe_store 1 (u8 (Z.lor (Z.shiftl w 2) 1))) = w mod 64.
Proof.
  unfold tos_worker, htobe_store, htobe_ptr. simpl.
  change (8 * Z.of_nat 1) with 8. rewrite wrap_wrap.
  unfold wrap. rewrite <- Z.shiftr_div_pow2 with (n := 2) by lia.
  rewrite <- !Z.land_ones by lia. change 64 with (2 ^ 6). rewrite <- Z.land_ones by lia.
  rewrite Z.shiftr_land, Z.shiftr_lor, Z.shiftr_shiftl_l by lia.
  change (Z.shiftr 1 2) with 0. change (Z.shiftr (Z.ones 8) 2) with (Z.ones 6).
  rewrite Z.lor_0_r, Z.shiftl_0_r. done.
Qed.

Lemma tos_collide w1 w2 :
  w1 mod 64 = w2 mod 64 ->
  u8 (Z.lor (Z.shiftl w1 2) 1) = u8 (Z.lor (Z.shiftl w2 2) 1).
Proof.
  intros Hw. 
  assert (forall w, u8 (Z.lor (Z.shiftl w 2) 1) = Z.lor (Z.shiftl (w mod 64) 2) 1) as Heq.
  { intros w. unfold wrap. rewrite <- Z.land_ones by lia. rewrite Z.land_lor_distr_l.
    change (Z.land 1 (Z.ones 8)) with 1. f_equal. rewrite Z.land_ones by lia.
    rewrite !Z.shiftl_mul_pow2 by lia. change (2 ^ 8) with (64 * 2 ^ 2).
    apply Z.mul_mod_distr_r; lia. }
  by rewrite !Heq, Hw.
Qed.
End steering.

(** ** The calls *)

Section bring_up.
Context `{Config, DpdkLaws, NetConfig, HostInfo}.

(** From [s] to [s'] only the device has changed, the port [port] by [f]. *)
Record configured (port : Z) (f : port_cfg -> port_cfg) (s s' : main_state) : Prop := {
  conf_willing : willing (dp s');
  conf_launched : launched (dp s') = launched (dp s);
  conf_cfg : cfg port (dp s') = f (cfg port (dp s));
  conf_drop : drop_rule s' = drop_rule s;
  conf_ctx : thread_ctx s' = thread_ctx s;
}.

Lemma configured_refl port s : willing (dp s) -> configured port id s s.
Proof. by constructor. Qed.

Lemma configured_trans port f g s s' s'' :
  configured port f s s' -> configured port g s' s'' -> configured port (fun c => g (f c)) s s''.
Proof. intros [] []. constructor; congruence. Qed.

Lemma runs_call {A} (f : dpdk -> A * dpdk) s (Q : A -> main_state -> Prop) :
  Q (f (dp s)).1 {| s with dp := (f (dp s)).2 |} -> runs (call f) s Q.
Proof. intros HQ. unfold runs, call. destruct (f (dp s)) as [a d]. eauto. Qed.

(** A call whose result is asserted to be 0. *)
Lemma runs_call_ok port (f : dpdk -> Z * dpdk) g s :
  succeeds (dp s) port g (f (dp s)) ->
  runs (retval <- call f ;; assert (retval =? 0)) s (fun _ s' => configured port g s s').
Proof.
  intros (Hr & Hw & Hl & Hc). apply runs_bind, runs_call.
  apply runs_assert; [by rewrite Hr|]. by constructor.
Qed.

(** The rest of a function after such a call. *)
Lemma runs_call_then {A} port (f : dpdk -> Z * dpdk) g (k : M main_state A) s Q :
  succeeds (dp s) port g (f (dp s)) ->
  (forall s', configured port g s s' -> runs k s' Q) ->
  runs (retval <- call f ;; assert (retval =? 0) ;;; k) s Q.
Proof.
  intros Hs Hk. 
  assert (runs ((retval <- call f ;; assert (retval =? 0)) ;;; k) s Q) as Hr.
  { apply runs_bind. eapply runs_mono; [by apply runs_call_ok|]. cbn beta.
    intros _ s'. apply Hk. }
  destruct Hr as (a & s' & Hr & HQ). exists a, s'. split; [|done].
  rewrite <- Hr. unfold bind. destruct (call f s) as [[r s1]|]; done.
Qed.

Definition add_rx_pools (l : list (Z * pool)) (c : port_cfg) : port_cfg :=
  foldl (fun c '(q, m) => {| c with rx_pools := <[q := m]> (rx_pools c) |}) c l.
Definition add_tx_descs (n : Z) (l : list Z) (c : port_cfg) : port_cfg :=
  foldl (fun c q => {| c with tx_descs := <[q := n]> (tx_descs c) |}) c l.

(** The queues and their pools. *)
Definition queue_pools (pools : list pool) (qs : list Z) : list (Z * pool) :=
  omap (fun q => (q,.) <$> znth pools q) qs.

Lemma queue_pools_cons pools q qs m :
  znth pools q = Some m -> queue_pools pools (q :: qs) = (q, m) :: queue_pools pools qs.
Proof. intros Hm. unfold queue_pools, omap, list_omap. by rewrite Hm. Qed.

Lemma queue_pools_fst pools qs :
  Forall (fun q => 0 <= q < Z.of_nat (length pools)) qs -> (queue_pools pools qs).*1 = qs.
Proof.
  induction 1 as [|q qs Hq _ IH]; [done|]. destruct (znth_is_Some pools q Hq) as [m Hm].
  rewrite (queue_pools_cons _ _ _ _ Hm), fmap_cons, IH. done.
Qed.

Lemma elem_of_queue_pools pools qs q m :
  znth pools q = Some m -> q ∈ qs -> (q, m) ∈ queue_pools pools qs.
Proof.
  intros Hm Hq. apply list_elem_of_omap. exists q. by rewrite Hm.
Qed.

Lemma setup_rx_queues_runs port n pools qs s :
  willing (dp s) -> Forall (fun q => 0 <= q < Z.of_nat (length pools)) qs ->
  runs (setup_rx_queues port n pools qs) s
    (fun _ s' => configured port (add_rx_pools (queue_pools pools qs)) s s').
Proof.
  revert s. induction qs as [|q qs IH]; intros s Hw Hqs; unfold setup_rx_queues; cbn [for_each].
  - apply runs_ret. by constructor.
  - apply Forall_cons_1 in Hqs as [Hq Hqs].
    destruct (znth_is_Some pools q Hq) as [m Hm].
    apply runs_bind. unfold vector_at. apply runs_bind. rewrite Hm. apply (runs_the _ _ m); [done|].
    eapply runs_mono; [apply runs_call_ok, rx_setup_ok, Hw|]. cbn beta. intros _ s1 C1.
    eapply runs_mono; [apply IH; [apply C1|done]|]. cbn beta. intros _ s2 C2.
    rewrite (queue_pools_cons _ _ _ _ Hm). destruct (configured_trans _ _ _ _ _ _ C1 C2).
    by constructor.
Qed.

Lemma setup_tx_queues_runs port n o qs s :
  willing (dp s) ->
  runs (setup_tx_queues port n o qs) s
    (fun _ s' => configured port (add_tx_descs n qs) s s').
Proof.
  revert s. induction qs as [|q qs IH]; intros s Hw; unfold setup_tx_queues; cbn [for_each].
  - apply runs_ret. by constructor.
  - apply runs_bind. eapply runs_mono; [apply runs_call_ok, tx_setup_ok, Hw|]. cbn beta.
    intros _ s1 C1. eapply runs_mono; [apply IH, C1|]. cbn beta. intros _ s2 C2.
    destruct (configured_trans _ _ _ _ _ _ C1 C2). by constructor.
Qed.

Lemma add_rx_pools_rules l c : rules (add_rx_pools l c) = rules c.
Proof. revert c. induction l as [|[q m] l IH]; intros c; simpl; [done|]. by rewrite IH. Qed.
Lemma add_tx_descs_rules n l c : rules (add_tx_descs n l c) = rules c.
Proof. revert c. induction l as [|q l IH]; intros c; simpl; [done|]. by rewrite IH. Qed.
Lemma add_tx_descs_pools n l c : rx_pools (add_tx_descs n l c) = rx_pools c.
Proof. revert c. induction l as [|q l IH]; intros c; simpl; [done|]. by rewrite IH. Qed.

Lemma add_rx_pools_lookup l c q m :
  NoDup l.*1 -> (q, m) ∈ l -> rx_pools (add_rx_pools l c) !! q = Some m.
Proof.
  assert (forall l c, q ∉ l.*1 -> rx_pools (add_rx_pools l c) !! q = rx_pools c !! q) as Hne.
  { clear. induction l as [|[q' m'] l IH]; intros c Hq; simpl in *; [done|].
    apply not_elem_of_cons in Hq as [Hq Hl]. rewrite IH by done. simpl.
    by apply lookup_insert_ne. }
  revert c. induction l as [|[q' m'] l IH]; intros c Hnd Hin; [by apply elem_of_nil in Hin|].
  simpl in *. apply NoDup_cons in Hnd as [Hq' Hnd].
  apply elem_of_cons in Hin as [[= <- <-]|Hin].
  - rewrite Hne by done. simpl. apply lookup_insert_eq.
  - by apply IH.
Qed.

(** [port_init] on a device whose calls succeed. *)
Lemma port_init_runs port n pools s :
  willing (dp s) -> 0 < n < 2 ^ 16 -> Z.of_nat (length pools) = n ->
  runs (port_init port n pools) s (fun r s' =>
    r = 0 /\ exists f, configured port f s s'
      /\ (forall c, rules (f c) = rules c)
      /\ (forall c q m, znth pools q = Some m -> rx_pools (f c) !! q = Some m)
      /\ forall c, started (f c) = true).
Proof.
  intros Hw Hn Hp. unfold port_init. destruct (Z.eqb_spec n 0); [lia|]. cbv zeta.
  rewrite !(wrap_small 16 n) by lia.
  apply runs_bind, runs_get. rewrite valid_port_ok by done. simpl negb. cbv iota.
  pose proof (dev_info_ok port (dp s) Hw) as Hinfo.
  destruct (dev_info_get port (dp s)) as [r0 capa]. simpl in Hinfo. subst r0.
  apply runs_bind, runs_assert; [done|]. cbv zeta.
  set (o := if Z.land _ _ =? 0 then _ else _).
  eapply runs_call_then; [by apply configure_ok|]. intros s1 C1. pose proof (conf_willing _ _ _ _ C1).
  apply runs_bind, runs_get.
  pose proof (adjust_ok port (u16 MAX_WIN_LEN) nb_txd_init (dp s1) ltac:(done)) as Hadj.
  destruct (adjust_nb_desc _ _ _ _) as [r1 [rxd txd]]. simpl in Hadj. subst r1.
  apply runs_bind, runs_assert; [done|].
  apply runs_bind. eapply runs_mono; [apply setup_rx_queues_runs; [done|]|].
  { apply Forall_forall. intros q. rewrite elem_of_seqZ. lia. }
  cbn beta. intros _ s2 C2. pose proof (conf_willing _ _ _ _ C2).
  apply runs_bind. eapply runs_mono; [by apply setup_tx_queues_runs|].
  cbn beta. intros _ s3 C3. pose proof (conf_willing _ _ _ _ C3).
  eapply runs_call_then; [by apply start_ok|]. intros s4 C4. pose proof (conf_willing _ _ _ _ C4).
  apply runs_bind, runs_get. rewrite macaddr_ok by done. apply runs_bind, runs_assert; [done|].
  eapply runs_call_then; [by apply promiscuous_ok|]. intros s5 C5.
  apply runs_ret. split; [done|].
  pose proof (configured_trans _ _ _ _ _ _ (configured_trans _ _ _ _ _ _ (configured_trans _ _ _ _ _ _
    (configured_trans _ _ _ _ _ _ C1 C2) C3) C4) C5) as C.
  eexists. split; [exact C|]. cbn. split_and!; [| |done].
  - intros c. by rewrite add_tx_descs_rules, add_rx_pools_rules.
  - intros c q m Hm. rewrite add_tx_descs_pools. apply add_rx_pools_lookup.
    + rewrite queue_pools_fst; [apply NoDup_seqZ|].
      apply Forall_forall. intros x. rewrite elem_of_seqZ. lia.
    + apply elem_of_queue_pools; [done|]. apply elem_of_seqZ. apply znth_Some in Hm. lia.
Qed.

(** [s'] differs from [s] in the device and the static [drop]; the rules of the
    port are [l] more. *)
Record ruled (port : Z) (l : list flow_rule) (s s' : main_state) : Prop := {
  ruled_willing : willing (dp s');
  ruled_launched : launched (dp s') = launched (dp s);
  ruled_rules : rules (cfg port (dp s')) = rules (cfg port (dp s)) ++ l;
  ruled_pools : rx_pools (cfg port (dp s')) = rx_pools (cfg port (dp s));
  ruled_ctx : thread_ctx s' = thread_ctx s;
}.

Lemma ruled_trans port l1 l2 s s' s'' :
  ruled port l1 s s' -> ruled port l2 s' s'' -> ruled port (l1 ++ l2) s s''.
Proof. intros [] []. constructor; try congruence. rewrite app_assoc. congruence. Qed.

Lemma flow_create_runs port r s :
  willing (dp s) ->
  runs (flow_create port r) s (fun b s' =>
    b = true /\ ruled port [r] s s' /\ drop_rule s' = drop_rule s).
Proof.
  intros Hw. unfold flow_create. apply runs_bind, runs_get.
  rewrite validate_ok by done. simpl. apply runs_call.
  destruct (flow_create_ok port r (dp s) Hw) as (Hb & _ & Hw' & Hl & Hc). simpl in *.
  split; [done|]. split; [|done]. constructor; simpl; [done..| | |done]; by rewrite Hc.
Qed.

(** The rule that drops everything is created with the first queue rule. *)
Definition pending_drop (s : main_state) : list flow_rule :=
  if drop_rule s then [drop_everything] else [].

Lemma flow_init_queue_runs port q s :
  willing (dp s) ->
  runs (flow_init_queue port q) s (fun b s' =>
    b = true /\ ruled port (pending_drop s ++ [queue_rule q]) s s' /\ drop_rule s' = false).
Proof.
  intros Hw. unfold flow_init_queue, pending_drop. apply runs_bind, runs_get. apply runs_bind.
  destruct (drop_rule s) eqn:Hd.
  - apply runs_bind, runs_modify. apply runs_bind.
    eapply runs_mono; [by apply flow_create_runs|]. cbn beta. intros _ s1 (_ & R1 & D1).
    apply runs_ret. eapply runs_mono; [apply flow_create_runs, R1|]. cbn beta.
    intros b s2 (-> & R2 & D2). split; [done|]. split; [|by rewrite D2].
    pose proof (ruled_trans _ _ _ _ _ _ R1 R2) as []. by constructor.
  - apply runs_ret. eapply runs_mono; [by apply flow_create_runs|]. cbn beta.
    intros b s2 (-> & R2 & D2). split; [done|]. split; [done|]. congruence.
Qed.

Lemma flow_loop_runs port qs s :
  willing (dp s) -> Forall (fun q => 0 <= q < 2 ^ 16) qs ->
  runs (flow_loop port qs) s (fun r s' =>
    r = 0 /\ ruled port (if decide (qs = []) then [] else pending_drop s ++ (queue_rule <$> qs)) s s').
Proof.
  revert s. induction qs as [|q qs IH]; intros s Hw Hqs; cbn [flow_loop].
  - apply runs_ret. split; [done|]. constructor; simpl; try done. by rewrite app_nil_r.
  - apply Forall_cons_1 in Hqs as [Hq Hqs]. rewrite wrap_small by done. rewrite decide_False by done.
    apply runs_bind. eapply runs_mono; [by apply flow_init_queue_runs|]. cbn beta.
    intros b s1 (-> & R1 & D1). eapply runs_mono; [apply IH; [apply R1|done]|]. cbn beta.
    intros r s2 [-> R2]. split; [done|]. pose proof (ruled_trans _ _ _ _ _ _ R1 R2) as R.
    unfold pending_drop in R at 2. rewrite D1 in R. rewrite <- app_assoc in R.
    rewrite fmap_cons. destruct (decide (qs = [])) as [->|]; done.
Qed.

Lemma create_pool_runs name n c room s :
  willing (dp s) ->
  runs (call (pktmbuf_pool_create name n c room)) s (fun r s' =>
    is_Some r /\ forall port, configured port id s s').
Proof.
  intros Hw. apply runs_call. split; [by apply (pool_create_ok name n c room (dp s) 0)|].
  intros port. destruct (pool_create_ok name n c room (dp s) port Hw) as [_ (_ & ? & ? & ?)].
  constructor; simpl; done.
Qed.

Lemma create_pools_runs ip ws acc s :
  willing (dp s) ->
  runs (create_pools ip ws acc) s (fun r s' =>
    length r = (length acc + length ws)%nat /\ forall port, configured port id s s').
Proof.
  revert acc s. induction ws as [|w ws IH]; intros acc s Hw; cbn [create_pools]; cbv zeta.
  - apply runs_ret. split; [simpl; lia|]. intros port. by apply configured_refl.
  - apply runs_bind. eapply runs_mono; [by apply create_pool_runs|]. cbn beta.
    intros _ s1 [[tx ->] C1].
    apply runs_bind. eapply runs_mono; [apply create_pool_runs, (C1 0)|]. cbn beta.
    intros _ s2 [[rx ->] C2].
    eapply runs_mono; [apply IH, (C2 0)|]. cbn beta. intros r s3 [Hlen C3].
    split; [rewrite Hlen, length_app; simpl; lia|]. intros port.
    exact (configured_trans _ _ _ _ _ _ (configured_trans _ _ _ _ _ _ (C1 port) (C2 port)) (C3 port)).
Qed.

(** The contexts of the workers on the lcores [lcores] are filled in and the
    threads are launched. *)
Record launched_on (ip : string) (port : Z) (pools : list (pool * pool)) (lcores : list Z)
    (s s' : main_state) : Prop := {
  lo_willing : willing (dp s');
  lo_launched : launched (dp s') = launched (dp s) ++ ((fun l => (l, l - 1)) <$> lcores);
  lo_cfg : forall p, cfg p (dp s') = cfg p (dp s);
  lo_length : length (thread_ctx s') = length pools;
  lo_ctx : forall l p, l ∈ lcores -> znth pools (l - 1) = Some p ->
    znth (thread_ctx s') (l - 1) = Some (Some (new_ctx ip port (l - 1) p.1 p.2));
}.

Lemma launch_runs ip port nthread pools s :
  willing (dp s) -> MAX_PKT_BURST mod 8 = 0 -> Z.of_nat (length pools) = nthread - 1 ->
  runs (launch ip port (nthread - 1) nthread pools) s
    (fun _ s' => launched_on ip port pools (seqZ 1 (nthread - 1)) s s').
Proof.
  intros Hw H8 Hn. unfold launch. apply runs_bind, runs_modify. set (s0 := {| s with thread_ctx := _ |}).
  apply (runs_for_each (fun pre s' => launched_on ip port pools pre s s')).
  - constructor; simpl; [done|by rewrite app_nil_r|done| |by intros ? ? ?%elem_of_nil].
    rewrite length_replicate. lia.
  - intros pre l post s1 Hsplit [L1 L2 L3 L4 L5].
    assert (l ∈ seqZ 1 (nthread - 1)) as Hl%elem_of_seqZ
      by (rewrite Hsplit; apply elem_of_app; right; left).
    unfold launch_worker. cbv zeta. apply runs_bind, runs_get. unfold vector_at.
    destruct (znth_is_Some (thread_ctx s1) (l - 1) ltac:(lia)) as [c0 Hc0].
    destruct (znth_is_Some pools (l - 1) ltac:(lia)) as [p Hp].
    apply runs_bind, (runs_the _ _ c0); [done|]. apply runs_bind, (runs_the _ _ p); [done|].
    apply runs_bind, runs_modify. apply runs_bind, runs_assert; [by rewrite H8|].
    apply runs_bind, runs_call. cbn [dp].
    destruct (launch_ok l (l - 1) (dp s1) 0 L1) as (-> & Hw' & Hl' & _).
    apply runs_assert; [done|]. constructor; cbn [dp thread_ctx].
    + done.
    + rewrite Hl', L2, fmap_app, app_assoc. done.
    + intros q. rewrite <- L3. apply (launch_ok l (l - 1) (dp s1) q L1).
    + by rewrite length_insert.
    + intros l' p' Hin Hp'. apply elem_of_app in Hin as [Hin| ->%list_elem_of_singleton].
      * destruct (decide (l' = l)) as [->|Hne].
        -- rewrite znth_insert_eq by lia. congruence.
        -- rewrite znth_insert_ne by lia. by apply L5.
      * rewrite znth_insert_eq by lia. congruence.
Qed.

(** ** Bringing the program up *)

(** The host and the arguments [dpdk_init] accepts. *)
Record host_ok (nthread : Z) (ip : string) : Prop := {
  host_dev : exists dev, get_dev_by_ip inet_aton getifaddrs ip = Ok dev /\ dev <> EmptyString
    /\ get_pci_by_dev dev <> EmptyString
    /\ get_socket_by_pci (get_pci_by_dev dev) <> -1
    /\ exists cpus, cpu_list_on_node socket_list (get_socket_by_pci (get_pci_by_dev dev)) nthread
                      = Ok cpus;
  host_shm : shm_exists = true /\ shm_queue_pair = true;
  host_threads : 1 <= nthread < 2 ^ 16;
  host_burst : MAX_PKT_BURST mod 8 = 0;
}.

(** The device and the program before [dpdk_init]. *)
Record fresh (s : main_state) : Prop := {
  fresh_willing : willing (dp s);
  fresh_rules : forall port, rules (cfg port (dp s)) = [];
  fresh_launched : launched (dp s) = [];
  fresh_drop : drop_rule s = true;
}.

(** What [dpdk_init] has set up for [n] workers on [port]. *)
Record set_up (ip : string) (port n : Z) (s : main_state) : Prop := {
  su_willing : willing (dp s);
  su_launched : launched (dp s) = (fun l => (l, l - 1)) <$> seqZ 1 n;
  su_rules : rules (cfg port (dp s)) =
    if decide (n = 0) then [] else drop_everything :: (queue_rule <$> seqZ 0 n);
  su_length : Z.of_nat (length (thread_ctx s)) = n;
  su_ctx : forall w, 0 <= w < n -> exists tx rx,
    znth (thread_ctx s) w = Some (Some (new_ctx ip port w tx rx))
    /\ rx_pools (cfg port (dp s)) !! w = Some rx;
}.

Lemma port_and_flow_runs {A} port n pools s (k : M main_state A) Q :
  willing (dp s) -> 0 <= n < 2 ^ 16 -> Z.of_nat (length pools) = n -> drop_rule s = true ->
  rules (cfg port (dp s)) = [] ->
  (forall s', willing (dp s') -> launched (dp s') = launched (dp s) ->
    rules (cfg port (dp s')) =
         (if decide (n = 0) then [] else drop_everything :: (queue_rule <$> seqZ 0 n)) ->
    (forall q m, znth pools q = Some m -> rx_pools (cfg port (dp s')) !! q = Some m) ->
    runs k s' Q) ->
  runs (retval <- port_init port n pools ;;
        assert (retval =? 0) ;;;
        retval <- flow_init port n ;;
        assert (retval =? 0) ;;;
        k) s Q.
Proof.
  intros Hw Hn Hlen Hd Hr Hk. destruct (decide (n = 0)) as [->|Hn0].
  - unfold port_init, flow_init. simpl. apply runs_bind, runs_ret. cbn beta.
    apply runs_bind, runs_assert; [done|]. apply runs_bind, runs_ret.
    apply runs_bind, runs_assert; [done|]. apply Hk; [done..|]. destruct pools; [|done]. intros q m ?%znth_Some. simpl in *. lia.
  - apply runs_bind. eapply runs_mono; [apply port_init_runs; [done|lia|done]|]. cbn beta.
    intros r s1 (-> & f & C & Hfr & Hfp & _). apply runs_bind, runs_assert; [done|].
    apply runs_bind. unfold flow_init. rewrite wrap_small by lia.
    eapply runs_mono; [apply flow_loop_runs; [apply C|]|].
    { apply Forall_forall. intros q. rewrite elem_of_seqZ. lia. }
    cbn beta. intros r s2 [-> R]. apply runs_bind, runs_assert; [done|].
    rewrite decide_False in R.
    2:{ intros Hnil. apply (f_equal length) in Hnil. rewrite length_seqZ in Hnil. simpl in Hnil. lia. }
    unfold pending_drop in R. rewrite (conf_drop _ _ _ _ C), Hd in R.
    apply Hk; [apply R| | |].
    + rewrite (ruled_launched _ _ _ _ R). apply C.
    + rewrite (ruled_rules _ _ _ _ R), (conf_cfg _ _ _ _ C), Hfr, Hr. done.
    + intros q m Hm. rewrite (ruled_pools _ _ _ _ R), (conf_cfg _ _ _ _ C). by apply Hfp.
Qed.

Lemma runs_lift {A} (o : outcome A) a s (Q : A -> main_state -> Prop) :
  o = Ok a -> Q a s -> runs (lift o) s Q.
Proof. intros -> HQ. by exists a, s. Qed.

Lemma dpdk_init_runs nthread ip s :
  host_ok nthread ip -> fresh s ->
  runs (dpdk_init nthread (nthread - 1) ip) s (fun _ s' =>
    exists port, set_up ip port (nthread - 1) s').
Proof.
  intros [(dev & Hdev & Hne & Hpci & Hnode & cpus & Hcpus) [Hshm Hqp] Hn H8] [Hw Hrules Hl Hd].
  unfold dpdk_init. apply runs_bind. eapply runs_lift; [exact Hdev|].
  apply runs_bind, runs_assert; [by rewrite bool_decide_false|]. cbv zeta.
  apply runs_bind, runs_assert; [by rewrite bool_decide_false|].
  apply runs_bind, runs_assert; [by destruct (Z.eqb_spec (get_socket_by_pci (get_pci_by_dev dev)) (-1))|].
  apply runs_bind. eapply runs_lift; [exact Hcpus|].
  apply runs_bind, runs_call. 
  set (args := [_; _; _; _]). set (s1 := {| s with dp := _ |}).
  assert (forall port, configured port id s s1 /\ 0 <= (eal_init args (dp s)).1) as C1.
  { intros port. destruct (eal_init_ok args (dp s) port Hw) as [(_ & ? & ? & ?) ?].
    split; [|done]. constructor; simpl; done. }
  apply runs_bind, runs_assert; [apply Z.leb_le, (C1 0)|].
  apply runs_bind. eapply runs_mono; [apply create_pools_runs, (C1 0)|]. cbn beta.
  intros pools s2 [Hlen C2]. simpl in Hlen. rewrite length_seqZ in Hlen.
  apply runs_bind, runs_get. apply runs_bind, runs_assert.
  { apply Z.ltb_lt, dev_count_ok, (C2 0). }
  pose proof (port_by_name_ok (get_pci_by_dev dev) (dp s2) (conf_willing _ _ _ _ (C2 0))) as Hport.
  destruct (dev_get_port_by_name _ _) as [r port]. simpl in Hport. subst r.
  apply runs_bind, runs_assert; [done|].
  pose proof (configured_trans _ _ _ _ _ _ (proj1 (C1 port)) (C2 port)) as [W2 L2 C2' D2 _].
  apply port_and_flow_runs; [done|lia|rewrite length_fmap; lia|congruence| |].
  { rewrite C2'. apply Hrules. }
  intros s3 W3 L3 R3 P3.
  apply runs_bind. eapply runs_mono; [apply launch_runs; [done|done|lia]|]. cbn beta.
  intros _ s4 [W4 L4 C4 N4 X4].
  unfold shm_init. rewrite Hshm. apply runs_assert; [done|].
  exists port. constructor.
  - done.
  - by rewrite L4, L3, L2, Hl.
  - by rewrite C4, R3.
  - rewrite N4. lia.
  - intros w Hin. destruct (znth_is_Some pools w ltac:(lia)) as [[tx rx] Hp].
    exists tx, rx. specialize (X4 (w + 1) (tx, rx)).
    replace (w + 1 - 1) with w in X4 by lia. split.
    + apply X4; [apply elem_of_seqZ; lia|done].
    + rewrite C4. apply P3. rewrite znth_lookup in Hp by lia. rewrite znth_lookup by lia.
      by rewrite list_lookup_fmap, Hp.
Qed.

(** ** Steering *)

Section steered.
Context (Hproto : 0 <= IPPROTO_NETCCL < 2 ^ 8).

Lemma belongs_bytes_ok ip port w tx rx p :
  belongs_to (new_ctx ip port w tx rx) p -> ipv4_bytes_ok (Types.ip p).
Proof.
  intros (_ & Hp & Ht & _). split; [done|]. rewrite Hp. cbn.
  unfold htobe_store, htobe_ptr. simpl. by rewrite wrap_small.
Qed.

Lemma own_rule_matches ip port w tx rx p :
  belongs_to (new_ctx ip port w tx rx) p -> pattern_matches (pattern (queue_rule w)) p.
Proof.
  intros Hb. apply queue_rule_matches; [done|by eapply belongs_bytes_ok|].
  destruct Hb as (He & Hp & _ & Ht). split_and!.
  - rewrite He. done.
  - rewrite Ht. apply prefill_tos.
  - rewrite Hp. cbn. unfold htobe_store, htobe_ptr. simpl. by rewrite wrap_small.
Qed.

Lemma steered_to_own_queue ip port n s w tx rx p a :
  set_up ip port n s -> 0 <= w < n -> n <= 64 ->
  belongs_to (new_ctx ip port w tx rx) p -> nic_action port (dp s) p a ->
  a = ACTION_TYPE_QUEUE w.
Proof.
  intros Hs Hw Hn Hb Ha. pose proof (own_rule_matches _ _ _ _ _ _ Hb) as Hm.
  pose proof (su_rules _ _ _ _ Hs) as Hr. rewrite decide_False in Hr by lia.
  assert (queue_rule w ∈ rules (cfg port (dp s))) as Hin.
  { rewrite Hr. right. apply list_elem_of_fmap. exists w. split; [done|]. apply elem_of_seqZ. lia. }
  destruct (nic_action_ok port (dp s) p a (su_willing _ _ _ _ Hs) Ha) as (r & Hrin & Hrm & Hra & Hprio);
    [by eexists|].
  specialize (Hprio _ Hin Hm). rewrite Hr in Hrin.
  apply elem_of_cons in Hrin as [->|Hrin]; [by simpl in Hprio|].
  apply list_elem_of_fmap in Hrin as (q & -> & Hq%elem_of_seqZ).
  pose proof (belongs_bytes_ok _ _ _ _ _ _ Hb) as Hok.
  apply queue_rule_matches in Hrm as (_ & Hq' & _); [|done..].
  apply queue_rule_matches in Hm as (_ & Hw' & _); [|done..].
  rewrite !Z.mod_small in * by lia. simpl in Hra. congruence.
Qed.

Lemma foreign_dropped ip port n s p a :
  set_up ip port n s -> 0 < n -> ipv4_bytes_ok (Types.ip p) ->
  next_proto_id (Types.ip p) <> IPPROTO_NETCCL -> nic_action port (dp s) p a ->
  a = ACTION_TYPE_DROP.
Proof.
  intros Hs Hn Hok Hp Ha.
  pose proof (su_rules _ _ _ _ Hs) as Hr. rewrite decide_False in Hr by lia.
  destruct (nic_action_ok port (dp s) p a (su_willing _ _ _ _ Hs) Ha) as (r & Hrin & Hrm & Hra & _).
  { exists drop_everything. split; [rewrite Hr; left|done]. }
  rewrite Hr in Hrin. apply elem_of_cons in Hrin as [->|Hrin]; [by simpl in Hra; simplify_eq|].
  apply list_elem_of_fmap in Hrin as (q & -> & _).
  by apply queue_rule_matches in Hrm as (_ & _ & ?).
Qed.
End steered.

(** C26: when [dpdk_init] gets to the load balancer, worker [w] runs on lcore
    [w + 1] with its own context, receive queue and packet pool, and while there are at most
    64 workers the NIC hands every packet of worker [w], whatever the network has done to
    it short of its protocol and the upper six bits of its type of service,
    to the queue of worker [w] and drops every foreign packet. *)
Theorem dpdk_init_steers nthread ip s :
  0 <= IPPROTO_NETCCL < 2 ^ 8 ->
  host_ok nthread ip -> fresh s ->
  runs (dpdk_init nthread (nthread - 1) ip) s (fun _ s' => exists port,
    Z.of_nat (length (thread_ctx s')) = nthread - 1
    /\ launched (dp s') = (fun l => (l, l - 1)) <$> seqZ 1 (nthread - 1)
    /\ (forall w, 0 <= w < nthread - 1 -> exists c,
          znth (thread_ctx s') w = Some (Some c)
          /\ worker_id c = w /\ port_id c = port /\ pb_port c = port /\ pb_queue c = w
          /\ rx_pools (cfg port (dp s')) !! w = Some (rx_mbuf_pool c)
          /\ forall p a, nthread - 1 <= 64 -> belongs_to c p -> nic_action port (dp s') p a ->
                a = ACTION_TYPE_QUEUE (pb_queue c))
    /\ (forall p a, 1 < nthread -> ipv4_bytes_ok (Types.ip p) ->
          next_proto_id (Types.ip p) <> IPPROTO_NETCCL -> nic_action port (dp s') p a ->
          a = ACTION_TYPE_DROP)).
Proof.
  intros Hproto Hh Hf. eapply runs_mono; [by apply dpdk_init_runs|]. cbn beta.
  intros _ s' [port Hs]. exists port. split_and!; [apply Hs..| |].
  - intros w Hw. destruct (su_ctx _ _ _ _ Hs w Hw) as (tx & rx & Hc & Hrx).
    eexists. split; [exact Hc|]. cbn [new_ctx worker_id port_id pb_port pb_queue rx_mbuf_pool].
    split_and!; [done..|]. intros p a Hn. by apply (steered_to_own_queue Hproto ip port (nthread - 1) s' w tx rx).
  - intros p a Hn. apply (foreign_dropped Hproto ip port (nthread - 1) s'); [done..|lia].
Qed.

(** The type of service has room for 64 workers only: the packets of two
    workers whose numbers agree modulo 64 have the same header, and the rules
    of their queues match the same packets, so that the NIC cannot tell them
    apart. *)
Theorem flow_rules_collide ip w1 w2 :
  0 <= IPPROTO_NETCCL < 2 ^ 8 -> w1 mod 64 = w2 mod 64 ->
  prefill_ip_hdr ip w1 = prefill_ip_hdr ip w2
  /\ forall p, ipv4_bytes_ok (Types.ip p) ->
       pattern_matches (pattern (queue_rule w1)) p <-> pattern_matches (pattern (queue_rule w2)) p.
Proof.
  intros Hp Hw. split.
  - unfold prefill_ip_hdr. do 2 f_equal. apply tos_collide, Hw.
  - intros p Hok. rewrite !queue_rule_matches by done. by rewrite Hw.
Qed.
End bring_up.
