(* ===== verification/Switch.v ===== *)
(** The pipeline of the switch ([switch/*.p4]): parser, ingress with the bitmap
    and aggregator registers, forwarding, recirculation, egress.

    A packet goes through the pipeline twice: the first pass adds its values
    to the aggregators and reads the even lanes, the second, after
    recirculation, reads the odd lanes.  One pass is one step: in the
    hardware a packet passes the stages in order, so that passes do not
    overlap on a register.  The tables the control plane fills are arguments. *)

From S2P Require Import Prelude.
From S2P Require Import Types.
From S2P Require Import Endian.

(** * Packets in the switch *)

(** A signed 32-bit value and the saturating addition [|+|]. *)
Definition int32_min : Z := - 2 ^ 31.
Definition int32_max : Z := 2 ^ 31 - 1.
Definition sat_add (x y : Z) : Z := Z.max int32_min (Z.min int32_max (x + y)).

(** [agg_pair_t]: two lanes of the payload, or one cell of an aggregator array. *)
Definition agg_pair : Type := Z * Z.

(** [struct headers]; the 64 lanes of the payload as 32 pairs. *)
Record headers := {
  pass_cnt : Z;
  enable_multicast : Z;
  internal_valid : bool;
  dmac : Z;
  smac : Z;
  dscp_ecn : Z;
  ip_length : Z;
  sip : Z;
  dip : Z;
  netccl_valid : bool;
  coll_type : Z;
  n_group_id : Z;
  rank : Z;
  n_root : Z;
  n_agg_addr : Z;
  psn : Z;
  payload_valid : bool;
  lanes : list agg_pair;
}.

Definition COLL_TYPE_REDUCE : Z := 2.
Definition COLL_TYPE_BROADCAST : Z := 3.
Definition NETCCL_PROTOCOL : Z := 254.    (** 0xfe *)
Definition INVALID_PASSCNT : Z := 255.
Definition IP_PROTOCOL : Z := 2048.       (** 0x0800 *)
Definition REGISTER_LEN : Z := 16384.

(** * Parser *)

(** The value of bytes in network order; [agg_t] is signed. *)
Definition be_num (l : list Z) : Z := le_num (reverse l).
Definition to_int32 (x : Z) : Z := if x <? 2 ^ 31 then x else x - 2 ^ 32.

Fixpoint parse_lanes (l : list Z) : list agg_pair :=
  match l with
  | a :: b :: c :: d :: a' :: b' :: c' :: d' :: l =>
    (to_int32 (be_num [a; b; c; d]), to_int32 (be_num [a'; b'; c'; d'])) :: parse_lanes l
  | _ => []
  end.

Definition zero_lanes : list agg_pair := replicate 32 (0, 0).

(** A packet from an external port: [dm] and [sm] are the Ethernet addresses. *)
Definition parse (dm sm : Z) (p : netccl_pkt) : headers :=
  let len := betoh 2 (total_length (ip p)) in
  let is_inc := (betoh 2 (ether_type p) =? IP_PROTOCOL)
                && (next_proto_id (ip p) =? NETCCL_PROTOCOL) in
  let full := is_inc && (len =? 20 + 10 + 256) in
  let short := is_inc && (len =? 20 + 10) in
  {| pass_cnt := if full || short then 1 else INVALID_PASSCNT;
     enable_multicast := 0;
     internal_valid := true;
     dmac := dm;
     smac := sm;
     dscp_ecn := type_of_service (ip p);
     ip_length := len;
     sip := betoh 4 (src_addr (ip p));
     dip := betoh 4 (dst_addr (ip p));
     netccl_valid := full || short;
     coll_type := h_coll_type (inc p);
     n_group_id := h_group_id (inc p);
     rank := h_rank (inc p);
     n_root := h_root (inc p);
     n_agg_addr := betoh 2 (h_agg_addr (inc p));
     psn := betoh 4 (h_psn (inc p));
     payload_valid := full || short;
     lanes := if full then parse_lanes (payload p) else zero_lanes |}.

(** * Tables and registers *)

Inductive l2_action :=
  | l2_forward (port : Z)
  | l2_multicast (group : Z)
  | l2_drop.

Record tables := {
  metadata_table : gmap Z Z;               (** group -> [bitmap_mask] *)
  recirculate_table : gmap Z Z;            (** group -> port *)
  l2_forward_table : gmap Z l2_action;     (** destination address *)
  restore_table : gmap (Z * Z) (Z * Z);    (** group, rank -> [sip], [dip] *)
  restore_smac_table : gmap Z Z;
  restore_dmac_table : gmap Z Z;
}.

(** [reg_bitmap] (version, bitmap) and the 32 [aggregator_array]s by address;
    all registers start at 0 *)
Record registers := {
  reg_bitmap : gmap Z (Z * Z);
  aggregators : gmap Z (list agg_pair);
}.

Definition bitmap_at (r : registers) (addr : Z) : Z * Z := default (0, 0) (reg_bitmap r !! addr).
Definition cells_at (r : registers) (addr : Z) : list agg_pair :=
  default zero_lanes (aggregators r !! addr).

(** * Ingress *)

(** [hdr.netccl.group_id ++ hdr.netccl.psn[23:0]] *)
Definition set_version (h : headers) : Z := n_group_id h * 2 ^ 24 + psn h mod 2 ^ 24.

(** [bitmap_table]: ranks from 32 on have no entry *)
Definition bitmap_of (k : Z) : Z := if (0 <=? k) && (k <? 32) then Z.shiftl 1 k else 0.

(** [reg_bitmap_update]: the result and the new register *)
Definition reg_bitmap_update (version bitmap : Z) (reg : Z * Z) : Z * (Z * Z) :=
  if reg.1 =? version then (reg.2, (reg.1, Z.lor reg.2 bitmap))
  else (0, (version, bitmap)).

(** [check_new_packet] *)
Definition check_new_packet (bitmap_old k : Z) : Z :=
  if (0 <=? k) && (k <? 32) && (Z.land bitmap_old (Z.shiftl 1 k) =? 0) then 1 else 0.

(** one [AggregatorAccess]: the new cell and the new lanes *)
Definition aggregator_access (pass first_packet new_packet : Z) (cell lane : agg_pair) :
    agg_pair * agg_pair :=
  if pass =? 2 then (cell, (lane.1, cell.2))                              (** read1 *)
  else if first_packet =? 1 then (lane, lane)                             (** overwrite *)
  else if new_packet =? 1 then
    let c := (sat_add cell.1 lane.1, sat_add cell.2 lane.2) in
    (c, (c.1, lane.2))                                                    (** aggregate *)
  else (cell, (cell.1, lane.2)).                                          (** read0 *)

Definition all_aggregator_access (pass first_packet new_packet : Z) (cells lanes : list agg_pair) :
    list agg_pair * list agg_pair :=
  let r := zip_with (aggregator_access pass first_packet new_packet) cells lanes in
  (r.*1, r.*2).

(** Where the traffic manager sends the packet. *)
Inductive verdict :=
  | Drop
  | Unicast (port : Z)
  | Multicast (group : Z).

Definition l2_apply (t : tables) (h : headers) : verdict :=
  match l2_forward_table t !! dmac h with
  | Some (l2_forward p) => Unicast p
  | Some (l2_multicast g) => Multicast g
  | Some l2_drop | None => Drop
  end.

(** The metadata of a pass. *)
Record metadata := {
  bitmap : Z;
  bitmap_mask : Z;
  bitmap_old : Z;
  new_packet : Z;
  first_packet : Z;
}.

Definition is_full (md : metadata) : bool :=
  (bitmap_old md =? Z.lxor (bitmap md) (bitmap_mask md)) || (bitmap_old md =? bitmap_mask md).

(** [control Forward] *)
Definition forward (t : tables) (md : metadata) (h : headers) : verdict * headers :=
  let v :=
    if (pass_cnt h =? 2) && (enable_multicast h =? 1) then Multicast (n_group_id h)
    else if pass_cnt h =? 1 then
      if is_full md then
        match recirculate_table t !! n_group_id h with Some p => Unicast p | None => Drop end
      else Drop
    else l2_apply t h in
  (v, if (pass_cnt h =? 1) && is_full md
      then {| h with enable_multicast := new_packet md |} else h).

(** [control Ingress] *)
Definition ingress (t : tables) (h : headers) (r : registers) : verdict * headers * registers :=
  let h := if netccl_valid h
           then {| h with dmac := smac h; ip_length := 20 + 10 + 256 |} else h in
  let mask := default 0 (metadata_table t !! n_group_id h) in
  let bm := bitmap_of (rank h) in
  let '(old, r) :=
    if pass_cnt h =? 1 then
      let '(old, reg) := reg_bitmap_update (set_version h) bm (bitmap_at r (n_agg_addr h)) in
      (old, {| r with reg_bitmap := <[n_agg_addr h := reg]> (reg_bitmap r) |})
    else (0, r) in
  let md := {| bitmap := bm; bitmap_mask := mask; bitmap_old := old;
               new_packet := check_new_packet old (rank h);
               first_packet := if old =? 0 then 1 else 0 |} in
  let '(h, r) :=
    if netccl_valid h then
      let '(cells, ls) := all_aggregator_access (pass_cnt h) (first_packet md) (new_packet md)
                            (cells_at r (n_agg_addr h)) (lanes h) in
      ({| h with lanes := ls |},
       {| r with aggregators := <[n_agg_addr h := cells]> (aggregators r) |})
    else (h, r) in
  let '(v, h) := forward t md h in
  (v, h, r).

(** * Egress *)

Definition restore_fields (t : tables) (h : headers) : headers :=
  let h := match restore_table t !! (n_group_id h, rank h) with
           | Some (s, d) => {| h with sip := s; dip := d |}
           | None => h
           end in
  let h := match restore_smac_table t !! sip h with
           | Some m => {| h with smac := m |} | None => h end in
  match restore_dmac_table t !! dip h with
  | Some m => {| h with dmac := m |} | None => h end.

Definition invalidate_payload (h : headers) : headers :=
  {| h with payload_valid := false; ip_length := 20 + 10 |}.

(** Reduce sends the payload to the root only, broadcast to all others. *)
Definition remove_payload (h : headers) : headers :=
  if coll_type h =? COLL_TYPE_REDUCE then
    if rank h =? n_root h then h else invalidate_payload h
  else if coll_type h =? COLL_TYPE_BROADCAST then
    if rank h =? n_root h then invalidate_payload h else h
  else h.

(** [control dcqcn]: [marked] is the decision of the queue *)
Definition dcqcn (marked : bool) (h : headers) : headers :=
  if (dscp_ecn h mod 4 =? 0) || negb marked then h
  else {| h with dscp_ecn := dscp_ecn h / 4 * 4 + 3 |}.

(** [control Egress]: [rid] is the number of the copy of a multicast, [dropped]
    the decision of [random_drop] *)
Definition egress (t : tables) (rid : Z) (marked dropped : bool) (h : headers) : option headers :=
  let h :=
    if pass_cnt h =? 2 then
      let h := if enable_multicast h =? 0 then h else {| h with rank := rid |} in
      remove_payload (restore_fields t h)
    else h in
  let h :=
    if negb (netccl_valid h) then {| h with internal_valid := false |}
    else if pass_cnt h =? 2 then {| h with internal_valid := false |}
    else {| h with pass_cnt := pass_cnt h + 1 |} in
  let h := dcqcn marked h in
  if dropped then None else Some h.
