(* ===== verification/RandomDrop.v ===== *)
(** The debugging aid of the switch that drops packets with a given probability
    ([random_drop.p4]).  The pipeline cannot compare two numbers; [compare] does it
    with a ternary table of two entries for every bit. *)

From S2P Require Import Prelude.
From S2P Require Import Switch.

(** * Ternary tables *)

(** [value &&& mask] *)
Record ternary := { t_value : Z; t_mask : Z }.

Definition t_matches (x : Z) (t : ternary) : bool := Z.land x (t_mask t) =? Z.land (t_value t) (t_mask t).

(** The entries of [compare_table]; the first one that matches is taken. *)
Definition ternary_entry : Type := ternary * ternary * Z.

Fixpoint t_lookup (es : list ternary_entry) (x y default_ret : Z) : Z :=
  match es with
  | [] => default_ret
  | (tx, ty, ret) :: es =>
    if t_matches x tx && t_matches y ty then ret else t_lookup es x y default_ret
  end.

(** * [control compare] *)

Definition ZERO_ON_BIT (k : Z) : ternary := {| t_value := 0; t_mask := Z.shiftl 1 k |}.
Definition ONE_ON_BIT (k : Z) : ternary := {| t_value := Z.shiftl 1 k; t_mask := Z.shiftl 1 k |}.

Definition CHECK_BIT (k : Z) : list ternary_entry :=
  [(ZERO_ON_BIT k, ONE_ON_BIT k, 3); (ONE_ON_BIT k, ZERO_ON_BIT k, 1)].

(** [CHECK_BIT(n - 1); ...; CHECK_BIT(0);] *)
Fixpoint check_bits (n : nat) : list ternary_entry :=
  match n with
  | O => []
  | S n => CHECK_BIT (Z.of_nat n) ++ check_bits n
  end.

(** 0 on equal, 1 on greater, 3 on less *)
Definition compare (x y : Z) : Z := t_lookup (check_bits 32) x y 0.

(** * [control random_drop]

    The random generator and the entry of [drop_probability_table] are
    arguments; the result is [drop_ctl]. *)

Definition random_drop (random_value drop_value : Z) : Z :=
  if compare random_value drop_value =? 3 then 1 else 0.

(** [control Egress] with its last call *)
Definition egress_random (t : tables) (rid : Z) (marked : bool) (random_value drop_value : Z)
    (h : headers) : option headers :=
  egress t rid marked (negb (random_drop random_value drop_value =? 0)) h.

(** * Lemmas *)

Lemma matches_zero x k : 0 <= k -> t_matches x (ZERO_ON_BIT k) = negb (Z.testbit x k).
Proof.
  intros Hk. unfold t_matches, ZERO_ON_BIT. cbn [t_value t_mask].
  rewrite Z.land_0_l, Z.shiftl_1_l. destruct (Z.testbit x k) eqn:E; cbn.
  - apply Z.eqb_neq. intros H. apply (f_equal (fun z => Z.testbit z k)) in H.
    rewrite Z.land_spec, E, Z.pow2_bits_true, Z.bits_0 in H by done. done.
  - apply Z.eqb_eq, Z.bits_inj'. intros j Hj. rewrite Z.land_spec, Z.bits_0.
    destruct (decide (j = k)) as [->|]; [by rewrite E|].
    by rewrite Z.pow2_bits_false, andb_false_r.
Qed.

Lemma matches_one x k : 0 <= k -> t_matches x (ONE_ON_BIT k) = Z.testbit x k.
Proof.
  intros Hk. unfold t_matches, ONE_ON_BIT. cbn [t_value t_mask].
  rewrite Z.land_diag, Z.shiftl_1_l. destruct (Z.testbit x k) eqn:E.
  - apply Z.eqb_eq, Z.bits_inj'. intros j Hj. rewrite Z.land_spec.
    destruct (decide (j = k)) as [->|]; [by rewrite E|].
    by rewrite Z.pow2_bits_false, andb_false_r.
  - apply Z.eqb_neq. intros H. apply (f_equal (fun z => Z.testbit z k)) in H.
    by rewrite Z.land_spec, E, Z.pow2_bits_true in H.
Qed.

(** The result that [compare] is meant to have. *)
Definition order_code (x y : Z) : Z :=
  match x ?= y with Eq => 0 | Gt => 1 | Lt => 3 end.

(** A number below [2^(n+1)] is its bit [n] and the bits below. *)
Lemma top_bit (n : nat) x :
  x mod 2 ^ Z.of_nat (S n) = Z.b2z (Z.testbit x (Z.of_nat n)) * 2 ^ Z.of_nat n + x mod 2 ^ Z.of_nat n.
Proof.
  rewrite Nat2Z.inj_succ, Z.pow_succ_r by lia. rewrite (Z.mul_comm 2), Z.rem_mul_r by lia.
  rewrite Z.testbit_spec' by lia. lia.
Qed.

Lemma order_code_shift a x y : order_code (a + x) (a + y) = order_code x y.
Proof. unfold order_code. by rewrite Z.add_compare_mono_l. Qed.

Lemma check_bits_spec n x y :
  t_lookup (check_bits n) x y 0 = order_code (x mod 2 ^ Z.of_nat n) (y mod 2 ^ Z.of_nat n).
Proof.
  induction n as [|n IH]; [by rewrite !Z.mod_1_r|].
  cbn [check_bits CHECK_BIT app t_lookup]. rewrite !matches_zero, !matches_one, IH, !top_bit by lia.
  pose proof (Z.mod_pos_bound x (2 ^ Z.of_nat n) ltac:(lia)).
  pose proof (Z.mod_pos_bound y (2 ^ Z.of_nat n) ltac:(lia)).
  destruct (Z.testbit x _), (Z.testbit y _); cbn [negb andb Z.b2z];
    rewrite ?order_code_shift; try done; unfold order_code.
  - by rewrite (proj2 (Z.compare_gt_iff _ _)) by lia.
  - by rewrite (proj2 (Z.compare_lt_iff _ _)) by lia.
Qed.

Lemma compare_order x y :
  0 <= x < 2 ^ 32 -> 0 <= y < 2 ^ 32 -> compare x y = order_code x y.
Proof. intros Hx Hy. unfold compare. rewrite check_bits_spec. by rewrite !Z.mod_small. Qed.

Lemma random_drop_iff r p :
  0 <= r < 2 ^ 32 -> 0 <= p < 2 ^ 32 -> random_drop r p = 1 <-> r < p.
Proof.
  intros Hr Hp. unfold random_drop. rewrite compare_order by done. unfold order_code.
  destruct (Z.compare_spec r p); cbn; split; intros; done || lia.
Qed.

(** The values below [p], however the test is written. *)
Lemma filter_below (P : Z -> Prop) `{!forall r, Decision (P r)} a p n :
  a <= p <= a + n -> (forall r, a <= r < a + n -> P r <-> r < p) ->
  filter P (seqZ a n) = seqZ a (p - a).
Proof.
  intros Hp HP. replace n with ((p - a) + (n - (p - a))) by lia.
  rewrite seqZ_app, filter_app by lia.
  assert (forall l : list Z, (forall r, r ∈ l -> P r) -> filter P l = l) as Hall.
  { induction l as [|r l IH]; intros Hl; [done|]. rewrite filter_cons_True by (by apply Hl; left).
    f_equal. apply IH. intros x Hx. apply Hl. by right. }
  assert (forall l : list Z, (forall r, r ∈ l -> ~ P r) -> filter P l = []) as Hnone.
  { induction l as [|r l IH]; intros Hl; [done|]. rewrite filter_cons_False by (by apply Hl; left).
    apply IH. intros x Hx. apply Hl. by right. }
  rewrite Hall, Hnone, app_nil_r; [done|..]; intros r Hr%elem_of_seqZ; rewrite HP; lia.
Qed.

(** * Properties *)

(** [compare] is the order of 32-bit numbers: 0 when they are equal, 1 when the
    first is greater and 3 when it is less. *)
Theorem compare_spec x y :
  0 <= x < 2 ^ 32 -> 0 <= y < 2 ^ 32 ->
  compare x y = match x ?= y with Eq => 0 | Gt => 1 | Lt => 3 end.
Proof. apply compare_order. Qed.

(** C36: of the [2^32] random values exactly [drop_value] drop a packet, so it
    is dropped with the probability [drop_value / 2^32] the source names; a
    packet that is not dropped leaves as [egress] makes it, and with the
    default value 0 none is dropped. *)
Theorem random_drop_probability t rid marked p h :
  0 <= p < 2 ^ 32 ->
  filter (fun r => egress_random t rid marked r p h = None) (seqZ 0 (2 ^ 32)) = seqZ 0 p
  /\ forall r, 0 <= r < 2 ^ 32 -> egress_random t rid marked r p h
       = if bool_decide (r < p) then None else egress t rid marked false h.
Proof.
  intros Hp. assert (forall r, 0 <= r < 2 ^ 32 -> egress_random t rid marked r p h
       = if bool_decide (r < p) then None else egress t rid marked false h) as He.
  { intros r Hr. unfold egress_random. pose proof (random_drop_iff r p Hr Hp) as Hd.
    unfold random_drop in *. destruct (compare r p =? 3).
    - rewrite bool_decide_true by by apply Hd. unfold egress. by case_match.
    - rewrite bool_decide_false; [done|]. by intros ?%Hd. }
  split; [|done]. transitivity (seqZ 0 (p - 0)); [|by rewrite Z.sub_0_r].
  apply filter_below; [lia|].
  intros r Hr. rewrite He by lia. case_bool_decide; [done|]. by split.
Qed.
