(* ===== verification/Aggregation.v ===== *)
(** Sums in the switch: what one packet of a host does to the aggregators of a
    group, and what the second pass reads.

    [Stream] fixes what a group of hosts and the switch agree on: one worker of each host
    streams packets, numbered in sequence, through the aggregators of one
    range. *)

From S2P Require Import Prelude.
From S2P Require Import Types.
From S2P Require Import Switch.

Class Stream := {
  tbl : tables;              (** the tables when the group has been created *)
  grp : Z;                   (** the number of the group *)
  n_hosts : Z;
  base_addr : Z;             (** the range of the aggregators *)
  range_len : Z;
  max_win : Z;               (** the largest window *)
  host_packet : Z -> Z -> headers;  (** host, number: as the switch parses it *)
}.

(** The 32 pairs of lanes of a payload. *)
Definition lane_ids : list nat := seq 0 32.

(** A pass touches the registers at the address of the packet only. *)
Lemma ingress_other t h r v h' rs a :
  ingress t h r = (v, h', rs) -> a <> n_agg_addr h ->
  bitmap_at rs a = bitmap_at r a /\ cells_at rs a = cells_at r a.
Proof.
  intros Hin Hne. unfold ingress in Hin. cbv zeta in Hin.
  destruct (netccl_valid h) eqn:Ev;
    cbn [pass_cnt netccl_valid n_group_id rank n_agg_addr lanes] in Hin; rewrite ?Ev in Hin;
    destruct (pass_cnt h =? 1);
    repeat match goal with
    | Heq : context [let '(_, _) := ?x in _] |- _ => destruct x eqn:?; simplify_eq
    end; unfold bitmap_at, cells_at; cbn [reg_bitmap aggregators];
    by rewrite ?lookup_insert_ne by done.
Qed.

Section aggregation.
Context {str : Stream}.

Definition is_host (r : Z) : Prop := 0 <= r < n_hosts.

(** * The sums *)

Definition lane (r p : Z) (k : nat) : agg_pair := lanes (host_packet r p) !!! k.

(** The sum over the hosts of a bitmap. *)
Definition psum (f : Z -> Z) (b : Z) : Z :=
  sumZ ((fun r => if Z.testbit b r then f r else 0) <$> seqZ 0 n_hosts).

Definition cell (b p : Z) (k : nat) : agg_pair :=
  (psum (fun r => (lane r p k).1) b, psum (fun r => (lane r p k).2) b).

(** The sum of the packets [p] of the hosts in [b], lane by lane. *)
Definition total (b p : Z) : list agg_pair := cell b p <$> lane_ids.

(** All hosts. *)
Definition everyone : Z := Z.ones n_hosts.

Definition fits (x : Z) : Prop := int32_min <= x <= int32_max.

(** Tables with the entries of the group; those of other groups come and go. *)
Definition group_tables (t : tables) : Prop :=
  metadata_table t !! grp = Some everyone /\ is_Some (recirculate_table t !! grp).

(** The registers of the group's range are as before. *)
Definition range_kept (r rs : registers) : Prop := forall a, base_addr <= a < base_addr + range_len ->
  bitmap_at rs a = bitmap_at r a /\ cells_at rs a = cells_at r a.

(** What the control plane and the hosts guarantee. *)
Record group_ok : Prop := {
  ok_n : 1 <= n_hosts <= 32;
  ok_group : 0 < grp < 256;
  ok_win : 0 < max_win /\ 2 * max_win <= range_len < 2 ^ 24;
  ok_addr : 0 <= base_addr;
  ok_tables : group_tables tbl;
  ok_packet : forall r p, is_host r -> 0 <= p < 2 ^ 32 ->
    let h := host_packet r p in
    pass_cnt h = 1 /\ netccl_valid h = true /\ n_group_id h = grp /\ rank h = r /\ psn h = p
    /\ n_agg_addr h = base_addr + p mod range_len /\ length (lanes h) = 32%nat;
  (** no sum of packets overflows an aggregator *)
  ok_fits : forall b p k, 0 <= p < 2 ^ 32 -> fits (cell b p k).1 /\ fits (cell b p k).2;
}.

(** * Sums over bitmaps *)

Lemma sumZ_upd (f g : Z -> Z) (l : list Z) r :
  NoDup l -> r ∈ l -> (forall r', r' ∈ l -> r' <> r -> f r' = g r') ->
  sumZ (f <$> l) = sumZ (g <$> l) + f r - g r.
Proof.
  induction l as [|x l IH]; intros Hnd Hin He; [by apply elem_of_nil in Hin|].
  apply NoDup_cons in Hnd as [Hx Hnd]. rewrite !fmap_cons. simpl.
  apply elem_of_cons in Hin as [->|Hin].
  - assert (f <$> l = g <$> l) as ->; [|lia].
    apply list_fmap_ext. intros i y Hy%list_elem_of_lookup_2. apply He; [by right|]. by intros ->.
  - rewrite IH; [|done..|].
    + rewrite (He x); [lia|by left|]. by intros ->.
    + intros r' Hr'. apply He. by right.
Qed.

Lemma testbit_add b r r' :
  0 <= r -> Z.testbit (Z.lor b (Z.shiftl 1 r)) r' = Z.testbit b r' || (r' =? r).
Proof.
  intros Hr. rewrite Z.lor_spec, Z.shiftl_1_l. f_equal.
  rewrite Z.pow2_bits_eqb by done. apply Z.eqb_sym.
Qed.

Lemma psum_add f b r :
  is_host r -> Z.testbit b r = false -> psum f (Z.lor b (Z.shiftl 1 r)) = psum f b + f r.
Proof.
  intros Hr Hb. unfold psum. rewrite (sumZ_upd _ (fun r => if Z.testbit b r then f r else 0) _ r).
  - rewrite testbit_add, Hb, Z.eqb_refl by apply Hr. simpl. lia.
  - apply NoDup_seqZ.
  - apply elem_of_seqZ. unfold is_host in Hr. lia.
  - intros r' _ Hne. rewrite testbit_add by apply Hr. destruct (Z.eqb_spec r' r); [done|].
    by rewrite orb_false_r.
Qed.

Lemma lor_present b r : 0 <= r -> Z.testbit b r = true -> Z.lor b (Z.shiftl 1 r) = b.
Proof.
  intros Hr Hb. apply Z.bits_inj. intros r'. rewrite testbit_add by done.
  destruct (Z.eqb_spec r' r) as [->|]; [by rewrite Hb|by rewrite orb_false_r].
Qed.

Lemma psum_0 f : psum f 0 = 0.
Proof.
  unfold psum. assert (forall l : list Z, sumZ ((fun r => if Z.testbit 0 r then f r else 0) <$> l) = 0)
    as H; [|apply H].
  induction l as [|x l IH]; [done|]. rewrite fmap_cons. simpl. rewrite Z.testbit_0_l. lia.
Qed.

Lemma cell_add b r p k :
  is_host r -> Z.testbit b r = false ->
  cell (Z.lor b (Z.shiftl 1 r)) p k
  = ((cell b p k).1 + (lane r p k).1, (cell b p k).2 + (lane r p k).2).
Proof. intros Hr Hb. unfold cell. by rewrite !psum_add. Qed.

Lemma cell_single r p k : is_host r -> cell (Z.shiftl 1 r) p k = lane r p k.
Proof.
  intros Hr. rewrite <- (Z.lor_0_l (Z.shiftl 1 r)), cell_add by (done || apply Z.testbit_0_l).
  unfold cell. simpl. rewrite !psum_0, !Z.add_0_l. by destruct (lane r p k).
Qed.

(** ** Bitmaps of hosts *)

Definition sub_bitmap (b : Z) : Prop := 0 <= b /\ Z.land b everyone = b.

Lemma testbit_everyone r : 0 <= n_hosts -> Z.testbit everyone r = bool_decide (is_host r).
Proof.
  intros Hn. unfold everyone, is_host. destruct (decide (0 <= r)).
  - rewrite Z.testbit_ones_nonneg by done. case_bool_decide; [apply Z.ltb_lt|apply Z.ltb_ge]; lia.
  - rewrite Z.testbit_neg_r by lia. rewrite bool_decide_false; [done|lia].
Qed.

Lemma sub_bitmap_host b r : 0 <= n_hosts -> sub_bitmap b -> Z.testbit b r = true -> is_host r.
Proof.
  intros Hn [_ Hb] Hr. apply (f_equal (fun x => Z.testbit x r)) in Hb.
  rewrite Z.land_spec, Hr, testbit_everyone in Hb by done. by case_bool_decide.
Qed.

Lemma sub_bitmap_add b r : sub_bitmap b -> is_host r -> sub_bitmap (Z.lor b (Z.shiftl 1 r)).
Proof.
  intros [H0 Hb] Hr. split.
  - apply Z.lor_nonneg. split; [done|]. apply Z.shiftl_nonneg. lia.
  - apply Z.bits_inj. intros r'. rewrite Z.land_spec, testbit_add by apply Hr.
    rewrite testbit_everyone by (unfold is_host in Hr; lia).
    destruct (Z.eqb_spec r' r) as [->|].
    + rewrite orb_true_r. by rewrite bool_decide_true.
    + rewrite orb_false_r. rewrite <- Hb at 2. rewrite Z.land_spec, testbit_everyone; [done|].
      unfold is_host in Hr; lia.
Qed.

Lemma sub_bitmap_0 : sub_bitmap 0.
Proof. split; [done|apply Z.land_0_l]. Qed.

Lemma sub_bitmap_single r : is_host r -> sub_bitmap (Z.shiftl 1 r).
Proof.
  intros Hr. rewrite <- (Z.lor_0_l (Z.shiftl 1 r)). apply sub_bitmap_add; [apply sub_bitmap_0|done].
Qed.

(** The test of [Forward] finds out whether this packet or an earlier one
    completes the bitmap. *)
Lemma is_full_spec b r md :
  sub_bitmap b -> is_host r -> bitmap_old md = b -> bitmap md = Z.shiftl 1 r ->
  bitmap_mask md = everyone ->
  is_full md = bool_decide (Z.lor b (Z.shiftl 1 r) = everyone).
Proof.
  intros Hb Hr Eo Eb Em. unfold is_full. rewrite Eo, Eb, Em.
  assert (0 <= n_hosts) as Hn by (unfold is_host in Hr; lia).
  assert (Z.testbit everyone r = true) as Her by (rewrite testbit_everyone by done; by apply bool_decide_true).
  destruct (Z.testbit b r) eqn:Hbr.
  - rewrite lor_present by (done || apply Hr).
    destruct (Z.eqb_spec b (Z.lxor (Z.shiftl 1 r) everyone)) as [E|].
    + exfalso. apply (f_equal (fun x => Z.testbit x r)) in E.
      rewrite Hbr, Z.lxor_spec, Her, Z.shiftl_1_l, Z.pow2_bits_true in E; [done|apply Hr].
    + simpl. case_bool_decide; [by apply Z.eqb_eq|by apply Z.eqb_neq].
  - rewrite orb_comm. destruct (Z.eqb_spec b everyone) as [->|_]; [congruence|]. simpl.
    assert (Z.lxor (Z.shiftl 1 r) (Z.lor b (Z.shiftl 1 r)) = b) as E1.
    { apply Z.bits_inj. intros r'. rewrite Z.lxor_spec, testbit_add by apply Hr.
      rewrite Z.shiftl_1_l, Z.pow2_bits_eqb by apply Hr. rewrite (Z.eqb_sym r r').
      destruct (Z.eqb_spec r' r) as [->|]; [by rewrite Hbr|].
      by rewrite orb_false_r, xorb_false_l. }
    case_bool_decide as E.
    + rewrite <- E, E1. apply Z.eqb_refl.
    + apply Z.eqb_neq. intros E2. apply E. rewrite E2 at 1.
      apply Z.bits_inj. intros r'. rewrite testbit_add, Z.lxor_spec by apply Hr.
      rewrite Z.shiftl_1_l, Z.pow2_bits_eqb, (Z.eqb_sym r r') by apply Hr.
      destruct (Z.eqb_spec r' r) as [->|]; [by rewrite Her|].
      by rewrite xorb_false_l, orb_false_r.
Qed.

(** * One packet in the switch *)

Definition slot (p : Z) : Z := base_addr + p mod range_len.
Definition ver (p : Z) : Z := grp * 2 ^ 24 + p mod 2 ^ 24.

Lemma zip_with_map {A B C D} (h : A -> B -> C) (f : D -> A) (g : D -> B) l :
  zip_with h (f <$> l) (g <$> l) = (fun k => h (f k) (g k)) <$> l.
Proof. induction l as [|x l IH]; [done|]. rewrite !fmap_cons. simpl. by rewrite IH. Qed.

Lemma all_access_map pass first new (c d : nat -> agg_pair) l :
  all_aggregator_access pass first new (c <$> l) (d <$> l) =
    ((fun k => (aggregator_access pass first new (c k) (d k)).1) <$> l,
     (fun k => (aggregator_access pass first new (c k) (d k)).2) <$> l).
Proof. unfold all_aggregator_access. rewrite zip_with_map, <- !list_fmap_compose. done. Qed.

Lemma list_as_map {A} `{Inhabited A} (l : list A) m :
  length l = m -> l = (fun k => l !!! k) <$> seq 0 m.
Proof.
  intros Hl. apply list_eq. intros i. rewrite list_lookup_fmap.
  destruct (decide (i < m)%nat).
  - rewrite lookup_seq_lt by done. simpl. apply list_lookup_lookup_total_lt. lia.
  - rewrite lookup_seq_ge by lia. simpl. apply lookup_ge_None_2. lia.
Qed.

Lemma sat_add_fits x y : fits (x + y) -> sat_add x y = x + y.
Proof. unfold fits, sat_add. lia. Qed.

Lemma list_as_lanes {A} `{Inhabited A} (l : list A) :
  length l = 32%nat -> l = (fun k => l !!! k) <$> lane_ids.
Proof. apply list_as_map. Qed.

Lemma length_lane_ids : length lane_ids = 32%nat.
Proof. apply length_seq. Qed.

#[local] Opaque lane_ids.

Section group.
Context (Hok : group_ok).

Lemma lanes_packet r p :
  is_host r -> 0 <= p < 2 ^ 32 -> lanes (host_packet r p) = lane r p <$> lane_ids.
Proof. intros Hr Hp. apply list_as_lanes. by apply ok_packet. Qed.

(** Adding the packet of a host to the aggregators: what is left in the
    cells and in the packet. *)
Lemma first_pass_cells b r p cells :
  is_host r -> 0 <= p < 2 ^ 32 -> length cells = 32%nat -> (b <> 0 -> cells = total b p) ->
  exists ls, all_aggregator_access 1 (if b =? 0 then 1 else 0) (check_new_packet b r)
               cells (lanes (host_packet r p)) = (total (Z.lor b (Z.shiftl 1 r)) p, ls)
    /\ ls.*1 = (total (Z.lor b (Z.shiftl 1 r)) p).*1 /\ length ls = 32%nat.
Proof.
  intros Hr Hp Hlen Hb. rewrite lanes_packet by done.
  assert (0 <= r < 32) as Hr32 by (pose proof (ok_n Hok); unfold is_host in Hr; lia).
  destruct (Z.eqb_spec b 0) as [->|Hb0].
  - rewrite (list_as_lanes cells Hlen), all_access_map. unfold aggregator_access. simpl.
    rewrite Z.lor_0_l. eexists. split; [apply pair_eq; split; [|reflexivity]|split; [|by rewrite length_fmap, length_lane_ids]].
    + unfold total. apply list_fmap_ext. intros i k _. by rewrite cell_single.
    + unfold total. rewrite <- !list_fmap_compose. apply list_fmap_ext. intros i k _. cbn [compose fst snd].
      by rewrite cell_single.
  - rewrite (Hb Hb0). unfold total at 1. rewrite all_access_map.
    unfold check_new_packet, aggregator_access. simpl.
    rewrite (proj2 (Z.leb_le 0 r)), (proj2 (Z.ltb_lt r 32)) by lia. simpl.
    assert ((Z.land b (Z.shiftl 1 r) =? 0) = negb (Z.testbit b r)) as ->.
    { destruct (Z.testbit b r) eqn:Hbr; simpl.
      - apply Z.eqb_neq. intros E. apply (f_equal (fun x => Z.testbit x r)) in E.
        rewrite Z.land_spec, Hbr, Z.shiftl_1_l, Z.pow2_bits_true, Z.testbit_0_l in E; [done|lia].
      - apply Z.eqb_eq, Z.bits_inj. intros r'. rewrite Z.land_spec, Z.shiftl_1_l, Z.testbit_0_l.
        rewrite Z.pow2_bits_eqb by lia. destruct (Z.eqb_spec r r') as [<-|]; [by rewrite Hbr|].
        apply andb_false_r. }
    destruct (Z.testbit b r) eqn:Hbr; simpl.
    + rewrite lor_present by (done || lia). eexists.
      split; [apply pair_eq; split; [done|reflexivity]|]. split; [|by rewrite length_fmap, length_lane_ids].
      unfold total. by rewrite <- !list_fmap_compose.
    + assert (forall k, cell (Z.lor b (Z.shiftl 1 r)) p k =
        (sat_add (cell b p k).1 (lane r p k).1, sat_add (cell b p k).2 (lane r p k).2)) as Hc.
      { intros k. rewrite !sat_add_fits; [by apply cell_add|..].
        - replace (_ + _) with (cell (Z.lor b (Z.shiftl 1 r)) p k).2
            by (by rewrite cell_add). by apply ok_fits.
        - replace (_ + _) with (cell (Z.lor b (Z.shiftl 1 r)) p k).1
            by (by rewrite cell_add). by apply ok_fits. }
      eexists. split; [apply pair_eq; split; [|reflexivity]|split; [|by rewrite length_fmap, length_lane_ids]].
      * unfold total. apply list_fmap_ext. intros i k _. by rewrite Hc.
      * unfold total. rewrite <- !list_fmap_compose. apply list_fmap_ext. intros i k _. cbn [compose fst snd].
        by rewrite Hc.
Qed.

(** What the bitmap register tells about the packets of version [p]. *)
Definition old_bitmap (rs : registers) (p : Z) : Z :=
  if (bitmap_at rs (slot p)).1 =? ver p then (bitmap_at rs (slot p)).2 else 0.

(** A packet of this group in the second pass (or just before). *)
Record in_group (h : headers) : Prop := {
  ig_valid : netccl_valid h = true;
  ig_group : n_group_id h = grp;
  ig_psn : 0 <= psn h < 2 ^ 32;
  ig_addr : n_agg_addr h = slot (psn h);
  ig_lanes : length (lanes h) = 32%nat;
}.

(** The registers of a slot get the bitmap [b] and the sum of [b] for [p];
    the others are unchanged. *)
Record stored_at (p b : Z) (rs rs' : registers) : Prop := {
  sa_bitmap : bitmap_at rs' (slot p) = (ver p, b);
  sa_cells : cells_at rs' (slot p) = total b p;
  sa_other : forall a, a <> slot p ->
    bitmap_at rs' a = bitmap_at rs a /\ cells_at rs' a = cells_at rs a;
}.

Lemma bitmap_at_insert rs a x a' m :
  bitmap_at {| reg_bitmap := <[a := x]> (reg_bitmap rs); aggregators := m |} a' =
    if decide (a' = a) then x else bitmap_at rs a'.
Proof.
  unfold bitmap_at. simpl. destruct (decide (a' = a)) as [->|].
  - by rewrite lookup_insert_eq.
  - by rewrite lookup_insert_ne.
Qed.

Lemma cells_at_insert rs a x a' m :
  cells_at {| reg_bitmap := m; aggregators := <[a := x]> (aggregators rs) |} a' =
    if decide (a' = a) then x else cells_at rs a'.
Proof.
  unfold cells_at. simpl. destruct (decide (a' = a)) as [->|].
  - by rewrite lookup_insert_eq.
  - by rewrite lookup_insert_ne.
Qed.

(** The first pass of the packet of a host. *)
Lemma first_pass t r p rs :
  group_tables t -> is_host r -> 0 <= p < 2 ^ 32 ->
  let b := old_bitmap rs p in
  let b' := Z.lor b (Z.shiftl 1 r) in
  sub_bitmap b -> length (cells_at rs (slot p)) = 32%nat ->
  (b <> 0 -> cells_at rs (slot p) = total b p) ->
  exists h rs' port, ingress t (host_packet r p) rs =
    (if decide (b' = everyone) then Unicast port else Drop, h, rs')
    /\ stored_at p b' rs rs'
    /\ in_group h /\ psn h = p /\ pass_cnt h = 1 /\ (lanes h).*1 = (total b' p).*1.
Proof.
  intros [Hmask [port Eport]] Hr Hp b b' Hsub Hlen Hcells.
  destruct (ok_packet Hok r p Hr Hp) as (Epass & Evalid & Egroup & Erank & Epsn & Eaddr & Elen).
  destruct (first_pass_cells b r p (cells_at rs (slot p)) Hr Hp Hlen Hcells) as (ls & Els & Heven & Hll).
  assert (0 <= r < 32) as Hr32 by (pose proof (ok_n Hok); unfold is_host in Hr; lia).
  unfold ingress. rewrite Evalid. cbn [netccl_valid n_group_id rank pass_cnt n_agg_addr psn lanes].
  rewrite Epass, Egroup, Erank. rewrite Hmask. cbn [default from_option id].
  unfold set_version. cbn [n_group_id psn]. rewrite Epsn, Eaddr.
  fold (ver p) (slot p). cbv zeta.
  assert (bitmap_of r = Z.shiftl 1 r) as ->.
  { unfold bitmap_of. by rewrite (proj2 (Z.leb_le 0 r)), (proj2 (Z.ltb_lt r 32)) by lia. }
  assert (reg_bitmap_update (ver p) (Z.shiftl 1 r) (bitmap_at rs (slot p)) = (b, (ver p, b'))) as ->.
  { unfold reg_bitmap_update, b', b, old_bitmap. destruct (Z.eqb_spec (bitmap_at rs (slot p)).1 (ver p)) as [<-|].
    - done.
    - by rewrite Z.lor_0_l. }
  cbn [Z.eqb Pos.eqb]. cbn [first_packet new_packet]. 
  change (cells_at _ (slot p)) with (cells_at rs (slot p)).
  rewrite Els. unfold forward. cbn [pass_cnt n_group_id enable_multicast]. rewrite Eport.
  rewrite (is_full_spec b r) by done. cbn [Z.eqb Pos.eqb andb].
  fold b'. destruct (decide (b' = everyone)) as [E|E];
    [rewrite (bool_decide_true _ E)|rewrite (bool_decide_false _ E)];
    (eexists _, _, port; split; [reflexivity|]; split; [|by split_and!; [constructor|..]]).
  all: constructor; cbn [reg_bitmap aggregators];
    [by rewrite bitmap_at_insert, decide_True|by rewrite cells_at_insert, decide_True|].
  all: intros a Ha; rewrite bitmap_at_insert, cells_at_insert; by rewrite !decide_False.
Qed.

(** The second pass reads the odd lanes and changes no register. *)
Lemma second_pass {t} h rs v h' rs' :
  in_group h -> pass_cnt h = 2 -> length (cells_at rs (slot (psn h))) = 32%nat ->
  ingress t h rs = (v, h', rs') ->
  (forall a, bitmap_at rs' a = bitmap_at rs a /\ cells_at rs' a = cells_at rs a)
  /\ in_group h' /\ psn h' = psn h
  /\ lanes h' = zip_with (fun l c => (l.1, c.2)) (lanes h) (cells_at rs (slot (psn h))).
Proof.
  intros [Ev Eg Ep Ea El] E2 Hc. unfold ingress. rewrite Ev.
  cbn [netccl_valid n_group_id rank pass_cnt n_agg_addr psn lanes]. rewrite E2, Ea.
  cbn [Z.eqb Pos.eqb]. unfold all_aggregator_access. 
  rewrite (list_as_lanes (cells_at rs (slot (psn h))) Hc), (list_as_lanes (lanes h) El).
  rewrite !zip_with_map. unfold aggregator_access. cbn [Z.eqb Pos.eqb].
  rewrite <- !list_fmap_compose. unfold compose. cbn [fst snd].
  intros [= <- <- <-]. split; [|split; [|by split]].
  - intros a. split; [done|]. rewrite (cells_at_insert rs). destruct (decide (a = _)) as [->|]; [|done].
    symmetry. by apply list_as_lanes.
  - constructor; cbn; [done..|]. by rewrite length_fmap, length_lane_ids.
Qed.

Lemma restore_fields_keeps t h :
  let h' := restore_fields t h in
  psn h' = psn h /\ lanes h' = lanes h /\ netccl_valid h' = netccl_valid h
  /\ n_group_id h' = n_group_id h /\ n_agg_addr h' = n_agg_addr h
  /\ payload_valid h' = payload_valid h /\ rank h' = rank h /\ pass_cnt h' = pass_cnt h.
Proof.
  unfold restore_fields.
  destruct (restore_table t !! _) as [[? ?]|]; cbn [sip dip];
    destruct (restore_smac_table t !! _); cbn [sip dip];
    destruct (restore_dmac_table t !! _); by split_and!.
Qed.

Lemma egress_keeps {t} rid marked dropped h h' :
  netccl_valid h = true -> egress t rid marked dropped h = Some h' ->
  psn h' = psn h /\ lanes h' = lanes h /\ n_group_id h' = n_group_id h
  /\ n_agg_addr h' = n_agg_addr h /\ netccl_valid h' = true
  /\ (pass_cnt h = 1 -> pass_cnt h' = 2).
Proof.
  intros Hv. unfold egress.
  set (h1 := if pass_cnt h =? 2 then _ else h).
  assert (psn h1 = psn h /\ lanes h1 = lanes h /\ n_group_id h1 = n_group_id h
    /\ n_agg_addr h1 = n_agg_addr h /\ netccl_valid h1 = true /\ pass_cnt h1 = pass_cnt h) as H1.
  { subst h1. destruct (pass_cnt h =? 2); [|done].
    set (h0 := if enable_multicast h =? 0 then h else _).
    destruct (restore_fields_keeps t h0) as (K1 & K2 & K3 & K4 & K5 & _ & _ & K6).
    assert (forall x, psn (remove_payload x) = psn x /\ lanes (remove_payload x) = lanes x
      /\ n_group_id (remove_payload x) = n_group_id x /\ n_agg_addr (remove_payload x) = n_agg_addr x
      /\ netccl_valid (remove_payload x) = netccl_valid x
      /\ pass_cnt (remove_payload x) = pass_cnt x) as Hrm.
    { intros x. unfold remove_payload, invalidate_payload. by repeat case_match. }
    destruct (Hrm (restore_fields t h0)) as (-> & -> & -> & -> & -> & ->).
    rewrite K1, K2, K3, K4, K5, K6. subst h0. by destruct (enable_multicast h =? 0). }
  destruct H1 as (P1 & P2 & P3 & P4 & P5 & P6). rewrite P5. cbn [negb]. rewrite P6.
  destruct dropped; [done|]. intros [= <-]. unfold dcqcn.
  destruct (Z.eqb_spec (pass_cnt h) 2); case_match; cbn; split_and!; try done; lia.
Qed.

Lemma egress_in_group {t} rid marked dropped h h' :
  in_group h -> egress t rid marked dropped h = Some h' -> in_group h'.
Proof.
  intros [] He. destruct (egress_keeps _ _ _ _ _ ig_valid0 He) as (? & ? & ? & ? & ? & _).
  constructor; congruence.
Qed.
End group.
End aggregation.
