(* ===== verification/Protocol.v ===== *)
(** The hosts of a group and the switch together, over a network that loses,
    duplicates and reorders packets in both directions.

    One thing is required of the network ([fresh]): a packet does not reach the
    switch after one its host has numbered a whole window higher.  The switch
    tells the packets of an aggregator apart by their version only, so that a packet
    held back for longer would start an old sum anew
    ([StreamDemo.stale_packet_corrupts]); any path that keeps the order of
    packets meets it ([ordered_path_fresh]).  The tables of the switch may
    change at any time as long as those of the group stay ([group_tables]).

    The switch is [Switch.ingress] and [Switch.egress].  A host is what the theorems
    about the worker promise of it: it transmits packets of its window only,
    each number always with the same contents, its window is at most half of its
    aggregators ([expect_win_len]), and it takes the first answer to a packet
    of its window ([get_position], [mark_acked]).  Packets of other ranges, of
    other workers and other groups, pass through the switch in between. *)

From stdpp Require Import sorting.
From S2P Require Import Prelude.
From S2P Require Import Types.
From S2P Require Import Switch.
From S2P Require Import Aggregation.

#[local] Opaque lane_ids.

(** * The system *)

(** A worker on one host: the window is [h_base, h_next); the answers it has
    taken, [None] for one without a payload. *)
Record host := {
  h_base : Z;
  h_next : Z;
  h_results : gmap Z (option (list agg_pair));
}.

Record system := {
  regs : registers;
  hosts : Z -> host;
  up : Z -> list Z;             (** on the way from a host *)
  recirculating : list headers; (** between the two passes *)
  answers : list headers;       (** everything the second pass has sent *)
  seen : Z -> Z;                (** the largest number got from a host *)
  completed : list Z;           (** (never read) the numbers that got complete *)
}.

Definition upd {A} (f : Z -> A) (r : Z) (x : A) : Z -> A := fun r' =>
  if decide (r' = r) then x else f r'.

Lemma upd_eq {A} (f : Z -> A) r x : upd f r x r = x.
Proof. unfold upd. by rewrite decide_True. Qed.
Lemma upd_ne {A} (f : Z -> A) r r' x : r' <> r -> upd f r x r' = f r'.
Proof. intros. unfold upd. by rewrite decide_False. Qed.

Section protocol.
Context {str : Stream}.

(** The packet [p] of host [r] is less than a window older than the newest one
    the switch has got from the host. *)
Definition fresh (s : system) (r p : Z) : Prop := seen s r - max_win < p.

Inductive step : system -> system -> Prop :=
  | step_send s r h :
    is_host r -> h = hosts s r -> h_next h < h_base h + max_win -> h_next h < 2 ^ 32 ->
    step s {| s with hosts := upd (hosts s) r {| h with h_next := h_next h + 1 |};
                     up := upd (up s) r (up s r ++ [h_next h]) |}
  | step_resend s r p :
    is_host r -> h_base (hosts s r) <= p < h_next (hosts s r) ->
    step s {| s with up := upd (up s) r (up s r ++ [p]) |}
  | step_lose s r l1 p l2 :
    is_host r -> up s r = l1 ++ p :: l2 ->
    step s {| s with up := upd (up s) r (l1 ++ l2) |}
  | step_duplicate s r l1 p l2 :
    is_host r -> up s r = l1 ++ p :: l2 ->
    step s {| s with up := upd (up s) r (l1 ++ p :: p :: l2) |}
  | step_drop s r l1 p l2 t h rs :
    (** first pass of any packet on the way, the packet is dropped *)
    is_host r -> up s r = l1 ++ p :: l2 -> fresh s r p -> group_tables t ->
    ingress t (host_packet r p) (regs s) = (Drop, h, rs) ->
    step s {| s with regs := rs; up := upd (up s) r (l1 ++ l2);
                     seen := upd (seen s) r (Z.max (seen s r) p) |}
  | step_recirculate s r l1 p l2 t port h rs t' rid marked dropped :
    (** first pass, all have contributed *)
    is_host r -> up s r = l1 ++ p :: l2 -> fresh s r p -> group_tables t ->
    ingress t (host_packet r p) (regs s) = (Unicast port, h, rs) ->
    step s {| s with regs := rs; up := upd (up s) r (l1 ++ l2);
                     recirculating := recirculating s ++
                       option_list (egress t' rid marked dropped h);
                     seen := upd (seen s) r (Z.max (seen s r) p);
                     completed := p :: completed s |}
  | step_second s l1 h l2 t v h' rs :
    (** second pass, to one host or to all *)
    recirculating s = l1 ++ h :: l2 -> ingress t h (regs s) = (v, h', rs) ->
    step s {| s with regs := rs; recirculating := l1 ++ l2; answers := answers s ++ [h'] |}
  | step_answer s r h t rid marked h' :
    (** a host takes an answer; none is ever removed *)
    is_host r -> h ∈ answers s -> egress t rid marked false h = Some h' ->
    h_base (hosts s r) <= psn h' < h_next (hosts s r) ->
    h_results (hosts s r) !! psn h' = None ->
    step s {| s with hosts := upd (hosts s) r {| (hosts s r) with h_results :=
      <[psn h' := if payload_valid h' then Some (lanes h') else None]> (h_results (hosts s r)) |} |}
  | step_slide s r :
    is_host r -> is_Some (h_results (hosts s r) !! h_base (hosts s r)) ->
    h_base (hosts s r) < h_next (hosts s r) ->
    step s {| s with hosts := upd (hosts s) r
      {| (hosts s r) with h_base := h_base (hosts s r) + 1 |} |}
  | step_other s h t v h' rs :
    (** a packet of another range: of another worker, another group or none *)
    ~ base_addr <= n_agg_addr h < base_addr + range_len ->
    ingress t h (regs s) = (v, h', rs) ->
    step s {| s with regs := rs |}
  | step_reset s rs :
    (** the control plane resets the registers of another group *)
    range_kept (regs s) rs -> step s {| s with regs := rs |}.

(** Nothing has been sent, the registers are reset ([CreateGroup]). *)
Definition initial (s : system) : Prop :=
  (forall a, base_addr <= a < base_addr + range_len -> bitmap_at (regs s) a = (0, 0))
  /\ (forall a, base_addr <= a < base_addr + range_len -> length (cells_at (regs s) a) = 32%nat)
  /\ (forall r, hosts s r = {| h_base := 0; h_next := 0; h_results := ∅ |})
  /\ (forall r, up s r = [])
  /\ recirculating s = [] /\ answers s = []
  /\ (forall r, seen s r = -1) /\ completed s = [].

Definition reachable (s : system) : Prop := exists s0, initial s0 /\ rtc step s0 s.

Section group.
Context (Hok : group_ok).
(** * The invariant *)

Record host_inv (s : system) (r : Z) : Prop := {
  hi_base : 0 <= h_base (hosts s r) <= h_next (hosts s r);
  hi_next : h_next (hosts s r) <= h_base (hosts s r) + max_win;
  hi_psn : h_next (hosts s r) <= 2 ^ 32;
  hi_seen : -1 <= seen s r < h_next (hosts s r);
  hi_acked : forall p, 0 <= p < h_base (hosts s r) -> p ∈ completed s;
  hi_results : forall p d, h_results (hosts s r) !! p = Some d ->
    p ∈ completed s /\ forall l, d = Some l -> l = total everyone p;
}.

(** A packet on the way has been sent. *)
Definition up_inv (s : system) (r : Z) : Prop := forall p, p ∈ up s r -> 0 <= p < h_next (hosts s r).

Definition completed_ok (s : system) : Prop := forall p, p ∈ completed s ->
  0 <= p < 2 ^ 32 /\ forall r, is_host r -> p <= seen s r.

(** Slot [i] holds the sum of the hosts [b] for the number [v], the latest one
    of its numbers that got complete or a later one. *)
Record slot_used (s : system) (i v b : Z) : Prop := {
  us_mod : v mod range_len = i;
  us_range : 0 <= v < 2 ^ 32;
  us_bitmap : bitmap_at (regs s) (base_addr + i) = (ver v, b);
  us_sub : sub_bitmap b;
  us_nonempty : b <> 0;
  us_cells : cells_at (regs s) (base_addr + i) = total b v;
  us_seen : forall r, Z.testbit b r = true -> v <= seen s r;
  us_last : forall p, p ∈ completed s -> p mod range_len = i -> p <= v;
}.

Record slot_fresh (s : system) (i : Z) : Prop := {
  fr_bitmap : bitmap_at (regs s) (base_addr + i) = (0, 0);
  fr_cells : length (cells_at (regs s) (base_addr + i)) = 32%nat;
  fr_none : forall p, p ∈ completed s -> p mod range_len <> i;
}.

Definition slot_inv (s : system) (i : Z) : Prop :=
  slot_fresh s i \/ exists v b, slot_used s i v b.

Definition all_past (s : system) (p : Z) : Prop :=
  forall r, is_host r -> p < h_base (hosts s r).

(** The slot of [p] holds the sum of all hosts for [p]. *)
Definition full_at (s : system) (p : Z) : Prop :=
  bitmap_at (regs s) (slot p) = (ver p, everyone)
  /\ cells_at (regs s) (slot p) = total everyone p.

Record pending_inv (s : system) (h : headers) : Prop := {
  pe_group : in_group h;
  pe_pass : pass_cnt h = 2;
  pe_even : (lanes h).*1 = (total everyone (psn h)).*1;
  pe_completed : psn h ∈ completed s;
  pe_full : full_at s (psn h) \/ all_past s (psn h);
}.

Record answer_inv (s : system) (h : headers) : Prop := {
  an_group : in_group h;
  an_completed : psn h ∈ completed s;
  an_lanes : lanes h = total everyone (psn h) \/ all_past s (psn h);
}.

Record inv (s : system) : Prop := {
  inv_host : forall r, is_host r -> host_inv s r;
  inv_up : forall r, is_host r -> up_inv s r;
  inv_completed : completed_ok s;
  inv_slot : forall i, 0 <= i < range_len -> slot_inv s i;
  inv_pending : forall h, h ∈ recirculating s -> pending_inv s h;
  inv_answer : forall h, h ∈ answers s -> answer_inv s h;
  inv_full : forall p, p ∈ completed s -> full_at s p \/ all_past s p;
}.

(** ** Arithmetic of the windows *)

Lemma congruent_gap p q :
  p mod range_len = q mod range_len -> p < q -> p + range_len <= q.
Proof.
  intros E Hlt. pose proof (ok_win Hok).
  assert (range_len <> 0) as Hne by lia.
  pose proof (Z.div_mod p range_len Hne). pose proof (Z.div_mod q range_len Hne).
  assert (p / range_len < q / range_len) by nia. nia.
Qed.

Lemma seen_base s r r' : inv s -> is_host r -> is_host r' -> h_base (hosts s r) <= seen s r' + 1.
Proof.
  intros Hi Hr Hr'. pose proof (inv_host _ Hi r Hr) as Hh. pose proof (hi_base _ _ Hh).
  destruct (decide (h_base (hosts s r) = 0)) as [->|].
  - pose proof (hi_seen _ _ (inv_host _ Hi r' Hr')). lia.
  - assert (h_base (hosts s r) - 1 ∈ completed s) as Hc by (apply (hi_acked _ _ Hh); lia).
    pose proof (proj2 (inv_completed _ Hi _ Hc) r' Hr'). lia.
Qed.

Lemma ver_gap p q :
  0 <= p -> p + range_len = q -> ver p <> ver q.
Proof.
  intros Hp <- E. unfold ver in E. pose proof (ok_win Hok).
  assert (p mod 2 ^ 24 = (p + range_len) mod 2 ^ 24) as E' by lia.
  pose proof (Z.div_mod p (2 ^ 24) ltac:(lia)). pose proof (Z.div_mod (p + range_len) (2 ^ 24) ltac:(lia)).
  assert (range_len = 2 ^ 24 * ((p + range_len) / 2 ^ 24 - p / 2 ^ 24)) by lia. nia.
Qed.

Section arrival.
Context (s : system) (Hi : inv s) (r p : Z) (l1 l2 : list Z) (Hr : is_host r)
  (Hup : up s r = l1 ++ p :: l2) (Hfresh : fresh s r p).

Lemma arrival_range : 0 <= p < h_next (hosts s r) /\ 0 <= p < 2 ^ 32 /\ seen s r - max_win < p.
Proof.
  pose proof (inv_up _ Hi r Hr p ltac:(rewrite Hup; apply elem_of_app; right; by left)).
  pose proof (hi_psn _ _ (inv_host _ Hi r Hr)). unfold fresh in Hfresh. lia.
Qed.

(** Nothing later has been completed in the slot of the packet. *)
Lemma arrival_last q : q ∈ completed s -> q mod range_len = p mod range_len -> q <= p.
Proof.
  intros Hq E. pose proof (proj2 (inv_completed _ Hi _ Hq) r Hr). pose proof arrival_range.
  pose proof (ok_win Hok). destruct (decide (q <= p)); [done|].
  pose proof (congruent_gap p q (eq_sym E) ltac:(lia)). lia.
Qed.

(** The number before it in its slot has been completed. *)
Lemma arrival_previous : range_len <= p -> p - range_len ∈ completed s.
Proof.
  intros Hp. pose proof arrival_range. pose proof (ok_win Hok).
  pose proof (hi_next _ _ (inv_host _ Hi r Hr)).
  apply (hi_acked _ _ (inv_host _ Hi r Hr)). lia.
Qed.

Lemma mod_shift q : (q - range_len) mod range_len = q mod range_len.
Proof.
  pose proof (ok_win Hok). replace (q - range_len) with (q + -1 * range_len) by lia.
  apply Z_mod_plus_full.
Qed.

(** The slot holds this number, or one exactly one round away. *)
Lemma arrival_version v b :
  slot_used s (p mod range_len) v b -> v = p \/ ver v <> ver p.
Proof.
  intros U. pose proof arrival_range. pose proof (ok_win Hok). pose proof (us_range _ _ _ _ U).
  pose proof (us_mod _ _ _ _ U) as Em.
  destruct (Z.lt_trichotomy v p) as [Hlt|[->|Hlt]]; [|by left|].
  - right. pose proof (congruent_gap v p Em Hlt). apply ver_gap; [lia|].
    pose proof (us_last _ _ _ _ U (p - range_len) (arrival_previous ltac:(lia)) (mod_shift p)). lia.
  - right. pose proof (congruent_gap p v (eq_sym Em) Hlt) as Hgap.
    assert (exists r0, Z.testbit b r0 = true) as [r0 Hr0].
    { destruct (us_sub _ _ _ _ U) as [Hb0 _]. exists (Z.log2 b). apply Z.bit_log2.
      pose proof (us_nonempty _ _ _ _ U). lia. }
    assert (is_host r0) as Hh0.
    { eapply sub_bitmap_host; [|apply (us_sub _ _ _ _ U)|done]. unfold is_host in Hr. lia. }
    pose proof (us_seen _ _ _ _ U r0 Hr0). pose proof (seen_base s r0 r Hi Hh0 Hr).
    pose proof (inv_host _ Hi r0 Hh0) as Hx. pose proof (hi_next _ _ Hx).
    pose proof (hi_seen _ _ Hx).
    intros E. symmetry in E. revert E. apply ver_gap; lia.
Qed.

(** What the registers of the slot hold of the number [p]. *)
Lemma arrival_old :
  let b := old_bitmap (regs s) p in
  sub_bitmap b /\ length (cells_at (regs s) (slot p)) = 32%nat
  /\ (b <> 0 -> cells_at (regs s) (slot p) = total b p)
  /\ forall r', Z.testbit b r' = true -> p <= seen s r'.
Proof.
  pose proof (ok_win Hok). pose proof (ok_group Hok). pose proof arrival_range as Hp.
  assert (0 <= p mod range_len < range_len) as Hm by (apply Z.mod_pos_bound; lia).
  unfold old_bitmap, slot. destruct (inv_slot _ Hi _ Hm) as [F|(v & b & U)].
  - rewrite (fr_bitmap _ _ F). cbn [fst snd].
    assert (0 < ver p) as Hver.
    { unfold ver. pose proof (Z.mod_pos_bound p (2 ^ 24) ltac:(lia)). lia. }
    destruct (Z.eqb_spec 0 (ver p)); [lia|].
    split_and!; [apply sub_bitmap_0|apply F|done|]. intros r'. by rewrite Z.testbit_0_l.
  - rewrite (us_bitmap _ _ _ _ U), (us_cells _ _ _ _ U). cbn [fst snd].
    assert (length (total b v) = 32%nat) as Hlen by (unfold total; by rewrite length_fmap, length_lane_ids).
    destruct (arrival_version v b U) as [->|Hne].
    + rewrite Z.eqb_refl. split_and!; [apply U|done|done|]. apply U.
    + destruct (Z.eqb_spec (ver v) (ver p)); [done|].
      split_and!; [apply sub_bitmap_0|done|done|]. intros r'. by rewrite Z.testbit_0_l.
Qed.

(** The state after the first pass. *)
Definition arrived (rs : registers) (full : bool) : system := {| s with
  regs := rs; up := upd (up s) r (l1 ++ l2); seen := upd (seen s) r (Z.max (seen s r) p);
  completed := if full then p :: completed s else completed s |}.

Definition new_bitmap : Z := Z.lor (old_bitmap (regs s) p) (Z.shiftl 1 r).

Section stored.
Context (rs : registers) (Hst : stored_at p new_bitmap (regs s) rs) (full : bool)
  (Hfull : full = bool_decide (new_bitmap = everyone)).
Abbreviation s' := (arrived rs full).

Lemma arrived_seen r' : seen s r' <= seen s' r'.
Proof. unfold arrived, upd. simpl. destruct (decide (r' = r)); subst; lia. Qed.

Lemma arrived_p : p <= seen s' r.
Proof. unfold arrived. simpl. rewrite upd_eq. lia. Qed.

Lemma arrived_all : full = true -> forall r', is_host r' -> p <= seen s' r'.
Proof.
  intros Hf r' Hr'. pose proof Hfull as Hb. rewrite Hf in Hb. symmetry in Hb.
  apply bool_decide_eq_true in Hb.
  destruct (decide (r' = r)) as [->|Hne]; [apply arrived_p|].
  etransitivity; [|apply arrived_seen]. apply arrival_old.
  assert (0 <= n_hosts) as Hn by (unfold is_host in Hr; lia).
  assert (Z.testbit new_bitmap r' = true) as Ht
    by (rewrite Hb, testbit_everyone by done; by apply bool_decide_true).
  unfold new_bitmap in Ht. rewrite testbit_add in Ht by apply Hr.
  apply orb_prop in Ht as [|Ht]; [done|]. by apply Z.eqb_eq in Ht.
Qed.

Lemma arrived_completed q : q ∈ completed s -> q ∈ completed s'.
Proof. unfold arrived. simpl. destruct full; [by right|done]. Qed.

Lemma arrived_completed_inv q : q ∈ completed s' -> q = p /\ full = true \/ q ∈ completed s.
Proof. unfold arrived. simpl. destruct full; [|by right]. intros [->|?]%elem_of_cons; [by left|by right]. Qed.

Lemma arrived_host r' : is_host r' -> host_inv s' r'.
Proof.
  intros Hr'. destruct (inv_host _ Hi r' Hr'). pose proof arrival_range. unfold arrived. constructor; simpl; try done.
  - unfold upd. destruct (decide (r' = r)); subst; lia.
  - intros q Hq. by apply (arrived_completed), hi_acked0.
  - intros q d Hd. destruct (hi_results0 q d Hd). split; [by apply arrived_completed|done].
Qed.

Lemma arrived_up r' : is_host r' -> up_inv s' r'.
Proof.
  intros Hr' q. unfold arrived. simpl. destruct (decide (r' = r)) as [->|Hne]; rewrite ?upd_eq, ?upd_ne by done;
    [|by apply inv_up]. intros Hq. apply (inv_up _ Hi r Hr). rewrite Hup.
  apply elem_of_app in Hq as [?|?]; apply elem_of_app; [by left|right; by right].
Qed.

Lemma arrived_completed_ok : completed_ok s'.
Proof.
  intros q Hq. apply arrived_completed_inv in Hq as [[-> Hf]|Hq].
  - split; [apply arrival_range|]. by apply arrived_all.
  - destruct (inv_completed _ Hi q Hq) as [? Hs]. split; [done|]. intros r' Hr'.
    etransitivity; [by apply Hs|apply arrived_seen].
Qed.

Lemma arrived_slot i : 0 <= i < range_len -> slot_inv s' i.
Proof.
  intros Hm. destruct (decide (i = p mod range_len)) as [->|Hne].
  - right. exists p, new_bitmap. destruct arrival_old as (Hsub & _ & _ & Hseen). constructor; simpl.
    + done.
    + apply arrival_range.
    + apply Hst.
    + by apply sub_bitmap_add.
    + intros E. apply (f_equal (fun x => Z.testbit x r)) in E. unfold new_bitmap in E.
      rewrite testbit_add, Z.eqb_refl, orb_true_r, Z.testbit_0_l in E by apply Hr. done.
    + apply Hst.
    + intros r' Ht. unfold new_bitmap in Ht. rewrite testbit_add in Ht by apply Hr.
      apply orb_prop in Ht as [Ht|Ht].
      * etransitivity; [by apply Hseen|]. apply (arrived_seen r').
      * apply Z.eqb_eq in Ht as ->. apply arrived_p.
    + intros q Hq E. apply arrived_completed_inv in Hq as [[-> _]|Hq]; [done|by apply arrival_last].
  - assert (base_addr + i <> slot p) as Ha by (unfold slot; lia).
    destruct (sa_other _ _ _ _ Hst _ Ha) as [Eb Ec].
    destruct (inv_slot _ Hi i Hm) as [[]|(v & b & [])].
    + left. constructor; simpl; rewrite ?Eb, ?Ec; try done.
      intros q Hq. apply arrived_completed_inv in Hq as [[-> _]|Hq]; [done|by apply fr_none0].
    + right. exists v, b. constructor; simpl; rewrite ?Eb, ?Ec; try done.
      * intros r' Ht. etransitivity; [by apply us_seen0|apply (arrived_seen r')].
      * intros q Hq E. apply arrived_completed_inv in Hq as [[-> _]|Hq]; [done|by apply us_last0].
Qed.

(** A slot that holds a complete sum keeps it until every host has moved on. *)
Lemma arrived_full q :
  q ∈ completed s -> full_at s q \/ all_past s q -> full_at s' q \/ all_past s' q.
Proof.
  intros Hq [[Fb Fc]|?]; [|by right]. pose proof (ok_win Hok). pose proof arrival_range.
  pose proof (inv_completed _ Hi q Hq) as [Hq0 _].
  destruct (decide (slot q = slot p)) as [E|Hne].
  - assert (q mod range_len = p mod range_len) as Em by (unfold slot in E; lia).
    pose proof (arrival_last q Hq Em) as Hle. destruct (decide (q = p)) as [->|].
    + left. assert (new_bitmap = everyone) as En.
      { unfold new_bitmap, old_bitmap. rewrite Fb. simpl. rewrite Z.eqb_refl.
        apply lor_present; [apply Hr|]. rewrite testbit_everyone by (unfold is_host in Hr; lia).
        by apply bool_decide_true. }
      split; simpl; [rewrite (sa_bitmap _ _ _ _ Hst)|rewrite (sa_cells _ _ _ _ Hst)]; by rewrite En.
    + right. intros r' Hr'. simpl. pose proof (congruent_gap q p Em ltac:(lia)).
      pose proof (hi_next _ _ (inv_host _ Hi r Hr)). pose proof (seen_base s r r' Hi Hr Hr').
      pose proof (inv_host _ Hi r' Hr') as Hx. pose proof (hi_next _ _ Hx). pose proof (hi_seen _ _ Hx).
      lia.
  - left. destruct (sa_other _ _ _ _ Hst _ Hne) as [Eb Ec]. split; simpl; by rewrite ?Eb, ?Ec.
Qed.

Lemma arrived_inv : inv s'.
Proof.
  constructor; [apply arrived_host|apply arrived_up|apply arrived_completed_ok|apply arrived_slot|..].
  - intros h Hh. destruct (inv_pending _ Hi h Hh). constructor; try done.
    + by apply arrived_completed.
    + by apply arrived_full.
  - intros h Hh. destruct (inv_answer _ Hi h Hh). constructor; try done. by apply arrived_completed.
  - intros q Hq. apply arrived_completed_inv in Hq as [[-> Hf]|Hq].
    + left. pose proof Hfull as Hb. rewrite Hf in Hb. symmetry in Hb. apply bool_decide_eq_true in Hb.
      unfold full_at. rewrite <- Hb. split; apply Hst.
    + apply arrived_full; [done|by apply inv_full].
Qed.
End stored.
End arrival.

(** ** Every step keeps the invariant *)

(** Steps of the hosts and the network leave the switch alone. *)
Lemma inv_keep s s' :
  inv s -> regs s' = regs s -> recirculating s' = recirculating s -> answers s' = answers s ->
  seen s' = seen s -> completed s' = completed s ->
  (forall r, h_base (hosts s r) <= h_base (hosts s' r)) ->
  (forall r, is_host r -> host_inv s' r) -> (forall r, is_host r -> up_inv s' r) ->
  inv s'.
Proof.
  intros [_ _ Hc Hs Hp Ha Hf] Er Ec Ea Es Ed Hb Hh Hu.
  assert (forall q, all_past s q -> all_past s' q) as Hpast.
  { intros q Hq r Hr. specialize (Hq r Hr). specialize (Hb r). lia. }
  constructor; [done|done|..].
  - unfold completed_ok. by rewrite Ed, Es.
  - intros i Hm. destruct (Hs i Hm) as [[]|(v & b & [])]; [left|right; exists v, b];
      constructor; by rewrite ?Er, ?Es, ?Ed.
  - intros h. rewrite Ec. intros Hh'. destruct (Hp h Hh'). constructor; try done; [by rewrite Ed|].
    unfold full_at in *. rewrite Er. destruct pe_full0 as [|]; [by left|right; by apply Hpast].
  - intros h. rewrite Ea. intros Hh'. destruct (Ha h Hh'). constructor; try done; [by rewrite Ed|].
    destruct an_lanes0 as [|]; [by left|right; by apply Hpast].
  - intros q. rewrite Ed. intros Hq. unfold full_at in *. rewrite Er.
    destruct (Hf q Hq) as [|]; [by left|right; by apply Hpast].
Qed.

(** A packet of the window can be put on the way. *)
Lemma up_snoc s s' r x :
  up_inv s r -> 0 <= x < h_next (hosts s' r) -> h_next (hosts s r) <= h_next (hosts s' r) ->
  up s' r = up s r ++ [x] -> up_inv s' r.
Proof.
  intros Hu Hx Hn Eu p. rewrite Eu. intros [Hp|Hp]%elem_of_app.
  - specialize (Hu p Hp). lia.
  - by apply list_elem_of_singleton in Hp as ->.
Qed.

Lemma up_within s s' r :
  up_inv s r -> h_next (hosts s r) <= h_next (hosts s' r) -> (forall p, p ∈ up s' r -> p ∈ up s r) ->
  up_inv s' r.
Proof. intros Hu Hn Eu p Hp. specialize (Hu p (Eu p Hp)). lia. Qed.

Lemma up_same s s' r :
  up_inv s r -> h_next (hosts s r) <= h_next (hosts s' r) -> up s' r = up s r -> up_inv s' r.
Proof. intros Hu Hn Eu. apply (up_within s); [done..|]. by rewrite Eu. Qed.

Lemma host_same s s' r :
  host_inv s r -> hosts s' r = hosts s r -> seen s' = seen s -> completed s' = completed s ->
  host_inv s' r.
Proof. intros [] Eh Es Ec. constructor; rewrite ?Eh, ?Es, ?Ec; done. Qed.

(** Split on whether a host is the one that moves. *)
Ltac host_cases r' r :=
  destruct (decide (r' = r)) as [->|?]; simpl; rewrite ?upd_eq, ?upd_ne by done.

Lemma send_inv s r :
  inv s -> is_host r -> let h := hosts s r in
  h_next h < h_base h + max_win -> h_next h < 2 ^ 32 ->
  inv {| s with hosts := upd (hosts s) r {| h with h_next := h_next h + 1 |};
                up := upd (up s) r (up s r ++ [h_next h]) |}.
Proof.
  intros Hi Hr h Hw Hp. pose proof (inv_host _ Hi r Hr) as Hh.
  apply (inv_keep s); try done.
  - intros r'. by host_cases r' r.
  - intros r' Hr'. destruct (decide (r' = r)) as [->|].
    + destruct Hh. constructor; simpl; rewrite ?upd_eq; simpl; subst h; try done; lia.
    + apply (host_same s); try done; [by apply inv_host|]. simpl. by apply upd_ne.
  - intros r' Hr'. destruct (decide (r' = r)) as [->|].
    + apply (up_snoc s _ r (h_next h)); simpl; rewrite ?upd_eq; simpl; try done; subst h;
        [by apply inv_up|pose proof (hi_base _ _ Hh); lia|lia].
    + apply (up_same s); [by apply inv_up|..]; simpl; by rewrite ?upd_ne.
Qed.

Lemma resend_inv s r p :
  inv s -> is_host r -> h_base (hosts s r) <= p < h_next (hosts s r) ->
  inv {| s with up := upd (up s) r (up s r ++ [p]) |}.
Proof.
  intros Hi Hr Hp. apply (inv_keep s); try done.
  - intros r' Hr'. apply (host_same s); try done. by apply inv_host.
  - intros r' Hr'. destruct (decide (r' = r)) as [->|].
    + pose proof (hi_base _ _ (inv_host _ Hi r Hr)).
      apply (up_snoc s _ r p); simpl; rewrite ?upd_eq; [by apply inv_up|lia|lia|done].
    + apply (up_same s); [by apply inv_up|..]; simpl; by rewrite ?upd_ne.
Qed.

(** What the network does to the packets on the way. *)
Lemma network_inv s r l :
  inv s -> is_host r -> (forall p, p ∈ l -> p ∈ up s r) -> inv {| s with up := upd (up s) r l |}.
Proof.
  intros Hi Hr Hl. apply (inv_keep s); try done.
  - intros r' Hr'. apply (host_same s); try done. by apply inv_host.
  - intros r' Hr'. apply (up_within s); [by apply inv_up|done|]. host_cases r' r; [done|by intros].
Qed.

Lemma answer_step_inv s r h t rid marked h' :
  inv s -> is_host r -> h ∈ answers s -> egress t rid marked false h = Some h' ->
  h_base (hosts s r) <= psn h' < h_next (hosts s r) ->
  inv {| s with hosts := upd (hosts s) r {| (hosts s r) with h_results :=
      <[psn h' := if payload_valid h' then Some (lanes h') else None]> (h_results (hosts s r)) |} |}.
Proof.
  intros Hi Hr Hin He Hp. destruct (inv_answer _ Hi h Hin) as [Hg Hc Hl].
  destruct (egress_keeps _ _ _ _ _ (ig_valid _ Hg) He) as (Ep & El & _).
  assert (forall l, (if payload_valid h' then Some (lanes h') else None) = Some l ->
          l = total everyone (psn h')) as Hval.
  { intros l. destruct (payload_valid h'); [|done]. intros [= <-]. rewrite El, Ep.
    destruct Hl as [|Hpast]; [done|]. specialize (Hpast r Hr). lia. }
  apply (inv_keep s); try done.
  - intros r'. by host_cases r' r.
  - intros r' Hr'. destruct (decide (r' = r)) as [->|].
    + destruct (inv_host _ Hi r Hr). constructor; simpl; rewrite ?upd_eq; simpl; try done.
      intros q d. destruct (decide (q = psn h')) as [->|].
      * rewrite lookup_insert_eq. intros [= <-]. split; [by rewrite Ep|done].
      * rewrite lookup_insert_ne by done. apply hi_results0.
    + apply (host_same s); try done; [by apply inv_host|]. simpl. by apply upd_ne.
  - intros r' Hr'. apply (up_same s); [by apply inv_up|..]; try done.
    by host_cases r' r.
Qed.

Lemma slide_inv s r :
  inv s -> is_host r -> is_Some (h_results (hosts s r) !! h_base (hosts s r)) ->
  h_base (hosts s r) < h_next (hosts s r) ->
  inv {| s with hosts := upd (hosts s) r
      {| (hosts s r) with h_base := h_base (hosts s r) + 1 |} |}.
Proof.
  intros Hi Hr [d Hd] Hlt. pose proof (inv_host _ Hi r Hr) as Hh.
  apply (inv_keep s); try done.
  - intros r'. host_cases r' r; simpl; lia.
  - intros r' Hr'. destruct (decide (r' = r)) as [->|].
    + destruct Hh. constructor; simpl; rewrite ?upd_eq; simpl; try done; try lia.
      intros q Hq. destruct (decide (q = h_base (hosts s r))) as [->|].
      * by destruct (hi_results0 _ _ Hd).
      * apply hi_acked0. lia.
    + apply (host_same s); try done; [by apply inv_host|]. simpl. by apply upd_ne.
  - intros r' Hr'. apply (up_same s); [by apply inv_up|..]; try done.
    by host_cases r' r.
Qed.

(** The first pass of a packet on the way from a host. *)
Lemma arrival_runs s r p l1 l2 t v h rs :
  inv s -> is_host r -> up s r = l1 ++ p :: l2 -> fresh s r p -> group_tables t ->
  ingress t (host_packet r p) (regs s) = (v, h, rs) ->
  let full := bool_decide (new_bitmap s r p = everyone) in
  inv (arrived s r p l1 l2 rs full) /\ stored_at p (new_bitmap s r p) (regs s) rs
  /\ (if full then exists port, v = Unicast port else v = Drop)
  /\ forall t' h' rid marked dropped, full = true -> egress t' rid marked dropped h = Some h' ->
       pending_inv (arrived s r p l1 l2 rs full) h' /\ psn h' = p.
Proof.
  intros Hi Hr Hup Hfr Ht Hin full. pose proof (arrival_range s Hi r p l1 l2 Hr Hup Hfr) as (_ & Hp & _).
  destruct (arrival_old s Hi r p l1 l2 Hr Hup Hfr) as (Hsub & Hlen & Hcells & _).
  destruct (first_pass Hok t r p (regs s) Ht Hr Hp Hsub Hlen Hcells)
    as (h0 & rs0 & port & E & Hst & Hg & Eq & Epass & Heven).
  rewrite Hin in E. injection E as -> -> ->. fold (new_bitmap s r p) in *.
  assert (inv (arrived s r p l1 l2 rs0 full)) as Hi' by (by apply arrived_inv).
  split; [done|]. split; [done|]. subst full. destruct (decide (new_bitmap s r p = everyone)) as [En|En].
  - rewrite (bool_decide_true _ En) in *. split; [by eexists|].
    intros t' h' rid marked dropped _ He.
    destruct (egress_keeps _ _ _ _ _ (ig_valid _ Hg) He) as (Ep' & El' & _ & _ & _ & Epass').
    rewrite En in *. split; [|congruence]. constructor.
    + by eapply egress_in_group.
    + by apply Epass'.
    + by rewrite El', Ep', Eq.
    + rewrite Ep', Eq. simpl. left.
    + left. rewrite Ep', Eq. split; [apply Hst|apply Hst].
  - rewrite (bool_decide_false _ En) in *. split; [done|]. by intros.
Qed.

(** The second pass: the odd lanes are those of the complete sum, unless every
    host has moved on. *)
Lemma second_inv s l1 h l2 t v h' rs :
  inv s -> recirculating s = l1 ++ h :: l2 -> ingress t h (regs s) = (v, h', rs) ->
  inv {| s with regs := rs; recirculating := l1 ++ l2; answers := answers s ++ [h'] |}.
Proof.
  intros Hi E Hin. pose proof (ok_win Hok).
  assert (pending_inv s h) as [Hg Hpass Heven Hc Hf].
  { apply (inv_pending _ Hi). rewrite E. apply elem_of_app. right. left. }
  assert (length (cells_at (regs s) (slot (psn h))) = 32%nat) as Hlen.
  { assert (0 <= psn h mod range_len < range_len) as Hm by (apply Z.mod_pos_bound; lia).
    destruct (inv_slot _ Hi _ Hm) as [F|(w & b & U)]; unfold slot; [apply F|].
    rewrite (us_cells _ _ _ _ U). unfold total. by rewrite length_fmap, length_lane_ids. }
  destruct (second_pass h (regs s) v h' rs Hg Hpass Hlen Hin) as (Hregs & Hg' & Ep & El).
  assert (forall a, bitmap_at rs a = bitmap_at (regs s) a) as Hb by (intros a; apply Hregs).
  assert (forall a, cells_at rs a = cells_at (regs s) a) as Hcl by (intros a; apply Hregs).
  assert (forall q, full_at s q \/ all_past s q ->
    full_at {| s with regs := rs; recirculating := l1 ++ l2; answers := answers s ++ [h'] |} q
    \/ all_past s q) as Hfull.
  { intros q [[]|]; [left|by right]. split; simpl; by rewrite ?Hb, ?Hcl. }
  constructor; try apply Hi.
  - intros r Hr. by destruct (inv_host _ Hi r Hr).
  - intros i Hm. destruct (inv_slot _ Hi i Hm) as [[]|(w & b & [])]; [left|right; exists w, b];
      constructor; simpl; by rewrite ?Hb, ?Hcl.
  - intros g0 Hg0. assert (pending_inv s g0) as [].
    { apply (inv_pending _ Hi). rewrite E. simpl in Hg0. apply elem_of_app in Hg0 as [?|?];
        apply elem_of_app; [by left|right; by right]. }
    constructor; try done. by apply Hfull.
  - intros a Ha. simpl in Ha. apply elem_of_app in Ha as [Ha| ->%list_elem_of_singleton].
    + by destruct (inv_answer _ Hi a Ha).
    + constructor; simpl; [done|by rewrite Ep|]. rewrite Ep.
      destruct Hf as [[_ Hcells]|]; [|by right]. left. rewrite El, Hcells.
      apply (f_equal length) in Heven as Hll. rewrite !length_fmap in Hll.
      unfold total in *. rewrite length_fmap, length_lane_ids in Hll.
      rewrite (list_as_lanes (lanes h) Hll) in Heven |- *.
      rewrite zip_with_map. apply list_fmap_ext. intros k x Hx.
      rewrite <- !list_fmap_compose in Heven. 
      apply (f_equal (fun l => l !! k)) in Heven. rewrite !list_lookup_fmap, Hx in Heven.
      simpl in Heven. injection Heven as Heven. unfold lane. 
      destruct (cell everyone (psn h) x) as [c1 c2] eqn:Ec. cbn [snd]. f_equal.
      etransitivity; [exact Heven|]. unfold cell in Ec. by injection Ec.
  - intros q Hq. by apply Hfull, (inv_full _ Hi).
Qed.

Lemma other_kept h t r v h' rs :
  ~ base_addr <= n_agg_addr h < base_addr + range_len ->
  ingress t h r = (v, h', rs) -> range_kept r rs.
Proof. intros Hne Hin a Ha. apply (ingress_other t h r v h' rs a Hin). by intros ->. Qed.

Lemma other_inv s rs : inv s -> range_kept (regs s) rs -> inv {| s with regs := rs |}.
Proof.
  intros [Hh Hu Hc Hs Hp Ha Hf] Hk. pose proof (ok_win Hok).
  assert (forall i, 0 <= i < range_len ->
    bitmap_at rs (base_addr + i) = bitmap_at (regs s) (base_addr + i)
    /\ cells_at rs (base_addr + i) = cells_at (regs s) (base_addr + i)) as Hkeep.
  { intros i Hi. apply Hk. lia. }
  assert (forall q, full_at s q \/ all_past s q -> full_at {| s with regs := rs |} q \/ all_past s q) as Hfull.
  { intros q [Hq|]; [left|by right]. unfold full_at, slot in *. cbn [regs].
    destruct (Hkeep (q mod range_len)) as [-> ->]; [apply Z.mod_pos_bound; lia|done]. }
  constructor; cbn [completed recirculating answers].
  - intros r Hr. by destruct (Hh r Hr).
  - intros r Hr. by apply Hu.
  - done.
  - intros i Hi. destruct (Hkeep i Hi) as [Hb Hcl].
    destruct (Hs i Hi) as [[]|(w & b & [])]; [left|right; exists w, b]; constructor; simpl; by rewrite ?Hb, ?Hcl.
  - intros g0 Hg0. destruct (Hp g0 Hg0). constructor; try done. by apply Hfull.
  - intros g0 Hg0. by destruct (Ha g0 Hg0).
  - intros q Hq. by apply Hfull, Hf.
Qed.

Lemma step_inv s s' : inv s -> step s s' -> inv s'.
Proof.
  intros Hi Hs. destruct Hs as [s r h Hr -> Hw Hp|s r p Hr Hp|s r l1 p l2 Hr E|s r l1 p l2 Hr E|
    s r l1 p l2 t h rs Hr E Hfr Ht Hin|s r l1 p l2 t port h rs t' rid marked dropped Hr E Hfr Ht Hin|
    s l1 h l2 t v h' rs E Hin|s r h t rid marked h' Hr Hh He Hp _|s r Hr Hd Hlt|s h t v h' rs Hne Hin|s rs Hk].
  - by apply send_inv.
  - by apply resend_inv.
  - apply network_inv; [done..|]. intros q Hq. rewrite E.
    apply elem_of_app in Hq as [?|?]; apply elem_of_app; [by left|right; by right].
  - apply network_inv; [done..|]. intros q Hq. rewrite E.
    apply elem_of_app in Hq as [?|[->|?]%elem_of_cons]; apply elem_of_app; [by left|right; by left|by right].
  - destruct (arrival_runs s r p l1 l2 _ _ _ _ Hi Hr E Hfr Ht Hin) as (Hi' & _ & Hv & _).
    destruct (bool_decide _); [by destruct Hv|]. exact Hi'.
  - destruct (arrival_runs s r p l1 l2 _ _ _ _ Hi Hr E Hfr Ht Hin) as (Hi' & _ & Hv & Hpe).
    destruct (bool_decide _); [|done].
    constructor; try apply Hi'.
    + intros r' Hr'. by destruct (inv_host _ Hi' r' Hr').
    + intros i Hm. destruct (inv_slot _ Hi' i Hm) as [[]|(w & b & [])]; [left|right; exists w, b];
        by constructor.
    + intros g0 Hg0. simpl in Hg0. apply elem_of_app in Hg0 as [Hg0|Hg0].
      * by destruct (inv_pending _ Hi' g0 Hg0).
      * destruct (egress t' rid marked dropped h) as [h'|] eqn:He; [|by apply elem_of_nil in Hg0].
        apply list_elem_of_singleton in Hg0 as ->.
        by destruct (Hpe t' h' rid marked dropped eq_refl He) as [[] _].
    + intros a Ha. by destruct (inv_answer _ Hi' a Ha).
  - by eapply second_inv.
  - by apply answer_step_inv with (h := h) (t := t) (rid := rid) (marked := marked).
  - by apply slide_inv.
  - apply other_inv; [done|]. by eapply other_kept.
  - by apply other_inv.
Qed.

Lemma initial_inv s : initial s -> inv s.
Proof.
  intros (Hb & Hc & Hh & Hu & Er & Ea & Es & Ed). pose proof (ok_win Hok). constructor.
  - intros r Hr. constructor; rewrite ?Hh, ?Es, ?Ed; simpl; try lia.
    intros p d. by rewrite lookup_empty.
  - intros r Hr p. rewrite Hu. by intros ?%elem_of_nil.
  - intros p. rewrite Ed. by intros ?%elem_of_nil.
  - intros i Hm. left. constructor; [apply Hb; lia|apply Hc; lia|].
    intros p. rewrite Ed. by intros ?%elem_of_nil.
  - intros h. rewrite Er. by intros ?%elem_of_nil.
  - intros h. rewrite Ea. by intros ?%elem_of_nil.
  - intros p. rewrite Ed. by intros ?%elem_of_nil.
Qed.

Lemma stream_reachable_inv s : reachable s -> inv s.
Proof.
  intros (s0 & H0 & Hs). apply initial_inv in H0. revert H0.
  induction Hs as [|s1 s2 s3 Hst _ IH]; [done|]. intros H1. apply IH. by eapply step_inv.
Qed.

(** ** Paths that keep the order *)

(** Only the packet at the front of a way is the newest the switch has got. *)
Definition in_order (s s' : system) : Prop := forall r,
  seen s' r = seen s r \/ exists p, up s r = p :: up s' r /\ seen s' r = Z.max (seen s r) p.

(** No packet on the way is a window older than one before it. *)
Definition way_ok (s : system) (r : Z) (l : list Z) : Prop :=
  Forall (fresh s r) l /\ StronglySorted (fun p q => p - max_win < q) l.

Lemma way_same s s' r l : seen s' r = seen s r -> way_ok s r l -> way_ok s' r l.
Proof. intros Es. unfold way_ok, fresh. by rewrite Es. Qed.

Lemma way_remove s r l1 p l2 : way_ok s r (l1 ++ p :: l2) -> way_ok s r (l1 ++ l2).
Proof.
  intros [[H1 [_ H2]%Forall_cons]%Forall_app (Hx & S1 & [S2 _]%StronglySorted_inv)%StronglySorted_app].
  split; [by apply Forall_app|]. apply StronglySorted_app_2; [|done..].
  intros x y Hx1 Hy. apply Hx; [done|by right].
Qed.

Lemma way_duplicate s r l1 p l2 :
  0 < max_win -> way_ok s r (l1 ++ p :: l2) -> way_ok s r (l1 ++ p :: p :: l2).
Proof.
  intros Hw [[H1 [Hp H2]%Forall_cons]%Forall_app (Hx & S1 & S2)%StronglySorted_app].
  pose proof S2 as [_ Hf]%StronglySorted_inv. split; [by rewrite Forall_app, !Forall_cons|].
  apply StronglySorted_app_2; [|done|].
  - intros x y Hx1 [->|Hy]%elem_of_cons; [|by apply Hx].
    apply Hx; [done|left].
  - constructor; [done|]. constructor; [lia|done].
Qed.

Lemma way_snoc s r x :
  inv s -> is_host r -> h_base (hosts s r) <= x -> way_ok s r (up s r) -> way_ok s r (up s r ++ [x]).
Proof.
  intros Hi Hr Hx [Hf Ho]. pose proof (inv_host _ Hi r Hr) as Hh.
  pose proof (hi_next _ _ Hh). pose proof (hi_seen _ _ Hh). split.
  - apply Forall_app. split; [done|]. apply Forall_singleton. unfold fresh. lia.
  - apply StronglySorted_app_2; [|done|repeat constructor].
    intros p q Hp ->%list_elem_of_singleton. pose proof (inv_up _ Hi r Hr p Hp). lia.
Qed.

(** A packet arrives, the newest one only from the front. *)
Lemma way_arrive s s' r l1 p l2 :
  up s r = l1 ++ p :: l2 -> up s' r = l1 ++ l2 -> in_order s s' ->
  way_ok s r (up s r) -> way_ok s' r (up s' r).
Proof.
  intros E E' Hio Ho. destruct (Hio r) as [Es|(q & Eq & Es)].
  - apply (way_same s); [done|]. rewrite E'. rewrite E in Ho. by eapply way_remove.
  - rewrite Eq in Ho. destruct Ho as [[_ Hf]%Forall_cons [Hs Hq]%StronglySorted_inv]. split; [|done].
    rewrite Forall_forall in Hf, Hq |- *. intros x Hx. specialize (Hf x Hx). specialize (Hq x Hx).
    unfold fresh in *. lia.
Qed.

Lemma ordered_step s s' :
  inv s -> step s s' -> in_order s s' ->
  (forall r, is_host r -> way_ok s r (up s r)) -> forall r, is_host r -> way_ok s' r (up s' r).
Proof.
  intros Hi Hs Hio Ho r' Hr'. pose proof (ok_win Hok). specialize (Ho r' Hr').
  destruct Hs as [s r h Hr -> Hw Hp|s r p Hr Hp|s r l1 p l2 Hr E|s r l1 p l2 Hr E|
    s r l1 p l2 t h rs Hr E _ _ _|s r l1 p l2 t port h rs t' rid marked dropped Hr E _ _ _|
    | | | | ]; try (by apply (way_same s)).
  all: destruct (decide (r' = r)) as [->|Hne];
    [|apply (way_same s); cbn [seen up]; by rewrite ?(upd_ne (up s)), ?(upd_ne (seen s))].
  - apply (way_same s); [done|]. cbn [up]. rewrite upd_eq. apply way_snoc; [done..| |done].
    pose proof (hi_base _ _ (inv_host _ Hi r Hr)). lia.
  - apply (way_same s); [done|]. cbn [up]. rewrite upd_eq. apply way_snoc; [done..|lia|done].
  - apply (way_same s); [done|]. cbn [up]. rewrite upd_eq. rewrite E in Ho. by eapply way_remove.
  - apply (way_same s); [done|]. cbn [up]. rewrite upd_eq. rewrite E in Ho. apply way_duplicate; [lia|done].
  - eapply (way_arrive s); [exact E| |exact Hio|exact Ho]. cbn [up]. by rewrite upd_eq.
  - eapply (way_arrive s); [exact E| |exact Hio|exact Ho]. cbn [up]. by rewrite upd_eq.
Qed.

(** A path that keeps the order of packets, though it may lose and duplicate
    them, meets the requirement of [step]. *)
Lemma ordered_path_fresh s0 s r p :
  initial s0 -> rtc (fun s s' => step s s' /\ in_order s s') s0 s -> is_host r -> p ∈ up s r ->
  fresh s r p.
Proof.
  intros H0 Hs Hr Hp.
  assert (inv s /\ forall r, is_host r -> way_ok s r (up s r)) as [_ Ho].
  { assert (inv s0 /\ forall r, is_host r -> way_ok s0 r (up s0 r)) as Hi.
    { split; [by apply initial_inv|]. intros r' _. destruct H0 as (_ & _ & _ & -> & _).
      split; [constructor|constructor]. }
    clear H0 Hp. revert Hi. induction Hs as [|s1 s2 s3 [Hst Hio] _ IH]; [done|].
    intros [Hi Ho]. apply IH. split; [by eapply step_inv|by apply (ordered_step s1)]. }
  destruct (Ho r Hr) as [Hf _]. by apply (proj1 (Forall_forall _ _) Hf).
Qed.
End group.

(** C6: a result a host takes is the sum of the packets of that number of all hosts
    of the group, each counted once.  The network may lose, duplicate, delay and
    reorder packets both ways, as long as nothing gets to the switch after a
    packet its host has numbered a whole window higher ([fresh]); in between
    the switch handles packets of other groups and requests that keep the
    entries of this one; the sums fit 32 bits ([ok_fits]) and there are fewer
    than [2^32] packets. *)
Theorem aggregation_correct s r p l :
  group_ok -> reachable s -> is_host r ->
  h_results (hosts s r) !! p = Some (Some l) -> l = total everyone p.
Proof.
  intros Hok Hs Hr Hp. pose proof (stream_reachable_inv Hok s Hs) as Hi.
  by apply (hi_results _ _ (inv_host _ Hi r Hr) p _ Hp).
Qed.

(** C15: no host gets ahead of another by more than the aggregators allow: an
    acknowledged packet has been sent by every host, and the packets the hosts
    have in flight at any time have different aggregators. *)
Theorem hosts_in_step s r r' :
  group_ok -> reachable s -> is_host r -> is_host r' ->
  h_base (hosts s r) <= h_next (hosts s r')
  /\ h_next (hosts s r) <= h_base (hosts s r') + range_len
  /\ forall p p', h_base (hosts s r) <= p < h_next (hosts s r) ->
       h_base (hosts s r') <= p' < h_next (hosts s r') -> slot p = slot p' -> p = p'.
Proof.
  intros Hok Hs Hr Hr'. pose proof (stream_reachable_inv Hok s Hs) as Hi. pose proof (ok_win Hok).
  pose proof (seen_base s r r' Hi Hr Hr'). pose proof (seen_base s r' r Hi Hr' Hr).
  pose proof (inv_host _ Hi r Hr) as Hh1. pose proof (inv_host _ Hi r' Hr') as Hh2.
  pose proof (hi_next _ _ Hh1). pose proof (hi_next _ _ Hh2).
  pose proof (hi_seen _ _ Hh1). pose proof (hi_seen _ _ Hh2).
  split_and!; [lia..|]. intros p p' Hp Hp' E.
  assert (p mod range_len = p' mod range_len) as Em by (unfold slot in E; lia).
  destruct (Z.lt_trichotomy p p') as [Hlt|[?|Hlt]]; [|done|].
  - pose proof (congruent_gap Hok p p' Em Hlt). lia.
  - pose proof (congruent_gap Hok p' p (eq_sym Em) Hlt). lia.
Qed.
End protocol.
