(* ===== verification/Progress.v ===== *)
(** Progress: whatever has happened, the system of [Protocol] can still
    complete the packets in flight. *)

From S2P Require Import Prelude.
From S2P Require Import Types.
From S2P Require Import Switch.
From S2P Require Import Aggregation.
From S2P Require Import Protocol.

#[local] Opaque lane_ids.

Section progress.
Context {str : Stream}.

Section group.
Context (Hok : group_ok).

(** The windows have not moved and nothing new has been taken. *)
Definition same_base (s s' : system) : Prop := forall r,
  h_base (hosts s' r) = h_base (hosts s r)
  /\ h_results (hosts s' r) = h_results (hosts s r)
  /\ h_next (hosts s r) <= h_next (hosts s' r).

Lemma same_base_refl s s' : hosts s' = hosts s -> same_base s s'.
Proof. intros E r. by rewrite E. Qed.

Lemma same_base_trans s1 s2 s3 : same_base s1 s2 -> same_base s2 s3 -> same_base s1 s3.
Proof.
  intros H12 H23 r. destruct (H12 r) as (E1 & E2 & L1), (H23 r) as (E3 & E4 & L2).
  split_and!; [congruence..|lia].
Qed.

Lemma steps_inv s s' : inv s -> rtc step s s' -> inv s'.
Proof. intros Hi Hs. revert Hi. induction Hs; [done|]. intros Hi. by apply IHHs, (step_inv Hok x). Qed.

(** The network can lose everything a host has on the way. *)
Lemma drain s r :
  is_host r -> exists s', rtc step s s' /\ hosts s' = hosts s /\ regs s' = regs s /\ up s' r = [].
Proof.
  intros Hr. remember (up s r) as l eqn:E. revert s E. induction l as [|p l IH]; intros s E.
  - by exists s.
  - destruct (IH {| s with up := upd (up s) r ([] ++ l) |}) as (s' & Hs & Eh & Er & Eu);
      [simpl; by rewrite upd_eq|].
    exists s'. split; [|done]. eapply rtc_l; [|exact Hs]. by apply (step_lose s r [] p l).
Qed.

(** A host can put a packet of its window, or the next one, on its way. *)
Lemma transmit s r p :
  is_host r -> up s r = [] -> h_base (hosts s r) <= p ->
  p < h_next (hosts s r) \/ p = h_next (hosts s r) /\ p < h_base (hosts s r) + max_win /\ p < 2 ^ 32 ->
  exists s', step s s' /\ same_base s s' /\ regs s' = regs s /\ up s' r = [p].
Proof.
  intros Hr Eu Hb [Hp|(-> & Hw & Hp)].
  - eexists. split; [by apply (step_resend s r p)|]. split; [by apply same_base_refl|].
    split; [done|]. simpl. by rewrite upd_eq, Eu.
  - eexists. split; [by apply (step_send s r _ Hr eq_refl)|]. split_and!; simpl; [|done|by rewrite upd_eq, Eu].
    intros r'. simpl. destruct (decide (r' = r)) as [->|]; rewrite ?upd_eq, ?upd_ne by done; simpl;
      split_and!; try done; lia.
Qed.

Lemma stored_old p b rs rs' : stored_at p b rs rs' -> old_bitmap rs' p = b.
Proof. intros Hst. unfold old_bitmap. by rewrite (sa_bitmap _ _ _ _ Hst), Z.eqb_refl. Qed.

(** The switch can take it. *)
Lemma arrive s r p :
  inv s -> is_host r -> up s r = [p] -> h_base (hosts s r) <= p ->
  exists s', step s s' /\ hosts s' = hosts s /\ old_bitmap (regs s') p = new_bitmap s r p
    /\ (new_bitmap s r p = everyone -> exists h, h ∈ recirculating s' /\ psn h = p).
Proof.
  intros Hi Hr Hup Hp. destruct (ingress tbl (host_packet r p) (regs s)) as [[v h] rs] eqn:Hin.
  assert (fresh s r p) as Hfr.
  { pose proof (inv_host _ Hi r Hr) as Hh. pose proof (hi_next _ _ Hh). pose proof (hi_seen _ _ Hh).
    unfold fresh. lia. }
  pose proof (ok_tables Hok) as Ht.
  destruct (arrival_runs Hok s r p [] [] tbl v h rs Hi Hr Hup Hfr Ht Hin) as (_ & Hst & Hv & Hpe).
  destruct (bool_decide (new_bitmap s r p = everyone)) eqn:Eb.
  - destruct Hv as [port ->]. eexists. split; [by eapply (step_recirculate s r [] p [] tbl port h rs tbl 0 false false)|].
    split; [done|]. split; [by eapply stored_old|]. intros _. cbn [recirculating].
    destruct (egress tbl 0 false false h) as [h'|] eqn:He; [|done].
    destruct (Hpe tbl h' 0 false false eq_refl He) as [_ Ep]. exists h'. split; [|done].
    apply elem_of_app. right. left.
  - subst v. eexists. split; [by eapply (step_drop s r [] p [] tbl h rs)|]. split; [done|].
    split; [by eapply stored_old|]. intros Hall. by rewrite bool_decide_true in Eb.
Qed.

(** A host can get its packet [p] into the aggregator. *)
Lemma contribute s r p :
  inv s -> is_host r -> h_base (hosts s r) <= p ->
  p < h_next (hosts s r) \/ p = h_next (hosts s r) /\ p < h_base (hosts s r) + max_win /\ p < 2 ^ 32 ->
  exists s', rtc step s s' /\ same_base s s'
    /\ old_bitmap (regs s') p = Z.lor (old_bitmap (regs s) p) (Z.shiftl 1 r)
    /\ (old_bitmap (regs s') p = everyone -> exists h, h ∈ recirculating s' /\ psn h = p).
Proof.
  intros Hi Hr Hb Hp. destruct (drain s r Hr) as (s1 & S1 & H1 & R1 & U1).
  rewrite <- H1 in Hb, Hp. destruct (transmit s1 r p Hr U1 Hb Hp) as (s2 & S2 & B2 & R2 & U2).
  assert (inv s2) as Hi2 by (eapply (step_inv Hok); [|exact S2]; by eapply steps_inv).
  destruct (arrive s2 r p Hi2 Hr U2) as (s3 & S3 & H3 & O3 & F3).
  { destruct (B2 r) as (-> & _). lia. }
  unfold new_bitmap in *. rewrite R2, R1 in *. exists s3. split_and!.
  - etrans; [exact S1|]. eapply rtc_l; [exact S2|]. by apply rtc_once.
  - apply (same_base_trans s s1); [by apply same_base_refl|].
    apply (same_base_trans s1 s2); [done|]. by apply same_base_refl.
  - done.
  - rewrite O3. done.
Qed.

(** All hosts can get their packets [p] into the aggregator. *)
Lemma gather s p k :
  inv s -> (k <= Z.to_nat n_hosts)%nat ->
  (forall r, is_host r -> h_base (hosts s r) <= p /\
    (p < h_next (hosts s r) \/ p = h_next (hosts s r) /\ p < h_base (hosts s r) + max_win /\ p < 2 ^ 32)) ->
  exists s', rtc step s s' /\ same_base s s'
    /\ forall r, 0 <= r < Z.of_nat k -> Z.testbit (old_bitmap (regs s') p) r = true.
Proof.
  intros Hi Hk Hw. induction k as [|k IH].
  - exists s. split_and!; [done|by apply same_base_refl|]. lia.
  - destruct IH as (s1 & S1 & B1 & T1); [lia|].
    assert (is_host (Z.of_nat k)) as Hr by (unfold is_host; lia).
    destruct (B1 (Z.of_nat k)) as (E1 & E2 & L1). destruct (Hw _ Hr) as [Hb Hp].
    destruct (contribute s1 (Z.of_nat k) p) as (s2 & S2 & B2 & O2 & _);
      [by eapply steps_inv|done|lia|lia|].
    exists s2. split_and!; [by etrans|by eapply same_base_trans|].
    intros r Hr'. rewrite O2, testbit_add by lia.
    destruct (Z.eqb_spec r (Z.of_nat k)); [by rewrite orb_true_r|]. rewrite T1 by lia. done.
Qed.

Lemma sub_everyone b :
  sub_bitmap b -> (forall r, is_host r -> Z.testbit b r = true) -> b = everyone.
Proof.
  pose proof (ok_n Hok). intros [_ Hb] Ht. apply Z.bits_inj. intros r.
  rewrite testbit_everyone by lia. case_bool_decide as Hr; [by apply Ht|].
  rewrite <- Hb, Z.land_spec, testbit_everyone by lia. rewrite bool_decide_false by done.
  apply andb_false_r.
Qed.

(** A host can get the answer to a packet whose aggregator is complete. *)
Lemma fetch s r p :
  inv s -> is_host r -> h_base (hosts s r) <= p < h_next (hosts s r) ->
  h_results (hosts s r) !! p = None -> old_bitmap (regs s) p = everyone ->
  exists s', rtc step s s' /\ h_base (hosts s' r) = h_base (hosts s r)
    /\ h_next (hosts s r) <= h_next (hosts s' r) /\ is_Some (h_results (hosts s' r) !! p).
Proof.
  intros Hi Hr Hp Hnone Hold.
  destruct (contribute s r p Hi Hr) as (s1 & S1 & B1 & O1 & F1); [lia|lia|].
  assert (inv s1) as Hi1 by by eapply steps_inv.
  rewrite Hold, lor_present in O1; [|apply Hr|].
  2:{ pose proof (ok_n Hok). rewrite testbit_everyone by lia. by apply bool_decide_true. }
  destruct (F1 O1) as (h & Hin & Eh). apply list_elem_of_split in Hin as (l1 & l2 & E).
  destruct (ingress tbl h (regs s1)) as [[v h'] rs] eqn:Hing.
  pose proof (step_second s1 l1 h l2 tbl v h' rs E Hing) as S2.
  set (s2 := {| s1 with regs := rs; recirculating := l1 ++ l2; answers := answers s1 ++ [h'] |}) in *.
  assert (inv s2) as Hi2 by by eapply (step_inv Hok).
  assert (h' ∈ answers s2) as Hans by (apply elem_of_app; right; left).
  assert (pending_inv s1 h) as [Hg Hpass _ _ _].
  { apply (inv_pending _ Hi1). rewrite E. apply elem_of_app. right. left. }
  assert (psn h' = p) as Ep.
  { pose proof (an_group _ _ (inv_answer _ Hi2 _ Hans)).
    assert (length (cells_at (regs s1) (slot (psn h))) = 32%nat) as Hlen.
    { pose proof (ok_win Hok).
      assert (0 <= psn h mod range_len < range_len) as Hm by (apply Z.mod_pos_bound; lia).
      destruct (inv_slot _ Hi1 _ Hm) as [F|(w & b & U)]; unfold slot; [apply F|].
      rewrite (us_cells _ _ _ _ U). unfold total. by rewrite length_fmap, length_lane_ids. }
    destruct (second_pass h (regs s1) v h' rs Hg Hpass Hlen Hing) as (_ & _ & Ep & _). congruence. }
  destruct (egress tbl 0 false false h') as [h''|] eqn:He; [|by destruct (pass_cnt h' =? 2)].
  destruct (egress_keeps _ _ _ _ _ (ig_valid _ (an_group _ _ (inv_answer _ Hi2 _ Hans))) He) as (Ep' & _).
  destruct (B1 r) as (E1 & E2 & L1).
  assert (psn h'' = p) as Ep'' by congruence.
  assert (h_base (hosts s2 r) <= psn h'' < h_next (hosts s2 r)) as Hwin.
  { rewrite Ep''. change (hosts s2) with (hosts s1). lia. }
  assert (h_results (hosts s2 r) !! psn h'' = None) as Hn2.
  { rewrite Ep''. change (hosts s2) with (hosts s1). by rewrite E2. }
  eexists. split; [|split; [|split]].
  - etrans; [exact S1|]. eapply rtc_l; [exact S2|]. apply rtc_once.
    by apply (step_answer s2 r h' tbl 0 false h'').
  - simpl. rewrite upd_eq. simpl. done.
  - simpl. rewrite upd_eq. simpl. done.
  - simpl. rewrite upd_eq. simpl. rewrite Ep'', lookup_insert_eq. by eexists.
Qed.
End group.

Lemma full_old s p : full_at s p -> old_bitmap (regs s) p = everyone.
Proof. intros [Hb _]. unfold old_bitmap. by rewrite Hb, Z.eqb_refl. Qed.

(** Whatever has happened, the aggregator of the oldest packet in flight can
    still be completed. *)
Lemma oldest_completes s r :
  group_ok -> inv s -> is_host r ->
  h_base (hosts s r) < h_next (hosts s r) ->
  (forall r', is_host r' -> h_base (hosts s r) <= h_base (hosts s r')) ->
  exists s', rtc step s s' /\ same_base s s'
    /\ old_bitmap (regs s') (h_base (hosts s r)) = everyone.
Proof.
  intros Hok Hi Hr Hlt Hmin. set (p := h_base (hosts s r)).
  destruct (decide (p ∈ completed s)) as [Hc|Hc].
  - exists s. split; [done|]. split; [by apply same_base_refl|]. apply full_old.
    destruct (inv_full _ Hi p Hc) as [|Hpast]; [done|]. specialize (Hpast r Hr). subst p. lia.
  - pose proof (ok_win Hok). pose proof (ok_n Hok). pose proof (inv_host _ Hi r Hr) as Hh.
    pose proof (hi_psn _ _ Hh). pose proof (hi_base _ _ Hh).
    destruct (gather Hok s p (Z.to_nat n_hosts) Hi) as (s' & Hs' & Hb & Ht); [lia|..].
    { intros r' Hr'. specialize (Hmin r' Hr'). fold p in Hmin.
      pose proof (inv_host _ Hi r' Hr') as Hh'. pose proof (hi_base _ _ Hh').
      destruct (decide (h_base (hosts s r') = p)) as [E|Hne].
      - rewrite E. split; [lia|]. destruct (decide (p < h_next (hosts s r'))); [by left|right].
        subst p. lia.
      - destruct Hc. apply (hi_acked _ _ Hh'). subst p. lia. }
    exists s'. split_and!; [done..|]. apply sub_everyone; [done| |].
    2:{ intros r' Hr'. apply Ht. unfold is_host in Hr'. lia. }
    assert (inv s') as Hi' by by eapply (steps_inv Hok).
    assert (0 <= p mod range_len < range_len) as Hm by (apply Z.mod_pos_bound; lia).
    unfold old_bitmap, slot. destruct (inv_slot _ Hi' _ Hm) as [F|(v & b & U)].
    + rewrite (fr_bitmap _ _ F). cbn [fst snd]. case_match; apply sub_bitmap_0.
    + rewrite (us_bitmap _ _ _ _ U). cbn [fst snd]. case_match; [apply U|apply sub_bitmap_0].
Qed.

(** C8: the protocol cannot get stuck: from every state the system can reach, after any
    losses, the oldest packet in flight can still be summed up, answered and
    acknowledged. *)
Theorem slowest_host_advances s r :
  group_ok -> reachable s -> is_host r ->
  h_base (hosts s r) < h_next (hosts s r) ->
  (forall r', is_host r' -> h_base (hosts s r) <= h_base (hosts s r')) ->
  exists s', rtc step s s' /\ h_base (hosts s' r) = h_base (hosts s r) + 1.
Proof.
  intros Hok Hs Hr Hlt Hmin. pose proof (stream_reachable_inv Hok s Hs) as Hi.
  destruct (oldest_completes s r Hok Hi Hr Hlt Hmin) as (s1 & S1 & B1 & O1).
  assert (inv s1) as Hi1 by by eapply (steps_inv Hok).
  destruct (B1 r) as (E1 & E2 & L1).
  assert (exists s2, rtc step s1 s2 /\ h_base (hosts s2 r) = h_base (hosts s r)
    /\ h_next (hosts s r) <= h_next (hosts s2 r)
    /\ is_Some (h_results (hosts s2 r) !! h_base (hosts s r))) as (s2 & S2 & E3 & L2 & Hd).
  { destruct (h_results (hosts s1 r) !! h_base (hosts s r)) as [d|] eqn:Ed.
    - exists s1. split_and!; [done..|by eexists].
    - destruct (fetch Hok s1 r (h_base (hosts s r)) Hi1 Hr) as (s2 & S2 & E3 & L2 & Hd);
        [lia|done|done|].
      exists s2. split_and!; try done; [congruence|lia]. }
  eexists. split.
  - etrans; [exact S1|]. etrans; [exact S2|]. apply rtc_once. apply (step_slide s2 r Hr).
    + by rewrite E3.
    + lia.
  - cbn [hosts]. rewrite upd_eq. cbn [h_base]. by rewrite E3.
Qed.
End progress.
