(* ===== verification/Wire.v ===== *)
(** What the hosts and the switch mean by the bytes of a packet: the switch
    reads the header fields and the integers a worker has written, and a
    worker stores the sums of the integers of all hosts. *)

From S2P Require Import Prelude.
From S2P Require Import Types.
From S2P Require Import Endian.
From S2P Require Import Config.
From S2P Require Import Congestion.
From S2P Require Import QueuePair.
From S2P Require Import Worker.
From S2P Require Import Window.
From S2P Require Import WorkerInv.
From S2P Require Import Receive.
From S2P Require Import Packet.
From S2P Require Import Switch.
From S2P Require Import Aggregation.
From S2P Require Import Protocol.

(** * Integers in a buffer *)

(** The 32-bit integers of a buffer on the host. *)
Fixpoint host_words (l : list Z) : list Z :=
  match l with
  | a :: b :: c :: d :: l => to_int32 (le_num [a; b; c; d]) :: host_words l
  | _ => []
  end.

(** The bytes of integers on the host. *)
Definition int_bytes (l : list Z) : list Z := l ≫= fun x => le_bytes 4 (u32 x).

(** The 64 lanes of a payload, in order. *)
Fixpoint unpair (l : list agg_pair) : list Z :=
  match l with
  | [] => []
  | (x, y) :: l => x :: y :: unpair l
  end.

(** The deparser emits every lane in network order. *)
Definition be_bytes (x : Z) : list Z := reverse (le_bytes 4 (u32 x)).
Definition deparse_lanes (l : list agg_pair) : list Z :=
  l ≫= fun p => be_bytes p.1 ++ be_bytes p.2.

(** Induction on buffers of whole words. *)
Lemma words_ind (P : list Z -> Prop) :
  P [] -> (forall a b c d l, P l -> P (a :: b :: c :: d :: l)) ->
  forall l n, length l = (4 * n)%nat -> P l.
Proof.
  intros H0 HS l n. revert l. induction n as [|n IH]; intros l Hl; [by destruct l|].
  destruct l as [|a [|b [|c [|d l]]]]; simpl in Hl; try lia. apply HS, IH. lia.
Qed.

Lemma swap_words_app l1 l2 n :
  length l1 = (4 * n)%nat -> swap_words (l1 ++ l2) = swap_words l1 ++ swap_words l2.
Proof.
  apply (words_ind (fun l1 => swap_words (l1 ++ l2) = swap_words l1 ++ swap_words l2)); [done|].
  intros a b c d l IH. simpl. by rewrite IH.
Qed.

Lemma host_words_app l1 l2 n :
  length l1 = (4 * n)%nat -> host_words (l1 ++ l2) = host_words l1 ++ host_words l2.
Proof.
  apply (words_ind (fun l1 => host_words (l1 ++ l2) = host_words l1 ++ host_words l2)); [done|].
  intros a b c d l IH. simpl. by rewrite IH.
Qed.

Lemma length_host_words l n : length l = (4 * n)%nat -> length (host_words l) = n.
Proof.
  revert l. induction n as [|n IH]; intros l Hl; [by destruct l|].
  destruct l as [|a [|b [|c [|d l]]]]; simpl in Hl; try lia. simpl. rewrite IH; lia.
Qed.

(** The integers the switch reads are those the host sees after swapping. *)
Lemma parse_lanes_words p n :
  length p = (8 * n)%nat -> unpair (parse_lanes p) = host_words (swap_words p).
Proof.
  revert p. induction n as [|n IH]; intros p Hp; [by destruct p|].
  destruct p as [|a [|b [|c [|d [|e [|f [|g [|h p]]]]]]]]; simpl in Hp; try lia.
  cbn [parse_lanes unpair swap_words host_words]. rewrite IH by lia. done.
Qed.

Lemma length_parse_lanes p n : length p = (8 * n)%nat -> length (parse_lanes p) = n.
Proof.
  revert p. induction n as [|n IH]; intros p Hp; [by destruct p|].
  destruct p as [|a [|b [|c [|d [|e [|f [|g [|h p]]]]]]]]; simpl in Hp; try lia.
  simpl. rewrite IH; lia.
Qed.

Lemma unpair_lookup l j :
  unpair l !! j = (fun p : agg_pair => if Nat.even j then p.1 else p.2) <$> l !! (j / 2)%nat.
Proof.
  revert j. induction l as [|[x y] l IH]; intros j.
  - by rewrite !lookup_nil.
  - destruct j as [|[|j]]; [done..|]. cbn [unpair].
    change (unpair l !! j = (fun p : agg_pair => if Nat.even j then p.1 else p.2)
      <$> ((x, y) :: l) !! (S (S j) / 2)%nat).
    rewrite IH. replace (S (S j) / 2)%nat with (S (j / 2)); [done|].
    change (S (S j)) with (2 + j)%nat. symmetry. apply (Nat.div_add_l 1 2 j). lia.
Qed.

Lemma length_unpair l : length (unpair l) = (2 * length l)%nat.
Proof. induction l as [|[x y] l IH]; [done|]. simpl. lia. Qed.

(** The host sees the integers the switch sends. *)
Lemma swap_deparse l : swap_words (deparse_lanes l) = int_bytes (unpair l).
Proof.
  induction l as [|[x y] l IH]; [done|].
  change (deparse_lanes ((x, y) :: l)) with ((be_bytes x ++ be_bytes y) ++ deparse_lanes l).
  change (int_bytes (unpair ((x, y) :: l)))
    with (le_bytes 4 (u32 x) ++ le_bytes 4 (u32 y) ++ int_bytes (unpair l)).
  rewrite (swap_words_app _ _ 2) by done. rewrite IH. done.
Qed.

Lemma be_bytes_parse l : Forall is_byte l -> length l = 4%nat -> be_bytes (to_int32 (be_num l)) = l.
Proof.
  intros Hl Hn. unfold be_bytes, be_num.
  assert (Forall is_byte (reverse l)) as Hr by by apply Forall_reverse.
  pose proof (le_num_bound _ Hr) as Hb. rewrite length_reverse, Hn in Hb.
  assert (u32 (to_int32 (le_num (reverse l))) = le_num (reverse l)) as ->.
  { unfold to_int32. destruct (Z.ltb_spec (le_num (reverse l)) (2 ^ 31)); [apply wrap_small; lia|].
    unfold wrap. rewrite <- (Z_mod_plus_full _ 1).
    rewrite Z.mul_1_l, Z.sub_add. apply Z.mod_small. lia. }
  rewrite <- (length_reverse l) in Hn. rewrite <- Hn, le_bytes_le_num by done.
  apply reverse_involutive.
Qed.

Lemma deparse_parse l n : length l = (8 * n)%nat -> Forall is_byte l -> deparse_lanes (parse_lanes l) = l.
Proof.
  revert l. induction n as [|n IH]; intros p Hp Hb; [by destruct p|].
  destruct p as [|a [|b [|c [|d [|e [|f [|g [|h p]]]]]]]]; simpl in Hp; try lia.
  decompose_Forall_hyps.
  change ((be_bytes (to_int32 (be_num [a; b; c; d])) ++ be_bytes (to_int32 (be_num [e; f; g; h])))
          ++ deparse_lanes (parse_lanes p) = a :: b :: c :: d :: e :: f :: g :: h :: p).
  rewrite !be_bytes_parse by (done || by repeat first [apply Forall_nil | apply Forall_cons; split]). rewrite IH by (done || lia). done.
Qed.

Lemma length_deparse l : length (deparse_lanes l) = (8 * length l)%nat.
Proof. induction l as [|[x y] l IH]; [done|]. simpl in *. lia. Qed.

Lemma swap_words_take l n k :
  length l = (4 * n)%nat -> swap_words (take (4 * k) l) = take (4 * k) (swap_words l).
Proof.
  intros Hl. revert k. apply (words_ind (fun l => forall k,
    swap_words (take (4 * k) l) = take (4 * k) (swap_words l))) with (n := n); [..|done].
  - intros k. cbn [swap_words]. by rewrite take_nil.
  - intros a b c d l' IH [|k]; [done|].
    replace (4 * S k)%nat with (S (S (S (S (4 * k))))) by lia. cbn [take swap_words].
    by rewrite IH.
Qed.

Lemma int_bytes_take l k : take (4 * k) (int_bytes l) = int_bytes (take k l).
Proof.
  revert k. induction l as [|x l IH]; intros k; [by destruct k|].
  destruct k as [|k]; [done|]. replace (4 * S k)%nat with (S (S (S (S (4 * k))))) by lia.
  change (int_bytes (x :: l)) with (le_bytes 4 (u32 x) ++ int_bytes l). cbn [le_bytes app take].
  rewrite IH. done.
Qed.

Lemma swap_words_zeros n : swap_words (replicate (4 * n) 0) = replicate (4 * n) 0.
Proof.
  induction n as [|n IH]; [done|].
  replace (4 * S n)%nat with (S (S (S (S (4 * n))))) by lia. cbn [replicate swap_words]. by rewrite IH.
Qed.

(** * A worker's packet in the switch *)

Section packets.
Context `{ConfigOk, SpscLaws, TransportLaws}.

(** The fields a worker leaves as [dpdk_init] has filled them in. *)
Lemma fill_pkt_keeps s so st :
  sub_op_ok (mem s) so -> sp_sub_op st = Some so -> in_memory (mem s) (sp_data st) (sp_size st) ->
  runs (fill_pkt st) s (fun st' _ =>
    ether_type (pkt (sp_pkt st')) = ether_type (pkt (sp_pkt st))
    /\ next_proto_id (ip (pkt (sp_pkt st'))) = next_proto_id (ip (pkt (sp_pkt st)))).
Proof.
  intros Hso E [d Hd]. pose proof (sok_agg_len _ _ Hso) as Hlen.
  unfold fill_pkt. run_step. eapply runs_the; [done|]. cbv zeta.
  unfold fill_inc. rewrite (proj2 (Z.eqb_neq (so_agg_len so) 0)) by lia.
  run_step. eapply runs_the; [done|]. destruct (need_tx (op so)).
  - run_step. unfold mem_read. do 3 run_step. eapply runs_the; [done|]. do 2 run_step. done.
  - by do 3 run_step.
Qed.

(** What the switch sums up of a packet with data [d]. *)
Definition sent_lanes (o : op_t) (old d : list Z) (size : Z) : list agg_pair :=
  if need_tx o then parse_lanes (fill_payload o old d size) else zero_lanes.

Lemma parse_filled s so st d dm sm :
  sub_op_ok (mem s) so -> sp_sub_op st = Some so -> 0 <= sp_psn st < 2 ^ 32 ->
  Z.of_nat (length (payload (pkt (sp_pkt st)))) = PAYLOAD_SIZE ->
  sp_size st <= PAYLOAD_SIZE -> (is_reduction (op so) = true -> sp_size st mod 4 = 0) ->
  buffer_read (mem s) (sp_data st) (sp_size st) = Some d -> Forall is_byte d ->
  so_agg_addr so + so_agg_len so <= 2 ^ 16 ->
  betoh 2 (ether_type (pkt (sp_pkt st))) = IP_PROTOCOL ->
  next_proto_id (ip (pkt (sp_pkt st))) = NETCCL_PROTOCOL ->
  runs (fill_pkt st) s (fun st' _ =>
    let h := parse dm sm (pkt (sp_pkt st')) in
    pass_cnt h = 1 /\ netccl_valid h = true
    /\ n_group_id h = group_id (group (op so)) /\ rank h = g_rank (group (op so))
    /\ psn h = sp_psn st /\ n_agg_addr h = so_agg_addr so + sp_psn st mod so_agg_len so
    /\ dip h = switch_ip (group (op so)) /\ length (lanes h) = 32%nat
    /\ lanes h = sent_lanes (op so) (payload (pkt (sp_pkt st))) d (sp_size st)).
Proof.
  intros Hso E Hpsn Hlen Hsize Ha Hd Hb Hagg Het Hnp.
  assert (in_memory (mem s) (sp_data st) (sp_size st)) as Hm by by exists d.
  eapply runs_mono; [apply runs_and; [by apply (fill_pkt_runs s so st)|by apply (fill_pkt_keeps s so st)]|].
  cbn beta. intros st' s' [(-> & Hr & Hf & d' & Hd' & Hp) [Ke Kn]].
  rewrite Hd in Hd'. injection Hd' as <-.
  pose proof (sok_agg_len _ _ Hso). pose proof (sok_agg_addr _ _ Hso).
  pose proof (Z.mod_pos_bound (sp_psn st) (so_agg_len so) ltac:(lia)).
  assert (betoh 2 (total_length (ip (pkt (sp_pkt st')))) =
    if need_tx (op so) then 286 else 30) as Elen.
  { pose proof (filled_len _ _ _ Hf) as Hl. rewrite (filled_pkt_len _ _ _ Hf) in Hl.
    destruct (need_tx (op so)); cbv [sizeof_eth_hdr sizeof_netccl_pkt sizeof_payload sizeof_inc_hdr sizeof_ipv4_hdr PAYLOAD_SIZE PAYLOAD_LEN sizeof_int32] in Hl; lia. }
  cbv zeta. unfold parse. rewrite Ke, Kn, Het, Hnp, Elen.
  cbn [pass_cnt netccl_valid n_group_id rank psn n_agg_addr dip lanes].
  rewrite !Z.eqb_refl. unfold sent_lanes. split_and!.
  - by destruct (need_tx (op so)).
  - by destruct (need_tx (op so)).
  - apply (filled_group _ _ _ Hf).
  - apply (filled_rank _ _ _ Hf).
  - apply (filled_psn _ _ _ Hf).
  - rewrite (filled_agg _ _ _ Hf). apply wrap_small. lia.
  - apply (filled_dst _ _ _ Hf).
  - destruct (need_tx (op so)) eqn:Etx; [|done]. cbn. apply length_parse_lanes.
    rewrite Hp. pose proof (fill_payload_spec (op so) _ d (sp_size st) Hlen) as Hs.
    destruct Hs as [Hs _]; try done; [by apply buffer_read_length in Hd|].
    unfold PAYLOAD_SIZE, PAYLOAD_LEN, sizeof_int32 in Hs. lia.
  - destruct (need_tx (op so)); [|done]. cbn. by rewrite Hp.
Qed.
(** C19: the switch parses a packet a worker has filled in as a packet of the
    group, from the worker's rank, with its sequence number and aggregator and
    its data as lanes; without data all lanes are zero. *)
Theorem switch_reads_worker_packet s so st d dm sm :
  sub_op_ok (mem s) so -> sp_sub_op st = Some so -> 0 <= sp_psn st < 2 ^ 32 ->
  Z.of_nat (length (payload (pkt (sp_pkt st)))) = PAYLOAD_SIZE ->
  sp_size st <= PAYLOAD_SIZE -> (is_reduction (op so) = true -> sp_size st mod 4 = 0) ->
  buffer_read (mem s) (sp_data st) (sp_size st) = Some d -> Forall is_byte d ->
  so_agg_addr so + so_agg_len so <= 2 ^ 16 ->
  betoh 2 (ether_type (pkt (sp_pkt st))) = IP_PROTOCOL ->
  next_proto_id (ip (pkt (sp_pkt st))) = NETCCL_PROTOCOL ->
  runs (fill_pkt st) s (fun st' _ =>
    let h := parse dm sm (pkt (sp_pkt st')) in
    pass_cnt h = 1 /\ netccl_valid h = true
    /\ n_group_id h = group_id (group (op so)) /\ rank h = g_rank (group (op so))
    /\ psn h = sp_psn st /\ n_agg_addr h = so_agg_addr so + sp_psn st mod so_agg_len so
    /\ dip h = switch_ip (group (op so)) /\ length (lanes h) = 32%nat
    /\ lanes h = sent_lanes (op so) (payload (pkt (sp_pkt st))) d (sp_size st)).
Proof. apply parse_filled. Qed.
End packets.

(** * The collective operation *)

(** Packet [p] of every host of the group, as bytes: [ops] is the operation on
    each host, [d] its data of [size] bytes. *)
Section collective.
Context {str : Stream}.
Variable ops : Z -> op_t.
Variable old d : Z -> list Z.
Variable size p : Z.

Record packet_data : Prop := {
  pd_size : 0 <= size <= PAYLOAD_SIZE;
  pd_old : forall r, is_host r -> Z.of_nat (length (old r)) = PAYLOAD_SIZE;
  pd_data : forall r, is_host r -> Z.of_nat (length (d r)) = size /\ Forall is_byte (d r);
  pd_lanes : forall r, is_host r -> lanes (host_packet r p) = sent_lanes (ops r) (old r) (d r) size;
}.

(** The bytes on the host of a result with lanes [l]. *)
Definition result_bytes (o : op_t) (l : list agg_pair) : list Z := host_data o (deparse_lanes l) size.

(** The sums of the integers of the hosts that send. *)
Definition host_sum (j : nat) : Z :=
  sumZ ((fun r => if need_tx (ops r) then host_words (d r) !!! j else 0) <$> seqZ 0 n_hosts).
Definition host_sums : list Z := host_sum <$> seq 0 (Z.to_nat (size / 4)).

Lemma lookup_unpair_total b j :
  (j < 64)%nat ->
  unpair (total b p) !! j = Some (psum (fun r => unpair (lanes (host_packet r p)) !!! j) b).
Proof.
  intros Hj. rewrite unpair_lookup. unfold total.
  assert (j / 2 < 32)%nat by (apply Nat.Div0.div_lt_upper_bound; lia).
  rewrite list_lookup_fmap. unfold lane_ids. rewrite lookup_seq_lt by done. cbn [fmap option_fmap option_map].
  f_equal. unfold cell, psum.
  destruct (Nat.even j) eqn:Ev; cbn [fst snd]; f_equal; apply list_fmap_ext; intros i r _;
    destruct (Z.testbit b r); try done; unfold lane; rewrite !list_lookup_total_alt, unpair_lookup, Ev;
    by destruct (lanes (host_packet r p) !! _).
Qed.

Hypothesis Hdata : packet_data.

Lemma sent_words r j :
  is_host r -> is_reduction (ops r) = true -> need_tx (ops r) = true -> size mod 4 = 0 ->
  (j < Z.to_nat (size / 4))%nat ->
  unpair (lanes (host_packet r p)) !!! j = host_words (d r) !!! j.
Proof.
  intros Hr Hred Htx H4 Hj. destruct Hdata as [Hs Ho Hd Hl]. rewrite (Hl r Hr). unfold sent_lanes.
  rewrite Htx. destruct (Hd r Hr) as [Hdl Hdb].
  destruct (fill_payload_spec (ops r) (old r) (d r) size) as (Hp1 & Hp2 & Hp3);
    [by apply Ho|done|lia|done|done|].
  set (pl := fill_payload (ops r) (old r) (d r) size) in *.
  pose proof (Z.div_mod size 4 ltac:(lia)). pose proof (Z.div_pos size 4 ltac:(lia) ltac:(lia)).
  unfold PAYLOAD_SIZE, PAYLOAD_LEN, sizeof_int32 in *.
  rewrite (parse_lanes_words _ 32) by lia.
  rewrite <- (take_drop (Z.to_nat size) pl).
  rewrite (swap_words_app _ _ (Z.to_nat (size / 4))) by (rewrite length_take; lia).
  unfold host_data in Hp2. rewrite Hred in Hp2. rewrite Hp2.
  rewrite (host_words_app _ _ (Z.to_nat (size / 4))) by lia.
  rewrite !list_lookup_total_alt, lookup_app_l; [done|].
  rewrite (length_host_words _ (Z.to_nat (size / 4))); lia.
Qed.

Lemma zero_lane k : (k < 32)%nat -> zero_lanes !!! k = (0, 0).
Proof. apply (lookup_total_replicate_2 32 (0, 0)). Qed.

Lemma lookup_zero_lanes j : (j < 64)%nat -> unpair zero_lanes !!! j = 0.
Proof.
  intros Hj. rewrite list_lookup_total_alt, unpair_lookup. unfold zero_lanes.
  assert (j / 2 < 32)%nat by (apply Nat.Div0.div_lt_upper_bound; lia).
  rewrite lookup_replicate_2 by done. by destruct (Nat.even j).
Qed.

Lemma psum_everyone f : 1 <= n_hosts -> psum f everyone = sumZ (f <$> seqZ 0 n_hosts).
Proof.
  intros Hn. unfold psum. f_equal. apply list_fmap_ext. intros i r Hr%list_elem_of_lookup_2.
  apply elem_of_seqZ in Hr. rewrite testbit_everyone by lia.
  by rewrite bool_decide_true by (unfold is_host; lia).
Qed.

Lemma sum_of_zeros (l : list Z) : sumZ ((fun _ => 0) <$> l) = 0.
Proof. induction l as [|x l IH]; [done|]. rewrite fmap_cons. simpl. lia. Qed.

(** Only host [q] has a value. *)
Lemma psum_only f q :
  1 <= n_hosts -> is_host q -> (forall r, is_host r -> r <> q -> f r = 0) -> psum f everyone = f q.
Proof.
  intros Hn Hq Hz. rewrite psum_everyone by done. rewrite (sumZ_upd f (fun _ => 0) _ q).
  - rewrite sum_of_zeros. lia.
  - apply NoDup_seqZ.
  - apply elem_of_seqZ. unfold is_host in Hq. lia.
  - intros r Hr. apply elem_of_seqZ in Hr. apply Hz. unfold is_host. lia.
Qed.

Lemma reduced_bytes r :
  group_ok -> is_host r -> (forall r', is_host r' -> is_reduction (ops r') = true) ->
  size mod 4 = 0 -> result_bytes (ops r) (total everyone p) = int_bytes host_sums.
Proof.
  intros Hok Hr Hred H4. pose proof (pd_size Hdata) as Hs. pose proof (ok_n Hok) as Hn.
  unfold PAYLOAD_SIZE, PAYLOAD_LEN, sizeof_int32 in Hs.
  pose proof (Z.div_mod size 4 ltac:(lia)). pose proof (Z.div_pos size 4 ltac:(lia) ltac:(lia)).
  assert (length (total everyone p) = 32%nat) as Hlen by apply length_fmap.
  unfold result_bytes, host_data. rewrite (Hred r Hr).
  replace (Z.to_nat size) with (4 * Z.to_nat (size / 4))%nat by lia.
  rewrite (swap_words_take _ 64) by (rewrite length_deparse, Hlen; done).
  rewrite swap_deparse, int_bytes_take. f_equal. unfold host_sums.
  apply list_eq_same_length with (n := Z.to_nat (size / 4)).
  - by rewrite length_fmap, length_seq.
  - rewrite length_take, length_unpair, Hlen. lia.
  - intros j x y Hj. rewrite lookup_take_lt by done. rewrite lookup_unpair_total by lia.
    rewrite list_lookup_fmap, lookup_seq_lt by done. cbn [fmap option_fmap option_map].
    intros Hx Hy. simplify_eq. rewrite psum_everyone by lia. unfold host_sum. f_equal.
    apply list_fmap_ext. intros i r' Hr'%list_elem_of_lookup_2. apply elem_of_seqZ in Hr'.
    assert (is_host r') as Hh by (unfold is_host; lia).
    destruct (need_tx (ops r')) eqn:Etx; [apply sent_words; auto|].
    rewrite (pd_lanes Hdata r' Hh). unfold sent_lanes. rewrite Etx. apply lookup_zero_lanes. lia.
Qed.

(** The lanes of the only host that sends. *)
Lemma total_only q :
  group_ok -> is_host q -> length (lanes (host_packet q p)) = 32%nat ->
  (forall r, is_host r -> r <> q -> lanes (host_packet r p) = zero_lanes) ->
  total everyone p = lanes (host_packet q p).
Proof.
  intros Hok Hq Hlen Hz. pose proof (ok_n Hok) as Hn.
  apply list_eq_same_length with (n := 32%nat); [by rewrite Hlen|apply length_fmap|].
  intros k x y Hk. unfold total. rewrite list_lookup_fmap. unfold lane_ids.
  rewrite lookup_seq_lt by done. cbn [fmap option_fmap option_map]. intros Hx Hy.
  injection Hx as <-. unfold cell. rewrite !(psum_only _ q); try done; try lia.
  - unfold lane. simpl. rewrite (list_lookup_total_correct _ _ _ Hy). by destruct y.
  - intros r Hr Hne. unfold lane. rewrite (Hz r Hr Hne). by rewrite zero_lane.
  - intros r Hr Hne. unfold lane. rewrite (Hz r Hr Hne). by rewrite zero_lane.
Qed.

Lemma broadcast_lanes r q :
  group_ok -> is_host r -> is_host q -> need_tx (ops q) = true ->
  (forall r', is_host r' -> r' <> q -> need_tx (ops r') = false) ->
  is_reduction (ops q) = false -> is_reduction (ops r) = false -> Forall is_byte (old q) ->
  result_bytes (ops r) (total everyone p) = d q.
Proof.
  intros Hok Hr Hq Htx Hno Hrq Hrr Hob.
  destruct Hdata as [Hs Ho Hd Hl]. destruct (Hd q Hq) as [Hdl Hdb].
  destruct (fill_payload_spec (ops q) (old q) (d q) size) as (Hp1 & Hp2 & _);
    [by apply Ho|done|lia|by rewrite Hrq|done|].
  pose proof (fill_payload_bytes (ops q) (old q) (d q) size) as Hpb.
  assert (lanes (host_packet q p) = parse_lanes (fill_payload (ops q) (old q) (d q) size)) as Elq.
  { rewrite (Hl q Hq). unfold sent_lanes. by rewrite Htx. }
  assert (Z.of_nat (length (fill_payload (ops q) (old q) (d q) size)) = 256) as Hp3 by done.
  rewrite (total_only q); [|done..|rewrite Elq; apply length_parse_lanes; lia|].
  - unfold result_bytes, host_data. rewrite Hrr, Elq, (deparse_parse _ 32); [|lia|].
    + unfold host_data in Hp2. by rewrite Hrq in Hp2.
    + apply Hpb; try done; [by apply Ho|lia|by rewrite Hrq].
  - intros r' Hr' Hne. rewrite (Hl r' Hr'). unfold sent_lanes. by rewrite (Hno r' Hr' Hne).
Qed.
End collective.

(** An all-reduce, or a reduce, computes in the buffers of the hosts: the
    bytes a host stores for a packet are the 32-bit sums of the integers in
    the buffers of the hosts that send. *)
Theorem reduction_sums_buffers {str : Stream} ops old d size p s r l :
  group_ok -> reachable s -> is_host r -> packet_data ops old d size p ->
  (forall r', is_host r' -> is_reduction (ops r') = true) -> size mod 4 = 0 ->
  h_results (hosts s r) !! p = Some (Some l) ->
  result_bytes size (ops r) l = int_bytes (host_sums ops d size).
Proof.
  intros Hok Hs Hr Hdata Hred H4 Hres. pose proof (stream_reachable_inv Hok s Hs) as Hi.
  destruct (hi_results _ _ (inv_host _ Hi r Hr) p _ Hres) as [_ Hl]. rewrite (Hl l eq_refl).
  by eapply reduced_bytes.
Qed.

(** C21: a broadcast copies: when one host sends and the operation is not a
    reduction, the bytes every host stores for a packet are the sender's. *)
Theorem broadcast_copies_buffer {str : Stream} ops old d size p s r q l :
  group_ok -> reachable s -> is_host r -> is_host q -> packet_data ops old d size p ->
  need_tx (ops q) = true -> (forall r', is_host r' -> r' <> q -> need_tx (ops r') = false) ->
  is_reduction (ops q) = false -> is_reduction (ops r) = false -> Forall is_byte (old q) ->
  h_results (hosts s r) !! p = Some (Some l) -> result_bytes size (ops r) l = d q.
Proof.
  intros Hok Hs Hr Hq Hdata Htx Hno Hrq Hrr Hob Hres.
  pose proof (stream_reachable_inv Hok s Hs) as Hi.
  destruct (hi_results _ _ (inv_host _ Hi r Hr) p _ Hres) as [_ Hl]. rewrite (Hl l eq_refl).
  by eapply broadcast_lanes.
Qed.
