(* ===== verification/Cluster.v ===== *)
(** The workers of a group and the switch together: one worker thread on every
    host, running the code of [Worker.v] on its own memory, and the pipeline of
    [Switch.v], joined by a network that loses, delays, duplicates and reorders
    packets both ways, as long as no packet gets to the switch after one that
    the same host has numbered a whole window higher ([fresh] of
    [Protocol.v], which says when a network meets it).  The match tables of
    the switch may change from packet to packet, but not the entries of the
    group ([group_tables]), and the control plane may reset the registers of
    other groups.

    A cluster refines the system of [Protocol.v]: what that file takes for
    granted of a host, the code of the worker does.  So its result holds of the
    bytes in the memories of the workers. *)

From S2P Require Import Prelude.
From S2P Require Import Types.
From S2P Require Import Endian.
From S2P Require Import Config.
From S2P Require Import Congestion.
From S2P Require Import QueuePair.
From S2P Require Import Worker.
From S2P Require Import Window.
From S2P Require Import WorkerInv.
From S2P Require Import Receive.
From S2P Require Import Packet.
From S2P Require Import Send.
From S2P Require Import WorkerSafety.
From S2P Require Import Switch.
From S2P Require Import Aggregation.
From S2P Require Import Protocol.
From S2P Require Import Wire.

Section cluster.
Context `{ConfigOk, SpscLaws, TransportLaws}.
Context {str : Stream}.

(** The Ethernet addresses the packets of a host carry. *)
Variable dm sm : Z -> Z.

(** * The system *)

Record cluster := {
  workers : Z -> worker;
  c_regs : registers;
  c_up : Z -> list mbuf;           (** on the way from a host *)
  c_recirculating : list headers;
  c_answers : list headers;        (** everything the second pass has sent *)
  c_next : Z -> Z;                 (** (never read) the packets a host has generated *)
  c_seen : Z -> Z;                 (** the highest number the switch has got from a host *)
  c_given : Z -> list sub_op_t;    (** (never read) the sub-operations a worker has been handed *)
}.

(** What a worker has handed to its transport since. *)
Definition sent_since (w w' : worker) : list mbuf :=
  (drop (length (tp_sent (tp w))) (tp_sent (tp w'))).*2.

(** The worker of host [r] has gone on to [w'], having generated [n] packets. *)
Definition advance (c : cluster) (r : Z) (w' : worker) (n : Z) : cluster :=
  {| c with workers := upd (workers c) r w';
            c_up := upd (c_up c) r (c_up c r ++ sent_since (workers c r) w');
            c_next := upd (c_next c) r (c_next c r + n) |}.

(** The packet buffer [m] is packet [p] of the stream of host [r]. *)
Definition is_packet (r : Z) (m : mbuf) (p : Z) : Prop :=
  parse (dm r) (sm r) (pkt m) = host_packet r p.

(** The packet buffer [m] holds the answer [h], as the deparser emits it. *)
Record carries (m : mbuf) (h : headers) : Prop := {
  ca_ok : mbuf_ok m;
  ca_psn : get_psn m = psn h;
  ca_group : get_group_id m = n_group_id h;
  ca_payload : payload_valid h = true -> payload (pkt m) = deparse_lanes (lanes h);
}.

(** How many packets a worker has put into its window, and which. *)
Definition growth (w w' : worker) : Z := window_len w' - window_len w.
Definition grown_slot (w w' : worker) (i : nat) : option pkt_state_t :=
  znth (slots (window w')) (pos_at (to_send (window w)) i).

(** The stream of a host is by definition what its worker generates; there are
    less than [2^32] packets. *)
Definition in_stream (r n : Z) (w w' : worker) : Prop :=
  n + growth w w' <= 2 ^ 32
  /\ forall i st, (i < Z.to_nat (growth w w'))%nat -> grown_slot w w' i = Some st ->
       is_packet r (sp_pkt st) (n + Z.of_nat i).

(** The packet in [m] is at most a window behind the newest the switch has got
    from host [r]; it gets to the switch. *)
Definition c_fresh (c : cluster) (r : Z) (m : mbuf) : Prop :=
  c_seen c r - max_win < psn (parse (dm r) (sm r) (pkt m)).
Definition seen_with (c : cluster) (r : Z) (m : mbuf) : Z -> Z :=
  upd (c_seen c) r (Z.max (c_seen c r) (psn (parse (dm r) (sm r) (pkt m)))).

(** A sub-operation of the group. *)
Definition stream_op (so : sub_op_t) : Prop :=
  group_of so = grp /\ so_agg_addr so = base_addr /\ so_agg_len so = range_len.

(** The pieces a round of [worker_loop] is made of, and what happens around. *)
Inductive cstep : cluster -> cluster -> Prop :=
  | c_receive c r h t rid marked h' m w' :
    (** [rx_process_one], on an answer of the switch *)
    is_host r -> h ∈ c_answers c -> egress t rid marked false h = Some h' -> carries m h' ->
    rx_process_one m (workers c r) = Ok (tt, w') ->
    cstep c (advance c r w' 0)
  | c_slide c r w' :
    (** [shift_ack] *)
    is_host r -> shift_ack (workers c r) = Ok (tt, w') ->
    cstep c (advance c r w' 0)
  | c_transmit c r w' :
    (** [tx_process] *)
    is_host r -> tx_process (workers c r) = Ok (tt, w') ->
    in_stream r (c_next c r) (workers c r) w' ->
    cstep c (advance c r w' (growth (workers c r) w'))
  | c_clock c r ts :
    is_host r -> cstep c (advance c r {| (workers c r) with global_ts := ts |} 0)
  | c_congestion c r cs :
    is_host r ->
    (let w := workers c r in
     congestion_control (global_ts w) (ack_cnt w) (traffic_todo w) (window_len w) (ccs w)
       = Ok (tt, cs)) ->
    cstep c (advance c r {| (workers c r) with ccs := cs |} 0)
  | c_report c r :
    is_host r -> cstep c (advance c r (restart_counts (workers c r)) 0)
  | c_network c r t :
    (** the device and the packet buffer do their part *)
    is_host r -> tp_inv t -> tp_sent t = tp_sent (tp (workers c r)) ->
    cstep c (advance c r {| (workers c r) with tp := t |} 0)
  | c_push c r so q' :
    (** the load balancer hands over a sub-operation ... *)
    is_host r -> sub_op_ok (mem (workers c r)) so -> stream_op so ->
    push_req so (qp (workers c r)) = Ok (true, q') ->
    cstep c {| (advance c r {| (workers c r) with qp := q' |} 0) with
               c_given := upd (c_given c) r (c_given c r ++ [so]) |}
  | c_collect c r so q1 q' :
    (** ... and collects an answer *)
    is_host r -> front_resp (qp (workers c r)) = Ok (Some so, q1) -> pop_resp q1 = Ok (tt, q') ->
    cstep c (advance c r {| (workers c r) with qp := q' |} 0)
  | c_lose c r l1 m l2 :
    is_host r -> c_up c r = l1 ++ m :: l2 ->
    cstep c {| c with c_up := upd (c_up c) r (l1 ++ l2) |}
  | c_duplicate c r l1 m l2 :
    is_host r -> c_up c r = l1 ++ m :: l2 ->
    cstep c {| c with c_up := upd (c_up c) r (l1 ++ m :: m :: l2) |}
  | c_drop c r l1 m l2 t h rs :
    (** first pass of any packet on the way *)
    is_host r -> c_up c r = l1 ++ m :: l2 -> c_fresh c r m -> group_tables t ->
    ingress t (parse (dm r) (sm r) (pkt m)) (c_regs c) = (Drop, h, rs) ->
    cstep c {| c with c_regs := rs; c_up := upd (c_up c) r (l1 ++ l2); c_seen := seen_with c r m |}
  | c_recirculate c r l1 m l2 t port h rs t' rid marked dropped :
    is_host r -> c_up c r = l1 ++ m :: l2 -> c_fresh c r m -> group_tables t ->
    ingress t (parse (dm r) (sm r) (pkt m)) (c_regs c) = (Unicast port, h, rs) ->
    cstep c {| c with c_regs := rs; c_up := upd (c_up c) r (l1 ++ l2); c_seen := seen_with c r m;
                      c_recirculating := c_recirculating c ++
                        option_list (egress t' rid marked dropped h) |}
  | c_second c l1 h l2 t v h' rs :
    (** second pass *)
    c_recirculating c = l1 ++ h :: l2 -> ingress t h (c_regs c) = (v, h', rs) ->
    cstep c {| c with c_regs := rs; c_recirculating := l1 ++ l2;
                      c_answers := c_answers c ++ [h'] |}
  | c_other c h t v h' rs :
    (** a packet of another range *)
    ~ base_addr <= n_agg_addr h < base_addr + range_len ->
    ingress t h (c_regs c) = (v, h', rs) ->
    cstep c {| c with c_regs := rs |}
  | c_reset c rs :
    (** the control plane resets the registers of another group *)
    range_kept (c_regs c) rs -> cstep c {| c with c_regs := rs |}.

(** The group has just been created; the workers have been brought up and have
    sent nothing in this group.  [CC_CWND_MIN], the initial limit, is
    documented to be at most half of the range of a worker. *)
Record c_initial (c : cluster) : Prop := {
  ci_start : forall r, is_host r -> worker_start (workers c r);
  ci_psn : forall r, is_host r -> group_psn_of grp (workers c r) = 0;
  ci_limit : forall r, is_host r -> current_switch_window_limit (workers c r) <= max_win;
  ci_bitmap : forall a, base_addr <= a < base_addr + range_len -> bitmap_at (c_regs c) a = (0, 0);
  ci_cells : forall a, base_addr <= a < base_addr + range_len ->
    length (cells_at (c_regs c) a) = 32%nat;
  ci_up : forall r, c_up c r = [];
  ci_recirculating : c_recirculating c = [];
  ci_answers : c_answers c = [];
  ci_next : forall r, c_next c r = 0;
  ci_given : forall r, c_given c r = [];
  ci_seen : forall r, c_seen c r = -1;
}.

Definition c_reachable (c : cluster) : Prop := exists c0, c_initial c0 /\ rtc cstep c0 c.

(** * The simulation *)

(** The worker [w], with the packets [l] in flight, is the host [h]. *)
Record host_sim (r : Z) (w : worker) (l : list pkt_state_t) (h : host) : Prop := {
  hs_inv : worker_inv w l (h_base h);
  hs_next : h_next h = h_base h + Z.of_nat (length l);
  hs_range : 0 <= h_base h /\ h_next h <= 2 ^ 32;
  hs_stream : stream_next grp w = u32 (h_next h);
  hs_group : l <> [] -> current_group_id w = grp;
  hs_limit : current_switch_window_limit w <= max_win;
  hs_queue : Forall stream_op (contents (wq (qp w)));
  hs_acked : forall k st, l !! k = Some st ->
    (acked st = true <-> is_Some (h_results h !! (h_base h + Z.of_nat k)));
  hs_later : forall p, h_next h <= p -> h_results h !! p = None;
  hs_packets : forall k st, l !! k = Some st -> is_packet r (sp_pkt st) (h_base h + Z.of_nat k);
}.

Record csim (c : cluster) (s : system) : Prop := {
  cs_regs : regs s = c_regs c;
  cs_recirculating : recirculating s = c_recirculating c;
  cs_answers : answers s = c_answers c;
  cs_up : forall r, is_host r -> Forall2 (is_packet r) (c_up c r) (up s r);
  cs_host : forall r, is_host r -> exists l, host_sim r (workers c r) l (hosts s r);
  cs_next : forall r, is_host r -> c_next c r = h_next (hosts s r);
  cs_seen : forall r, seen s r = c_seen c r;
}.

(** ** Steps of one host *)

(** Host [r] has become [h] and has sent the packets [ps]. *)
Record moved (s s' : system) (r : Z) (h : host) (ps : list Z) : Prop := {
  mv_regs : regs s' = regs s;
  mv_recirculating : recirculating s' = recirculating s;
  mv_answers : answers s' = answers s;
  mv_host : hosts s' r = h;
  mv_up : up s' r = up s r ++ ps;
  mv_seen : seen s' = seen s;
  mv_others : forall r', r' <> r -> hosts s' r' = hosts s r' /\ up s' r' = up s r';
}.

(** There is a run of [Protocol] that does it. *)
Definition moves (s : system) (r : Z) (h : host) (ps : list Z) : Prop :=
  exists s', rtc step s s' /\ moved s s' r h ps.

Lemma moves_nil s r : moves s r (hosts s r) [].
Proof. exists s. split; [done|]. constructor; try done. by rewrite app_nil_r. Qed.

Lemma moves_step s s1 r h1 h2 ps1 ps2 :
  rtc step s s1 -> moved s s1 r h1 ps1 -> (hosts s1 r = h1 -> moves s1 r h2 ps2) ->
  moves s r h2 (ps1 ++ ps2).
Proof.
  intros Hs M1 HM. destruct (HM (mv_host _ _ _ _ _ M1)) as (s2 & Hs2 & M2).
  exists s2. split; [by etransitivity|]. destruct M1, M2.
  constructor; try congruence; [by rewrite mv_up1, mv_up0, app_assoc|].
  intros r' Hne. destruct (mv_others0 r' Hne), (mv_others1 r' Hne). split; congruence.
Qed.

Lemma moves_trans s r h1 h2 ps1 ps2 :
  moves s r h1 ps1 -> (forall s1, hosts s1 r = h1 -> moves s1 r h2 ps2) ->
  moves s r h2 (ps1 ++ ps2).
Proof. intros (s1 & Hs & M1) HM. eapply moves_step; [done..|]. apply HM. Qed.

Lemma resend_moves s r ps :
  is_host r -> Forall (fun p => h_base (hosts s r) <= p < h_next (hosts s r)) ps ->
  moves s r (hosts s r) ps.
Proof.
  intros Hr. revert s. induction ps as [|p ps IH]; intros s Hps; [apply moves_nil|].
  apply Forall_cons in Hps as [Hp Hps].
  eapply (moves_step s _ r (hosts s r) _ [p]); [apply rtc_once, (step_resend s r p Hr Hp)|..].
  - constructor; cbn; rewrite ?upd_eq; try done. intros r' Hne. by rewrite upd_ne.
  - cbn. intros _. match goal with |- moves ?x _ _ _ => exact (IH x Hps) end.
Qed.

Lemma send_moves s r n :
  is_host r ->
  n = 0%nat \/ h_next (hosts s r) + Z.of_nat n <= h_base (hosts s r) + max_win ->
  h_next (hosts s r) + Z.of_nat n <= 2 ^ 32 ->
  moves s r {| (hosts s r) with h_next := h_next (hosts s r) + Z.of_nat n |}
    (seqZ (h_next (hosts s r)) (Z.of_nat n)).
Proof.
  intros Hr. revert s. induction n as [|n IH]; intros s Hw Hp.
  { cbn. rewrite Z.add_0_r. destruct (hosts s r) eqn:E. cbn. rewrite <- E. apply moves_nil. }
  rewrite seqZ_cons by lia. change (?x :: ?l) with ([x] ++ l).
  eapply moves_step; [apply rtc_once; eapply (step_send s r _ Hr eq_refl); lia|..].
  - constructor; cbn; rewrite ?upd_eq; try done. intros r' Hne. by rewrite !upd_ne.
  - cbn. intros _. match goal with |- moves ?x _ _ _ => set (s1 := x) end.
    assert (hosts s1 r = {| (hosts s r) with h_next := h_next (hosts s r) + 1 |}) as E
      by (unfold s1; cbn; by rewrite upd_eq).
    specialize (IH s1). rewrite E in IH. cbn in IH.
    replace (Z.pred (Z.of_nat (S n))) with (Z.of_nat n) by lia.
    replace (h_next (hosts s r) + Z.of_nat (S n)) with (h_next (hosts s r) + 1 + Z.of_nat n) by lia.
    rewrite <- Z.add_1_r. apply IH; lia.
Qed.

Lemma answer_moves s r h t rid marked h' :
  is_host r -> h ∈ answers s -> egress t rid marked false h = Some h' ->
  h_base (hosts s r) <= psn h' < h_next (hosts s r) -> h_results (hosts s r) !! psn h' = None ->
  moves s r {| (hosts s r) with h_results :=
    <[psn h' := if payload_valid h' then Some (lanes h') else None]> (h_results (hosts s r)) |} [].
Proof.
  intros Hr Hin He Hp Hn. eexists. split; [apply rtc_once; by eapply step_answer|].
  constructor; cbn; rewrite ?upd_eq, ?app_nil_r; try done. intros r' Hne. by rewrite upd_ne.
Qed.

Lemma slide_moves s r n :
  is_host r -> h_base (hosts s r) + Z.of_nat n <= h_next (hosts s r) ->
  (forall k, (k < n)%nat -> is_Some (h_results (hosts s r) !! (h_base (hosts s r) + Z.of_nat k))) ->
  moves s r {| (hosts s r) with h_base := h_base (hosts s r) + Z.of_nat n |} [].
Proof.
  intros Hr. revert s. induction n as [|n IH]; intros s Hw Hres.
  { cbn. rewrite Z.add_0_r. destruct (hosts s r) eqn:E. cbn. rewrite <- E. apply moves_nil. }
  change ([] : list Z) with ([] ++ [] : list Z).
  eapply moves_step; [apply rtc_once, (step_slide s r Hr)|..].
  - specialize (Hres 0%nat ltac:(lia)). by rewrite Z.add_0_r in Hres.
  - lia.
  - constructor; cbn; rewrite ?upd_eq, ?app_nil_r; try done. intros r' Hne. by rewrite upd_ne.
  - cbn. intros _. match goal with |- moves ?x _ _ _ => set (s1 := x) end.
    assert (hosts s1 r = {| (hosts s r) with h_base := h_base (hosts s r) + 1 |}) as E
      by (unfold s1; cbn; by rewrite upd_eq).
    specialize (IH s1). rewrite E in IH. cbn in IH.
    replace (h_base (hosts s r) + Z.of_nat (S n)) with (h_base (hosts s r) + 1 + Z.of_nat n) by lia.
    apply IH; [lia|]. intros k Hk. specialize (Hres (S k) ltac:(lia)).
    by replace (h_base (hosts s r) + 1 + Z.of_nat k) with (h_base (hosts s r) + Z.of_nat (S k)) by lia.
Qed.

(** ** The worker *)

Lemma inv_base w l b b' :
  l = [] \/ u32 b = u32 b' -> worker_inv w l b -> worker_inv w l b'.
Proof.
  intros Hb [Hc Hl Hr]. destruct l as [|st0 l0]; [|destruct Hb as [?|Hb]; [done|]].
  { constructor; [|by intros ?..]. destruct Hc. by constructor. }
  assert (forall x, u32 (b' + x) = u32 (b + x)) as E.
  { intros x. by rewrite <- wrap_add_l, <- Hb, wrap_add_l. }
  constructor.
  - constructor; try apply Hc; intros; rewrite E; by apply Hc.
  - intros Hne. by rewrite (Hl Hne).
  - intros Hne. rewrite (Hr Hne). rewrite <- !Z.add_sub_assoc. by rewrite E.
Qed.

Lemma sent_since_app w w' log :
  tp_sent (tp w') = tp_sent (tp w) ++ log -> sent_since w w' = log.*2.
Proof. intros E. unfold sent_since. by rewrite E, drop_app_length. Qed.

Lemma sent_since_same w w' : tp_sent (tp w') = tp_sent (tp w) -> sent_since w w' = [].
Proof. intros E. apply (sent_since_app _ _ []). by rewrite app_nil_r. Qed.

Lemma elem_of_placed a i l e : e ∈ placed a i l -> e.2 ∈ l.
Proof.
  unfold placed. revert i. induction l as [|st l IH]; intros i; [by intros ?%elem_of_nil|].
  change (imap _ (st :: l)) with (placed a i (st :: l)). rewrite placed_cons.
  intros [->|Hin]%elem_of_cons; [by left|right]. by apply (IH (S i)).
Qed.

Section host.
Context (r : Z) (w : worker) (l : list pkt_state_t) (h : host) (Hsim : host_sim r w l h).

(** Every packet of a log of slots of the window is one of the stream. *)
Lemma log_packets (log : list (Z * pkt_state_t)) :
  (forall e, e ∈ log -> e.2 ∈ l) -> exists ps,
    Forall2 (is_packet r) (to_wire <$> log).*2 ps
    /\ Forall (fun p => h_base h <= p < h_next h) ps.
Proof.
  induction log as [|e log IH]; intros He; [by exists []|].
  destruct IH as (ps & Hps & Hw); [intros; apply He; by right|].
  assert (e.2 ∈ l) as [k Hk]%list_elem_of_lookup_1 by (apply He; by left).
  exists (h_base h + Z.of_nat k :: ps). rewrite !fmap_cons. split.
  - constructor; [|done]. by apply (hs_packets _ _ _ _ Hsim).
  - constructor; [|done]. rewrite (hs_next _ _ _ _ Hsim). pose proof (lookup_lt_Some _ _ _ Hk). lia.
Qed.

(** A change the protocol does not see. *)
Lemma sim_quiet w' :
  worker_inv w' l (h_base h) -> same_gen w w' -> Forall stream_op (contents (wq (qp w'))) ->
  host_sim r w' l h.
Proof.
  intros Hi Hg Hq. destruct Hsim. constructor; try done.
  - by rewrite (same_gen_stream _ _ _ Hg).
  - destruct Hg as (_ & _ & _ & ->). done.
  - destruct Hg as (_ & _ & -> & _). done.
Qed.

(** The packet an answer acknowledges. *)
Lemma answer_index m k st :
  0 <= get_psn m < 2 ^ 32 -> fresh_ack w l (h_base h) m = Some (k, st) ->
  l !! k = Some st /\ acked st = false /\ get_psn m = h_base h + Z.of_nat k
  /\ (k < length l)%nat.
Proof.
  intros Hm (Hk & Ha & Hj)%fresh_ack_lookup. split; [done|]. split; [done|].
  pose proof (ack_index_lt _ _ _ _ _ Hj) as Hlt. split; [|done].
  unfold ack_index in Hj. destruct (_ && _); [|done]. injection Hj as Hj.
  pose proof (hs_range _ _ _ _ Hsim). pose proof (hs_next _ _ _ _ Hsim).
  pose proof (wrap_range 32 (get_psn m - h_base h) ltac:(lia)).
  assert (Z.of_nat k = get_psn m ⊖ h_base h) as E by lia. rewrite E. clear Hj.
  destruct (Z.le_gt_cases (h_base h) (get_psn m)).
  - rewrite (wrap_small 32) by lia. lia.
  - exfalso. assert (get_psn m ⊖ h_base h = get_psn m - h_base h + 2 ^ 32) as E2; [|lia].
    symmetry. unfold wrap. apply (Z.mod_unique_pos _ _ (-1)); lia.
Qed.

(** Marking a packet is taking its answer. *)
Lemma sim_mark k st d w' :
  l !! k = Some st -> worker_inv w' (<[k := {| st with acked := true |}]> l) (h_base h) ->
  same_gen w w' -> qp w' = qp w ->
  host_sim r w' (<[k := {| st with acked := true |}]> l)
    {| h with h_results := <[h_base h + Z.of_nat k := d]> (h_results h) |}.
Proof.
  intros Hk Hi Hg Hq. pose proof (lookup_lt_Some _ _ _ Hk) as Hlt.
  assert (<[k := {| st with acked := true |}]> l <> [] -> l <> []) as Hne.
  { intros Hn ->. by apply Hn. }
  destruct Hsim. constructor; cbn [h_base h_next h_results]; try done.
  - by rewrite length_insert.
  - by rewrite (same_gen_stream _ _ _ Hg).
  - intros Hn. destruct Hg as (_ & _ & _ & ->). by apply hs_group0, Hne.
  - destruct Hg as (_ & _ & -> & _). done.
  - by rewrite Hq.
  - intros j st' Hj. destruct (decide (j = k)) as [->|Hjk].
    + rewrite list_lookup_insert_eq in Hj by done. injection Hj as <-.
      rewrite lookup_insert_eq. by split.
    + rewrite list_lookup_insert_ne in Hj by done. rewrite lookup_insert_ne by lia. by apply hs_acked0.
  - intros p Hp. rewrite lookup_insert_ne by lia. by apply hs_later0.
  - intros j st' Hj. destruct (decide (j = k)) as [->|Hjk].
    + rewrite list_lookup_insert_eq in Hj by done. injection Hj as <-. exact (hs_packets0 k st Hk).
    + rewrite list_lookup_insert_ne in Hj by done. by apply hs_packets0.
Qed.

(** Sliding the window. *)
Lemma sim_slide n w' :
  (n <= length l)%nat -> worker_inv w' (drop n l) (h_base h + Z.of_nat n) ->
  same_gen w w' -> contents (wq (qp w')) = contents (wq (qp w)) ->
  host_sim r w' (drop n l) {| h with h_base := h_base h + Z.of_nat n |}.
Proof.
  intros Hn Hi Hg Hq. destruct Hsim. constructor; cbn [h_base h_next h_results]; try done.
  - rewrite length_drop. lia.
  - lia.
  - by rewrite (same_gen_stream _ _ _ Hg).
  - intros Hne. destruct Hg as (_ & _ & _ & ->). apply hs_group0. intros ->. by rewrite drop_nil in Hne.
  - destruct Hg as (_ & _ & -> & _). done.
  - by rewrite Hq.
  - intros k st Hk. rewrite lookup_drop in Hk.
    replace (h_base h + Z.of_nat n + Z.of_nat k) with (h_base h + Z.of_nat (n + k)) by lia. by apply hs_acked0.
  - intros k st Hk. rewrite lookup_drop in Hk.
    replace (h_base h + Z.of_nat n + Z.of_nat k) with (h_base h + Z.of_nat (n + k)) by lia. by apply hs_packets0.
Qed.
End host.

(** ** The pieces of a round *)

(** The protocol can follow the worker of host [r] from [w] to [w'], [n] packets
    on. *)
Definition follows (s : system) (r : Z) (w w' : worker) (n : Z) : Prop :=
  exists l' h' ps, moves s r h' ps /\ host_sim r w' l' h'
    /\ Forall2 (is_packet r) (sent_since w w') ps /\ h_next h' = h_next (hosts s r) + n.

Lemma acked_prefix l k st : (k < acked_len l)%nat -> l !! k = Some st -> acked st = true.
Proof.
  revert k. induction l as [|x l IH]; intros k; [done|]. cbn [acked_len].
  destruct (acked x) eqn:E; [|lia]. destruct k as [|k]; [by intros _ [= <-]|].
  cbn. intros Hk. apply IH. lia.
Qed.

Section pieces.
Context (s : system) (r : Z) (w : worker) (l : list pkt_state_t).
Context (Hr : is_host r) (Hsim : host_sim r w l (hosts s r)).

Lemma follows_quiet w' :
  worker_inv w' l (h_base (hosts s r)) -> same_gen w w' ->
  Forall stream_op (contents (wq (qp w'))) -> tp_sent (tp w') = tp_sent (tp w) ->
  follows s r w w' 0.
Proof.
  intros Hi Hg Hq Ht. exists l, (hosts s r), []. split; [apply moves_nil|].
  split; [by eapply sim_quiet|]. rewrite (sent_since_same _ _ Ht). split; [constructor|lia].
Qed.

Lemma receive_follows h t rid marked h' m w' :
  group_ok -> Protocol.inv s -> h ∈ answers s -> egress t rid marked false h = Some h' ->
  carries m h' -> rx_process_one m w = Ok (tt, w') -> follows s r w w' 0.
Proof.
  intros Hok Hi Hin He Hm Hrun. pose proof (hs_inv _ _ _ _ Hsim) as Hw.
  pose proof (runs_det _ _ _ _ _ Hrun (rx_process_one_runs w l _ m Hw (ca_ok _ _ Hm))) as (Hg & Hq & Hf).
  destruct (fresh_ack w l (h_base (hosts s r)) m) as [[k st]|] eqn:Ef.
  2:{ destruct Hf as (Hi' & _ & _ & Et). apply follows_quiet; try done; [|by rewrite Et].
      rewrite Hq. apply Hsim. }
  destruct Hf as (so & _ & Hi' & _ & _ & Hlog & _).
  destruct (inv_answer _ Hi h Hin) as [Hig Hc _].
  destruct (egress_keeps _ _ _ _ _ (ig_valid _ Hig) He) as (Ep & _).
  pose proof (proj1 (inv_completed _ Hi _ Hc)) as Hrange. rewrite <- Ep, <- (ca_psn _ _ Hm) in Hrange.
  destruct (answer_index _ _ _ _ Hsim m k st Hrange Ef) as (Hk & Ha & Hpsn & Hlt).
  pose proof (hs_next _ _ _ _ Hsim) as Hnext.
  assert (h_results (hosts s r) !! psn h' = None) as Hnone.
  { rewrite <- (ca_psn _ _ Hm), Hpsn. destruct (h_results _ !! _) as [d|] eqn:Ed; [|done].
    pose proof (proj2 (hs_acked _ _ _ _ Hsim k st Hk) ltac:(by rewrite Ed)). congruence. }
  assert (Hwin : h_base (hosts s r) <= psn h' < h_next (hosts s r))
    by (rewrite <- (ca_psn _ _ Hm), Hpsn; lia).
  destruct (log_packets r w l _ Hsim
    (placed (to_ack (window w)) (k - gap l k) (take (gap l k) (drop (k - gap l k) l))))
    as (ps & Hps & Hpw).
  { intros e He'%elem_of_placed. apply elem_of_take in He' as (i & Hi2 & _).
    rewrite lookup_drop in Hi2. by eapply list_elem_of_lookup_2. }
  set (d := if payload_valid h' then Some (lanes h') else None).
  exists (<[k := {| st with acked := true |}]> l),
    {| (hosts s r) with h_results := <[h_base (hosts s r) + Z.of_nat k := d]> (h_results (hosts s r)) |}, ps.
  split; [|split; [by apply (sim_mark r w)|split; [|cbn; lia]]].
  - rewrite <- Hpsn, (ca_psn _ _ Hm). change ps with ([] ++ ps).
    eapply moves_trans; [by eapply answer_moves|].
    intros s1 E. unfold d. rewrite <- E. apply resend_moves; [done|]. by rewrite E.
  - rewrite (sent_since_app _ _ _ Hlog). exact Hps.
Qed.

Lemma slide_follows w' : shift_ack w = Ok (tt, w') -> follows s r w w' 0.
Proof.
  intros Hrun. pose proof (hs_inv _ _ _ _ Hsim) as Hw.
  pose proof (runs_det _ _ _ _ _ Hrun (shift_ack_runs w l _ Hw)) as (Hi & _ & Hq & Hg & _ & Et & _).
  pose proof (acked_len_le l) as Hn. pose proof (hs_next _ _ _ _ Hsim) as Hnext.
  eexists _, _, []. split; [|split; [by eapply sim_slide|split]].
  - apply slide_moves; [done|lia|]. intros k Hk.
    destruct (lookup_lt_is_Some_2 l k) as [st Hst]; [lia|].
    apply (hs_acked _ _ _ _ Hsim k st Hst). by eapply acked_prefix.
  - rewrite sent_since_same by by rewrite Et. constructor.
  - cbn. lia.
Qed.

Lemma unacked_in (a : Z) i (l0 : list pkt_state_t) e :
  e ∈ filter unacked (placed a i l0) -> e.2 ∈ l0.
Proof. intros [_ ?]%list_elem_of_filter. by eapply elem_of_placed. Qed.

(** The base of the window after it has grown. *)
Lemma grown_base w' new base' :
  worker_inv w' (l ++ new) base' -> (l <> [] -> base' = h_base (hosts s r)) ->
  tracks w l new base' w' -> worker_inv w' (l ++ new) (h_base (hosts s r)).
Proof.
  intros Hi Hb Ht. destruct (decide (l = [])) as [El|Hne]; [|by rewrite <- Hb].
  eapply inv_base; [|exact Hi]. destruct new as [|st new]; [left; by rewrite El|right].
  destruct Ht as (_ & so & _ & Hin & _ & _ & E). rewrite (E El).
  pose proof (proj1 (Forall_forall _ _) (hs_queue _ _ _ _ Hsim) so Hin) as [-> _].
  rewrite (hs_stream _ _ _ _ Hsim), (hs_next _ _ _ _ Hsim), El. cbn. by rewrite Z.add_0_r.
Qed.

Lemma grown_growth w' new base base' :
  worker_inv w l base -> worker_inv w' (l ++ new) base' ->
  growth w w' = Z.of_nat (length new).
Proof.
  intros Hi Hi'. unfold growth.
  rewrite (window_len_ring _ _ (wi_ring _ _ _ Hi)), (window_len_ring _ _ (wi_ring _ _ _ Hi')).
  rewrite length_app. lia.
Qed.

(** The window with the packets [new] at its end. *)
Lemma sim_grow w' new base' :
  let h := hosts s r in
  worker_inv w' (l ++ new) (h_base h) -> h_next h + Z.of_nat (length new) <= 2 ^ 32 ->
  tracks w l new base' w' -> range_len `quot` 2 <= max_win ->
  held_of new ++ contents (wq (qp w')) = contents (wq (qp w)) ->
  Forall (fresh_packet w) new ->
  (forall i st, new !! i = Some st -> is_packet r (sp_pkt st) (h_next h + Z.of_nat i)) ->
  host_sim r w' (l ++ new) {| h with h_next := h_next h + Z.of_nat (length new) |}.
Proof.
  intros h Hi Hmax Ht Hlim Hh Hack Hpkt. pose proof (hs_next _ _ _ _ Hsim) as Hnext. fold h in Hnext.
  assert (forall so, so ∈ contents (wq (qp w)) -> stream_op so) as Hops
    by (apply Forall_forall, Hsim).
  assert (new <> [] -> current_group_id w' = grp /\ current_switch_window_limit w' <= max_win) as Hgen.
  { destruct new; [done|]. intros _. destruct Ht as (so & _ & Hin & _ & -> & -> & _).
    destruct (Hops so Hin) as (-> & _ & ->). done. }
  assert (l ++ new <> [] -> current_group_id w' = grp) as Hgrp.
  { intros Hne. destruct new; [|by apply Hgen]. rewrite app_nil_r in Hne.
    destruct Ht as (_ & _ & _ & ->). by apply (hs_group _ _ _ _ Hsim). }
  assert (forall k st, (l ++ new) !! k = Some st -> l !! k = Some st
    \/ exists i, new !! i = Some st /\ h_base h + Z.of_nat k = h_next h + Z.of_nat i) as Hlook.
  { intros k st [Hk|[Hk1 Hk2]]%lookup_app_Some; [by left|right].
    exists (k - length l)%nat. split; [done|lia]. }
  constructor; cbn [h_base h_next h_results]; try done.
  - rewrite length_app. lia.
  - split; [apply Hsim|done].
  - destruct (decide (new = [])) as [->|Hne].
    { cbn. rewrite Z.add_0_r, (same_gen_stream _ _ _ Ht). apply Hsim. }
    pose proof (wi_next _ _ _ Hi ltac:(by intros [_ ?]%app_eq_nil)) as Hn.
    transitivity (next_psn w'); [|rewrite Hn, length_app; f_equal; lia].
    unfold stream_next, next_psn. destruct (cur_sub_op (gen w')); [done|].
    by rewrite (proj1 (Hgen Hne)).
  - destruct (decide (new = [])) as [->|Hne]; [|by apply Hgen].
    destruct Ht as (_ & _ & -> & _). apply Hsim.
  - pose proof (hs_queue _ _ _ _ Hsim) as Hq. rewrite <- Hh in Hq. by apply Forall_app in Hq as [_ ?].
  - intros k st [Hk|(i & Hk & E)]%Hlook; [by apply (hs_acked _ _ _ _ Hsim)|].
    rewrite (proj1 (Forall_lookup_1 _ _ _ _ Hack Hk)), E, (hs_later _ _ _ _ Hsim) by (unfold h; lia).
    split; [done|by intros [? ?]].
  - intros p Hp. apply (hs_later _ _ _ _ Hsim). unfold h in *. lia.
  - intros k st [Hk|(i & Hk & E)]%Hlook; [by apply (hs_packets _ _ _ _ Hsim)|].
    rewrite E. by apply Hpkt.
Qed.

(** The packets of the window whose end has been sent. *)
Lemma new_packets w' new i st :
  worker_inv w' (l ++ new) (h_base (hosts s r)) -> to_ack (window w') = to_ack (window w) ->
  new !! i = Some st -> grown_slot w w' i = Some st.
Proof.
  intros Hi Ea Hst. unfold grown_slot.
  rewrite (ring_to_send _ _ (wi_ring _ _ _ (hs_inv _ _ _ _ Hsim))), pos_at_add, <- Ea.
  apply (ring_lookup _ _ (wi_ring _ _ _ Hi)). rewrite lookup_app_r by lia.
  by replace (length l + i - length l)%nat with i by lia.
Qed.

Lemma packets_seqZ (new : list pkt_state_t) a i p :
  (forall j st, new !! j = Some st -> is_packet r (sp_pkt st) (p + Z.of_nat j)) ->
  Forall2 (is_packet r) (to_wire <$> placed a i new).*2 (seqZ p (Z.of_nat (length new))).
Proof.
  revert i p. induction new as [|st new IH]; intros i p Hp; [constructor|].
  rewrite placed_cons, !fmap_cons. cbn [length]. rewrite seqZ_cons by lia. constructor.
  - specialize (Hp 0%nat st eq_refl). by rewrite Z.add_0_r in Hp.
  - replace (Z.pred (Z.of_nat (S (length new)))) with (Z.of_nat (length new)) by lia.
    apply IH. intros j st' Hj. replace (Z.succ p + Z.of_nat j) with (p + Z.of_nat (S j)) by lia.
    by apply Hp.
Qed.

Lemma transmit_follows w' :
  range_len `quot` 2 <= max_win -> tx_process w = Ok (tt, w') ->
  in_stream r (h_next (hosts s r)) w w' -> follows s r w w' (growth w w').
Proof.
  intros Hlim Hrun [Hmax Hstr]. pose proof (hs_inv _ _ _ _ Hsim) as Hw.
  assert (uniform w) as Hu.
  { exists grp. apply (Forall_impl _ _ _ (hs_queue _ _ _ _ Hsim)). by intros so [? _]. }
  pose proof (runs_det _ _ _ _ _ Hrun (tx_process_runs w l _ Hw (fun _ => Hu)))
    as (new & base' & Hi & Hb & Hlog & _ & Hh & _ & Hle & Hack & Ea & Ht & _).
  pose proof (grown_base _ _ _ Hi Hb Ht) as Hi'. pose proof (hs_next _ _ _ _ Hsim) as Hnext.
  rewrite (grown_growth _ _ _ _ Hw Hi') in Hmax, Hstr |- *. rewrite Nat2Z.id in Hstr.
  assert (forall i st, new !! i = Some st ->
    is_packet r (sp_pkt st) (h_next (hosts s r) + Z.of_nat i)) as Hpkt.
  { intros i st Hst. apply Hstr; [by eapply lookup_lt_Some|by eapply new_packets]. }
  destruct (log_packets r w l _ Hsim
    (if timed_out w then filter unacked (placed (to_ack (window w)) 0 l) else []))
    as (ps & Hps & Hpw).
  { destruct (timed_out w); [apply unacked_in|by intros e ?%elem_of_nil]. }
  eexists _, _, (ps ++ seqZ (h_next (hosts s r)) (Z.of_nat (length new))).
  split; [|split; [by apply (sim_grow w' new base')|split; [|done]]].
  - eapply moves_trans; [by apply resend_moves|]. intros s1 E. rewrite <- E.
    apply send_moves; rewrite ?E; try done.
    destruct Hle as [->|Hle]; [by left|right]. rewrite length_app in Hle.
    pose proof (hs_limit _ _ _ _ Hsim). lia.
  - rewrite (sent_since_app _ _ _ Hlog). unfold tx_log, unacked_log. rewrite fmap_app.
    apply Forall2_app; [|by apply packets_seqZ]. revert Hps. by destruct (timed_out w).
Qed.
End pieces.

(** ** Steps of the cluster *)

Lemma advance_sim c s r w' n :
  csim c s -> is_host r -> follows s r (workers c r) w' n ->
  exists s', rtc step s s' /\ csim (advance c r w' n) s'.
Proof.
  intros [] Hr (l' & h' & ps & (s' & Hs & []) & Hsim & Hps & Hn).
  exists s'. split; [done|]. constructor; cbn; try congruence.
  - intros r' Hr'. destruct (decide (r' = r)) as [->|Hne].
    + rewrite upd_eq, mv_up0. apply Forall2_app; [by apply cs_up0|done].
    + rewrite upd_ne by done. destruct (mv_others0 r' Hne) as [_ ->]. by apply cs_up0.
  - intros r' Hr'. destruct (decide (r' = r)) as [->|Hne].
    + rewrite upd_eq, mv_host0. by exists l'.
    + rewrite upd_ne by done. destruct (mv_others0 r' Hne) as [-> _]. by apply cs_host0.
  - intros r' Hr'. destruct (decide (r' = r)) as [->|Hne].
    + rewrite upd_eq, mv_host0, Hn. by rewrite cs_next0.
    + rewrite upd_ne by done. destruct (mv_others0 r' Hne) as [-> _]. by apply cs_next0.
Qed.

(** A packet on the way of a host. *)
Lemma sim_way c s r l1 m l2 :
  csim c s -> is_host r -> c_up c r = l1 ++ m :: l2 ->
  exists p ps1 ps2, up s r = ps1 ++ p :: ps2 /\ is_packet r m p
    /\ Forall2 (is_packet r) l1 ps1 /\ Forall2 (is_packet r) l2 ps2.
Proof.
  intros Hc Hr E. pose proof (cs_up _ _ Hc r Hr) as Hu. rewrite E in Hu.
  apply Forall2_app_inv_l in Hu as (ps1 & ps & Hl1 & Hu2 & Eu).
  apply Forall2_cons_inv_l in Hu2 as (p & ps2 & Hm & Hl2 & ->). by exists p, ps1, ps2.
Qed.

(** It gets to the switch. *)
Lemma sim_arrives c s r l1 m l2 :
  group_ok -> Protocol.inv s -> csim c s -> is_host r -> c_up c r = l1 ++ m :: l2 -> c_fresh c r m ->
  exists p ps1 ps2, up s r = ps1 ++ p :: ps2 /\ fresh s r p
    /\ parse (dm r) (sm r) (pkt m) = host_packet r p
    /\ (forall r', upd (seen s) r (Z.max (seen s r) p) r' = seen_with c r m r')
    /\ Forall2 (is_packet r) (l1 ++ l2) (ps1 ++ ps2).
Proof.
  intros Hok Hi Hc Hr E Hf. destruct (sim_way c s r l1 m l2 Hc Hr E) as (p & ps1 & ps2 & Eu & Hm & Hl1 & Hl2).
  pose proof (inv_up _ Hi r Hr p ltac:(rewrite Eu; apply elem_of_app; right; by left)) as Hp.
  pose proof (hi_psn _ _ (inv_host _ Hi r Hr)).
  destruct (ok_packet Hok r p Hr ltac:(lia)) as (_ & _ & _ & _ & Epsn & _).
  unfold c_fresh, seen_with in *. rewrite Hm, Epsn, <- (cs_seen _ _ Hc) in *.
  exists p, ps1, ps2. split_and!; try done; [|by apply Forall2_app].
  intros r'. destruct (decide (r' = r)) as [->|Hne]; [by rewrite !upd_eq|].
  rewrite !upd_ne by done. apply Hc.
Qed.

(** A step of the network or the switch. *)
Lemma sim_switch c s c' s' r l ps :
  csim c s -> workers c' = workers c -> c_next c' = c_next c -> hosts s' = hosts s ->
  regs s' = c_regs c' -> recirculating s' = c_recirculating c' -> answers s' = c_answers c' ->
  (forall r', seen s' r' = c_seen c' r') ->
  c_up c' = upd (c_up c) r l -> up s' = upd (up s) r ps -> Forall2 (is_packet r) l ps ->
  csim c' s'.
Proof.
  intros [] Ew En Eh Er Ec Ea Es Eu Eu' Hl. constructor; try done.
  - intros r' Hr'. rewrite Eu, Eu'. destruct (decide (r' = r)) as [->|Hne]; [by rewrite !upd_eq|].
    rewrite !upd_ne by done. by apply cs_up0.
  - intros r' Hr'. rewrite Ew, Eh. by apply cs_host0.
  - intros r' Hr'. rewrite En, Eh. by apply cs_next0.
Qed.

Lemma quiet_sim c s r w' :
  csim c s -> is_host r ->
  (forall l base, worker_inv (workers c r) l base -> worker_inv w' l base) ->
  same_gen (workers c r) w' -> tp_sent (tp w') = tp_sent (tp (workers c r)) ->
  (Forall stream_op (contents (wq (qp (workers c r)))) -> Forall stream_op (contents (wq (qp w')))) ->
  exists s', rtc step s s' /\ csim (advance c r w' 0) s'.
Proof.
  intros Hc Hr Hi Hg Ht Hq. destruct (cs_host _ _ Hc r Hr) as [l Hsim].
  apply advance_sim; [done..|]. eapply follows_quiet; [done|by apply Hi, Hsim|done|by apply Hq, Hsim|done].
Qed.

Lemma given_sim c s f :
  (exists s', rtc step s s' /\ csim c s') ->
  exists s', rtc step s s' /\ csim {| c with c_given := f |} s'.
Proof. intros (s' & Hs & []). by exists s'. Qed.

Lemma cstep_sim c s c' :
  group_ok -> range_len `quot` 2 <= max_win -> Protocol.inv s -> csim c s -> cstep c c' ->
  exists s', rtc step s s' /\ csim c' s'.
Proof.
  intros Hok Hlim Hi Hc Hst.
  destruct Hst as [c r h t rid marked h' m w' Hr Hin He Hm Hrun|c r w' Hr Hrun|c r w' Hr Hrun Hstr
    |c r ts Hr|c r cs Hr Hrun|c r Hr|c r t Hr Ht Es|c r so q' Hr Hso Hop Hpush|c r so q1 q' Hr Hf Hpop
    |c r l1 m l2 Hr E|c r l1 m l2 Hr E|c r l1 m l2 t h rs Hr E Hf Ht Hin
    |c r l1 m l2 t port h rs t' rid marked dropped Hr E Hf Ht Hin
    |c l1 h l2 t v h' rs E Hin|c h t v h' rs Hne Hin|c rs Hk].
  - destruct (cs_host _ _ Hc r Hr) as [l Hsim]. rewrite <- (cs_answers _ _ Hc) in Hin.
    apply advance_sim; [done..|]. by eapply receive_follows.
  - destruct (cs_host _ _ Hc r Hr) as [l Hsim]. apply advance_sim; [done..|]. by eapply slide_follows.
  - destruct (cs_host _ _ Hc r Hr) as [l Hsim]. rewrite (cs_next _ _ Hc r Hr) in Hstr.
    apply advance_sim; [done..|]. by eapply transmit_follows.
  - apply quiet_sim; try done. intros l base. apply inv_time.
  - apply quiet_sim; try done. intros l base Hw. by apply inv_congestion.
  - destruct (cs_host _ _ Hc r Hr) as [l Hsim].
    pose proof (tp_reset_ok _ (wi_tp _ _ _ (hs_inv _ _ _ _ Hsim))) as [_ Et].
    apply quiet_sim; try done. intros l' base. apply inv_restart.
  - apply quiet_sim; try done. intros l base Hw. by apply inv_tp.
  - destruct (cs_host _ _ Hc r Hr) as [l Hsim].
    destruct (worker_push_inv _ _ _ _ _ (hs_inv _ _ _ _ Hsim) Hso Hpush) as (_ & Ew & _).
    apply given_sim, quiet_sim; try done; cbn.
    + intros l' base Hw. by eapply worker_push_inv.
    + intros Hq. rewrite Ew. apply Forall_app. split; [done|by apply Forall_singleton].
  - destruct (cs_host _ _ Hc r Hr) as [l Hsim].
    destruct (worker_collect_inv _ _ _ _ _ _ (hs_inv _ _ _ _ Hsim) Hf Hpop) as (_ & Ew & _).
    apply quiet_sim; try done; cbn.
    + intros l' base Hw. by eapply worker_collect_inv.
    + by rewrite Ew.
  - destruct (sim_way _ _ _ _ _ _ Hc Hr E) as (p & ps1 & ps2 & Eu & _ & Hl1 & Hl2).
    eexists. split; [by apply rtc_once, (step_lose s r ps1 p ps2)|].
    eapply (sim_switch c s _ _ r); try done; try apply Hc. by apply Forall2_app.
  - destruct (sim_way _ _ _ _ _ _ Hc Hr E) as (p & ps1 & ps2 & Eu & Hm & Hl1 & Hl2).
    eexists. split; [by apply rtc_once, (step_duplicate s r ps1 p ps2)|].
    eapply (sim_switch c s _ _ r); try done; try apply Hc. apply Forall2_app; [done|by repeat constructor].
  - destruct (sim_arrives _ _ _ _ _ _ Hok Hi Hc Hr E Hf) as (p & ps1 & ps2 & Eu & Hfr & Ep & Es & Hl).
    rewrite Ep, <- (cs_regs _ _ Hc) in Hin.
    eexists. split; [by apply rtc_once, (step_drop s r ps1 p ps2 t h rs)|].
    eapply (sim_switch c s _ _ r); try done; apply Hc.
  - destruct (sim_arrives _ _ _ _ _ _ Hok Hi Hc Hr E Hf) as (p & ps1 & ps2 & Eu & Hfr & Ep & Es & Hl).
    rewrite Ep, <- (cs_regs _ _ Hc) in Hin.
    eexists. split; [by apply rtc_once, (step_recirculate s r ps1 p ps2 t port h rs t' rid marked dropped)|].
    eapply (sim_switch c s _ _ r); try done; [|apply Hc]. cbn. by rewrite (cs_recirculating _ _ Hc).
  - rewrite <- (cs_regs _ _ Hc) in Hin. rewrite <- (cs_recirculating _ _ Hc) in E.
    eexists. split; [by apply rtc_once, (step_second s l1 h l2 t v h' rs)|].
    destruct Hc. constructor; try done. cbn. by rewrite cs_answers0.
  - rewrite <- (cs_regs _ _ Hc) in Hin.
    eexists. split; [by apply rtc_once, (step_other s h t v h' rs)|]. by destruct Hc.
  - rewrite <- (cs_regs _ _ Hc) in Hk.
    eexists. split; [by apply rtc_once, (step_reset s rs)|]. by destruct Hc.
Qed.

(** The system of the protocol before anything has been sent. *)
Definition fresh_system (c : cluster) : system := {|
  regs := c_regs c; hosts := fun _ => {| h_base := 0; h_next := 0; h_results := ∅ |};
  up := fun _ => []; recirculating := []; answers := []; seen := fun _ => -1; completed := [];
|}.

Lemma initial_sim c : c_initial c -> initial (fresh_system c) /\ csim c (fresh_system c).
Proof.
  intros Hc. split.
  - destruct Hc. repeat split; cbn; try done; intros a Ha; by rewrite ci_bitmap0.
  - constructor; cbn; try (symmetry; apply Hc); [done|..]; intros r Hr.
    + rewrite (ci_up _ Hc). constructor.
    + exists []. pose proof (ci_start _ Hc r Hr) as Hs. constructor; cbn; try done.
      * by apply worker_start_inv.
      * unfold stream_next. by rewrite (start_gen _ Hs), (ci_psn _ Hc r Hr).
      * by apply Hc.
      * rewrite (start_qp _ Hs). unfold new_queue_pair. cbn. by rewrite contents_new.
    + apply Hc.
Qed.

Lemma c_reachable_sim c :
  group_ok -> range_len `quot` 2 <= max_win -> c_reachable c ->
  exists s, reachable s /\ csim c s.
Proof.
  intros Hok Hlim (c0 & Hinit0 & Hs). destruct (initial_sim c0 Hinit0) as [Hinit Hsim].
  refine (rtc_ind_r (fun c => exists s, reachable s /\ csim c s) c0 _ _ c Hs).
  - exists (fresh_system c0). split; [|done]. by exists (fresh_system c0).
  - intros c1 c2 _ Hst (s1 & Hr1 & Hsim1).
    destruct (cstep_sim c1 s1 c2 Hok Hlim (stream_reachable_inv Hok s1 Hr1) Hsim1 Hst) as (s2 & Hs2 & Hsim2).
    exists s2. split; [|done]. destruct Hr1 as (s0 & Hi0 & Hr1). exists s0. split; [done|].
    by etransitivity.
Qed.

End cluster.
