(* ===== verification/ClusterTheorems.v ===== *)
(** What holds of the workers of a group and the switch together: the cluster
    is one of the systems of [Protocol.v], and the workers compute the
    collective operation in their memories. *)

From S2P Require Import Prelude.
From S2P Require Import Types.
From S2P Require Import Endian.
From S2P Require Import Config.
From S2P Require Import Congestion.
From S2P Require Import QueuePair.
From S2P Require Import Worker.
From S2P Require Import Window.
From S2P Require Import WorkerInv.
From S2P Require Import Receive.
From S2P Require Import Packet.
From S2P Require Import Send.
From S2P Require Import WorkerSafety.
From S2P Require Import Switch.
From S2P Require Import Aggregation.
From S2P Require Import Protocol.
From S2P Require Import Wire.
From S2P Require Import Cluster.

Section theorems.
Context `{ConfigOk, SpscLaws, TransportLaws}.
Context {str : Stream}.
Context (dm sm : Z -> Z).

(** The workers agree with the switch on the number of aggregators. *)
Definition half_range : Prop := range_len `quot` 2 <= max_win.

Lemma answer_total c s r l h t rid marked h' m k st :
  group_ok -> reachable s -> csim dm sm c s -> is_host r ->
  host_sim dm sm r (workers c r) l (hosts s r) ->
  h ∈ c_answers c -> egress t rid marked false h = Some h' -> carries m h' ->
  fresh_ack (workers c r) l (h_base (hosts s r)) m = Some (k, st) ->
  lanes h' = total everyone (psn h').
Proof.
  intros Hok Hs Hc Hr Hsim Hin He Hm Hf. pose proof (stream_reachable_inv Hok s Hs) as Hi.
  rewrite <- (cs_answers _ _ _ _ Hc) in Hin. destruct (inv_answer _ Hi h Hin) as [Hig Hcp Hl].
  destruct (egress_keeps _ _ _ _ _ (ig_valid _ Hig) He) as (Ep & El & _). rewrite El, Ep.
  destruct Hl as [?|Hpast]; [done|]. exfalso. specialize (Hpast r Hr).
  pose proof (proj1 (inv_completed _ Hi _ Hcp)) as Hrange.
  rewrite <- Ep, <- (ca_psn _ _ Hm) in Hrange, Hpast.
  destruct (answer_index _ _ _ _ _ _ Hsim m k st Hrange Hf) as (_ & _ & E & _). lia.
Qed.

(** A packet as the switch parses it has the lanes of its data. *)
Lemma parsed_lanes m so st :
  filled so st (sp_pkt st) -> holds_data m so st ->
  netccl_valid (parse 0 0 (pkt (sp_pkt st))) = true ->
  exists old d, Z.of_nat (length old) = PAYLOAD_SIZE /\ Forall is_byte old
    /\ buffer_read m (sp_data st) (sp_size st) = Some d /\ Forall is_byte d
    /\ lanes (parse 0 0 (pkt (sp_pkt st))) = sent_lanes (op so) old d (sp_size st).
Proof.
  intros Hf (old & d & Ho & Hob & Hd & Hdb & Hp) Hv. exists old, d. do 4 (split; [done|]).
  pose proof (filled_len _ _ _ Hf) as Hl. rewrite (filled_pkt_len _ _ _ Hf) in Hl.
  revert Hv. unfold parse, sent_lanes. cbn [netccl_valid lanes].
  assert (betoh 2 (total_length (ip (pkt (sp_pkt st)))) = if need_tx (op so) then 286 else 30) as ->.
  { destruct (need_tx (op so)); cbv [sizeof_eth_hdr sizeof_netccl_pkt sizeof_payload sizeof_inc_hdr
      sizeof_ipv4_hdr PAYLOAD_SIZE PAYLOAD_LEN sizeof_int32] in Hl; lia. }
  destruct (_ && (next_proto_id _ =? _)); [|by destruct (need_tx (op so))].
  intros _. destruct (need_tx (op so)); [|done]. cbn. by rewrite Hp.
Qed.
End theorems.

(** C4: the workers, running their code, and the switch, over a network that loses,
    duplicates and reorders packets both ways ([cstep]; nothing gets to the
    switch a whole window late), refine the system of the protocol: every state they reach is one of its states, and every further piece of a
    round, every packet in the switch and every request is a run of it. *)
Theorem cluster_refines_protocol `{ConfigOk, SpscLaws, TransportLaws} {str : Stream} dm sm c :
  group_ok -> half_range -> c_reachable dm sm c ->
  exists s, reachable s /\ csim dm sm c s
    /\ forall c', cstep dm sm c c' -> exists s', rtc step s s' /\ csim dm sm c' s'.
Proof.
  intros Hok Hlim Hc. destruct (c_reachable_sim dm sm c Hok Hlim Hc) as (s & Hs & Hsim).
  exists s. split; [done|]. split; [done|]. intros c' Hst.
  by eapply cstep_sim; [..|by apply stream_reachable_inv|done|done].
Qed.

(** What a worker stores for the first answer to a packet of a reduction are
    the 32-bit sums of the integers that the workers of all hosts have sent in
    packets of that number. *)
Theorem memory_holds_sums `{ConfigOk, SpscLaws, TransportLaws} {str : Stream}
    dm sm c r h t rid marked h' m ops old d :
  group_ok -> half_range -> c_reachable dm sm c -> is_host r ->
  h ∈ c_answers c -> egress t rid marked false h = Some h' -> carries m h' ->
  payload_valid h' = true -> (forall r', is_host r' -> is_reduction (ops r') = true) ->
  exists l base, worker_inv (workers c r) l base /\
    forall k st so, fresh_ack (workers c r) l base m = Some (k, st) ->
      sp_sub_op st = Some so -> op so = ops r -> need_rx (op so) = true ->
      packet_data ops old d (sp_size st) (psn h') ->
      runs (rx_process_one m) (workers c r) (fun _ w' =>
        buffer_read (mem w') (sp_data st) (sp_size st)
          = Some (int_bytes (host_sums ops d (sp_size st)))).
Proof.
  intros Hok Hlim Hc Hr Hin He Hm Hpay Hred.
  destruct (c_reachable_sim dm sm c Hok Hlim Hc) as (s & Hs & Hsim).
  destruct (cs_host _ _ _ _ Hsim r Hr) as [l Hh]. pose proof (hs_inv _ _ _ _ _ _ Hh) as Hw.
  exists l, (h_base (hosts s r)). split; [done|]. intros k st so Hf Hso Eo Hrx Hdata.
  destruct (fresh_ack_lookup _ _ _ _ _ _ Hf) as (Hk & _).
  pose proof (wi_slots _ _ _ Hw _ _ Hk) as Hst.
  eapply runs_mono; [apply (rx_process_one_runs _ l _ m Hw (ca_ok _ _ Hm))|].
  cbn beta. intros _ w' (_ & _ & Hrun). rewrite Hf in Hrun.
  destruct Hrun as (so' & Hso' & _ & -> & _). rewrite Hso in Hso'. injection Hso' as <-.
  rewrite (proj1 (stored_read _ _ _ _ _ _ Hst Hso (ca_ok _ _ Hm) Hrx)).
  rewrite (ca_payload _ _ Hm Hpay), (answer_total dm sm c s r l h t rid marked h' m k st) by done.
  f_equal. rewrite Eo. eapply reduced_bytes; try done.
  destruct (slot_sub_op _ _ _ _ Hst) as (so2 & E2 & _ & Ha). rewrite Hso in E2. injection E2 as <-.
  apply Ha. rewrite Eo. by apply Hred.
Qed.

(** C20: the packets a worker sends hold its memory: the lanes the switch adds up
    for a packet are those of the bytes in the range of the packet at the time
    the worker generates it. *)
Theorem packets_hold_memory `{ConfigOk, SpscLaws, TransportLaws} {str : Stream} dm sm c r w' i st :
  group_ok -> half_range -> c_reachable dm sm c -> is_host r ->
  tx_process (workers c r) = Ok (tt, w') -> in_stream dm sm r (c_next c r) (workers c r) w' ->
  (i < Z.to_nat (growth (workers c r) w'))%nat -> grown_slot (workers c r) w' i = Some st ->
  exists so old d, sp_sub_op st = Some so
    /\ Z.of_nat (length old) = PAYLOAD_SIZE /\ Forall is_byte old
    /\ buffer_read (mem (workers c r)) (sp_data st) (sp_size st) = Some d /\ Forall is_byte d
    /\ lanes (host_packet r (c_next c r + Z.of_nat i)) = sent_lanes (op so) old d (sp_size st).
Proof.
  intros Hok Hlim Hc Hr Hrun [Hmax Hstr] Hlt Hst.
  destruct (c_reachable_sim dm sm c Hok Hlim Hc) as (s & Hs & Hsim).
  destruct (cs_host _ _ _ _ Hsim r Hr) as [l Hh]. pose proof (hs_inv _ _ _ _ _ _ Hh) as Hw.
  assert (uniform (workers c r)) as Hu.
  { exists grp. apply (Forall_impl _ _ _ (hs_queue _ _ _ _ _ _ Hh)). by intros so [? _]. }
  pose proof (runs_det _ _ _ _ _ Hrun (tx_process_runs _ l _ Hw (fun _ => Hu)))
    as (new & base' & Hi & Hb & _ & _ & _ & _ & _ & Hnew & Ea & Ht & _).
  pose proof (grown_base dm sm s r _ l Hh _ _ _ Hi Hb Ht) as Hi'.
  pose proof (grown_growth _ _ _ _ _ _ Hw Hi') as Eg. rewrite Eg, Nat2Z.id in Hlt. rewrite Eg in Hmax.
  destruct (lookup_lt_is_Some_2 new i Hlt) as [st' Hst'].
  pose proof (new_packets dm sm s r _ l Hh _ _ _ _ Hi' Ea Hst') as E. rewrite Hst in E. injection E as <-.
  destruct (Forall_lookup_1 _ _ _ _ Hnew Hst') as (_ & so & Hso & Hf & Hdat).
  pose proof (Hstr i st ltac:(rewrite Eg; lia) Hst) as Hp. unfold is_packet in Hp.
  pose proof (hs_range _ _ _ _ _ _ Hh). pose proof (hs_next _ _ _ _ _ _ Hh).
  rewrite (cs_next _ _ _ _ Hsim r Hr) in *.
  destruct (ok_packet Hok r (h_next (hosts s r) + Z.of_nat i) Hr ltac:(lia)) as (_ & Hv & _).
  rewrite <- Hp in Hv.
  destruct (parsed_lanes _ so st Hf Hdat Hv) as (old & d & ? & ? & ? & ? & El).
  exists so, old, d. rewrite <- Hp. split_and!; try done.
Qed.
