(* ===== verification/Delivery.v ===== *)
(** What the memories of the workers of a group hold: the bytes in the range of
    a packet are those the client has put there until the packet is
    acknowledged, and the result of the packet from then on. *)

From stdpp Require Import sorting.
From S2P Require Import Prelude.
From S2P Require Import Types.
From S2P Require Import Endian.
From S2P Require Import Config.
From S2P Require Import Congestion.
From S2P Require Import QueuePair.
From S2P Require Import Worker.
From S2P Require Import Window.
From S2P Require Import WorkerInv.
From S2P Require Import Receive.
From S2P Require Import Packet.
From S2P Require Import Slices.
From S2P Require Import Send.
From S2P Require Import WorkerSafety.
From S2P Require Import Switch.
From S2P Require Import Aggregation.
From S2P Require Import Protocol.
From S2P Require Import Wire.
From S2P Require Import Cluster.
From S2P Require Import ClusterTheorems.

(** * The kind of an answer *)

Definition same_kind (h h' : headers) : Prop :=
  coll_type h' = coll_type h /\ payload_valid h' = payload_valid h /\ psn h' = psn h
  /\ pass_cnt h' = pass_cnt h /\ netccl_valid h' = netccl_valid h.

Lemma forward_kind t md h : same_kind h (forward t md h).2.
Proof. unfold forward, same_kind. cbn. destruct (_ && is_full md); by split_and!. Qed.

Lemma ingress_kind t h r v h' rs : ingress t h r = (v, h', rs) -> same_kind h h'.
Proof.
  unfold ingress. cbv zeta.
  set (h1 := if netccl_valid h then _ else h).
  assert (same_kind h h1) as K1 by (unfold h1, same_kind; destruct (netccl_valid h) eqn:?; by split_and!). clearbody h1.
  destruct (if pass_cnt h1 =? 1 then _ else _) as [old r1].
  set (md := {| bitmap := _ |}). clearbody md.
  assert (forall x r2, same_kind h1 x ->
    (let '(v, h) := forward t md x in (v, h, r2)) = (v, h', rs) -> same_kind h h') as Hf.
  { intros x r2 Kx. pose proof (forward_kind t md x) as K2. destruct (forward t md x) as [v2 h2].
    intros [= _ <- _]. unfold same_kind in *. cbn in K2. intuition congruence. }
  destruct (netccl_valid h1) eqn:Ev; [|by apply Hf].
  destruct (all_aggregator_access _ _ _ _ _) as [cells ls]. apply Hf. unfold same_kind. by split_and!.
Qed.

(** Only the answers of a reduce and of a broadcast lose their payload. *)
Lemma egress_payload t rid marked dropped h h' :
  egress t rid marked dropped h = Some h' ->
  pass_cnt h = 1 \/ coll_type h <> COLL_TYPE_REDUCE /\ coll_type h <> COLL_TYPE_BROADCAST ->
  coll_type h' = coll_type h /\ payload_valid h' = payload_valid h.
Proof.
  unfold egress. intros He Hk.
  set (h1 := if pass_cnt h =? 2 then _ else h) in He.
  assert (coll_type h1 = coll_type h /\ payload_valid h1 = payload_valid h) as [<- <-].
  { unfold h1. destruct (Z.eqb_spec (pass_cnt h) 2) as [E2|]; [|done].
    destruct Hk as [?|[Hr Hb]]; [lia|]. cbv zeta.
    set (h0 := if enable_multicast h =? 0 then h else _).
    assert (coll_type h0 = coll_type h /\ payload_valid h0 = payload_valid h) as [E0 <-]
      by (unfold h0; by destruct (_ =? 0)).
    assert (coll_type (restore_fields t h0) = coll_type h0
      /\ payload_valid (restore_fields t h0) = payload_valid h0) as [E1 <-].
    { unfold restore_fields. destruct (restore_table t !! _) as [[? ?]|]; cbn [sip dip];
        destruct (restore_smac_table t !! _); cbn [sip dip]; by destruct (restore_dmac_table t !! _). }
    unfold remove_payload. rewrite E1, E0.
    by rewrite (proj2 (Z.eqb_neq _ _) Hr), (proj2 (Z.eqb_neq _ _) Hb), E1, E0. }
  destruct dropped; [done|]. injection He as <-. unfold dcqcn.
  destruct (negb (netccl_valid h1)), (pass_cnt h1 =? 2); cbn [dscp_ecn];
    destruct (_ || negb marked); done.
Qed.

Section kinds.
Context {str : Stream} (Hok : group_ok).

(** [h] has the kind of a packet of its number that a host sends. *)
Definition as_sent (h : headers) : Prop := exists r, is_host r
  /\ coll_type h = coll_type (host_packet r (psn h))
  /\ payload_valid h = payload_valid (host_packet r (psn h)).

Definition kinds_kept (s : system) : Prop :=
  forall h, h ∈ recirculating s \/ h ∈ answers s -> as_sent h.

Lemma step_kinds s s' : Protocol.inv s -> kinds_kept s -> step s s' -> kinds_kept s'.
Proof.
  intros Hi Hk Hst. destruct Hst as [| | | | |s r l1 p l2 t port h rs t' rid marked dropped Hr Eu _ _ Hin
    |s l1 h l2 t v h' rs E Hin| | | |]; try exact Hk.
  - intros h' Hh. cbn [recirculating answers] in Hh.
    destruct Hh as [[Hh|Hh]%elem_of_app|Hh]; [apply Hk; by left| |apply Hk; by right].
    destruct (egress t' rid marked dropped h) as [h2|] eqn:He; [|by apply elem_of_nil in Hh].
    apply list_elem_of_singleton in Hh as ->.
    pose proof (inv_up _ Hi r Hr p ltac:(rewrite Eu; apply elem_of_app; right; by left)) as Hp.
    pose proof (hi_psn _ _ (inv_host _ Hi r Hr)).
    destruct (ok_packet Hok r p Hr ltac:(lia)) as (Epass & Ev & _ & _ & Epsn & _).
    destruct (ingress_kind _ _ _ _ _ _ Hin) as (K1 & K2 & K3 & K4 & K5).
    destruct (egress_payload _ _ _ _ _ _ He) as [E1 E2]; [left; by rewrite K4|].
    destruct (egress_keeps _ _ _ _ _ (eq_trans K5 Ev) He) as (E3 & _).
    exists r. rewrite E3, K3, Epsn, E1, E2, K1, K2. done.
  - intros h2 Hh. cbn [recirculating answers] in Hh.
    assert (as_sent h') as Hh'.
    { destruct (Hk h) as (r & Hr & E1 & E2); [left; rewrite E; apply elem_of_app; right; by left|].
      destruct (ingress_kind _ _ _ _ _ _ Hin) as (K1 & K2 & K3 & _). exists r. by rewrite K1, K2, K3. }
    destruct Hh as [Hh|[Hh| ->%list_elem_of_singleton]%elem_of_app]; [|apply Hk; by right|done].
    apply Hk. left. rewrite E. apply elem_of_app in Hh as [?|?]; apply elem_of_app; [by left|right; by right].
Qed.

Lemma reachable_kinds s : reachable s -> kinds_kept s.
Proof.
  intros (s0 & H0 & Hs).
  refine (rtc_ind_r kinds_kept s0 _ _ s Hs).
  - destruct H0 as (_ & _ & _ & _ & Er & Ea & _). intros h. rewrite Er, Ea.
    by intros [?%elem_of_nil|?%elem_of_nil].
  - intros s1 s2 Hs1 Hst Hk. apply (step_kinds s1); [|done|done].
    apply (stream_reachable_inv Hok). by exists s0.
Qed.
End kinds.

(** * The data of one host *)

Section delivery.
Context `{ConfigOk, SpscLaws, TransportLaws}.
Context {str : Stream}.

Lemma ring_unique w l l' : ring w l -> ring w l' -> l = l'.
Proof.
  intros Hr Hr'. assert (length l = length l') as El.
  { pose proof (ring_to_send _ _ Hr) as E. rewrite (ring_to_send _ _ Hr') in E. symmetry.
    revert E. apply pos_at_inj; [apply Hr|by apply (ring_length w)|by apply (ring_length w)]. }
  apply (list_eq_same_length _ _ (length l)); [done|done|]. intros k x y _ Hx Hy.
  pose proof (ring_lookup _ _ Hr _ _ Hx) as E. rewrite (ring_lookup _ _ Hr' _ _ Hy) in E. by injection E.
Qed.

(** Packet [p] of host [r], whose operation the client has put into the memory [m0], is [x]. *)
Definition sent_ok (r : Z) (m0 : gmap Z (list Z)) (p : nat) (x : slice) : Prop :=
  let o := op (sl_op x) in let h := host_packet r (Z.of_nat p) in
  coll_type h = op_code o /\ payload_valid h = true
  /\ exists old d, Z.of_nat (length old) = PAYLOAD_SIZE
     /\ buffer_read m0 (sl_data x) (sl_size x) = Some d /\ Forall is_byte d
     /\ lanes h = sent_lanes o old d (sl_size x).

(** Packet [p] has been acknowledged; the window is [l] and starts at [b]. *)
Definition taken (b : nat) (l : list pkt_state_t) (p : nat) : Prop :=
  (p < b)%nat \/ exists st, (b <= p)%nat /\ l !! (p - b)%nat = Some st /\ acked st = true.

(** The result of packet [p], as the bytes of the host. *)
Definition result_of (p : nat) (x : slice) : list Z :=
  host_data (op (sl_op x)) (deparse_lanes (total everyone (Z.of_nat p))) (sl_size x).

Record data_ok (r : Z) (m0 : gmap Z (list Z)) (given : list sub_op_t) (next : Z) (w : worker)
    (l : list pkt_state_t) (b : nat) : Prop := {
  do_given : Forall (sub_op_ok m0) given;
  do_cut : exists pre mid, slices given = pre ++ mid ++ to_cut w /\ length pre = b
    /\ Forall2 is_slice l mid /\ exists col, lasts pre = col ++ contents (cq (qp w));
  do_next : next = Z.of_nat (b + length l);
  do_dom : forall a n, in_memory (mem w) a n <-> in_memory m0 a n;
  do_sent : forall p x, Z.of_nat p < next -> slices given !! p = Some x -> sent_ok r m0 p x;
  do_stored : forall p x, taken b l p -> slices given !! p = Some x ->
    buffer_read (mem w) (sl_data x) (sl_size x) = Some (result_of p x);
  do_kept : forall a n, in_memory m0 a n ->
    (forall p x, taken b l p -> slices given !! p = Some x ->
       disjoint_ranges (sl_data x) (sl_size x) a n) ->
    buffer_read (mem w) a n = buffer_read m0 a n;
}.

Lemma taken_lt b l p : taken b l p -> (p < b + length l)%nat.
Proof. intros [?|(st & ? & ?%lookup_lt_Some & _)]; lia. Qed.

(** The packet at a place of the window. *)
Lemma data_slice r m0 given next w l b k st :
  data_ok r m0 given next w l b -> l !! k = Some st ->
  exists x, slices given !! (b + k)%nat = Some x /\ is_slice st x.
Proof.
  intros Hd Hk. destruct (do_cut _ _ _ _ _ _ _ Hd) as (pre & mid & E & Ep & Hl & _).
  destruct (Forall2_lookup_l _ _ _ _ _ Hl Hk) as (x & Hx & Hs). exists x. split; [|done].
  rewrite E, lookup_app_r by lia. replace (b + k - length pre)%nat with k by lia.
  by apply lookup_app_l_Some.
Qed.

Section steps.
Context (r : Z) (m0 : gmap Z (list Z)) (given : list sub_op_t) (next : Z).
Context (w : worker) (l : list pkt_state_t) (b : nat) (Hd : data_ok r m0 given next w l b).

Lemma data_same w' :
  mem w' = mem w -> to_cut w' = to_cut w -> contents (cq (qp w')) = contents (cq (qp w)) ->
  data_ok r m0 given next w' l b.
Proof. intros Em Et Ec. destruct Hd. constructor; by rewrite ?Em, ?Et, ?Ec. Qed.

(** The sub-operations are apart. *)
Hypothesis Hsorted : StronglySorted ops_apart given.

Lemma given_sizes : Forall size_ok given.
Proof. eapply Forall_impl; [apply (do_given _ _ _ _ _ _ _ Hd)|]. intros so. apply sok_size. Qed.

Lemma packets_apart p q x y :
  slices given !! p = Some x -> slices given !! q = Some y -> p <> q -> apart x y.
Proof. apply slices_lookup_apart; [apply given_sizes|done]. Qed.

(** The range of a packet that is still to come, or in flight. *)
Lemma data_fresh p x :
  ~ taken b l p -> slices given !! p = Some x ->
  buffer_read (mem w) (sl_data x) (sl_size x) = buffer_read m0 (sl_data x) (sl_size x).
Proof.
  intros Hp Hx. apply (do_kept _ _ _ _ _ _ _ Hd).
  - destruct (elem_of_slices given x) as [Hin Hno]; [by apply list_elem_of_lookup_2 in Hx|].
    pose proof (proj1 (Forall_forall _ _) (do_given _ _ _ _ _ _ _ Hd) _ Hin) as Hso.
    destruct (slice_in_op x (sok_size _ _ Hso) Hno) as (? & ? & ?).
    by apply (in_memory_sub _ _ (so_size (sl_op x))); [apply Hso|lia..].
  - intros q y Hq Hy. apply (packets_apart q p); [done..|]. by intros ->.
Qed.

Lemma taken_mark k st p :
  l !! k = Some st ->
  taken b (<[k := {| st with acked := true |}]> l) p <-> p = (b + k)%nat \/ taken b l p.
Proof.
  intros Hk. pose proof (lookup_lt_Some _ _ _ Hk). unfold taken. split.
  - intros [?|(st' & Hle & Hp & Ha)]; [by right; left|].
    destruct (decide (p - b = k)%nat) as [E|Hne]; [left; lia|].
    rewrite list_lookup_insert_ne in Hp by done. right. right. by exists st'.
  - intros [->|[?|(st' & Hle & Hp & Ha)]]; [|by left|].
    + right. exists {| st with acked := true |}. split; [lia|]. split; [|done].
      replace (b + k - b)%nat with k by lia. by apply list_lookup_insert_eq.
    + right. destruct (decide (p - b = k)%nat) as [E|Hne].
      * exists {| st with acked := true |}. split; [done|]. split; [|done]. rewrite E.
        by apply list_lookup_insert_eq.
      * exists st'. by rewrite list_lookup_insert_ne.
Qed.

(** An acknowledgement: the result goes into the range of its packet. *)
Lemma data_mark k st x so m w' :
  l !! k = Some st -> acked st = false -> slices given !! (b + k)%nat = Some x -> is_slice st x ->
  sp_sub_op st = Some so -> (exists g psn, slot_ok (mem w) g psn st) -> mbuf_ok m ->
  need_rx (op so) = true ->
  payload (pkt m) = deparse_lanes (total everyone (Z.of_nat (b + k))) ->
  mem w' = stored (mem w) st (op so) m -> to_cut w' = to_cut w -> qp w' = qp w ->
  data_ok r m0 given next w' (<[k := {| st with acked := true |}]> l) b.
Proof.
  intros Hk Ha Hx Hst Hso (g & psn & Hslot) Hm Hrx Hpay Em Et Eq.
  pose proof Hst as (Eso & Ed & Es & _). rewrite Hso in Eso. injection Eso as ->.
  destruct (stored_read _ _ _ _ _ _ Hslot Hso Hm Hrx) as [Hread Hother].
  rewrite <- Em in Hread, Hother. rewrite Hpay, Ed, Es in Hread. rewrite Ed, Es in Hother.
  constructor.
  - apply Hd.
  - destruct (do_cut _ _ _ _ _ _ _ Hd) as (pre & mid & E & Ep & Hl & Hcol).
    exists pre, mid. rewrite Et, Eq. split_and!; try done.
    destruct (Forall2_lookup_l _ _ _ _ _ Hl Hk) as (y & Hy & Hsy).
    rewrite <- (list_insert_id mid k y Hy). apply Forall2_insert; done.
  - rewrite length_insert. apply Hd.
  - intros a n. rewrite <- (do_dom _ _ _ _ _ _ _ Hd a n), Em. unfold stored. rewrite Hrx.
    apply in_memory_write_iff. rewrite (stored_data_length _ _ _ _ _ _ Hslot Hso Hm). apply Hslot.
  - apply Hd.
  - intros p y [-> |Hp]%taken_mark Hy; [| |done].
    + rewrite Hx in Hy. injection Hy as <-. done.
    + assert (p <> b + k)%nat as Hne.
      { intros ->. destruct Hp as [?|(st' & _ & Hp & Ha')]; [lia|].
        replace (b + k - b)%nat with k in Hp by lia. congruence. }
      pose proof (do_stored _ _ _ _ _ _ _ Hd p y Hp Hy) as Hr. rewrite <- Hr. apply Hother; [by eexists|].
      by apply (packets_apart (b + k) p).
  - intros a n Hin Hdis. rewrite <- (do_kept _ _ _ _ _ _ _ Hd a n Hin).
    + apply Hother; [by apply (do_dom _ _ _ _ _ _ _ Hd)|]. apply (Hdis (b + k)%nat x); [|done].
      apply taken_mark; [done|by left].
    + intros p y Hp Hy. apply (Hdis p y); [|done]. apply taken_mark; [done|by right].
Qed.

(** The window slides over acknowledged packets. *)
Lemma data_slide n w' :
  (n <= length l)%nat -> (forall k st, (k < n)%nat -> l !! k = Some st -> acked st = true) ->
  mem w' = mem w -> to_cut w' = to_cut w ->
  contents (cq (qp w')) = contents (cq (qp w)) ++ held_of (take n l) ->
  data_ok r m0 given next w' (drop n l) (b + n).
Proof.
  intros Hn Hacked Em Et Ec.
  assert (forall p, taken (b + n) (drop n l) p <-> taken b l p) as Ht.
  { intros p. unfold taken. split.
    - intros [Hp|(st & Hle & Hp & Ha)].
      + destruct (decide (p < b)%nat); [by left|right].
        destruct (lookup_lt_is_Some_2 l (p - b)) as [st Hst]; [lia|]. exists st.
        split; [lia|]. split; [done|]. apply (Hacked (p - b)%nat); [lia|done].
      + right. exists st. split; [lia|]. rewrite lookup_drop in Hp. split; [|done].
        by replace (p - b)%nat with (n + (p - (b + n)))%nat by lia.
    - intros [Hp|(st & Hle & Hp & Ha)]; [left; lia|].
      destruct (decide (p < b + n)%nat); [by left|right]. exists st. split; [lia|]. split; [|done].
      rewrite lookup_drop. by replace (n + (p - (b + n)))%nat with (p - b)%nat by lia. }
  destruct Hd as [Hg (pre & mid & E & Ep & Hl & col & Ecol) Hnx Hdom Hs Hst Hk]. constructor; try done.
  - exists (pre ++ take n mid), (drop n mid). pose proof (Forall2_length _ _ _ Hl) as Hlen.
    split; [by rewrite Et, E, <- !app_assoc, (app_assoc (take n mid)), take_drop|].
    split; [rewrite length_app, length_take; lia|]. split; [by apply Forall2_drop|].
    exists col. rewrite lasts_app, Ecol, Ec, <- app_assoc. do 2 f_equal. symmetry.
    by apply held_lasts, Forall2_take.
  - rewrite length_drop. rewrite Hnx. lia.
  - by rewrite Em.
  - intros p x Hp. rewrite Em. apply Hst. by apply Ht.
  - intros a m Hin Hdis. rewrite Em. apply Hk; [done|]. intros p x Hp. apply Hdis. by apply Ht.
Qed.

(** The worker has put the packets [new] into its window. *)
Lemma data_grow w' new :
  Forall (fun st => acked st = false) new -> cuts w new w' ->
  mem w' = mem w -> contents (cq (qp w')) = contents (cq (qp w)) ->
  (forall i st x, new !! i = Some st -> is_slice st x ->
     slices given !! (b + length l + i)%nat = Some x ->
     (buffer_read (mem w) (sl_data x) (sl_size x) = buffer_read m0 (sl_data x) (sl_size x)) ->
     sent_ok r m0 (b + length l + i) x) ->
  data_ok r m0 given (next + Z.of_nat (length new)) w' (l ++ new) b.
Proof.
  intros Hnew (xs & Hxs & Ex) Em Ec Hsent.
  assert (forall p, taken b (l ++ new) p <-> taken b l p) as Ht.
  { intros p. unfold taken. split; (intros [?|(st & Hle & Hp & Ha)]; [by left|right; exists st; split; [done|]]).
    - apply lookup_app_Some in Hp as [Hp|[_ Hp]]; [done|].
      pose proof (Forall_lookup_1 _ _ _ _ Hnew Hp) as Hf. cbn in Hf. congruence.
    - split; [|done]. by apply lookup_app_l_Some. }
  assert (forall i x, slices given !! (b + length l + i)%nat = Some x ->
    buffer_read (mem w) (sl_data x) (sl_size x) = buffer_read m0 (sl_data x) (sl_size x)) as Hfresh.
  { intros i x. apply data_fresh. intros Hp%taken_lt. lia. }
  destruct Hd as [Hg (pre & mid & E & Ep & Hl & Hcol) Hnx Hdom Hs Hst Hk]. constructor; try done.
  - exists pre, (mid ++ xs). split; [by rewrite E, Ex, <- app_assoc|]. split; [done|].
    split; [by apply Forall2_app|]. by rewrite Ec.
  - rewrite length_app, Hnx. lia.
  - by rewrite Em.
  - intros p x Hp Hx. destruct (decide (Z.of_nat p < next)) as [Hlt|Hge]; [by apply Hs|].
    destruct (Nat.le_exists_sub (b + length l) p) as (i & -> & _); [lia|].
    rewrite Nat.add_comm in Hx |- *. destruct (lookup_lt_is_Some_2 new i) as [st Hi]; [lia|].
    destruct (Forall2_lookup_l _ _ _ _ _ Hxs Hi) as (y & Hy & Hsl).
    assert (y = x) as ->.
    { pose proof (Forall2_length _ _ _ Hl) as Hlen.
      rewrite E, Ex, lookup_app_r, lookup_app_r in Hx by lia.
      replace (b + length l + i - length pre - length mid)%nat with i in Hx by lia.
      rewrite (lookup_app_l_Some _ _ _ _ Hy) in Hx. by injection Hx. }
    apply (Hsent i st); try done. by apply (Hfresh i).
  - intros p x Hp. rewrite Em. apply Hst. by apply Ht.
  - intros a m Hin Hdis. rewrite Em. apply Hk; [done|]. intros p x Hp. apply Hdis. by apply Ht.
Qed.

(** The load balancer hands over a sub-operation, or collects an answer. *)
Lemma data_push so q :
  gen_ok w -> sub_op_ok (mem w) so -> contents (wq q) = contents (wq (qp w)) ++ [so] ->
  contents (cq q) = contents (cq (qp w)) ->
  data_ok r m0 (given ++ [so]) next {| w with qp := q |} l b.
Proof.
  intros Hgen Hso Ew Ec. destruct Hd as [Hg (pre & mid & E & Ep & Hl & Hcol) Hnx Hdom Hs Hst Hk].
  assert (forall p x, (p < b + length l)%nat -> slices (given ++ [so]) !! p = Some x ->
    slices given !! p = Some x) as Hold.
  { intros p x Hp. rewrite slices_app, lookup_app_l; [done|].
    rewrite E, !length_app, (Forall2_length _ _ _ Hl) in *. lia. }
  constructor; try done.
  - apply Forall_app. split; [done|]. apply Forall_singleton.
    eapply sub_op_ok_mem; [|exact Hso]. intros a n. by apply Hdom.
  - exists pre, mid. rewrite (to_cut_push _ _ _ Hgen Ew), slices_app, E, <- !app_assoc.
    cbn [qp]. by rewrite Ec.
  - intros p x Hp Hx. apply Hs; [done|]. apply Hold; [lia|done].
  - intros p x Hp Hx. apply Hst; [done|]. apply Hold; [by apply taken_lt|done].
  - intros a n Hin Hdis. apply Hk; [done|]. intros p x Hp Hx. apply (Hdis p); [done|].
    rewrite slices_app. by apply lookup_app_l_Some.
Qed.

Lemma data_collect so q :
  contents (wq q) = contents (wq (qp w)) -> contents (cq (qp w)) = so :: contents (cq q) ->
  data_ok r m0 given next {| w with qp := q |} l b.
Proof.
  intros Ew Ec. destruct Hd as [Hg (pre & mid & E & Ep & Hl & col & Ecol) Hnx Hdom Hs Hst Hk].
  constructor; try done. exists pre, mid. rewrite (to_cut_same w) by done. split_and!; try done.
  exists (col ++ [so]). cbn [qp]. by rewrite Ecol, Ec, <- app_assoc.
Qed.
End steps.

(** * The cluster *)

Context (dm sm : Z -> Z).

Definition all_reduce (so : sub_op_t) : Prop := op_code (op so) = OP_ALL_REDUCE.

(** What the clients have to see to: the operations are all-reduces, and the
    ranges of different operations of a host do not overlap. *)
Definition plan_ok (c : cluster) : Prop := forall r, is_host r ->
  Forall all_reduce (c_given c r) /\ StronglySorted ops_apart (c_given c r).

Definition host_data_ok (c0 c : cluster) (r : Z) (w : worker) (given : list sub_op_t) (next : Z) : Prop :=
  exists l b, ring (window w) l /\ data_ok r (mem (workers c0 r)) given next w l b.

Definition delivered (c0 c : cluster) : Prop := forall r, is_host r ->
  host_data_ok c0 c r (workers c r) (c_given c r) (c_next c r).

Lemma given_grows c c' r : cstep dm sm c c' -> exists t, c_given c' r = c_given c r ++ t.
Proof.
  intros Hst. destruct Hst; try (exists []; by rewrite app_nil_r). cbn [c_given].
  destruct (decide (r = r0)) as [->|Hne]; [rewrite upd_eq; by eexists|].
  rewrite upd_ne by done. exists []. by rewrite app_nil_r.
Qed.

Lemma plan_before c c' : cstep dm sm c c' -> plan_ok c' -> plan_ok c.
Proof.
  intros Hst Hp r Hr. destruct (given_grows c c' r Hst) as [t E]. specialize (Hp r Hr). rewrite E in Hp.
  destruct Hp as [[? _]%Forall_app (_ & ? & _)%StronglySorted_app]. done.
Qed.

(** Host [r] has gone on. *)
Lemma delivered_advance c0 c r w' n :
  delivered c0 c -> is_host r -> host_data_ok c0 c r w' (c_given c r) (c_next c r + n) ->
  delivered c0 (advance c r w' n).
Proof.
  intros Hd Hr Hw r' Hr'. cbn [advance workers c_given c_next]. destruct (decide (r' = r)) as [->|Hne].
  - rewrite !upd_eq. exact Hw.
  - rewrite !upd_ne by done. by apply Hd.
Qed.

Lemma delivered_quiet c0 c r w' :
  delivered c0 c -> is_host r -> window w' = window (workers c r) -> mem w' = mem (workers c r) ->
  gen w' = gen (workers c r) -> qp w' = qp (workers c r) -> delivered c0 (advance c r w' 0).
Proof.
  intros Hd Hr Ew Em Eg Eq. apply delivered_advance; [done..|]. rewrite Z.add_0_r.
  destruct (Hd r Hr) as (l & b & Hring & Hdat). exists l, b. rewrite Ew. split; [done|].
  apply (data_same _ _ _ _ _ _ _ Hdat); [done|by apply to_cut_same; rewrite ?Eq|by rewrite Eq].
Qed.

Section pieces.
Context (Hok : group_ok) (c0 c : cluster) (s : system).
Context (Hs : reachable s) (Hc : csim dm sm c s) (Hd : delivered c0 c) (Hp : plan_ok c).

(** The simulation and the data of a host are about the same window. *)
Lemma host_view r :
  is_host r -> exists l b, host_sim dm sm r (workers c r) l (hosts s r)
    /\ data_ok r (mem (workers c0 r)) (c_given c r) (c_next c r) (workers c r) l b
    /\ h_base (hosts s r) = Z.of_nat b /\ c_next c r = h_next (hosts s r).
Proof.
  intros Hr. destruct (cs_host _ _ _ _ Hc r Hr) as [l Hsim]. destruct (Hd r Hr) as (l' & b & Hring & Hdat).
  pose proof (ring_unique _ _ _ Hring (wi_ring _ _ _ (hs_inv _ _ _ _ _ _ Hsim))) as ->.
  exists l, b. split; [done|]. split; [done|]. pose proof (do_next _ _ _ _ _ _ _ Hdat) as En.
  pose proof (cs_next _ _ _ _ Hc r Hr) as Ec. pose proof (hs_next _ _ _ _ _ _ Hsim). split; [lia|done].
Qed.

(** Every host has sent the packets that are answered, and knows what they are. *)
Lemma completed_sent p r :
  p ∈ completed s -> is_host r ->
  exists q x, p = Z.of_nat q /\ p < c_next c r /\ slices (c_given c r) !! q = Some x
    /\ sl_op x ∈ c_given c r /\ sent_ok r (mem (workers c0 r)) q x.
Proof.
  intros Hin Hr. pose proof (stream_reachable_inv Hok s Hs) as Hi.
  destruct (inv_completed _ Hi p Hin) as [Hrange Hseen].
  pose proof (hi_seen _ _ (inv_host _ Hi r Hr)) as Hlt. specialize (Hseen r Hr).
  destruct (host_view r Hr) as (l & b & _ & Hdat & _ & En).
  exists (Z.to_nat p). pose proof (do_next _ _ _ _ _ _ _ Hdat) as Eb.
  destruct (do_cut _ _ _ _ _ _ _ Hdat) as (pre & mid & E & Ep & Hl & _). apply Forall2_length in Hl.
  destruct (lookup_lt_is_Some_2 (slices (c_given c r)) (Z.to_nat p)) as [x Hx].
  { rewrite E, !length_app. lia. }
  exists x. split; [lia|]. split; [lia|]. split; [done|]. split.
  - by apply list_elem_of_lookup_2, elem_of_slices in Hx as [? _].
  - apply (do_sent _ _ _ _ _ _ _ Hdat); [lia|done].
Qed.

Lemma all_reduce_op r x :
  is_host r -> sl_op x ∈ c_given c r ->
  op_code (op (sl_op x)) = OP_ALL_REDUCE.
Proof. intros Hr Hin. destruct (Hp r Hr) as [Ha _]. by apply (proj1 (Forall_forall _ _) Ha). Qed.

(** An answer arrives with its payload. *)
Lemma answer_has_payload h t rid marked h' :
  h ∈ c_answers c -> egress t rid marked false h = Some h' -> payload_valid h' = true.
Proof.
  intros Hin He. rewrite <- (cs_answers _ _ _ _ Hc) in Hin.
  destruct (reachable_kinds Hok s Hs h (or_intror Hin)) as (r0 & Hr0 & Ek & Ev).
  pose proof (stream_reachable_inv Hok s Hs) as Hi.
  pose proof (an_completed _ _ (inv_answer _ Hi h Hin)) as Hcomp.
  destruct (completed_sent _ r0 Hcomp Hr0) as (q & x & Eq & _ & _ & Hgiven & Hcoll & Hpv & _).
  rewrite <- Eq in Hcoll, Hpv. rewrite (all_reduce_op r0 x Hr0 Hgiven) in Hcoll.
  destruct (egress_payload _ _ _ _ _ _ He) as [_ ->]; [|by rewrite Ev].
  right. rewrite Ek, Hcoll. done.
Qed.

Lemma receive_delivers r h t rid marked h' m w' :
  is_host r -> h ∈ c_answers c -> egress t rid marked false h = Some h' -> carries m h' ->
  rx_process_one m (workers c r) = Ok (tt, w') -> delivered c0 (advance c r w' 0).
Proof.
  intros Hr Hin He Hm Hrun. destruct (host_view r Hr) as (l & b & Hsim & Hdat & Eb & En).
  pose proof (hs_inv _ _ _ _ _ _ Hsim) as Hw.
  pose proof (runs_det _ _ _ _ _ Hrun (rx_process_one_runs _ l _ m Hw (ca_ok _ _ Hm))) as (Hg & Hq & Hf).
  assert (to_cut w' = to_cut (workers c r)) as Et by (apply to_cut_same; [apply Hg|by rewrite Hq]).
  apply delivered_advance; [done..|]. rewrite Z.add_0_r.
  destruct (fresh_ack (workers c r) l (h_base (hosts s r)) m) as [[k st]|] eqn:Ef.
  2:{ destruct Hf as (Hi' & Em & _). exists l, b. split; [apply Hi'|].
      by apply (data_same _ _ _ _ _ _ _ Hdat); rewrite ?Hq. }
  destruct Hf as (so & Hso & Hi' & Em & _). exists (<[k := {| st with acked := true |}]> l), b.
  split; [apply Hi'|].
  pose proof (answer_total dm sm c s r l h t rid marked h' m k st Hok Hs Hc Hr Hsim Hin He Hm Ef) as Htot.
  pose proof (stream_reachable_inv Hok s Hs) as Hi.
  assert (0 <= get_psn m < 2 ^ 32) as Hrange.
  { rewrite <- (cs_answers _ _ _ _ Hc) in Hin. destruct (inv_answer _ Hi h Hin) as [Hig Hcp _].
    destruct (egress_keeps _ _ _ _ _ (ig_valid _ Hig) He) as (Ep & _).
    rewrite (ca_psn _ _ Hm), Ep. apply (inv_completed _ Hi _ Hcp). }
  destruct (answer_index _ _ _ _ _ _ Hsim m k st Hrange Ef) as (Hk & Ha & Epsn & _).
  destruct (data_slice _ _ _ _ _ _ _ k st Hdat Hk) as (x & Hx & Hsl).
  assert (so = sl_op x) as -> by (destruct Hsl as (E & _); rewrite Hso in E; by injection E).
  destruct (elem_of_slices (c_given c r) x) as [Hgiven _]; [by apply list_elem_of_lookup_2 in Hx|].
  eapply (data_mark _ _ _ _ _ _ _ Hdat); try done.
  - by apply Hp.
  - exists (current_group_id (workers c r)). eexists. by apply (wi_slots _ _ _ Hw).
  - apply Hm.
  - unfold need_rx. by rewrite (all_reduce_op r x Hr Hgiven).
  - rewrite (ca_payload _ _ Hm), Htot by by eapply answer_has_payload.
    rewrite <- (ca_psn _ _ Hm), Epsn, Eb. do 2 f_equal. lia.
Qed.

Lemma slide_delivers r w' :
  is_host r -> shift_ack (workers c r) = Ok (tt, w') -> delivered c0 (advance c r w' 0).
Proof.
  intros Hr Hrun. destruct (host_view r Hr) as (l & b & Hsim & Hdat & _).
  pose proof (hs_inv _ _ _ _ _ _ Hsim) as Hw.
  pose proof (runs_det _ _ _ _ _ Hrun (shift_ack_runs _ l _ Hw)) as (Hi' & Ecq & Ewq & Hg & Em & _).
  apply delivered_advance; [done..|]. rewrite Z.add_0_r.
  exists (drop (acked_len l) l), (b + acked_len l)%nat. split; [apply Hi'|].
  apply (data_slide _ _ _ _ _ _ _ Hdat); try done.
  - apply acked_len_le.
  - intros k st Hk Hst. by eapply acked_prefix.
  - apply to_cut_same; [apply Hg|done].
Qed.

(** What the switch sees of a packet that has just been generated. *)
Lemma packet_sent r p st x m0 (w : worker) :
  is_host r -> 0 <= Z.of_nat p < 2 ^ 32 -> is_packet dm sm r (sp_pkt st) (Z.of_nat p) ->
  fresh_packet w st -> is_slice st x ->
  buffer_read (mem w) (sl_data x) (sl_size x) = buffer_read m0 (sl_data x) (sl_size x) ->
  sent_ok r m0 p x.
Proof.
  intros Hr Hrange Hpk (_ & so & Hso & Hf & Hh) (Eso & Ed & Es & _) Em.
  rewrite Hso in Eso. injection Eso as ->.
  destruct (ok_packet Hok r (Z.of_nat p) Hr Hrange) as (_ & Hv & _). unfold is_packet in Hpk.
  unfold sent_ok. rewrite <- Hpk in Hv |- *. split; [exact (filled_coll _ _ _ Hf)|].
  split; [exact Hv|].
  destruct (parsed_lanes (mem w) (sl_op x) st Hf Hh Hv) as (old & d & Ho & _ & Hd' & Hb & El).
  exists old, d. rewrite Ed, Es in *. rewrite <- Em. split_and!; done.
Qed.

Lemma transmit_delivers r w' :
  is_host r -> tx_process (workers c r) = Ok (tt, w') ->
  in_stream dm sm r (c_next c r) (workers c r) w' ->
  delivered c0 (advance c r w' (growth (workers c r) w')).
Proof.
  intros Hr Hrun [Hmax Hstr]. destruct (host_view r Hr) as (l & b & Hsim & Hdat & Eb & En).
  pose proof (hs_inv _ _ _ _ _ _ Hsim) as Hw.
  assert (uniform (workers c r)) as Hu.
  { exists grp. apply (Forall_impl _ _ _ (hs_queue _ _ _ _ _ _ Hsim)). by intros so [? _]. }
  pose proof (runs_det _ _ _ _ _ Hrun (tx_process_runs _ l _ Hw (fun _ => Hu)))
    as (new & base' & Hi & Hb & _ & Ecq & _ & Em & _ & Hnew & Ea & Ht & Hcut).
  pose proof (grown_base dm sm s r _ l Hsim _ _ _ Hi Hb Ht) as Hi'.
  pose proof (grown_growth _ _ _ _ _ _ Hw Hi') as Eg. rewrite Eg in *. rewrite Nat2Z.id in Hstr.
  apply delivered_advance; [done..|]. exists (l ++ new), b. split; [apply Hi'|].
  apply (data_grow _ _ _ _ _ _ _ Hdat); try done; [by apply Hp|by eapply Forall_impl; [exact Hnew|]; intros st [? _]|].
  intros i st x Hst Hsl Hx Eread. pose proof (lookup_lt_Some _ _ _ Hst) as Hlt.
  pose proof (do_next _ _ _ _ _ _ _ Hdat) as Enx.
  apply (packet_sent r _ st x _ (workers c r)); try done; [lia|..].
  - pose proof (Hstr i st Hlt (new_packets dm sm s r _ l Hsim _ _ _ _ Hi' Ea Hst)) as Hpk.
    by replace (Z.of_nat (b + length l + i)) with (c_next c r + Z.of_nat i) by lia.
  - by apply (Forall_lookup_1 _ _ _ _ Hnew Hst).
Qed.

Lemma push_delivers r so q' :
  is_host r -> sub_op_ok (mem (workers c r)) so -> push_req so (qp (workers c r)) = Ok (true, q') ->
  delivered c0 {| (advance c r {| (workers c r) with qp := q' |} 0) with
    c_given := upd (c_given c) r (c_given c r ++ [so]) |}.
Proof.
  intros Hr Hso Hpush r' Hr'. cbn [advance workers c_given c_next].
  destruct (decide (r' = r)) as [->|Hne]; [|rewrite !upd_ne by done; by apply Hd].
  rewrite !upd_eq, Z.add_0_r. destruct (host_view r Hr) as (l & b & Hsim & Hdat & _).
  pose proof (hs_inv _ _ _ _ _ _ Hsim) as Hw.
  destruct (worker_push_inv _ _ _ _ _ Hw Hso Hpush) as (Hi' & Ewq & Ecq).
  exists l, b. split; [apply Hi'|]. apply (data_push _ _ _ _ _ _ _ Hdat); try done. apply Hw.
Qed.

Lemma collect_delivers r so q1 q' :
  is_host r -> front_resp (qp (workers c r)) = Ok (Some so, q1) -> pop_resp q1 = Ok (tt, q') ->
  delivered c0 (advance c r {| (workers c r) with qp := q' |} 0).
Proof.
  intros Hr Hf Hpop. apply delivered_advance; [done..|]. rewrite Z.add_0_r.
  destruct (host_view r Hr) as (l & b & Hsim & Hdat & _).
  destruct (worker_collect_inv _ _ _ _ _ _ (hs_inv _ _ _ _ _ _ Hsim) Hf Hpop) as (Hi' & Ewq & Ecq).
  exists l, b. split; [apply Hi'|]. by apply (data_collect _ _ _ _ _ _ _ Hdat so).
Qed.
End pieces.

Lemma cstep_delivers c0 c s c' :
  group_ok -> reachable s -> csim dm sm c s -> delivered c0 c -> plan_ok c -> cstep dm sm c c' ->
  delivered c0 c'.
Proof.
  intros Hok Hs Hc Hd Hp Hst. destruct Hst.
  - by eapply receive_delivers.
  - by eapply slide_delivers.
  - by eapply transmit_delivers.
  - by apply delivered_quiet.
  - by apply delivered_quiet.
  - by apply delivered_quiet.
  - by apply delivered_quiet.
  - by eapply push_delivers.
  - by eapply collect_delivers.
  - exact Hd.
  - exact Hd.
  - exact Hd.
  - exact Hd.
  - exact Hd.
  - exact Hd.
  - exact Hd.
Qed.

Lemma initial_delivered c0 : c_initial c0 -> delivered c0 c0.
Proof.
  intros Hi r Hr. pose proof (ci_start _ Hi r Hr) as Hstart. exists [], 0%nat. split; [apply Hstart|].
  rewrite (ci_given _ Hi r), (ci_next _ Hi r). constructor; try done.
  - exists [], []. split; [|split; [done|]; split; [constructor|]].
    + unfold to_cut. rewrite (start_gen _ Hstart), (start_qp _ Hstart). unfold new_queue_pair. cbn.
      by rewrite contents_new.
    + exists []. rewrite (start_qp _ Hstart). unfold new_queue_pair. cbn. by rewrite contents_new.
Qed.

(** In every state of the cluster, each byte of a host is the client's or the
    result of an acknowledged packet. *)
Lemma cluster_delivers c0 c :
  group_ok -> half_range -> c_initial c0 -> rtc (cstep dm sm) c0 c -> plan_ok c ->
  delivered c0 c /\ exists s, reachable s /\ csim dm sm c s.
Proof.
  intros Hok Hlim Hinit Hrun Hp. split; [|apply c_reachable_sim; [done..|by exists c0]].
  revert Hp. refine (rtc_ind_r (fun c => plan_ok c -> delivered c0 c) c0 _ _ c Hrun).
  - intros _. by apply initial_delivered.
  - intros c1 c2 Hr1 Hst IH Hp. pose proof (plan_before _ _ Hst Hp) as Hp1.
    destruct (c_reachable_sim dm sm c1 Hok Hlim) as (s1 & Hs1 & Hc1); [by exists c0|].
    eapply cstep_delivers; [done|exact Hs1|done|by apply IH|done|done].
Qed.
End delivery.
