(* ===== verification/AllReduce.v ===== *)
(** The collective operation as a whole: when a worker answers its part of an
    all-reduce, the memory of its host holds the sums of what the buffers of
    all hosts held. *)

From stdpp Require Import sorting.
From S2P Require Import Prelude.
From S2P Require Import Types.
From S2P Require Import Endian.
From S2P Require Import Config.
From S2P Require Import QueuePair.
From S2P Require Import Worker.
From S2P Require Import Window.
From S2P Require Import WorkerInv.
From S2P Require Import Receive.
From S2P Require Import Packet.
From S2P Require Import Slices.
From S2P Require Import Send.
From S2P Require Import Switch.
From S2P Require Import Aggregation.
From S2P Require Import Protocol.
From S2P Require Import Wire.
From S2P Require Import Cluster.
From S2P Require Import ClusterTheorems.
From S2P Require Import Delivery.

(** * A buffer as its packets *)

(** The part of [d] that packet [k] of a buffer of [size] bytes holds. *)
Definition piece_of (size k : Z) (d : list Z) : list Z :=
  take (Z.to_nat (cut_size size k)) (drop (Z.to_nat (k * PAYLOAD_SIZE)) d).

Lemma buffer_read_piece m p size k d :
  0 <= size < 2 ^ 32 -> 0 <= k < packet_count size -> buffer_read m p size = Some d ->
  buffer_read m (ptr_add p (k * PAYLOAD_SIZE)) (cut_size size k) = Some (piece_of size k d).
Proof.
  intros Hs Hk Hd. pose proof (cut_size_range _ _ Hs Hk) as (H1' & H2' & H3').
  set (a := k * PAYLOAD_SIZE) in *. set (n := cut_size size k) in *.
  replace size with (a + (n + (size - a - n))) in Hd by lia.
  apply buffer_read_app in Hd as (d1 & d2 & Hd1 & Hd2 & ->); [|lia|lia].
  apply buffer_read_app in Hd2 as (d3 & d4 & Hd3 & Hd4 & ->); [|lia|lia].
  rewrite Hd3. f_equal. unfold piece_of. fold a n.
  apply buffer_read_length in Hd1, Hd3.
  rewrite drop_app_length' by lia. by rewrite take_app_length' by lia.
Qed.

Lemma lookup_piece size k d j :
  (j < Z.to_nat (cut_size size k))%nat ->
  piece_of size k d !! j = d !! (Z.to_nat (k * PAYLOAD_SIZE) + j)%nat.
Proof. intros Hj. unfold piece_of. by rewrite lookup_take_lt, lookup_drop. Qed.

(** What all packets of a buffer say says it all. *)
Lemma read_by_pieces m p size d :
  0 <= size < 2 ^ 32 -> in_memory m p size -> Z.of_nat (length d) = size ->
  (forall k, 0 <= k < packet_count size ->
     buffer_read m (ptr_add p (k * PAYLOAD_SIZE)) (cut_size size k) = Some (piece_of size k d)) ->
  buffer_read m p size = Some d.
Proof.
  intros Hs [f Hf] Hl Hk. rewrite Hf. f_equal. pose proof (buffer_read_length _ _ _ _ Hf) as Hlf.
  apply (list_eq_same_length _ _ (Z.to_nat size)); [lia|lia|]. intros j x y Hj Hx Hy.
  set (k := Z.of_nat j / PAYLOAD_SIZE).
  assert (0 < PAYLOAD_SIZE) as HP by done.
  pose proof (Z.div_mod (Z.of_nat j) PAYLOAD_SIZE ltac:(lia)) as Edm. fold k in Edm.
  pose proof (Z.mod_pos_bound (Z.of_nat j) PAYLOAD_SIZE HP) as Hmod.
  pose proof (Z.div_pos (Z.of_nat j) PAYLOAD_SIZE ltac:(lia) HP) as Hk0. fold k in Hk0.
  pose proof (packet_count_bounds size Hs) as (_ & Hb & _).
  assert (0 <= k < packet_count size) as Hkr by nia.
  pose proof (Hk k Hkr) as E. rewrite (buffer_read_piece _ _ _ _ _ Hs Hkr Hf) in E. injection E as E.
  set (i := Z.to_nat (Z.of_nat j mod PAYLOAD_SIZE)).
  assert (i < Z.to_nat (cut_size size k))%nat as Hi by (unfold cut_size, i; nia).
  assert (Z.to_nat (k * PAYLOAD_SIZE) + i = j)%nat as Ej by (unfold i; nia).
  pose proof (lookup_piece size k f i Hi) as E1. pose proof (lookup_piece size k d i Hi) as E2.
  rewrite E, E2, Ej, Hx, Hy in E1. by injection E1.
Qed.

(** ** Integers *)

Lemma host_words_drop l i n :
  length l = (4 * n)%nat -> (i <= n)%nat -> host_words (drop (4 * i) l) = drop i (host_words l).
Proof.
  intros Hl Hi. rewrite <- (take_drop (4 * i) l) at 2.
  rewrite (host_words_app _ _ i) by (rewrite length_take; lia).
  rewrite drop_app_length'; [done|]. symmetry. apply length_host_words. rewrite length_take. lia.
Qed.

Lemma host_words_take l i n :
  length l = (4 * n)%nat -> (i <= n)%nat -> host_words (take (4 * i) l) = take i (host_words l).
Proof.
  intros Hl Hi. rewrite <- (take_drop (4 * i) l) at 2.
  rewrite (host_words_app _ _ i) by (rewrite length_take; lia).
  rewrite take_app_length'; [done|]. symmetry. apply length_host_words. rewrite length_take. lia.
Qed.

Lemma length_int_bytes l : length (int_bytes l) = (4 * length l)%nat.
Proof.
  induction l as [|x l IH]; [done|]. unfold int_bytes in *. rewrite bind_cons, length_app, IH.
  rewrite length_le_bytes. cbn [length]. lia.
Qed.

Lemma int_bytes_drop l k : drop (4 * k) (int_bytes l) = int_bytes (drop k l).
Proof.
  revert k. induction l as [|x l IH]; intros k; [by destruct k|].
  destruct k as [|k]; [done|]. unfold int_bytes in *. rewrite bind_cons. cbn [drop]. rewrite <- IH.
  replace (4 * S k)%nat with (length (le_bytes 4 (u32 x)) + 4 * k)%nat by (rewrite length_le_bytes; lia).
  by rewrite <- drop_drop, drop_app_length.
Qed.

(** Choosing one object for every host. *)
Lemma hosts_choice {A} `{!Inhabited A} (n : Z) (P : Z -> A -> Prop) :
  (forall r, 0 <= r < n -> exists x, P r x) -> exists f, forall r, 0 <= r < n -> P r (f r).
Proof.
  intros HP. destruct (Z.le_gt_cases n 0) as [Hn|Hn]; [exists (fun _ => inhabitant); lia|].
  revert HP. replace n with (Z.of_nat (Z.to_nat n)) by lia. generalize (Z.to_nat n). clear n Hn.
  induction n as [|n IH]; intros HP; [exists (fun _ => inhabitant); lia|].
  destruct IH as [f Hf]; [intros r Hr; apply HP; lia|]. destruct (HP (Z.of_nat n)) as [x Hx]; [lia|].
  exists (upd f (Z.of_nat n) x). intros r Hr. destruct (decide (r = Z.of_nat n)) as [->|Hne].
  - by rewrite upd_eq.
  - rewrite upd_ne by done. apply Hf. lia.
Qed.

Section sums.
Context {str : Stream}.

(** The sums of the packets are the packets of the sums. *)
Lemma sums_piece ops D size k :
  0 <= size < 2 ^ 32 -> size mod 4 = 0 -> 0 <= k < packet_count size ->
  (forall r, is_host r -> Z.of_nat (length (D r)) = size) ->
  int_bytes (host_sums ops (fun r => piece_of size k (D r)) (cut_size size k))
  = piece_of size k (int_bytes (host_sums ops D size)).
Proof.
  intros Hs H4 Hk HD. pose proof (cut_size_range _ _ Hs Hk) as (Ha & Hc & Hle).
  pose proof (cut_size_aligned size k H4) as Hc4.
  pose proof (Z.div_mod size 4 ltac:(lia)). pose proof (Z.div_mod (cut_size size k) 4 ltac:(lia)).
  set (n := Z.to_nat (size / 4)). set (m := Z.to_nat (cut_size size k / 4)). set (i := Z.to_nat (k * 64)).
  assert (Z.to_nat (cut_size size k) = 4 * m)%nat as Em by (unfold m; lia).
  assert (Z.to_nat (k * PAYLOAD_SIZE) = 4 * i)%nat as Ei
    by (unfold i, PAYLOAD_SIZE, PAYLOAD_LEN, sizeof_int32; lia).
  assert (i + m <= n)%nat as Hn by (unfold i, m, n, PAYLOAD_SIZE, PAYLOAD_LEN, sizeof_int32 in *; lia).
  unfold piece_of at 2. rewrite Em, Ei, int_bytes_drop, int_bytes_take. f_equal.
  unfold host_sums. fold n m. rewrite <- fmap_drop, <- fmap_take, drop_seq, take_seq.
  rewrite Nat.min_l by lia.
  replace (seq (0 + i) m) with (Nat.add i <$> seq 0 m) by by rewrite fmap_add_seq, Nat.add_0_r.
  rewrite <- list_fmap_compose. apply list_fmap_ext. intros _ j Hj%list_elem_of_lookup_2%elem_of_seq.
  unfold host_sum, compose. f_equal. apply list_fmap_ext. intros _ r Hr%list_elem_of_lookup_2.
  apply elem_of_seqZ in Hr. assert (length (D r) = (4 * n)%nat) as Hl.
  { pose proof (HD r ltac:(unfold is_host; lia)). unfold n. lia. }
  destruct (need_tx (ops r)); [|done]. unfold piece_of. rewrite Em, Ei.
  rewrite (host_words_take _ _ (n - i)) by (rewrite ?length_drop; lia).
  rewrite (host_words_drop _ _ n) by lia.
  rewrite !list_lookup_total_alt, lookup_take_lt, lookup_drop by lia. done.
Qed.
End sums.

(** ** The same operation on two hosts *)

Lemma length_slices_sizes ops ops' :
  so_size <$> ops = so_size <$> ops' -> length (slices ops) = length (slices ops').
Proof. intros E. by eapply Forall2_length, slices_same_shape. Qed.

Lemma prefix_lookup {A} (l k : list A) i x : l `prefix_of` k -> l !! i = Some x -> k !! i = Some x.
Proof. intros [t ->]. apply lookup_app_l_Some. Qed.

Lemma same_op plan given given' pre so post x :
  given = pre ++ so :: post ->
  so_size <$> given `prefix_of` plan -> so_size <$> given' `prefix_of` plan ->
  slices given' !! length (slices pre) = Some x ->
  exists pre' so' post', given' = pre' ++ so' :: post' /\ length pre' = length pre
    /\ length (slices pre') = length (slices pre) /\ so_size so' = so_size so.
Proof.
  intros -> Hp Hp' Hx.
  assert (forall n, (n <= length pre)%nat -> (n <= length given')%nat ->
    so_size <$> take n given' = so_size <$> take n pre) as Htake.
  { intros n Hn Hn'. apply list_eq. intros i. rewrite !list_lookup_fmap.
    destruct (decide (i < n)%nat) as [Hi|Hi]; [|by rewrite !lookup_take_ge by lia].
    rewrite !lookup_take_lt by done.
    destruct (lookup_lt_is_Some_2 pre i) as [a Ha]; [lia|].
    destruct (lookup_lt_is_Some_2 given' i) as [b Hb]; [lia|]. rewrite Ha, Hb. cbn.
    assert (plan !! i = Some (so_size a)) as E1.
    { apply (prefix_lookup _ _ _ _ Hp). rewrite list_lookup_fmap, (lookup_app_l_Some _ _ _ _ Ha). done. }
    assert (plan !! i = Some (so_size b)) as E2.
    { apply (prefix_lookup _ _ _ _ Hp'). by rewrite list_lookup_fmap, Hb. }
    congruence. }
  destruct (Nat.le_gt_cases (length given') (length pre)) as [Hle|Hlt].
  - exfalso. specialize (Htake (length given') Hle (le_n _)). rewrite firstn_all in Htake.
    apply lookup_lt_Some in Hx. rewrite (length_slices_sizes _ _ Htake) in Hx.
    rewrite <- (take_drop (length given') pre), slices_app, length_app in Hx at 1. lia.
  - destruct (lookup_lt_is_Some_2 given' _ Hlt) as [so' Hso'].
    exists (take (length pre) given'), so', (drop (S (length pre)) given').
    specialize (Htake (length pre) (le_n _) ltac:(lia)). rewrite firstn_all in Htake.
    split; [by rewrite take_drop_middle|]. split; [rewrite length_take; lia|].
    split; [by apply length_slices_sizes|].
    assert (plan !! length pre = Some (so_size so)) as E1.
    { apply (prefix_lookup _ _ _ _ Hp). by rewrite list_lookup_fmap, list_lookup_middle. }
    assert (plan !! length pre = Some (so_size so')) as E2.
    { apply (prefix_lookup _ _ _ _ Hp'). by rewrite list_lookup_fmap, Hso'. }
    congruence.
Qed.

Lemma slices_from_lookup so k :
  0 <= k < packet_count (so_size so) ->
  slices_from 0 so !! Z.to_nat k = Some {| sl_op := so; sl_no := k |}.
Proof.
  intros Hk. unfold slices_from. rewrite list_lookup_fmap, lookup_seqZ_lt by lia. cbn. do 2 f_equal. lia.
Qed.

Lemma slices_middle pre so post k :
  0 <= k < packet_count (so_size so) ->
  slices (pre ++ so :: post) !! (length (slices pre) + Z.to_nat k)%nat
    = Some {| sl_op := so; sl_no := k |}.
Proof.
  intros Hk. rewrite slices_app, slices_cons, lookup_app_r by lia. rewrite Nat.add_comm, Nat.add_sub.
  by apply lookup_app_l_Some, slices_from_lookup.
Qed.

(** * The theorem *)

Section theorem.
Context `{ConfigOk, SpscLaws, TransportLaws}.
Context {str : Stream}.
Context (dm sm : Z -> Z).

(** The clients of all hosts post operations of the same sizes in the same order. *)
Definition same_plan (c : cluster) : Prop :=
  exists plan, forall r, is_host r -> so_size <$> c_given c r `prefix_of` plan.

(** An answered sub-operation is over: all its packets are acknowledged. *)
Lemma answered_taken r m0 given next w l b so :
  data_ok r m0 given next w l b -> gen_ok w -> Forall (sub_op_ok (mem w)) (contents (wq (qp w))) ->
  so ∈ contents (cq (qp w)) ->
  exists pre post, given = pre ++ so :: post
    /\ forall k, 0 <= k < packet_count (so_size so) -> (length (slices pre) + Z.to_nat k < b)%nat.
Proof.
  intros Hd Hg Hq Hin. destruct (do_cut _ _ _ _ _ _ _ Hd) as (p & mid & E & Eb & Hl & col & Ecol).
  assert (Forall size_ok given) as Hs
    by (eapply Forall_impl; [apply (do_given _ _ _ _ _ _ _ Hd)|]; intros x; apply sok_size).
  assert (given = lasts p ++ (lasts mid ++ lasts (to_cut w))) as Eg.
  { rewrite <- (lasts_slices given Hs), E, !lasts_app. done. }
  destruct (slices_covered (lasts p) (lasts mid ++ lasts (to_cut w)) p (mid ++ to_cut w)) as [z Ez];
    [by rewrite <- Eg|rewrite Eg in Hs; by apply Forall_app in Hs as [? _]|done|].
  apply list_elem_of_split in Hin as (c1 & c2 & Ec). rewrite Ec in Ecol.
  exists (col ++ c1), (c2 ++ (lasts mid ++ lasts (to_cut w))).
  split; [by rewrite Eg, Ecol, <- !app_assoc|]. intros k Hk.
  pose proof (lookup_lt_Some _ _ _ (slices_middle (col ++ c1) so c2 k Hk)) as Hlt.
  rewrite <- app_assoc, <- Ecol in Hlt. rewrite <- Eb, Ez, length_app. lia.
Qed.

(** What the operation [i] of a host is, and what its buffer held before anything was sent. *)
Definition posted (c0 c : cluster) (i : nat) (size r : Z) (so : sub_op_t) (d : list Z) : Prop :=
  c_given c r !! i = Some so /\ so_size so = size
  /\ buffer_read (mem (workers c0 r)) (so_data so) size = Some d.

Section answered.
Context (Hok : group_ok) (c0 c : cluster) (s : system).
Context (Hs : reachable s) (Hc : csim dm sm c s) (Hd : delivered c0 c).
Context (Hp : plan_ok c) (Hplan : same_plan c).
Context (r : Z) (Hr : is_host r) (l : list pkt_state_t) (b : nat).
Context (Hsim : host_sim dm sm r (workers c r) l (hosts s r)) (Hb : h_base (hosts s r) = Z.of_nat b).
Context (Hdat : data_ok r (mem (workers c0 r)) (c_given c r) (c_next c r) (workers c r) l b).
Context (pre post : list sub_op_t) (so : sub_op_t) (Hgiven : c_given c r = pre ++ so :: post).
Context (Htaken : forall k, 0 <= k < packet_count (so_size so) -> (length (slices pre) + Z.to_nat k < b)%nat).

Lemma so_ok : sub_op_ok (mem (workers c0 r)) so.
Proof.
  apply (proj1 (Forall_forall _ _) (do_given _ _ _ _ _ _ _ Hdat)). rewrite Hgiven.
  apply elem_of_app. right. by left.
Qed.

Lemma so_completed k :
  0 <= k < packet_count (so_size so) ->
  Z.of_nat (length (slices pre) + Z.to_nat k) ∈ completed s.
Proof.
  intros Hk. pose proof (stream_reachable_inv Hok s Hs) as Hi.
  apply (hi_acked _ _ (inv_host _ Hi r Hr)). specialize (Htaken k Hk). lia.
Qed.

(** Every host has been handed the operation, and its packets are what they should be. *)
Lemma posted_everywhere r' :
  is_host r' -> exists od : sub_op_t * list Z,
    posted c0 c (length pre) (so_size so) r' od.1 od.2 /\ all_reduce od.1
    /\ forall k, 0 <= k < packet_count (so_size so) -> exists old,
         Z.of_nat (length old) = PAYLOAD_SIZE
         /\ Forall is_byte (piece_of (so_size so) k od.2)
         /\ lanes (host_packet r' (Z.of_nat (length (slices pre) + Z.to_nat k)))
            = sent_lanes (op od.1) old (piece_of (so_size so) k od.2) (cut_size (so_size so) k).
Proof.
  intros Hr'. pose proof (sok_size _ _ so_ok) as Hsize.
  pose proof (count_pos so Hsize) as Hcnt.
  destruct (completed_sent dm sm Hok c0 c s Hs Hc Hd _ r' (so_completed 0 ltac:(lia)) Hr')
    as (q & x & Eq & _ & Hx & _).
  assert (q = length (slices pre)) as -> by lia. destruct Hplan as [plan Hpl].
  destruct (same_op plan _ _ _ _ _ _ Hgiven (Hpl r Hr) (Hpl r' Hr') Hx)
    as (pre' & so' & post' & E' & El & Esl & Esz).
  destruct (host_view dm sm c0 c s Hc Hd r' Hr') as (l' & b' & _ & Hdat' & _).
  assert (so' ∈ c_given c r') as Hin by (rewrite E'; apply elem_of_app; right; by left).
  pose proof (proj1 (Forall_forall _ _) (do_given _ _ _ _ _ _ _ Hdat') so' Hin) as Hso'.
  destruct (sok_mem _ _ Hso') as [d Hd']. rewrite Esz in Hd'. exists (so', d). cbn [fst snd].
  split; [split; [by rewrite E', <- El, list_lookup_middle|by split]|].
  split; [by apply (proj1 (Forall_forall _ _) (proj1 (Hp r' Hr')))|].
  intros k Hk. destruct (completed_sent dm sm Hok c0 c s Hs Hc Hd _ r' (so_completed k Hk) Hr')
    as (q & y & Eq' & _ & Hy & _ & Hsent).
  assert (q = length (slices pre) + Z.to_nat k)%nat as -> by lia.
  rewrite E', <- Esl, slices_middle in Hy by by rewrite Esz. injection Hy as <-.
  destruct Hsent as (_ & _ & old & dk & Ho & Hdk & Hbk & Elanes).
  unfold sl_data, sl_size in Hdk, Elanes. cbn [sl_op sl_no] in Hdk, Elanes. rewrite Esz in Hdk, Elanes.
  rewrite (buffer_read_piece _ _ _ _ _ Hsize Hk Hd') in Hdk. injection Hdk as <-.
  exists old. by split_and!.
Qed.

Lemma answered_sums :
  exists ops d, (forall r', is_host r' -> posted c0 c (length pre) (so_size so) r' (ops r') (d r'))
    /\ buffer_read (mem (workers c r)) (so_data so) (so_size so)
       = Some (int_bytes (host_sums (fun r' => op (ops r')) d (so_size so))).
Proof.
  pose proof so_ok as Hso. pose proof (sok_size _ _ Hso) as Hsize.
  pose proof (populate (so, []) : Inhabited (sub_op_t * list Z)).
  destruct (hosts_choice (A := sub_op_t * list Z) n_hosts _ posted_everywhere) as [od Hod].
  exists (fun r' => (od r').1), (fun r' => (od r').2). split; [intros r' Hr'; by apply Hod|].
  assert (forall r', is_host r' -> is_reduction (op (od r').1) = true) as Hred.
  { intros r' Hr'. destruct (Hod r' Hr') as (_ & Ha & _). unfold is_reduction. by rewrite Ha. }
  assert ((od r).1 = so) as Eso.
  { destruct (Hod r Hr) as ((E & _) & _). rewrite Hgiven, list_lookup_middle in E by done. by injection E. }
  assert (so_size so mod 4 = 0) as Hal by (apply (sok_align _ _ Hso); rewrite <- Eso; by apply Hred).
  assert (forall r', is_host r' -> Z.of_nat (length (od r').2) = so_size so) as Hlen.
  { intros r' Hr'. destruct (Hod r' Hr') as ((_ & _ & E) & _). by apply buffer_read_length in E. }
  apply read_by_pieces; [done| | |].
  - apply (do_dom _ _ _ _ _ _ _ Hdat). apply Hso.
  - rewrite length_int_bytes. unfold host_sums. rewrite length_fmap, length_seq.
    pose proof (Z.div_mod (so_size so) 4 ltac:(lia)). lia.
  - intros k Hk. pose proof (cut_size_range _ _ Hsize Hk) as (_ & Hck & _).
    assert (buffer_read (mem (workers c r)) (ptr_add (so_data so) (k * PAYLOAD_SIZE)) (cut_size (so_size so) k)
      = Some (result_of (length (slices pre) + Z.to_nat k) {| sl_op := so; sl_no := k |})) as ->.
    { apply (do_stored _ _ _ _ _ _ _ Hdat (length (slices pre) + Z.to_nat k)%nat {| sl_op := so; sl_no := k |});
        [left; by apply Htaken|]. rewrite Hgiven. by apply slices_middle. }
    f_equal. rewrite <- sums_piece by done.
    destruct (hosts_choice n_hosts (fun r' old => Z.of_nat (length old) = PAYLOAD_SIZE
         /\ Forall is_byte (piece_of (so_size so) k (od r').2)
         /\ lanes (host_packet r' (Z.of_nat (length (slices pre) + Z.to_nat k)))
            = sent_lanes (op (od r').1) old (piece_of (so_size so) k (od r').2) (cut_size (so_size so) k)))
      as [old Hold].
    { intros r' Hr'. destruct (Hod r' Hr') as (_ & _ & Hall). by apply Hall. }
    unfold result_of, sl_size. cbn [sl_op sl_no]. rewrite <- Eso at 1.
    apply (reduced_bytes (fun r' => op (od r').1) old _ _ _); try done.
    + constructor; [done|intros r' Hr'; by apply Hold| |intros r' Hr'; by apply Hold].
      intros r' Hr'. split; [|by apply Hold].
      destruct (Hod r' Hr') as ((_ & _ & E) & _).
      by eapply buffer_read_length, (buffer_read_piece _ _ _ _ _ Hsize Hk).
    + by apply cut_size_aligned.
Qed.
End answered.
End theorem.

(** C2: when a worker has answered its part of an all-reduce, the range of the
    part in the memory of its host holds the 32-bit sums of the integers that
    the ranges of the same operation held on all hosts when the cluster was
    started.  The network may lose, duplicate and reorder packets both ways, but
    nothing gets to the switch a whole window after a newer packet of its host
    ([c_fresh]); no sum overflows ([ok_fits]: the switch saturates); a host sends
    fewer than [2^32] packets ([in_stream]); the clients post all-reduces only,
    of the same sizes in the same order ([same_plan]), into buffers that do not
    overlap ([plan_ok]). *)
Theorem all_reduce_correct `{ConfigOk, SpscLaws, TransportLaws} {str : Stream} dm sm c0 c r so :
  group_ok -> half_range -> c_initial c0 -> rtc (cstep dm sm) c0 c ->
  plan_ok c -> same_plan c -> is_host r -> so ∈ contents (cq (qp (workers c r))) ->
  exists i ops d, c_given c r !! i = Some so
    /\ (forall r', is_host r' -> posted c0 c i (so_size so) r' (ops r') (d r'))
    /\ buffer_read (mem (workers c r)) (so_data so) (so_size so)
       = Some (int_bytes (host_sums (fun r' => op (ops r')) d (so_size so))).
Proof.
  intros Hok Hlim Hinit Hrun Hp Hplan Hr Hin.
  destruct (cluster_delivers dm sm c0 c Hok Hlim Hinit Hrun Hp) as (Hd & s & Hs & Hc).
  destruct (host_view dm sm c0 c s Hc Hd r Hr) as (l & b & Hsim & Hdat & Hb & _).
  pose proof (hs_inv _ _ _ _ _ _ Hsim) as Hw.
  destruct (answered_taken r _ _ _ _ l b so Hdat (wi_gen _ _ _ Hw) (wi_reqs _ _ _ Hw) Hin)
    as (pre & post & E & Ht).
  destruct (answered_sums dm sm Hok c0 c s Hs Hc Hd Hp Hplan r Hr l b Hb Hdat pre post so E Ht)
    as (ops & d & Hposted & Hread).
  exists (length pre), ops, d. split; [|by split]. by rewrite E, list_lookup_middle.
Qed.
