(* ===== verification/Frames.v ===== *)
(** The switch on the bytes of a frame ([switch/*.p4], [header.hpp]): the parsers
    and deparsers of both pipelines, the checksum of the IP header, and the
    structure a worker reads and writes.  [Switch.v] is about the headers these
    parsers extract. *)

From S2P Require Import Prelude.
From S2P Require Import Types.
From S2P Require Import Endian.
From S2P Require Import Switch.
From S2P Require Import Wire.

(** * Parsers *)

(** A parser takes bytes off the frame, or rejects it. *)
Definition parser (A : Type) : Type := list Z -> option (A * list Z).

Definition accept {A} (a : A) : parser A := fun s => Some (a, s).
Definition reject {A} : parser A := fun _ => None.
Definition transition {A B} (p : parser A) (k : A -> parser B) : parser B := fun s =>
  match p s with Some (a, s') => k a s' | None => None end.

Declare Scope parser_scope.
Delimit Scope parser_scope with parser.
Notation "x <~ p ; k" := (transition p (fun x => k))
  (at level 100, p at next level, right associativity) : parser_scope.
Open Scope parser_scope.

(** [packet.extract] of [n] bytes, [packet.advance] *)
Definition extract (n : nat) : parser (list Z) := fun s =>
  if (n <=? length s)%nat then Some (take n s, drop n s) else None.

(** The fields of a header, each with its width in bytes, in network order. *)
Definition be (n : nat) (x : Z) : list Z := reverse (le_bytes n x).

Fixpoint fields (ws : list nat) : parser (list Z) :=
  match ws with
  | [] => accept []
  | w :: ws => b <~ extract w ; xs <~ fields ws ; accept (be_num b :: xs)
  end.

(** [packet.emit] *)
Fixpoint emit (ws : list nat) (xs : list Z) : list Z :=
  match ws, xs with
  | w :: ws, x :: xs => be w x ++ emit ws xs
  | _, _ => []
  end.

Definition internal_ws : list nat := [1; 1]%nat.
Definition eth_ws : list nat := [6; 6; 2]%nat.
Definition ip_ws : list nat := [1; 1; 2; 2; 2; 1; 1; 2; 4; 4]%nat.
Definition netccl_ws : list nat := [1; 1; 1; 1; 2; 4]%nat.

(** * The headers of a frame *)

(** The fields of the IP header the controls leave alone. *)
Record ip_other := {
  ver_hl : Z;
  id : Z;
  flag_offset : Z;
  ttl : Z;
  protocol : Z;
  checksum : Z;
}.

Definition no_ip : ip_other :=
  {| ver_hl := 0; id := 0; flag_offset := 0; ttl := 0; protocol := 0; checksum := 0 |}.

(** What a parser extracts: [hdr] with the fields [Switch.headers] leaves out, and
    the bytes it has not read. *)
Record phv := {
  hdr : headers;
  eth_protocol : Z;
  ip_valid : bool;
  other : ip_other;
  unparsed : list Z;
}.

(** The headers before the parser has extracted one. *)
Definition no_headers : headers := {|
  pass_cnt := 0; enable_multicast := 0; internal_valid := false; dmac := 0; smac := 0;
  dscp_ecn := 0; ip_length := 0; sip := 0; dip := 0; netccl_valid := false; coll_type := 0;
  n_group_id := 0; rank := 0; n_root := 0; n_agg_addr := 0; psn := 0;
  payload_valid := false; lanes := zero_lanes |}.

Definition start : phv :=
  {| hdr := no_headers; eth_protocol := 0; ip_valid := false; other := no_ip; unparsed := [] |}.

(** [setValid] and the assignments to [hdr.internal] *)
Definition set_internal (pass : Z) (p : phv) : phv :=
  {| p with hdr := {| (hdr p) with internal_valid := true; pass_cnt := pass; enable_multicast := 0 |} |}.

(** [internal_t]: the second byte is one bit and the padding *)
Definition extract_internal (p : phv) : parser phv :=
  xs <~ fields internal_ws ;
  match xs with
  | [a; b] => accept {| p with hdr := {| (hdr p) with internal_valid := true; pass_cnt := a;
                                                      enable_multicast := b / 2 ^ 7 |} |}
  | _ => reject
  end.

Definition extract_eth (p : phv) : parser phv :=
  xs <~ fields eth_ws ;
  match xs with
  | [d; s; t] => accept {| p with hdr := {| (hdr p) with dmac := d; smac := s |}; eth_protocol := t |}
  | _ => reject
  end.

Definition extract_ip (p : phv) : parser phv :=
  xs <~ fields ip_ws ;
  match xs with
  | [v; ds; len; i; fo; tl; pr; ck; s; d] => accept {| p with
      hdr := {| (hdr p) with dscp_ecn := ds; ip_length := len; sip := s; dip := d |};
      ip_valid := true;
      other := {| ver_hl := v; id := i; flag_offset := fo; ttl := tl; protocol := pr; checksum := ck |} |}
  | _ => reject
  end.

Definition extract_netccl (p : phv) : parser phv :=
  xs <~ fields netccl_ws ;
  match xs with
  | [c; g; r; rt; a; n] => accept {| p with hdr := {| (hdr p) with netccl_valid := true;
      coll_type := c; n_group_id := g; rank := r; n_root := rt; n_agg_addr := a; psn := n |} |}
  | _ => reject
  end.

Definition set_lanes (ls : list agg_pair) (p : phv) : phv :=
  {| p with hdr := {| (hdr p) with payload_valid := true; lanes := ls |} |}.

Definition parse_payload (p : phv) : parser phv :=
  b <~ extract 256 ; accept (set_lanes (parse_lanes b) p).

(** the padding of a frame without data *)
Definition alloc_payload (p : phv) : parser phv :=
  _ <~ extract (64 - 4 - 14 - 20 - 10) ; accept (set_lanes zero_lanes p).

Definition FULL_LENGTH : Z := 20 + 10 + 256.
Definition SHORT_LENGTH : Z := 20 + 10.

Definition parse_data (p : phv) : parser phv :=
  if ip_length (hdr p) =? FULL_LENGTH then parse_payload p
  else if ip_length (hdr p) =? SHORT_LENGTH then alloc_payload p
  else reject.

(** [parse_ethernet]: a frame from an external port *)
Definition parse_ethernet : parser phv :=
  p <~ extract_eth start ;
  if eth_protocol p =? IP_PROTOCOL then
    p <~ extract_ip p ;
    if (protocol (other p) =? NETCCL_PROTOCOL)
       && ((ip_length (hdr p) =? FULL_LENGTH) || (ip_length (hdr p) =? SHORT_LENGTH))
    then p <~ extract_netccl (set_internal 1 p) ; parse_data p
    else accept (set_internal INVALID_PASSCNT p)
  else accept (set_internal INVALID_PASSCNT p).

(** [parse_recirculate] *)
Definition parse_recirculate : parser phv :=
  p <~ extract_internal start ; p <~ extract_eth p ; p <~ extract_ip p ; p <~ extract_netccl p ;
  parse_data p.

Definition run (m : parser phv) (b : list Z) : option phv :=
  match m b with Some (p, s) => Some {| p with unparsed := s |} | None => None end.

(** [IngressParser]; [recirculated] is [port_metadata.is_recirculate_port]. *)
Definition IngressParser (recirculated : bool) : list Z -> option phv :=
  run (if recirculated then parse_recirculate else parse_ethernet).

(** [EgressParser] *)
Definition EgressParser : list Z -> option phv := run (
  p <~ extract_internal start ;
  if pass_cnt (hdr p) =? INVALID_PASSCNT then
    p <~ extract_eth p ;
    if eth_protocol p =? IP_PROTOCOL then extract_ip p else accept p
  else
    p <~ extract_eth p ; p <~ extract_ip p ; p <~ extract_netccl p ; parse_payload p).

(** * Deparsers *)

Definition ip_fields (p : phv) : list Z :=
  let h := hdr p in let o := other p in
  [ver_hl o; dscp_ecn h; ip_length h; id o; flag_offset o; ttl o; protocol o; checksum o; sip h; dip h].

(** [packet.emit(hdr)]: the valid headers, and what was not parsed *)
Definition emit_hdr (p : phv) : list Z :=
  let h := hdr p in
  (if internal_valid h then emit internal_ws [pass_cnt h; enable_multicast h * 2 ^ 7] else [])
  ++ emit eth_ws [dmac h; smac h; eth_protocol p]
  ++ (if ip_valid p then emit ip_ws (ip_fields p) else [])
  ++ (if netccl_valid h
      then emit netccl_ws [coll_type h; n_group_id h; rank h; n_root h; n_agg_addr h; psn h] else [])
  ++ (if payload_valid h then deparse_lanes (lanes h) else [])
  ++ unparsed p.

Definition IngressDeparser (p : phv) : list Z := emit_hdr p.

(** The checksum of the Internet protocol: the complement of the sum of the
    16-bit words, the carry added back in. *)
Definition onec_add (x y : Z) : Z := (x + y) mod 2 ^ 16 + (x + y) / 2 ^ 16.
Definition onec_sum (l : list Z) : Z := foldr onec_add 0 l.
Definition csum_update (l : list Z) : Z := 2 ^ 16 - 1 - onec_sum l.

Fixpoint words16 (l : list Z) : list Z :=
  match l with a :: b :: l => be_num [a; b] :: words16 l | _ => [] end.

(** [EgressChecksum]: all fields of the header but the checksum *)
Definition checksum_words (p : phv) : list Z :=
  let h := hdr p in let o := other p in
  words16 (emit [1; 1; 2; 2; 2; 1; 1; 4; 4]%nat
    [ver_hl o; dscp_ecn h; ip_length h; id o; flag_offset o; ttl o; protocol o; sip h; dip h]).

Definition EgressChecksum (p : phv) : phv :=
  {| p with other := {| (other p) with checksum := csum_update (checksum_words p) |} |}.

Definition EgressDeparser (p : phv) : list Z := emit_hdr (EgressChecksum p).

(** * The pipelines *)

(** The ingress pipeline: where the frame goes and what the traffic manager holds;
    [None] when the parser rejects it. *)
Definition ingress_pipe (t : tables) (recirculated : bool) (b : list Z) (r : registers) :
    option (verdict * list Z * registers) :=
  match IngressParser recirculated b with
  | Some p => let '(v, h, r') := ingress t (hdr p) r in
              Some (v, IngressDeparser {| p with hdr := h |}, r')
  | None => None
  end.

(** The egress pipeline on one copy of the frame. *)
Definition egress_pipe (t : tables) (rid : Z) (marked dropped : bool) (b : list Z) : option (list Z) :=
  match EgressParser b with
  | Some p =>
    match egress t rid marked dropped (hdr p) with
    | Some h => Some (EgressDeparser {| p with hdr := h |})
    | None => None
    end
  | None => None
  end.

(** * The frames of a worker *)

(** [struct netccl_pkt] in memory; [dm] and [sm] are the addresses in [eth]. *)
Definition pkt_bytes (dm sm : Z) (p : netccl_pkt) : list Z :=
  let i := ip p in let n := inc p in
  be 6 dm ++ be 6 sm ++ le_bytes 2 (ether_type p)
  ++ le_bytes 1 (version_ihl i) ++ le_bytes 1 (type_of_service i) ++ le_bytes 2 (total_length i)
  ++ le_bytes 2 (packet_id i) ++ le_bytes 2 (fragment_offset i)
  ++ le_bytes 1 (time_to_live i) ++ le_bytes 1 (next_proto_id i) ++ le_bytes 2 (hdr_checksum i)
  ++ le_bytes 4 (src_addr i) ++ le_bytes 4 (dst_addr i)
  ++ le_bytes 1 (h_coll_type n) ++ le_bytes 1 (h_group_id n) ++ le_bytes 1 (h_rank n)
  ++ le_bytes 1 (h_root n) ++ le_bytes 2 (h_agg_addr n) ++ le_bytes 4 (h_psn n)
  ++ payload p.

(** The frame of a packet buffer: its first [data_len] bytes, padded to the
    smallest frame of the Ethernet. *)
Definition MIN_FRAME : nat := 60.
Definition frame (dm sm : Z) (m : mbuf) : list Z :=
  let b := take (Z.to_nat (data_len m)) (pkt_bytes dm sm (pkt m)) in
  b ++ replicate (MIN_FRAME - length b) 0.

(** [struct netccl_pkt] read from memory. *)
Definition load (off n : nat) (b : list Z) : Z := le_num (take n (drop off b)).

Definition pkt_of_bytes (b : list Z) : netccl_pkt := {|
  ether_type := load 12 2 b;
  ip := {| version_ihl := load 14 1 b; type_of_service := load 15 1 b; total_length := load 16 2 b;
           packet_id := load 18 2 b; fragment_offset := load 20 2 b; time_to_live := load 22 1 b;
           next_proto_id := load 23 1 b; hdr_checksum := load 24 2 b; src_addr := load 26 4 b;
           dst_addr := load 30 4 b |};
  inc := {| h_coll_type := load 34 1 b; h_group_id := load 35 1 b; h_rank := load 36 1 b;
            h_root := load 37 1 b; h_agg_addr := load 38 2 b; h_psn := load 40 4 b |};
  payload := take 256 (drop 44 b) |}.

(** The device writes the frame [b] over the bytes [old] of a packet buffer. *)
Definition received (old b : list Z) : mbuf := {|
  data_len := Z.of_nat (length b);
  pkt_len := Z.of_nat (length b);
  pkt := pkt_of_bytes (b ++ drop (length b) old) |}.
