(* ===== verification/FrameParsing.v ===== *)
(** The parsers and deparsers of the switch are inverse to each other: lemmas on
    fields, headers, lanes and the checksum. *)

From S2P Require Import Prelude.
From S2P Require Import Types.
From S2P Require Import Endian.
From S2P Require Import Switch.
From S2P Require Import Aggregation.
From S2P Require Import Wire.
From S2P Require Import Frames.

Open Scope parser_scope.

(** * Fields *)

Definition width_ok (n : nat) (x : Z) : Prop := 0 <= x < 2 ^ (8 * Z.of_nat n).

Lemma length_be n x : length (be n x) = n.
Proof. unfold be. by rewrite length_reverse, length_le_bytes. Qed.

Lemma be_is_bytes n x : Forall is_byte (be n x).
Proof. apply Forall_reverse, le_bytes_bytes. Qed.

Lemma be_num_be n x : width_ok n x -> be_num (be n x) = x.
Proof.
  intros Hx. unfold be_num, be. rewrite reverse_involutive, le_num_le_bytes. by apply Z.mod_small.
Qed.

(** The bytes of a field of a C structure are those of its network-order value. *)
Lemma le_bytes_be n x : width_ok n x -> le_bytes n x = be n (betoh n x).
Proof.
  intros Hx. unfold betoh. rewrite htobe_bswap by done. unfold be, bswap.
  pose proof (le_bytes_le_num (reverse (le_bytes n x)) ltac:(by apply Forall_reverse, le_bytes_bytes)) as E.
  rewrite length_reverse, length_le_bytes in E. by rewrite E, reverse_involutive.
Qed.

Lemma betoh_le_num n x : width_ok n x -> betoh n (le_num (be n x)) = x.
Proof.
  intros Hx. change (le_num (be n x)) with (bswap n x). unfold betoh.
  rewrite htobe_bswap by apply bswap_bound. rewrite bswap_bswap. by apply Z.mod_small.
Qed.

Lemma betoh_width n x : width_ok n x -> width_ok n (betoh n x).
Proof. apply htobe_bound. Qed.

Lemma extract_app n a s : length a = n -> extract n (a ++ s) = Some (a, s).
Proof.
  intros <-. unfold extract. rewrite length_app, (proj2 (Nat.leb_le _ _)) by lia.
  by rewrite take_app_length, drop_app_length.
Qed.

Lemma fields_emit ws xs s : Forall2 width_ok ws xs -> fields ws (emit ws xs ++ s) = Some (xs, s).
Proof.
  induction 1 as [|w x ws xs Hx _ IH]; [done|]. cbn [fields emit]. unfold transition.
  rewrite <- app_assoc, extract_app by apply length_be. rewrite IH. unfold accept. by rewrite be_num_be.
Qed.

Lemma length_emit ws xs : length ws = length xs -> length (emit ws xs) = sum_list ws.
Proof.
  revert xs. induction ws as [|w ws IH]; intros [|x xs] Hl; try done. cbn [emit].
  rewrite length_app, length_be, IH by (cbn in Hl; lia). done.
Qed.

(** * Headers that fit their fields *)

Record headers_ok (h : headers) : Prop := {
  ho_pass : width_ok 1 (pass_cnt h);
  ho_multicast : enable_multicast h = 0 \/ enable_multicast h = 1;
  ho_dmac : width_ok 6 (dmac h);
  ho_smac : width_ok 6 (smac h);
  ho_dscp : width_ok 1 (dscp_ecn h);
  ho_length : width_ok 2 (ip_length h);
  ho_sip : width_ok 4 (sip h);
  ho_dip : width_ok 4 (dip h);
  ho_coll : width_ok 1 (coll_type h);
  ho_group : width_ok 1 (n_group_id h);
  ho_rank : width_ok 1 (rank h);
  ho_root : width_ok 1 (n_root h);
  ho_addr : width_ok 2 (n_agg_addr h);
  ho_psn : width_ok 4 (psn h);
  ho_lanes : length (lanes h) = 32%nat;
  ho_fits : Forall (fun l : agg_pair => fits l.1 /\ fits l.2) (lanes h);
}.

Record other_ok (o : ip_other) : Prop := {
  oo_ver : width_ok 1 (ver_hl o);
  oo_id : width_ok 2 (id o);
  oo_flag : width_ok 2 (flag_offset o);
  oo_ttl : width_ok 1 (ttl o);
  oo_protocol : width_ok 1 (protocol o);
  oo_checksum : width_ok 2 (checksum o);
}.

(** A collective packet between the parsers and the deparsers. *)
Record phv_ok (p : phv) : Prop := {
  po_headers : headers_ok (hdr p);
  po_eth : width_ok 2 (eth_protocol p);
  po_ip : ip_valid p = true;
  po_netccl : netccl_valid (hdr p) = true;
  po_other : other_ok (other p);
}.

(** The lanes of a payload, read from the bytes they have been emitted as. *)
Lemma to_int32_u32 x : fits x -> to_int32 (u32 x) = x.
Proof.
  unfold fits, int32_min, int32_max, to_int32, wrap. intros Hx.
  destruct (Z.ltb_spec (x mod 2 ^ 32) (2 ^ 31)).
  - destruct (Z.lt_ge_cases x 0) as [Hn|Hn]; [|by apply Z.mod_small; lia].
    rewrite <- (Z_mod_plus_full x 1), Z.mod_small in * by lia. lia.
  - destruct (Z.lt_ge_cases x 0) as [Hn|Hn]; [|rewrite Z.mod_small in * by lia; lia].
    rewrite <- (Z_mod_plus_full x 1), Z.mod_small by lia. lia.
Qed.

Lemma parse_deparse ls :
  Forall (fun l : agg_pair => fits l.1 /\ fits l.2) ls -> parse_lanes (deparse_lanes ls) = ls.
Proof.
  induction 1 as [|[x y] ls [Hx Hy] _ IH]; [done|]. cbn [fst snd] in Hx, Hy.
  unfold deparse_lanes in *. rewrite bind_cons. cbn [fst snd].
  assert (forall z, fits z -> exists a b c d, be_bytes z = [a; b; c; d] /\ to_int32 (be_num [a; b; c; d]) = z)
    as Hbe.
  { intros z Hz. pose proof (be_num_be 4 (u32 z) ltac:(by apply wrap_range)) as E.
    pose proof (length_be 4 (u32 z)) as Hl. change (be 4 (u32 z)) with (be_bytes z) in *.
    destruct (be_bytes z) as [|a [|b [|c [|d [|]]]]]; try discriminate Hl.
    exists a, b, c, d. by rewrite E, to_int32_u32. }
  destruct (Hbe x Hx) as (a & b & c & d & -> & E1). destruct (Hbe y Hy) as (a' & b' & c' & d' & -> & E2).
  cbn [app parse_lanes]. by rewrite E1, E2, IH.
Qed.

Lemma deparse_bytes ls : Forall is_byte (deparse_lanes ls).
Proof.
  apply Forall_bind, Forall_forall. intros l _. apply Forall_app.
  split; apply Forall_reverse, le_bytes_bytes.
Qed.

(** * Parsers on emitted headers *)

(** A list of values fits a list of widths. *)
Ltac widths := repeat first [apply List.Forall2_nil | apply List.Forall2_cons]; try done.

Lemma run_transition {A B} (m : parser A) (k : A -> parser B) b a s :
  m b = Some (a, s) -> transition m k b = k a s.
Proof. intros E. unfold transition. by rewrite E. Qed.

Lemma extract_internal_emit q a b s :
  width_ok 1 a -> b = 0 \/ b = 1 ->
  extract_internal q (emit internal_ws [a; b * 2 ^ 7] ++ s)
  = Some ({| q with hdr := {| (hdr q) with internal_valid := true; pass_cnt := a; enable_multicast := b |} |}, s).
Proof.
  intros Ha Hb. unfold extract_internal. erewrite run_transition.
  2: { apply fields_emit. widths. unfold width_ok. lia. }
  unfold accept. by rewrite Z.div_mul.
Qed.

Lemma extract_eth_emit q d m t s :
  width_ok 6 d -> width_ok 6 m -> width_ok 2 t ->
  extract_eth q (emit eth_ws [d; m; t] ++ s)
  = Some ({| q with hdr := {| (hdr q) with dmac := d; smac := m |}; eth_protocol := t |}, s).
Proof. intros. unfold extract_eth. erewrite run_transition by (apply fields_emit; widths). done. Qed.

Lemma extract_ip_emit q p s :
  headers_ok (hdr p) -> other_ok (other p) ->
  extract_ip q (emit ip_ws (ip_fields p) ++ s)
  = Some ({| q with hdr := {| (hdr q) with dscp_ecn := dscp_ecn (hdr p); ip_length := ip_length (hdr p);
                                          sip := sip (hdr p); dip := dip (hdr p) |};
                    ip_valid := true; other := other p |}, s).
Proof.
  intros [] []. unfold extract_ip. erewrite run_transition by (apply fields_emit; unfold ip_fields; widths).
  unfold accept, ip_fields. by destruct (other p).
Qed.

Lemma extract_netccl_emit q h s :
  headers_ok h ->
  extract_netccl q
    (emit netccl_ws [coll_type h; n_group_id h; rank h; n_root h; n_agg_addr h; psn h] ++ s)
  = Some ({| q with hdr := {| (hdr q) with netccl_valid := true; coll_type := coll_type h;
              n_group_id := n_group_id h; rank := rank h; n_root := n_root h;
              n_agg_addr := n_agg_addr h; psn := psn h |} |}, s).
Proof. intros []. unfold extract_netccl. erewrite run_transition by (apply fields_emit; widths). done. Qed.

Lemma parse_payload_emit q ls s :
  length ls = 32%nat -> Forall (fun l : agg_pair => fits l.1 /\ fits l.2) ls ->
  parse_payload q (deparse_lanes ls ++ s) = Some (set_lanes ls q, s).
Proof.
  intros Hl Hf. unfold parse_payload. erewrite run_transition.
  2: { apply extract_app. by rewrite length_deparse, Hl. }
  unfold accept. by rewrite parse_deparse.
Qed.

(** A collective packet on its way through the switch. *)
Record transit (p : phv) : Prop := {
  tr_ok : phv_ok p;
  tr_internal : internal_valid (hdr p) = true;
  tr_payload : payload_valid (hdr p) = true;
  tr_unparsed : Forall is_byte (unparsed p);
}.

Lemma emit_transit p :
  transit p ->
  emit_hdr p = emit internal_ws [pass_cnt (hdr p); enable_multicast (hdr p) * 2 ^ 7]
    ++ emit eth_ws [dmac (hdr p); smac (hdr p); eth_protocol p]
    ++ emit ip_ws (ip_fields p)
    ++ emit netccl_ws [coll_type (hdr p); n_group_id (hdr p); rank (hdr p); n_root (hdr p);
                       n_agg_addr (hdr p); psn (hdr p)]
    ++ deparse_lanes (lanes (hdr p)) ++ unparsed p.
Proof.
  intros [Hok Hi Hp _]. unfold emit_hdr. cbv zeta. by rewrite Hi, Hp, (po_ip _ Hok), (po_netccl _ Hok).
Qed.

(** The egress parser reads what the ingress deparser has emitted. *)
Lemma egress_parses p :
  transit p -> pass_cnt (hdr p) <> INVALID_PASSCNT -> EgressParser (IngressDeparser p) = Some p.
Proof.
  intros Ht Hc. unfold EgressParser, IngressDeparser, run. rewrite (emit_transit p Ht).
  destruct Ht as [[Hh He Hip Hn Ho] Hi Hp _]. pose proof Hh as [].
  erewrite run_transition by by apply extract_internal_emit. cbn [hdr pass_cnt].
  rewrite (proj2 (Z.eqb_neq _ _)) by done.
  erewrite run_transition by by apply extract_eth_emit.
  erewrite run_transition by by apply extract_ip_emit.
  erewrite run_transition by by apply extract_netccl_emit.
  rewrite parse_payload_emit by done.
  destruct p as [[] e v o u]. cbn in *. by subst.
Qed.

(** The ingress parser reads a recirculated packet as the egress deparser has
    emitted it. *)
Lemma recirculate_parses p :
  transit p -> ip_length (hdr p) = FULL_LENGTH -> IngressParser true (emit_hdr p) = Some p.
Proof.
  intros Ht Hl. unfold IngressParser, parse_recirculate, run. rewrite (emit_transit p Ht).
  destruct Ht as [[Hh He Hip Hn Ho] Hi Hp _]. pose proof Hh as [].
  erewrite run_transition by by apply extract_internal_emit.
  erewrite run_transition by by apply extract_eth_emit.
  erewrite run_transition by by apply extract_ip_emit.
  erewrite run_transition by by apply extract_netccl_emit.
  unfold parse_data. cbn [hdr ip_length]. rewrite Hl, Z.eqb_refl, parse_payload_emit by done.
  destruct p as [[] e v o u]. cbn in *. by subst.
Qed.

(** * The checksum *)

Definition word_ok (x : Z) : Prop := 0 <= x < 2 ^ 16.

(** Adding with carry is addition modulo 2^16 - 1, and only zeros add up to zero. *)
Lemma onec_add_spec x y :
  word_ok x -> word_ok y ->
  word_ok (onec_add x y) /\ (onec_add x y - (x + y)) mod (2 ^ 16 - 1) = 0
  /\ (onec_add x y = 0 -> x = 0 /\ y = 0).
Proof.
  unfold word_ok, onec_add. intros Hx Hy.
  pose proof (Z.div_mod (x + y) (2 ^ 16) ltac:(lia)) as E.
  pose proof (Z.mod_pos_bound (x + y) (2 ^ 16) ltac:(lia)).
  assert (0 <= (x + y) / 2 ^ 16 < 2) by (split; [apply Z.div_pos|apply Z.div_lt_upper_bound]; lia).
  split; [nia|]. split; [|nia].
  replace ((x + y) mod 2 ^ 16 + (x + y) / 2 ^ 16 - (x + y)) with ((- ((x + y) / 2 ^ 16)) * (2 ^ 16 - 1)) by lia.
  by apply Z.mod_mul.
Qed.

Lemma onec_sum_spec l :
  Forall word_ok l ->
  word_ok (onec_sum l) /\ (onec_sum l - sumZ l) mod (2 ^ 16 - 1) = 0
  /\ (onec_sum l = 0 -> Forall (fun x => x = 0) l).
Proof.
  induction 1 as [|x l Hx _ (Hw & Hm & Hz)]; [by repeat constructor|].
  cbn [onec_sum sumZ foldr] in *. fold (onec_sum l) (sumZ l) in *.
  destruct (onec_add_spec x (onec_sum l) Hx Hw) as (Hw' & Hm' & Hz'). split; [done|]. split.
  - replace (onec_add x (onec_sum l) - (x + sumZ l))
      with ((onec_add x (onec_sum l) - (x + onec_sum l)) + (onec_sum l - sumZ l)) by lia.
    by rewrite Z.add_mod, Hm, Hm' by done.
  - intros [-> Hl]%Hz'. constructor; [done|]. by apply Hz.
Qed.

(** A header with its checksum in any place sums up to ones. *)
Lemma csum_valid l1 l2 :
  Forall word_ok l1 -> Forall word_ok l2 ->
  onec_sum (l1 ++ csum_update (l1 ++ l2) :: l2) = 2 ^ 16 - 1.
Proof.
  intros H1' H2'. assert (Forall word_ok (l1 ++ l2)) as H12 by by apply Forall_app.
  destruct (onec_sum_spec _ H12) as (Hw & Hm & Hz). set (c := csum_update (l1 ++ l2)).
  assert (word_ok c) as Hc by (unfold c, csum_update, word_ok in *; lia).
  destruct (onec_sum_spec (l1 ++ c :: l2)) as (Hw' & Hm' & Hz').
  { apply Forall_app. split; [done|]. by constructor. }
  assert (sumZ (l1 ++ c :: l2) = c + sumZ (l1 ++ l2)) as Es.
  { rewrite !sumZ_app. cbn [sumZ foldr]. fold (sumZ l2). lia. }
  assert (c = 2 ^ 16 - 1 - onec_sum (l1 ++ l2)) as Ec by done.
  rewrite Es in Hm'. set (s := onec_sum (l1 ++ c :: l2)) in *. clearbody s. rewrite Ec in Hm'. unfold word_ok in *.
  assert (s mod (2 ^ 16 - 1) = 0) as Hs.
  { replace s with ((s - (2 ^ 16 - 1 - onec_sum (l1 ++ l2) + sumZ (l1 ++ l2)))
      - (onec_sum (l1 ++ l2) - sumZ (l1 ++ l2)) + 1 * (2 ^ 16 - 1)) by lia.
    rewrite Z_mod_plus_full, Zminus_mod, Hm, Hm'. done. }
  destruct (decide (s = 0)) as [E0|E0].
  - exfalso. pose proof (Hz' E0) as Ha. apply Forall_app in Ha as [Ha1 Ha2].
    apply Forall_cons in Ha2 as [Hc0 Ha2].
    assert (onec_sum (l1 ++ l2) = 0) as E.
    { assert (Forall (fun x => x = 0) (l1 ++ l2)) as Ha by by apply Forall_app.
      clear - Ha. induction Ha as [|x l -> _ IH]; [done|]. cbn. fold (onec_sum l). by rewrite IH. }
    unfold c, csum_update in Hc0. lia.
  - pose proof (Z.div_mod s (2 ^ 16 - 1) ltac:(lia)). rewrite Hs in *.
    assert (s / (2 ^ 16 - 1) = 1); [|lia].
    pose proof (Z.div_pos s (2 ^ 16 - 1) ltac:(lia) ltac:(lia)).
    assert (s / (2 ^ 16 - 1) < 2) by (apply Z.div_lt_upper_bound; lia). nia.
Qed.

Lemma words16_app a b n : length a = (2 * n)%nat -> words16 (a ++ b) = words16 a ++ words16 b.
Proof.
  revert a. induction n as [|n IH]; intros a Ha; [by destruct a|].
  destruct a as [|x [|y a]]; cbn in Ha; try lia. cbn [app words16]. rewrite IH by lia. done.
Qed.

Lemma be_num_range l : Forall is_byte l -> 0 <= be_num l < 2 ^ (8 * Z.of_nat (length l)).
Proof.
  intros Hl. unfold be_num. rewrite <- (length_reverse l). by apply le_num_bound, Forall_reverse.
Qed.

Lemma words16_ok n : forall l, length l = (2 * n)%nat -> Forall is_byte l -> Forall word_ok (words16 l).
Proof.
  induction n as [|n IH]; intros l Hl Hb; [by destruct l|].
  destruct l as [|x [|y l]]; cbn in Hl; try lia. decompose_Forall_hyps. cbn [words16].
  constructor; [|apply IH; [lia|done]]. apply (be_num_range [x; y]). by rewrite !Forall_cons.
Qed.

Lemma emit_is_bytes ws xs : Forall is_byte (emit ws xs).
Proof.
  revert xs. induction ws as [|w ws IH]; intros [|x xs]; try constructor. cbn [emit].
  apply Forall_app. split; [apply be_is_bytes|apply IH].
Qed.

Lemma words16_be x : width_ok 2 x -> words16 (be 2 x) = [x].
Proof.
  intros Hx. pose proof (be_num_be 2 x Hx) as E. pose proof (length_be 2 x) as Hl.
  destruct (be 2 x) as [|a [|b [|]]]; try discriminate Hl. cbn [words16]. by rewrite E.
Qed.

Lemma csum_update_word l : Forall word_ok l -> width_ok 2 (csum_update l).
Proof.
  intros Hl. destruct (onec_sum_spec l Hl) as [Hw _]. unfold csum_update, width_ok, word_ok in *.
  change (8 * Z.of_nat 2) with 16. lia.
Qed.

(** The two halves of the header around its checksum. *)
Definition before_checksum (p : phv) : list Z :=
  let h := hdr p in let o := other p in
  emit [1; 1; 2; 2; 2; 1; 1]%nat
    [ver_hl o; dscp_ecn h; ip_length h; id o; flag_offset o; ttl o; protocol o].
Definition after_checksum (p : phv) : list Z := emit [4; 4]%nat [sip (hdr p); dip (hdr p)].

Lemma checksum_words_eq p :
  checksum_words p = words16 (before_checksum p) ++ words16 (after_checksum p).
Proof.
  unfold checksum_words. cbv zeta. rewrite <- (words16_app _ _ 5).
  - f_equal.
  - unfold before_checksum. cbv zeta. by rewrite length_emit.
Qed.

Lemma halves_ok p : Forall word_ok (words16 (before_checksum p)) /\ Forall word_ok (words16 (after_checksum p)).
Proof.
  split.
  - apply (words16_ok 5); [|apply emit_is_bytes]. unfold before_checksum. cbv zeta. by rewrite length_emit.
  - apply (words16_ok 4); [|apply emit_is_bytes]. unfold after_checksum. by rewrite length_emit.
Qed.

Lemma checksum_ok p : width_ok 2 (checksum (other (EgressChecksum p))).
Proof.
  change (width_ok 2 (csum_update (checksum_words p))). rewrite checksum_words_eq.
  apply csum_update_word, Forall_app, halves_ok.
Qed.

(** The header the deparser emits is valid. *)
Lemma header_checksum p : onec_sum (words16 (emit ip_ws (ip_fields (EgressChecksum p)))) = 2 ^ 16 - 1.
Proof.
  assert (emit ip_ws (ip_fields (EgressChecksum p))
    = before_checksum p ++ be 2 (checksum (other (EgressChecksum p))) ++ after_checksum p) as ->.
  { unfold before_checksum, after_checksum, ip_fields. cbv zeta. cbn [ip_ws emit].
    rewrite <- !app_assoc. done. }
  rewrite (words16_app _ _ 5) by (unfold before_checksum; cbv zeta; by rewrite length_emit).
  rewrite (words16_app _ _ 1) by apply length_be. rewrite words16_be by apply checksum_ok.
  change (checksum (other (EgressChecksum p))) with (csum_update (checksum_words p)).
  rewrite checksum_words_eq. apply csum_valid; apply halves_ok.
Qed.

Lemma checksum_phv_ok p : phv_ok p -> phv_ok (EgressChecksum p).
Proof.
  intros [Hh He Hip Hn []]. pose proof (checksum_ok p). by constructor.
Qed.
