(* ===== verification/FrameTheorems.v ===== *)
(** The bytes between the hosts and the switch and between the two passes:
    parsers read what deparsers have emitted, so that the switch on frames does
    what [Switch.v] says of their headers, and a worker finds in its packet
    buffer what [Cluster.carries] says. *)

From S2P Require Import Prelude.
From S2P Require Import Types.
From S2P Require Import Endian.
From S2P Require Import Config.
From S2P Require Import QueuePair.
From S2P Require Import Worker.
From S2P Require Import WorkerInv.
From S2P Require Import Packet.
From S2P Require Import Switch.
From S2P Require Import Aggregation.
From S2P Require Import Wire.
From S2P Require Import Cluster.
From S2P Require Import Frames.
From S2P Require Import FrameParsing.

Open Scope parser_scope.

(** * The controls keep the fields in range *)

Definition lanes_ok (ls : list agg_pair) : Prop :=
  length ls = 32%nat /\ Forall (fun l : agg_pair => fits l.1 /\ fits l.2) ls.



Lemma zero_lanes_ok : lanes_ok zero_lanes.
Proof.
  split; [done|]. apply (Forall_replicate (fun l : agg_pair => fits l.1 /\ fits l.2) 32 (0, 0)).
  unfold fits, int32_min, int32_max. cbn. lia.
Qed.







(** ** Egress *)








(** * The switch on frames *)

(** The frame [b] is a collective packet with the headers [h]: on its first pass
    from an external port, on its second from a recirculation port. *)
Definition carries_inc (recirculated : bool) (b : list Z) (h : headers) : Prop :=
  exists p, IngressParser recirculated b = Some p /\ hdr p = h /\ transit p
    /\ pass_cnt h = if recirculated then 2 else 1.


Section received.
Context (p : phv) (Hp : phv_ok p) (Hi : internal_valid (hdr p) = false) (Hu : Forall is_byte (unparsed p)).






End received.







(** * The frames of a worker *)

Record pkt_wf (p : netccl_pkt) : Prop := {
  pw_type : width_ok 2 (ether_type p);
  pw_ver : width_ok 1 (version_ihl (ip p));
  pw_tos : width_ok 1 (type_of_service (ip p));
  pw_length : width_ok 2 (total_length (ip p));
  pw_id : width_ok 2 (packet_id (ip p));
  pw_offset : width_ok 2 (fragment_offset (ip p));
  pw_ttl : width_ok 1 (time_to_live (ip p));
  pw_proto : width_ok 1 (next_proto_id (ip p));
  pw_checksum : width_ok 2 (hdr_checksum (ip p));
  pw_src : width_ok 4 (src_addr (ip p));
  pw_dst : width_ok 4 (dst_addr (ip p));
  pw_coll : width_ok 1 (h_coll_type (inc p));
  pw_group : width_ok 1 (h_group_id (inc p));
  pw_rank : width_ok 1 (h_rank (inc p));
  pw_root : width_ok 1 (h_root (inc p));
  pw_addr : width_ok 2 (h_agg_addr (inc p));
  pw_psn : width_ok 4 (h_psn (inc p));
  pw_payload : length (payload p) = 256%nat /\ Forall is_byte (payload p);
}.

(** The structure in memory is the headers in network order. *)
Definition pkt_other (p : netccl_pkt) : ip_other := {|
  ver_hl := version_ihl (ip p); id := betoh 2 (packet_id (ip p));
  flag_offset := betoh 2 (fragment_offset (ip p)); ttl := time_to_live (ip p);
  protocol := next_proto_id (ip p); checksum := betoh 2 (hdr_checksum (ip p)) |}.

Definition pkt_phv (dm sm : Z) (p : netccl_pkt) : phv := {|
  hdr := parse dm sm p; eth_protocol := betoh 2 (ether_type p); ip_valid := true;
  other := pkt_other p; unparsed := [] |}.

Lemma pkt_bytes_emit dm sm p :
  pkt_wf p ->
  pkt_bytes dm sm p = (emit eth_ws [dm; sm; betoh 2 (ether_type p)]
    ++ emit ip_ws (ip_fields (pkt_phv dm sm p))
    ++ emit netccl_ws [h_coll_type (inc p); h_group_id (inc p); h_rank (inc p); h_root (inc p);
                       betoh 2 (h_agg_addr (inc p)); betoh 4 (h_psn (inc p))])
    ++ payload p.
Proof.
  intros []. unfold pkt_bytes. cbv zeta. rewrite !le_bytes_be by done.
  unfold ip_fields. cbv zeta. cbn [eth_ws ip_ws netccl_ws emit]. rewrite <- !app_assoc. done.
Qed.

Lemma to_int32_fits l : Forall is_byte l -> length l = 4%nat -> fits (to_int32 (be_num l)).
Proof.
  intros Hl Hn. pose proof (be_num_range l Hl) as Hb. rewrite Hn in Hb.
  change (8 * Z.of_nat 4) with 32 in Hb. unfold fits, to_int32, int32_min, int32_max.
  destruct (Z.ltb_spec (be_num l) (2 ^ 31)); lia.
Qed.

Lemma parse_lanes_fits l n :
  length l = (8 * n)%nat -> Forall is_byte l ->
  Forall (fun x : agg_pair => fits x.1 /\ fits x.2) (parse_lanes l).
Proof.
  revert l. induction n as [|n IH]; intros p Hp Hb; [by destruct p|].
  destruct p as [|a [|b [|c [|d [|e [|f [|g [|h p]]]]]]]]; cbn in Hp; try lia.
  decompose_Forall_hyps. cbn [parse_lanes]. constructor; [|apply IH; [lia|done]].
  split; apply to_int32_fits; try done; by rewrite !Forall_cons.
Qed.

(** A collective packet as a worker sends it, with data or without. *)
Record sendable (m : mbuf) : Prop := {
  se_wf : pkt_wf (pkt m);
  se_type : betoh 2 (ether_type (pkt m)) = IP_PROTOCOL;
  se_proto : next_proto_id (ip (pkt m)) = NETCCL_PROTOCOL;
  se_length : let len := betoh 2 (total_length (ip (pkt m))) in
    data_len m = 14 + len /\ (len = FULL_LENGTH \/ len = SHORT_LENGTH);
}.

Definition sent_data (p : netccl_pkt) : list agg_pair :=
  if betoh 2 (total_length (ip p)) =? FULL_LENGTH then parse_lanes (payload p) else zero_lanes.

(** Its headers in the switch. *)
Lemma parse_sendable dm sm m :
  sendable m -> let p := pkt m in
  parse dm sm p = {|
    pass_cnt := 1; enable_multicast := 0; internal_valid := true; dmac := dm; smac := sm;
    dscp_ecn := type_of_service (ip p); ip_length := betoh 2 (total_length (ip p));
    sip := betoh 4 (src_addr (ip p)); dip := betoh 4 (dst_addr (ip p)); netccl_valid := true;
    coll_type := h_coll_type (inc p); n_group_id := h_group_id (inc p); rank := h_rank (inc p);
    n_root := h_root (inc p); n_agg_addr := betoh 2 (h_agg_addr (inc p)); psn := betoh 4 (h_psn (inc p));
    payload_valid := true; lanes := sent_data p |}.
Proof.
  intros [_ Het Hpr [_ Hlen]]. cbv zeta. unfold parse, sent_data. rewrite Het, Hpr, !Z.eqb_refl.
  change (20 + 10 + 256) with FULL_LENGTH. change (20 + 10) with SHORT_LENGTH.
  assert ((betoh 2 (total_length (ip (pkt m))) =? FULL_LENGTH)
    || (betoh 2 (total_length (ip (pkt m))) =? SHORT_LENGTH) = true) as Ho.
  { apply orb_true_iff. rewrite !Z.eqb_eq. done. }
  cbn [andb]. by rewrite Ho.
Qed.

Lemma sent_headers_ok dm sm m :
  sendable m -> width_ok 6 dm -> width_ok 6 sm -> headers_ok (parse dm sm (pkt m)).
Proof.
  intros Hm Hd Hs. rewrite (parse_sendable dm sm m Hm). destruct Hm as [[] _ _ _].
  destruct pw_payload0 as [Hl Hb].
  assert (lanes_ok (sent_data (pkt m))) as [Hl1 Hl2].
  { unfold sent_data. destruct (_ =? _); [|apply zero_lanes_ok].
    split; [by apply length_parse_lanes|by apply (parse_lanes_fits _ 32)]. }
  constructor; cbn [pass_cnt enable_multicast dmac smac dscp_ecn ip_length sip dip coll_type n_group_id rank
    n_root n_agg_addr psn lanes]; first [done|by apply betoh_width|by left].
Qed.

(** The bytes after the headers: the data, or the padding. *)
Lemma frame_emit dm sm m :
  sendable m ->
  frame dm sm m = (emit eth_ws [dm; sm; betoh 2 (ether_type (pkt m))]
    ++ emit ip_ws (ip_fields (pkt_phv dm sm (pkt m)))
    ++ emit netccl_ws [h_coll_type (inc (pkt m)); h_group_id (inc (pkt m)); h_rank (inc (pkt m));
         h_root (inc (pkt m)); betoh 2 (h_agg_addr (inc (pkt m))); betoh 4 (h_psn (inc (pkt m)))])
    ++ (if betoh 2 (total_length (ip (pkt m))) =? FULL_LENGTH then payload (pkt m) else replicate 16 0).
Proof.
  intros [Hw _ _ [Hdl Hlen]]. unfold frame. cbv zeta. rewrite pkt_bytes_emit by done.
  set (hs := emit eth_ws _ ++ _). assert (length hs = 44%nat) as Hhs.
  { unfold hs. by rewrite !length_app, !length_emit. }
  destruct (pw_payload _ Hw) as [Hp _]. rewrite Hdl. destruct Hlen as [-> | ->].
  - rewrite Z.eqb_refl, (take_ge (hs ++ _)) by (rewrite length_app, Hhs, Hp; by vm_compute).
    rewrite length_app, Hhs, Hp. cbn [Nat.sub MIN_FRAME Nat.add replicate]. by rewrite app_nil_r.
  - rewrite take_app_length' by by rewrite Hhs. by rewrite Hhs.
Qed.

(** The last state of the parser: data or padding. *)
Lemma parse_data_end q len pl :
  ip_length (hdr q) = len -> length pl = 256%nat -> len = FULL_LENGTH \/ len = SHORT_LENGTH ->
  parse_data q (if len =? FULL_LENGTH then pl else replicate 16 0)
  = Some (set_lanes (if len =? FULL_LENGTH then parse_lanes pl else zero_lanes) q, []).
Proof.
  intros Hq Hp Hl. unfold parse_data. rewrite Hq. destruct Hl as [-> | ->].
  - rewrite Z.eqb_refl. unfold parse_payload. rewrite <- (app_nil_r pl) at 1.
    by rewrite (run_transition _ _ _ _ _ (extract_app 256 pl [] Hp)).
  - rewrite Z.eqb_refl. change (SHORT_LENGTH =? FULL_LENGTH) with false. reflexivity.
Qed.

Lemma frame_parsed dm sm m :
  sendable m -> width_ok 6 dm -> width_ok 6 sm ->
  carries_inc false (frame dm sm m) (parse dm sm (pkt m)).
Proof.
  intros Hm Hd Hs. pose proof (sent_headers_ok dm sm m Hm Hd Hs) as Hh.
  pose proof (parse_sendable dm sm m Hm) as Epar.
  rewrite (frame_emit dm sm m Hm). destruct Hm as [Hw Het Hpr [_ Hlen]]. exists (pkt_phv dm sm (pkt m)).
  assert (other_ok (pkt_other (pkt m))) as Ho.
  { destruct Hw; constructor; cbn [pkt_other ver_hl id flag_offset ttl protocol checksum];
      first [done|by apply betoh_width]. }
  split; [|split; [done|split; [|by rewrite Epar]]].
  2: { constructor; cbn [hdr pkt_phv]; [|by rewrite Epar..|constructor].
       constructor; cbn [hdr pkt_phv]; [done|apply betoh_width, Hw|done|by rewrite Epar|done]. }
  unfold IngressParser, parse_ethernet, run. rewrite Het, <- !app_assoc.
  erewrite run_transition by by apply extract_eth_emit. cbn [eth_protocol]. rewrite Z.eqb_refl.
  erewrite run_transition by by apply extract_ip_emit.
  cbn [other pkt_phv pkt_other protocol hdr ip_length parse]. rewrite Hpr.
  assert ((betoh 2 (total_length (ip (pkt m))) =? FULL_LENGTH)
    || (betoh 2 (total_length (ip (pkt m))) =? SHORT_LENGTH) = true) as Hor.
  { apply orb_true_iff. rewrite !Z.eqb_eq. done. }
  rewrite Hor. cbn [andb Z.eqb NETCCL_PROTOCOL Pos.eqb].
  erewrite run_transition by by apply (extract_netccl_emit _ (parse dm sm (pkt m))).
  rewrite (parse_data_end _ (betoh 2 (total_length (ip (pkt m))))); [|done|apply (pw_payload _ Hw)|done].
  unfold pkt_phv. rewrite Epar, Het. reflexivity.
Qed.

(** ** What [fill_pkt] makes of a packet buffer *)

(** The packet buffer as [dpdk_init] has prefilled it. *)
Record prefilled (m : mbuf) : Prop := {
  pf_wf : pkt_wf (pkt m);
  pf_type : betoh 2 (ether_type (pkt m)) = IP_PROTOCOL;
  pf_proto : next_proto_id (ip (pkt m)) = NETCCL_PROTOCOL;
}.

Lemma htobe_store_width n y : width_ok n (htobe_store n y).
Proof. apply htobe_bound, wrap_range. lia. Qed.

Lemma htobe_width n x : width_ok n x -> width_ok n (htobe n x).
Proof. apply htobe_bound. Qed.

Section fill.
Context `{ConfigOk, SpscLaws, TransportLaws}.

Lemma fill_pkt_wf s so st d :
  sub_op_ok (mem s) so -> sp_sub_op st = Some so -> 0 <= sp_psn st < 2 ^ 32 ->
  sp_size st <= PAYLOAD_SIZE -> (is_reduction (op so) = true -> sp_size st mod 4 = 0) ->
  buffer_read (mem s) (sp_data st) (sp_size st) = Some d -> Forall is_byte d ->
  prefilled (sp_pkt st) ->
  runs (fill_pkt st) s (fun st' _ => prefilled (sp_pkt st')).
Proof.
  intros Hso E Hpsn Hsz Ha Hd Hb [Hw Het Hpr]. pose proof (sok_agg_len _ _ Hso) as Hlen.
  destruct (sok_op _ _ Hso) as [Hcode Hroot _ [Hgid _ Hrank _ _ _]].
  pose proof (buffer_read_length _ _ _ _ Hd) as Hdl.
  unfold fill_pkt. run_step. eapply runs_the; [done|]. cbv zeta.
  unfold fill_inc. rewrite (proj2 (Z.eqb_neq (so_agg_len so) 0)) by lia.
  run_step. eapply runs_the; [done|].
  assert (forall p, length p = 256%nat /\ Forall is_byte p -> forall dl pl, prefilled {| data_len := dl; pkt_len := pl;
    pkt := {| (pkt (sp_pkt st)) with
      ip := {| (ip (pkt (sp_pkt st))) with
        total_length := htobe_store 2 (pkt_size_of (op so) - sizeof_eth_hdr);
        dst_addr := htobe_store 4 (switch_ip (group (op so))) |};
      inc := {|
        h_coll_type := htobe 1 (op_code (op so));
        h_group_id := htobe 1 (group_id (group (op so)));
        h_rank := htobe 1 (g_rank (group (op so)));
        h_root := htobe 1 (root (op so));
        h_agg_addr := htobe 2 (u16 (so_agg_addr so + sp_psn st mod so_agg_len so));
        h_psn := htobe 4 (sp_psn st) |};
      payload := p |} |}) as Hfill.
  { intros p Hp dl pl. destruct Hw. constructor; [|done..].
    constructor; cbn [pkt ether_type ip inc payload version_ihl type_of_service total_length packet_id
      fragment_offset time_to_live next_proto_id hdr_checksum src_addr dst_addr h_coll_type h_group_id
      h_rank h_root h_agg_addr h_psn];
      first [done|apply htobe_store_width|by apply htobe_width|apply htobe_width, wrap_range; done]. }
  destruct (pw_payload _ Hw) as [Hl Hlb].
  assert (Z.of_nat (length (payload (pkt (sp_pkt st)))) = PAYLOAD_SIZE) as HlZ by by rewrite Hl.
  destruct (need_tx (op so)).
  - run_step. unfold mem_read. do 3 run_step. eapply runs_the; [done|]. do 2 run_step. apply Hfill.
    split; [|by apply fill_payload_bytes]. apply Nat2Z.inj.
    apply (fill_payload_spec (op so) _ d (sp_size st) HlZ Hdl Hsz Ha Hb).
  - do 3 run_step. by apply Hfill.
Qed.

(** The frame of a packet a worker has filled in, the structure as it lies in
    memory, with data or padded without, is parsed by the switch as the headers
    [Switch.parse] reads off the structure. *)
Theorem worker_frame_read s so st d dm sm :
  sub_op_ok (mem s) so -> sp_sub_op st = Some so -> 0 <= sp_psn st < 2 ^ 32 ->
  sp_size st <= PAYLOAD_SIZE -> (is_reduction (op so) = true -> sp_size st mod 4 = 0) ->
  buffer_read (mem s) (sp_data st) (sp_size st) = Some d -> Forall is_byte d ->
  prefilled (sp_pkt st) -> width_ok 6 dm -> width_ok 6 sm ->
  runs (fill_pkt st) s (fun st' _ =>
    carries_inc false (frame dm sm (sp_pkt st')) (parse dm sm (pkt (sp_pkt st')))).
Proof.
  intros Hso E Hpsn Hsz Ha Hd Hb Hpf Hdm Hsm.
  assert (in_memory (mem s) (sp_data st) (sp_size st)) as Hm by by exists d.
  eapply runs_mono; [apply runs_and; [by apply (fill_pkt_runs s so st)|by apply (fill_pkt_wf s so st d)]|].
  cbn beta. intros st' s' [(-> & _ & Hf & _) [Hw Het Hpr]]. apply frame_parsed; [|done..].
  constructor; try done. cbv zeta. pose proof (filled_len _ _ _ Hf) as Hl.
  rewrite (filled_data_len _ _ _ Hf), <- Hl. split; [unfold sizeof_eth_hdr; lia|].
  rewrite (filled_pkt_len _ _ _ Hf) in Hl.
  unfold sizeof_netccl_pkt, sizeof_payload, sizeof_inc_hdr, sizeof_ipv4_hdr, sizeof_eth_hdr, PAYLOAD_SIZE,
    PAYLOAD_LEN, sizeof_int32, FULL_LENGTH, SHORT_LENGTH in *.
  destruct (need_tx (op so)); [left|right]; lia.
Qed.
End fill.

(** * Frames that are no collective packets *)




















