(* ===== verification/Allocator.v ===== *)
(** The memory of the aggregators ([switch/bfrt_grpc.py]): the list of free
    segments, [fit_seg], [alloc_seg] and [free_seg]. *)

From S2P Require Import Prelude.

(** * Constants and helpers *)

Definition ADDR_BW : Z := 14.
Definition MTU_BW : Z := 8.
Definition MTU_SIZE : Z := Z.shiftl 1 MTU_BW.
Definition SWITCH_MEM_SIZE : Z := Z.shiftl 1 (ADDR_BW + MTU_BW).
Definition ALLOC_SIZE : Z := 256 * 1024.

Definition ispower2 (x : Z) : bool := (0 <? x) && (Z.land x (x - 1) =? 0).
Definition upperalign (x y : Z) : Z := (x + y - 1) / y * y.

(** A free segment [[l, r]]: the addresses from [l] to before [r]. *)
Abbreviation seg := (Z * Z)%type (only parsing).

Definition addr_in_seg (s : seg) (size : Z) : option Z :=
  let addr := upperalign s.1 size in
  if addr + size <=? s.2 then Some addr else None.

(** [l.insert(i, x)] and [del l[i]] of a Python list, [i] not negative *)
Definition py_insert {A} (i : nat) (x : A) (l : list A) : list A := take i l ++ x :: drop i l.
Definition py_del {A} (i : nat) (l : list A) : list A := delete i l.

(** * The operations *)

(** The loop of [fit_seg] from index [i] on. *)
Fixpoint fit_from (i : nat) (l : list seg) (size : Z) : option (nat * Z) :=
  match l with
  | [] => None
  | s :: l => match addr_in_seg s size with
              | Some addr => Some (i, addr)
              | None => fit_from (S i) l size
              end
  end.

(** [None] is the bare return of an invalid size, [Some None] is [(None, None)]. *)
Definition fit_seg (segs : list seg) (size : Z) : option (option (nat * Z)) :=
  if negb (size mod MTU_SIZE =? 0) || negb (ispower2 (size / MTU_SIZE)) then None
  else Some (fit_from 0 segs size).

(** [None]: [self.memseg[index]] raises. *)
Definition alloc_seg (segs : list seg) (index : nat) (addr_l addr_r : Z) : option (list seg) :=
  s ← segs !! index;
  let lseg := if negb (s.1 =? addr_l) then Some (s.1, addr_l) else None in
  let rseg := if negb (s.2 =? addr_r) then Some (addr_r, s.2) else None in
  let segs := py_del index segs in
  let segs := match rseg with Some x => py_insert index x segs | None => segs end in
  let segs := match lseg with Some x => py_insert index x segs | None => segs end in
  Some segs.

(** The loop of [free_seg] from index [i] on, [n] the length of the list: the
    first segment that ends after [addr_l]; [None] when it starts before [addr_r]. *)
Fixpoint free_index (i n : nat) (l : list seg) (addr_l addr_r : Z) : option nat :=
  match l with
  | [] => Some n
  | s :: l => if s.2 <=? addr_l then free_index (S i) n l addr_l addr_r
              else if s.1 <? addr_r then None
              else Some i
  end.

(** [None]: [exit(1)].  After the left neighbour has been deleted [r_index] is
    still the index from before. *)
Definition free_seg (segs : list seg) (addr_l addr_r : Z) : option (list seg) :=
  r_index ← free_index 0 (length segs) segs addr_l addr_r;
  let l_index := (r_index - 1)%nat in
  let '(segs, addr_l, index) :=
    match segs !! l_index with
    | Some s => if (1 <=? r_index)%nat && (s.2 =? addr_l)
                then (py_del l_index segs, s.1, l_index) else (segs, addr_l, r_index)
    | None => (segs, addr_l, r_index)
    end in
  let '(segs, addr_r) :=
    match segs !! r_index with
    | Some s => if s.1 =? addr_r then (py_del r_index segs, s.2) else (segs, addr_r)
    | None => (segs, addr_r)
    end in
  Some (py_insert index (addr_l, addr_r) segs).

(** * Segments in order *)

(** The segments are not empty, in order, without overlap, inside [lo, hi). *)
Fixpoint segs_ok (lo hi : Z) (l : list seg) : Prop :=
  match l with
  | [] => lo <= hi
  | s :: l => lo <= s.1 < s.2 /\ segs_ok s.2 hi l
  end.

(** Address [x] is free. *)
Definition free_at (l : list seg) (x : Z) : Prop := exists s, s ∈ l /\ s.1 <= x < s.2.

Lemma segs_ok_le lo hi l : segs_ok lo hi l -> lo <= hi.
Proof.
  revert lo. induction l as [|s l IH]; intros lo; simpl; [done|]. intros [? ?%IH]. lia.
Qed.

Lemma segs_ok_weaken lo lo' hi l : lo' <= lo -> segs_ok lo hi l -> segs_ok lo' hi l.
Proof. destruct l as [|s l]; simpl; [lia|]. intros ? [? ?]. split; [lia|done]. Qed.

(** A list of segments splits at an address between its parts. *)
Lemma segs_ok_app lo hi l1 l2 :
  segs_ok lo hi (l1 ++ l2) <-> exists m, segs_ok lo m l1 /\ segs_ok m hi l2.
Proof.
  revert lo. induction l1 as [|s l1 IH]; intros lo; simpl.
  - split; [intros H; exists lo; split; [lia|done]|].
    intros (m & Hm & H). by eapply segs_ok_weaken.
  - split.
    + intros [Hs (m & H1 & H2)%IH]. by exists m.
    + intros (m & [Hs H1] & H2). split; [done|]. apply IH. by exists m.
Qed.

Lemma segs_ok_upper lo hi hi' l :
  segs_ok lo hi l -> hi <= hi' -> segs_ok lo hi' l.
Proof.
  revert lo. induction l as [|s l IH]; intros lo; simpl; [lia|]. intros [? ?] ?. eauto.
Qed.

Lemma free_at_nil x : ~ free_at [] x.
Proof. intros (s & Hs & _). by apply elem_of_nil in Hs. Qed.

Lemma free_at_cons s l x : free_at (s :: l) x <-> s.1 <= x < s.2 \/ free_at l x.
Proof.
  unfold free_at. split.
  - intros (t & [->|Ht]%elem_of_cons & Hx); [by left|right; eauto].
  - intros [Hx|(t & Ht & Hx)]; [exists s|exists t]; (split; [|done]); [by left|by right].
Qed.

Lemma free_at_app l1 l2 x : free_at (l1 ++ l2) x <-> free_at l1 x \/ free_at l2 x.
Proof.
  induction l1 as [|s l1 IH]; simpl.
  - split; [by right|]. by intros [?%free_at_nil|].
  - rewrite !free_at_cons, IH. tauto.
Qed.

Lemma free_at_range lo hi l x : segs_ok lo hi l -> free_at l x -> lo <= x < hi.
Proof.
  revert lo. induction l as [|s l IH]; intros lo Hl; [by intros ?%free_at_nil|].
  destruct Hl as [Hs Hl]. pose proof (segs_ok_le _ _ _ Hl).
  intros [?|?%(IH _ Hl)]%free_at_cons; lia.
Qed.

Lemma py_del_middle {A} (l1 l2 : list A) x : py_del (length l1) (l1 ++ x :: l2) = l1 ++ l2.
Proof. apply delete_middle. Qed.

Lemma py_insert_middle {A} (l1 l2 : list A) x : py_insert (length l1) x (l1 ++ l2) = l1 ++ x :: l2.
Proof. unfold py_insert. by rewrite take_app_length, drop_app_length. Qed.

(** * Allocation *)

Lemma upperalign_spec x y :
  0 < y -> upperalign x y mod y = 0 /\ x <= upperalign x y < x + y
  /\ forall a, a mod y = 0 -> x <= a -> upperalign x y <= a.
Proof.
  intros Hy. unfold upperalign. pose proof (Z.div_mod (x + y - 1) y ltac:(lia)).
  pose proof (Z.mod_pos_bound (x + y - 1) y Hy). split; [apply Z_mod_mult|]. split; [lia|].
  intros a Ha Hx. pose proof (Z.div_mod a y ltac:(lia)) as Hd. rewrite Ha in Hd.
  assert ((x + y - 1) / y < a / y + 1) by (apply Z.div_lt_upper_bound; lia). nia.
Qed.

(** What [fit_seg] finds: the first segment with an aligned block. *)
Record block_fits (l : list seg) (size : Z) (i : nat) (addr : Z) : Prop := {
  fits_seg : exists s, l !! i = Some s /\ s.1 <= addr /\ addr + size <= s.2;
  fits_aligned : addr mod size = 0;
}.

(** No segment has an aligned block. *)
Definition no_block (l : list seg) (size : Z) : Prop :=
  forall s a, s ∈ l -> a mod size = 0 -> s.1 <= a -> s.2 < a + size.

Lemma fit_from_spec l i size :
  0 < size ->
  match fit_from i l size with
  | Some (j, addr) => exists k, j = (i + k)%nat /\ block_fits l size k addr /\ no_block (take k l) size
  | None => no_block l size
  end.
Proof.
  intros Hs. revert i. induction l as [|s l IH]; intros i; simpl.
  { intros s a Hin. by apply elem_of_nil in Hin. }
  pose proof (upperalign_spec s.1 size Hs) as (Hm & Hr & Hmin).
  unfold addr_in_seg. destruct (Z.leb_spec (upperalign s.1 size + size) s.2) as [Hle|Hle].
  - exists O. split; [lia|]. split.
    + constructor; [exists s; split; [done|lia]|done].
    + intros t a Hin. by apply elem_of_nil in Hin.
  - assert (forall l', no_block l' size -> no_block (s :: l') size) as Hno.
    { intros l' Hl t a [->|Hin]%elem_of_cons Ha Ht; [pose proof (Hmin a Ha Ht); lia|by apply (Hl t a)]. }
    specialize (IH (S i)). destruct (fit_from (S i) l size) as [[j addr]|]; [|by apply Hno].
    destruct IH as (k & -> & [Hseg Hal] & Hk). exists (S k). split; [lia|]. split; [by constructor|].
    simpl. by apply Hno.
Qed.

(** The lowest aligned block that lies in one free segment. *)
Record lowest_block (l : list seg) (size addr : Z) : Prop := {
  lb_seg : exists s, s ∈ l /\ s.1 <= addr /\ addr + size <= s.2;
  lb_aligned : addr mod size = 0;
  lb_first : forall s a, s ∈ l -> a mod size = 0 -> s.1 <= a -> a < addr -> s.2 < a + size;
}.

Lemma segs_ok_below lo hi l s x : segs_ok lo hi l -> x <= lo -> s ∈ l -> x <= s.1.
Proof.
  revert lo. induction l as [|t l IH]; intros lo; [by intros _ _ ?%elem_of_nil|].
  intros [Ht Hl] Hx [->|Hs]%elem_of_cons; [lia|]. apply (IH t.2); [done|lia|done].
Qed.

Lemma fit_from_lowest lo hi l i j size addr :
  0 < size -> segs_ok lo hi l -> fit_from i l size = Some (j, addr) -> lowest_block l size addr.
Proof.
  intros Hs. revert lo i. induction l as [|s l IH]; intros lo i; [done|]. intros [Hlo Hl]. simpl.
  pose proof (upperalign_spec s.1 size Hs) as (Hm & Hr & Hmin).
  unfold addr_in_seg. destruct (Z.leb_spec (upperalign s.1 size + size) s.2) as [Hle|Hgt].
  - intros [= <- <-]. constructor; [exists s; split; [by left|lia]|done|].
    intros t a [->|Ht]%elem_of_cons Ha H1 H2; [specialize (Hmin a Ha H1); lia|].
    pose proof (segs_ok_below _ _ _ _ s.2 Hl ltac:(lia) Ht). lia.
  - intros [(t & Ht & Hin) Hal Hf]%(IH _ _ Hl).
    constructor; [exists t; split; [by right|done]|done|].
    intros t' a [->|Ht']%elem_of_cons Ha H1 H2; [specialize (Hmin a Ha H1); lia|by apply (Hf t' a)].
Qed.

Lemma alloc_seg_runs lo hi l i s a b :
  segs_ok lo hi l -> l !! i = Some s -> s.1 <= a -> a < b -> b <= s.2 ->
  exists l', alloc_seg l i a b = Some l' /\ segs_ok lo hi l'
    /\ forall x, free_at l' x <-> free_at l x /\ ~ a <= x < b.
Proof.
  intros Hl Hi Ha Hab Hb.
  rewrite <- (take_drop_middle l i s Hi) in Hl |- *.
  assert (i = length (take i l)) as Ei by (apply lookup_lt_Some in Hi; rewrite length_take; lia).
  set (l1 := take i l) in *. set (l2 := drop (S i) l) in *. clearbody l1 l2. subst i.
  apply segs_ok_app in Hl as (m & H1 & [Hs H2]).
  unfold alloc_seg. rewrite list_lookup_middle by done. cbn [mbind option_bind]. rewrite py_del_middle.
  set (rs := if negb (s.2 =? b) then [(b, s.2)] else []).
  set (ls := if negb (s.1 =? a) then [(s.1, a)] else []).
  exists (l1 ++ ls ++ rs ++ l2). split.
  { unfold ls, rs. destruct (negb (s.1 =? a)), (negb (s.2 =? b)); simpl;
      by rewrite ?py_insert_middle. }
  assert (segs_ok b hi (rs ++ l2) /\ forall x, free_at rs x <-> b <= x < s.2) as [Hrs Hfr].
  { unfold rs. destruct (Z.eqb_spec s.2 b) as [E|E]; simpl.
    - rewrite <- E. split; [done|]. intros x. split; [by intros ?%free_at_nil|lia].
    - split; [split; [lia|done]|]. intros x. rewrite free_at_cons. simpl.
      split; [intros [?|?%free_at_nil]; [done|done]|by left]. }
  assert (segs_ok m hi (ls ++ rs ++ l2) /\ forall x, free_at ls x <-> s.1 <= x < a) as [Hls Hfl].
  { unfold ls. destruct (Z.eqb_spec s.1 a) as [E|E]; simpl.
    - split; [by apply (segs_ok_weaken b); [lia|]|]. intros x. split; [by intros ?%free_at_nil|lia].
    - split; [split; [lia|by apply (segs_ok_weaken b); [lia|]]|]. intros x. rewrite free_at_cons. simpl.
      split; [intros [?|?%free_at_nil]; [done|done]|by left]. }
  split; [apply segs_ok_app; by exists m|].
  intros x. rewrite !free_at_app, free_at_cons, Hfr, Hfl.
  pose proof (free_at_range _ _ _ x H1). pose proof (free_at_range _ _ _ x H2).
  intuition lia.
Qed.

(** * Release *)

(** The index is where the list splits around the range. *)
Lemma free_index_spec lo hi l a b i n :
  segs_ok lo hi l -> lo <= a -> a < b -> b <= hi -> (forall x, a <= x < b -> ~ free_at l x) ->
  n = (i + length l)%nat ->
  exists l1 l2, l = l1 ++ l2 /\ free_index i n l a b = Some (i + length l1)%nat
    /\ segs_ok lo a l1 /\ segs_ok b hi l2.
Proof.
  revert lo i. induction l as [|s l IH]; intros lo i Hl Hlo Hab Hhi Hno Hn; simpl in *.
  - exists [], []. split_and!; try done. simpl. f_equal. lia.
  - destruct Hl as [Hs Hl].
    assert (forall x, a <= x < b -> ~ free_at l x) as Hno'.
    { intros x Hx Hf. apply (Hno x Hx). rewrite free_at_cons. by right. }
    destruct (Z.leb_spec s.2 a) as [Hle|Hlt].
    + destruct (IH s.2 (S i) Hl Hle Hab Hhi Hno') as (l1 & l2 & -> & -> & H1 & H2); [lia|].
      exists (s :: l1), l2. simpl. split_and!; try done; try lia. f_equal. lia.
    + destruct (Z.ltb_spec s.1 b) as [Hb|Hb].
      * destruct (Hno (Z.max s.1 a)); [lia|]. rewrite free_at_cons. left. lia.
      * exists [], (s :: l). simpl. split_and!; try done; try lia. f_equal. lia.
Qed.

(** The left neighbour of the range, if it touches it, and the rest. *)
Definition touching_left (l1 : list seg) (a : Z) : option (list seg * seg) :=
  match last l1 with
  | Some s => if s.2 =? a then Some (removelast l1, s) else None
  | None => None
  end.

Lemma touching_left_Some l1 a l0 s :
  touching_left l1 a = Some (l0, s) -> l1 = l0 ++ [s] /\ s.2 = a.
Proof.
  unfold touching_left. destruct (last l1) as [t|] eqn:Hl; [|done].
  destruct (Z.eqb_spec t.2 a); [|done]. intros ?. simplify_eq.
  apply last_Some in Hl as [l ->]. by rewrite removelast_last.
Qed.

Lemma touching_left_None l1 a s l0 :
  touching_left l1 a = None -> l1 = l0 ++ [s] -> s.2 <> a.
Proof.
  unfold touching_left. intros H ->. rewrite last_snoc in H.
  by destruct (Z.eqb_spec s.2 a).
Qed.

(** [free_seg] on a list split around the range: a left neighbour that touches
    is merged; a right one only when no left one was. *)
Lemma free_seg_eq l1 l2 a b :
  free_index 0 (length (l1 ++ l2)) (l1 ++ l2) a b = Some (length l1) ->
  (forall s s' l, l2 = s :: s' :: l -> b < s'.1) ->
  free_seg (l1 ++ l2) a b = Some
    match touching_left l1 a with
    | Some (l0, s) => l0 ++ (s.1, b) :: l2
    | None => match l2 with
              | s :: l => if s.1 =? b then l1 ++ (a, s.2) :: l else l1 ++ (a, b) :: l2
              | [] => l1 ++ [(a, b)]
              end
    end.
Proof.
  intros Hi Hr. unfold free_seg. rewrite Hi. cbn [mbind option_bind].
  destruct (touching_left l1 a) as [[l0 s]|] eqn:Ht.
  - apply touching_left_Some in Ht as [-> Hs]. rewrite last_length.
    cbn [Nat.sub Nat.leb]. rewrite Nat.sub_0_r.
    rewrite <- app_assoc. cbn [app]. rewrite list_lookup_middle by done.
    rewrite (proj2 (Z.eqb_eq _ _) Hs). cbn [andb].
    rewrite py_del_middle. rewrite lookup_app_r by lia.
    replace (S (length l0) - length l0)%nat with 1%nat by lia.
    destruct l2 as [|t [|t' l2]]; simpl; [by rewrite py_insert_middle..|].
    rewrite (proj2 (Z.eqb_neq t'.1 b)) by (pose proof (Hr t t' l2 eq_refl); lia).
    by rewrite py_insert_middle.
  - assert (match (l1 ++ l2) !! (length l1 - 1)%nat with
      | Some s => if (1 <=? length l1)%nat && (s.2 =? a)
                  then (py_del (length l1 - 1) (l1 ++ l2), s.1, (length l1 - 1)%nat)
                  else (l1 ++ l2, a, length l1)
      | None => (l1 ++ l2, a, length l1)
      end = (l1 ++ l2, a, length l1)) as ->.
    { destruct l1 as [|s l1 _] using rev_ind; [by destruct l2|].
      rewrite last_length. cbn [Nat.sub Nat.leb]. rewrite Nat.sub_0_r.
      rewrite <- app_assoc. cbn [app]. rewrite list_lookup_middle by done.
      rewrite (proj2 (Z.eqb_neq s.2 a)); [by rewrite andb_false_r|].
      by apply (touching_left_None _ _ _ _ Ht eq_refl). }
    destruct l2 as [|t l2].
    + rewrite lookup_ge_None_2 by (rewrite length_app; simpl; lia). by rewrite py_insert_middle.
    + rewrite list_lookup_middle by done. destruct (t.1 =? b); [|by rewrite py_insert_middle].
      by rewrite py_del_middle, py_insert_middle.
Qed.

Lemma segs_ok_second lo hi s s' l : segs_ok lo hi (s :: s' :: l) -> lo < s'.1.
Proof. simpl. lia. Qed.

Lemma free_at_single s x : free_at [s] x <-> s.1 <= x < s.2.
Proof. rewrite free_at_cons. split; [intros [?|?%free_at_nil]; done|by left]. Qed.

Lemma free_seg_runs lo hi l a b :
  segs_ok lo hi l -> lo <= a -> a < b -> b <= hi -> (forall x, a <= x < b -> ~ free_at l x) ->
  exists l', free_seg l a b = Some l' /\ segs_ok lo hi l'
    /\ forall x, free_at l' x <-> free_at l x \/ a <= x < b.
Proof.
  intros Hl Hlo Hab Hhi Hno.
  destruct (free_index_spec lo hi l a b 0 (length l)) as (l1 & l2 & -> & Hi & H1 & H2); try done.
  eexists. split.
  { apply free_seg_eq; [exact Hi|]. intros s s' l' ->. by apply segs_ok_second in H2. }
  destruct (touching_left l1 a) as [[l0 s]|] eqn:Ht.
  - apply touching_left_Some in Ht as [-> Hs]. apply segs_ok_app in H1 as (m & H0 & [Hm _]). split.
    + apply segs_ok_app. exists m. split; [done|]. simpl. split; [lia|done].
    + intros x. rewrite !free_at_app, free_at_cons, free_at_single. simpl. intuition lia.
  - assert (segs_ok lo hi (l1 ++ (a, b) :: l2)) as Hins.
    { apply segs_ok_app. exists a. split; [done|]. simpl. split; [lia|done]. }
    destruct l2 as [|s l2].
    + split; [done|]. intros x. rewrite !free_at_app, free_at_single. simpl. 
      pose proof (free_at_nil x). tauto.
    + destruct (Z.eqb_spec s.1 b) as [E|E].
      * destruct H2 as [Hs H2]. split.
        -- apply segs_ok_app. exists a. split; [done|]. simpl. split; [lia|done].
        -- intros x. rewrite !free_at_app, !free_at_cons. simpl. intuition lia.
      * split; [done|]. intros x. rewrite !free_at_app, !free_at_cons. simpl. tauto.
Qed.

Lemma free_index_overlap lo hi l a b i n x :
  segs_ok lo hi l -> a <= x < b -> free_at l x -> free_index i n l a b = None.
Proof.
  intros Hl Hx. revert lo i Hl. induction l as [|s l IH]; intros lo i Hl; simpl.
  { by intros ?%free_at_nil. }
  destruct Hl as [Hs Hl]. intros Hf. pose proof Hf as Hf'. apply free_at_cons in Hf' as [Hf'|Hf'].
  - rewrite (proj2 (Z.leb_gt _ _)), (proj2 (Z.ltb_lt _ _)) by lia. done.
  - pose proof (free_at_range _ _ _ x Hl Hf').
    destruct (s.2 <=? a); [by eapply IH|]. by rewrite (proj2 (Z.ltb_lt _ _)) by lia.
Qed.

Lemma free_index_None lo hi l a b i n :
  segs_ok lo hi l -> a < b -> free_index i n l a b = None -> exists x, a <= x < b /\ free_at l x.
Proof.
  revert lo i. induction l as [|s l IH]; intros lo i; simpl; [done|].
  intros [Hs Hl] Hab. destruct (Z.leb_spec s.2 a).
  - intros (x & Hx & Hf)%(IH _ _ Hl Hab). exists x. rewrite free_at_cons. auto.
  - destruct (Z.ltb_spec s.1 b); [|done]. intros _. exists (Z.max s.1 a). rewrite free_at_cons.
    split; [|left]; lia.
Qed.

(** Between two parts of the list, the second not empty. *)
Lemma free_index_at lo hi l1 s l2 a b i n :
  segs_ok lo a l1 -> a < b -> segs_ok b hi (s :: l2) ->
  free_index i n (l1 ++ s :: l2) a b = Some (i + length l1)%nat.
Proof.
  intros H1 Hab H2. revert lo i H1. induction l1 as [|t l1 IH]; intros lo i H1; simpl in *.
  - rewrite (proj2 (Z.leb_gt _ _)), (proj2 (Z.ltb_ge _ _)) by lia. f_equal. lia.
  - destruct H1 as [Ht H1]. rewrite (proj2 (Z.leb_le _ _)) by by apply segs_ok_le in H1.
    rewrite (IH _ _ H1). f_equal. lia.
Qed.

(** * The allocator as a set of addresses *)

Lemma ispower2_spec x : ispower2 x = true <-> exists n, 0 <= n /\ x = 2 ^ n.
Proof.
  unfold ispower2. rewrite andb_true_iff, Z.ltb_lt, Z.eqb_eq. split.
  - intros [Hx Hl]. exists (Z.log2 x). pose proof (Z.log2_nonneg x) as Hn. split; [done|].
    pose proof (Z.log2_spec x Hx) as [Hlo Hup]. destruct (decide (x = 2 ^ Z.log2 x)) as [|Hne]; [done|].
    assert (Z.log2 (x - 1) = Z.log2 x) as El by (apply Z.log2_unique; lia).
    apply (f_equal (fun y => Z.testbit y (Z.log2 x))) in Hl.
    rewrite Z.land_spec, Z.bit_log2, <- El, Z.bit_log2, Z.testbit_0_l in Hl by lia. done.
  - intros (n & Hn & ->). split; [lia|]. rewrite Z.sub_1_r, <- Z.ones_equiv, Z.land_ones by done.
    by apply Z.mod_same; lia.
Qed.

Lemma fit_seg_valid l size :
  fit_seg l size = None <-> ~ exists n, 0 <= n /\ size = 2 ^ n * MTU_SIZE.
Proof.
  unfold fit_seg. change MTU_SIZE with 256.
  destruct (Z.eqb_spec (size mod 256) 0) as [Hm|Hm]; simpl.
  - pose proof (Z.div_mod size 256 ltac:(lia)) as Hd. rewrite Hm in Hd.
    destruct (ispower2 (size / 256)) eqn:E; simpl.
    + apply ispower2_spec in E as (k & Hk & E). split; [done|]. intros H. destruct H. exists k. lia.
    + split; [|done]. intros _ (k & Hk & Ek).
      assert (ispower2 (size / 256) = true) as E'.
      { apply ispower2_spec. exists k. split; [done|]. rewrite Ek. by apply Z.div_mul. }
      by rewrite E in E'.
  - split; [|done]. intros _ (k & Hk & ->). by rewrite Z_mod_mult in Hm.
Qed.

Lemma fit_seg_size l size : is_Some (fit_seg l size) -> exists n, 0 <= n /\ size = 2 ^ n * MTU_SIZE.
Proof.
  intros [r E]. unfold fit_seg in E. change MTU_SIZE with 256 in *.
  destruct (Z.eqb_spec (size mod 256) 0) as [Hm|Hm]; [|done]. simpl in E.
  destruct (ispower2 (size / 256)) eqn:Ep; [|done]. apply ispower2_spec in Ep as (n & Hn & En).
  exists n. split; [done|]. pose proof (Z.div_mod size 256 ltac:(lia)). lia.
Qed.

Lemma segs_ok_lookup lo hi l i s : segs_ok lo hi l -> l !! i = Some s -> lo <= s.1 < s.2 /\ s.2 <= hi.
Proof.
  revert lo i. induction l as [|t l IH]; intros lo i; [by rewrite lookup_nil|].
  intros [Ht Hl] Hi. pose proof (segs_ok_le _ _ _ Hl). destruct i as [|i]; simpl in Hi.
  - simplify_eq. lia.
  - destruct (IH _ _ Hl Hi). lia.
Qed.

(** C30: [fit_seg] refuses a size exactly when it is not a packet times a power
    of two; otherwise it finds the lowest aligned block that lies in one free
    segment, and none exactly when there is none.  [alloc_seg] on the block
    keeps the segments in order and removes exactly its addresses, which are
    free. *)
Theorem fit_and_alloc_spec l size :
  segs_ok 0 SWITCH_MEM_SIZE l ->
  let valid := exists n, 0 <= n /\ size = 2 ^ n * MTU_SIZE in
  match fit_seg l size with
  | None => ~ valid
  | Some None => valid /\ no_block l size
  | Some (Some (i, addr)) =>
    valid /\ lowest_block l size addr /\ 0 <= addr /\ addr + size <= SWITCH_MEM_SIZE
    /\ (forall x, addr <= x < addr + size -> free_at l x)
    /\ exists l', alloc_seg l i addr (addr + size) = Some l' /\ segs_ok 0 SWITCH_MEM_SIZE l'
       /\ forall x, free_at l' x <-> free_at l x /\ ~ addr <= x < addr + size
  end.
Proof.
  intros Hl valid. pose proof (fit_seg_valid l size) as Hv. destruct (fit_seg l size) as [r|] eqn:E; [|by apply Hv].
  assert (valid) as Hval by (apply (fit_seg_size l size); by rewrite E).
  assert (0 < size) as Hs.
  { destruct Hval as (k & Hk & ->). pose proof (Z.pow_pos_nonneg 2 k). change MTU_SIZE with 256. lia. }
  unfold fit_seg in E. destruct (_ || _); [done|]. injection E as <-.
  pose proof (fit_from_spec l 0 size Hs) as Hf. destruct (fit_from 0 l size) as [[i addr]|] eqn:Ef; [|done].
  destruct Hf as (k & -> & [(s & Hi & H1 & H2) Hm] & _). simpl in *.
  destruct (segs_ok_lookup _ _ _ _ _ Hl Hi) as [? ?].
  split_and!; [done|by eapply fit_from_lowest|lia|lia|..].
  - intros x Hx. exists s. split; [by eapply list_elem_of_lookup_2|lia].
  - by eapply alloc_seg_runs; [done|done|lia..].
Qed.

(** C31: [free_seg] adds exactly the addresses of the range, keeping the segments
    in order; it gives up exactly when one of them is free already. *)
Theorem free_seg_spec l a b :
  segs_ok 0 SWITCH_MEM_SIZE l -> 0 <= a -> a < b -> b <= SWITCH_MEM_SIZE ->
  match free_seg l a b with
  | Some l' => (forall x, a <= x < b -> ~ free_at l x) /\ segs_ok 0 SWITCH_MEM_SIZE l'
               /\ forall x, free_at l' x <-> free_at l x \/ a <= x < b
  | None => exists x, a <= x < b /\ free_at l x
  end.
Proof.
  intros Hl Ha Hab Hb. destruct (free_index 0 (length l) l a b) as [j|] eqn:Hi.
  - assert (forall x, a <= x < b -> ~ free_at l x) as Hno.
    { intros x Hx Hf. by rewrite (free_index_overlap _ _ _ _ _ _ _ x Hl Hx Hf) in Hi. }
    destruct (free_seg_runs _ _ _ _ _ Hl Ha Hab Hb Hno) as (l' & -> & ?). done.
  - unfold free_seg. rewrite Hi. simpl. by eapply free_index_None.
Qed.

(** A range between two free segments is merged with the left one only: the
    index of the right one is stale once the left one has been deleted. *)
Theorem free_seg_keeps_right l1 x a b y l2 :
  segs_ok 0 SWITCH_MEM_SIZE (l1 ++ [(x, a)]) -> a < b -> segs_ok b SWITCH_MEM_SIZE ((b, y) :: l2) ->
  free_seg ((l1 ++ [(x, a)]) ++ (b, y) :: l2) a b = Some (l1 ++ (x, b) :: (b, y) :: l2).
Proof.
  intros H1 Hab H2. assert (segs_ok 0 a (l1 ++ [(x, a)])) as Hl.
  { apply segs_ok_app in H1 as (m & H0 & [Hm _]). apply segs_ok_app. exists m. split; [done|].
    simpl in *. lia. }
  rewrite free_seg_eq.
  - unfold touching_left. by rewrite last_snoc, Z.eqb_refl, removelast_last.
  - by apply (free_index_at 0 SWITCH_MEM_SIZE).
  - intros s s' l E. rewrite E in H2. by apply segs_ok_second in H2.
Qed.

(** Three blocks, released first, last, middle: all of the memory is free, but
    as two segments. *)
Definition fragmented : option (list seg) :=
  l ← alloc_seg [(0, SWITCH_MEM_SIZE)] 0 0 ALLOC_SIZE;
  l ← alloc_seg l 0 ALLOC_SIZE (2 * ALLOC_SIZE);
  l ← alloc_seg l 0 (2 * ALLOC_SIZE) (3 * ALLOC_SIZE);
  l ← free_seg l 0 ALLOC_SIZE;
  l ← free_seg l (2 * ALLOC_SIZE) (3 * ALLOC_SIZE);
  free_seg l ALLOC_SIZE (2 * ALLOC_SIZE).

Example fragmented_eq : fragmented = Some [(0, 524288); (524288, SWITCH_MEM_SIZE)].
Proof. reflexivity. Qed.

(** ** The theorems at concrete lists *)

Lemma fit_and_alloc_spec_witness :
  fit_seg [(256, SWITCH_MEM_SIZE)] ALLOC_SIZE = Some (Some (0%nat, ALLOC_SIZE))
  /\ forall x, ALLOC_SIZE <= x < ALLOC_SIZE + ALLOC_SIZE -> free_at [(256, SWITCH_MEM_SIZE)] x.
Proof.
  assert (segs_ok 0 SWITCH_MEM_SIZE [(256, SWITCH_MEM_SIZE)]) as Hl
    by (vm_compute; repeat split; congruence).
  assert (fit_seg [(256, SWITCH_MEM_SIZE)] ALLOC_SIZE = Some (Some (0%nat, ALLOC_SIZE))) as E by reflexivity.
  split; [exact E|]. pose proof (fit_and_alloc_spec _ ALLOC_SIZE Hl) as Hs. rewrite E in Hs. apply Hs.
Defined.

Lemma free_seg_spec_witness :
  free_seg [(0, 256)] 512 768 = Some [(0, 256); (512, 768)]
  /\ forall x, 512 <= x < 768 -> ~ free_at [(0, 256)] x.
Proof.
  assert (segs_ok 0 SWITCH_MEM_SIZE [(0, 256)]) as Hl by (vm_compute; repeat split; congruence).
  assert (free_seg [(0, 256)] 512 768 = Some [(0, 256); (512, 768)]) as E by reflexivity.
  split; [exact E|].
  pose proof (free_seg_spec [(0, 256)] 512 768 Hl ltac:(lia) ltac:(lia) ltac:(vm_compute; congruence)) as Hs.
  rewrite E in Hs. apply Hs.
Defined.

Lemma free_seg_keeps_right_witness :
  free_seg [(0, 256); (512, 768)] 256 512 = Some [(0, 512); (512, 768)].
Proof.
  apply (free_seg_keeps_right [] 0 256 512 768 []); vm_compute; repeat split; congruence.
Defined.
