(* ===== verification/ControlPlane.v ===== *)
(** The control plane of the switch ([switch/bfrt_grpc.py]): the gRPC service
    that creates and destroys groups.

    The runtime of the switch ([bfrt]) is not part of the repository: it is the
    class [Bfrt], and [BfrtLaws] says what its documentation promises.  A Python
    exception ends a handler but keeps what it has changed, so that a handler
    is a function to an exception or a value, and the state. *)

From S2P Require Import Prelude.
From S2P Require Import Switch.
From S2P Require Import Allocator.

(** * Python *)

Inductive exn :=
  | TypeError
  | IndexError
  | ValueError
  | RuntimeError              (** a call of the runtime has raised *)
  | SystemExit (code : Z).

Definition py (S A : Type) : Type := S -> (exn + A) * S.

Section python.
Context {S : Type}.

#[global] Instance py_ret : MRet (py S) := fun A a s => (inr a, s).
#[global] Instance py_bind : MBind (py S) := fun A B k m s =>
  match m s with
  | (inr a, s') => k a s'
  | (inl e, s') => (inl e, s')
  end.

Definition raise {A} (e : exn) : py S A := fun s => (inl e, s).
Definition self : py S S := fun s => (inr s, s).
Definition update (f : S -> S) : py S unit := fun s => (inr tt, f s).
(** [try: m except: pass] *)
Definition try_except (m : py S unit) : py S unit := fun s => (inr tt, (m s).2).
Definition or_raise {A} (e : exn) (o : option A) : py S A :=
  match o with Some a => mret a | None => raise e end.

Fixpoint py_for {A} (l : list A) (body : A -> py S unit) : py S unit :=
  match l with
  | [] => mret tt
  | x :: l => body x ;; py_for l body
  end.

(** The handler returns, with a value and a state in [Q]. *)
Definition returns {A} (m : py S A) (s : S) (Q : A -> S -> Prop) : Prop :=
  exists a s', m s = (inr a, s') /\ Q a s'.

Lemma returns_ret {A} (a : A) s (Q : A -> S -> Prop) : Q a s -> returns (mret a) s Q.
Proof. by exists a, s. Qed.

Lemma returns_bind {A B} (m : py S A) (k : A -> py S B) s (Q : B -> S -> Prop) :
  returns m s (fun a s' => returns (k a) s' Q) -> returns (m ≫= k) s Q.
Proof.
  intros (a & s' & Hm & b & s'' & Hk & HQ). exists b, s''. split; [|done].
  unfold mbind, py_bind. by rewrite Hm.
Qed.

Lemma returns_mono {A} (m : py S A) s (Q R : A -> S -> Prop) :
  returns m s Q -> (forall a s', Q a s' -> R a s') -> returns m s R.
Proof. intros (a & s' & Hm & HQ) H. exists a, s'. auto. Qed.

Lemma returns_self s (Q : S -> S -> Prop) : Q s s -> returns self s Q.
Proof. by exists s, s. Qed.

Lemma returns_update f s (Q : unit -> S -> Prop) : Q tt (f s) -> returns (update f) s Q.
Proof. by exists tt, (f s). Qed.

Lemma returns_or_raise {A} e (o : option A) a s (Q : A -> S -> Prop) :
  o = Some a -> Q a s -> returns (or_raise e o) s Q.
Proof. intros -> HQ. by exists a, s. Qed.
End python.

(** Step through one operation of a handler. *)
Ltac py_step :=
  match goal with
  | |- returns (_ ≫= _) _ _ => apply returns_bind
  | |- returns (mret _) _ _ => apply returns_ret
  | |- returns self _ _ => apply returns_self
  | |- returns (update _) _ _ => apply returns_update
  end.

(** * The runtime of the switch *)

(** The calls of the program; [bfrt.pre] are the multicast nodes and groups. *)
Inductive bf_call :=
  | recirculate_add (group port : Z)
  | recirculate_delete (group : Z)
  | recirculate_clear
  | metadata_add (group mask : Z)
  | metadata_delete (group : Z)
  | metadata_clear
  | restore_add (group rank sip dip : Z)
  | restore_delete (group rank : Z)
  | restore_clear
  | node_add (node rid port : Z)
  | node_delete (node : Z)
  | mgid_add (mgid : Z) (nodes : list Z)
  | mgid_delete (mgid : Z)
  | reg_bitmap_mod (i version bitmap : Z).

(** A call changes the device or raises. *)
Class Bfrt := {
  device : Type;
  bf_exec : bf_call -> device -> option device;
}.

(** The topology ([topo.json]): the ports and addresses of the servers. *)
Class Topology := {
  t_port : list Z;
  t_ip : list Z;
  t_switch_ip : Z;
  t_recir_port : list Z;
}.

Definition MAX_GROUP_NUM : Z := 256.
Definition MAX_SERVER_NUM : Z := 256.
Definition MAX_WORKER_NUM : Z := 1024.

(** * The service *)

Section service.
Context `{Bfrt, Topology}.

(** [IP_int.index(ip)] *)
Fixpoint py_index (x : Z) (l : list Z) : option nat :=
  match l with
  | [] => None
  | y :: l => if y =? x then Some O else Datatypes.S <$> py_index x l
  end.

Definition ip2port (ip : Z) : Z :=
  match py_index ip t_ip ≫= (fun i => t_port !! i) with
  | Some p => p
  | None => 511
  end.

(** The strings in [undo_funcs]. *)
Inductive undo_func :=
  | undo_free_seg (addr_l addr_r : Z)
  | undo_free_group (group : Z)
  | undo_free_node (nodes : list Z)
  | undo_recir_port (idx : nat)
  | undo_call (c : bf_call).

Record servicer := {
  free_group : list Z;
  free_node : list Z;
  recir_port_cnt : list Z;
  undo : gmap Z (list undo_func);
  memseg : list seg;
  dev : device;
}.

Definition call (c : bf_call) : py servicer unit := fun s =>
  match bf_exec c (dev s) with
  | Some d => (inr tt, {| s with dev := d |})
  | None => (inl RuntimeError, s)
  end.

Definition reinit : py servicer unit :=
  update (fun s => {| s with
    free_group := filter (fun i => i > 0) (seqZ 0 MAX_GROUP_NUM);
    free_node := filter (fun i => i > 0) (seqZ 0 MAX_WORKER_NUM);
    recir_port_cnt := (fun _ => 0) <$> t_recir_port;
    undo := ∅;
    memseg := [(0, SWITCH_MEM_SIZE)] |}) ;;
  call recirculate_clear ;;
  call metadata_clear ;;
  call restore_clear ;;
  s ← self ;
  py_for (free_group s) (fun mgid => try_except (call (mgid_delete mgid))) ;;
  py_for (free_node s) (fun node => try_except (call (node_delete node))).

(** [l.index(min(l))]: [min] of an empty list raises. *)
Definition py_min (l : list Z) : option Z :=
  match l with [] => None | x :: l => Some (foldl Z.min x l) end.
Definition select_recir_port_idx : py servicer nat :=
  s ← self ;
  m ← or_raise ValueError (py_min (recir_port_cnt s)) ;
  or_raise ValueError (py_index m (recir_port_cnt s)).

(** [CreateGroupResponse]; the null group has number 0 *)
Record response := {
  r_members : list Z;
  r_group : Z;
  r_agg_addr : Z;
  r_agg_len : Z;
}.
Definition null_response : response :=
  {| r_members := []; r_group := 0; r_agg_addr := 0; r_agg_len := 0 |}.

(** What undoes the creation of a group, in the order of the creation. *)
Definition undo_funcs (seg_addr seg_size groupid : Z) (node : list Z) (recir_port_idx : nat) :
    list undo_func :=
  [undo_free_seg seg_addr (seg_addr + seg_size);
   undo_free_group groupid;
   undo_free_node node;
   undo_recir_port recir_port_idx;
   undo_call (recirculate_delete groupid);
   undo_call (metadata_delete groupid)]
  ++ (seq 0 (length node) ≫= fun i =>
        [undo_call (restore_delete groupid (Z.of_nat i)); undo_call (node_delete (node !!! i))])
  ++ [undo_call (mgid_delete groupid)].

(** The part of [CreateGroup] after the check of the resources. *)
Definition create (Member : list Z) (seg_index : nat) (seg_addr seg_size : Z) : py servicer response :=
  let group_size := length Member in
  let agg_addr := seg_addr / MTU_SIZE in
  let agg_addr_len := seg_size / MTU_SIZE in
  s ← self ;
  segs ← or_raise IndexError (alloc_seg (memseg s) seg_index seg_addr (seg_addr + seg_size)) ;
  update (fun s => {| s with memseg := segs |}) ;;
  groupid ← or_raise IndexError (head (free_group s)) ;
  update (fun s => {| s with free_group := tail (free_group s) |}) ;;
  let node := take group_size (free_node s) in
  update (fun s => {| s with free_node := drop group_size (free_node s) |}) ;;
  recir_port_idx ← select_recir_port_idx ;
  update (fun s => {| s with recir_port_cnt := alter (Z.add 1) recir_port_idx (recir_port_cnt s) |}) ;;
  port ← or_raise IndexError (t_recir_port !! recir_port_idx) ;
  call (recirculate_add groupid port) ;;
  call (metadata_add groupid (Z.shiftl 1 (Z.of_nat group_size) - 1)) ;;
  py_for (seq 0 group_size) (fun i =>
    ip ← or_raise IndexError (Member !! i) ;
    n ← or_raise IndexError (node !! i) ;
    call (restore_add groupid (Z.of_nat i) t_switch_ip ip) ;;
    call (node_add n (Z.of_nat i) (ip2port ip))) ;;
  call (mgid_add groupid node) ;;
  py_for (seqZ agg_addr agg_addr_len) (fun i => call (reg_bitmap_mod i 0 0)) ;;
  update (fun s => {| s with
    undo := <[groupid := undo_funcs seg_addr seg_size groupid node recir_port_idx]> (undo s) |}) ;;
  mret {| r_members := (fun _ => t_switch_ip) <$> Member; r_group := groupid;
          r_agg_addr := agg_addr; r_agg_len := agg_addr_len |}.

(** [Member]: the addresses of the members, in the order of their ranks. *)
Definition CreateGroup (Member : list Z) : py servicer response :=
  s ← self ;
  match fit_seg (memseg s) ALLOC_SIZE with
  | None => raise TypeError
  | Some fit =>
    if (length (free_group s) <? 1)%nat || (length (free_node s) <? length Member)%nat
    then mret null_response
    else match fit with
         | None => mret null_response
         | Some (seg_index, seg_addr) => create Member seg_index seg_addr ALLOC_SIZE
         end
  end.

(** [debug_exec] on one of the strings *)
Definition run_undo (f : undo_func) : py servicer unit :=
  match f with
  | undo_free_seg l r =>
    s ← self ;
    segs ← or_raise (SystemExit 1) (free_seg (memseg s) l r) ;
    update (fun s => {| s with memseg := segs |})
  | undo_free_group g => update (fun s => {| s with free_group := free_group s ++ [g] |})
  | undo_free_node ns => update (fun s => {| s with free_node := free_node s ++ ns |})
  | undo_recir_port idx =>
    s ← self ;
    c ← or_raise IndexError (recir_port_cnt s !! idx) ;
    update (fun s => {| s with recir_port_cnt := <[idx := c - 1]> (recir_port_cnt s) |})
  | undo_call c => call c
  end.

Definition DestroyGroup (groupid : Z) : py servicer unit :=
  s ← self ;
  match undo s !! groupid with
  | None => mret tt
  | Some fs =>
    py_for (reverse fs) run_undo ;;
    update (fun s => {| s with undo := delete groupid (undo s) |})
  end.

Definition Init : py servicer unit := reinit.
End service.

(** * What the runtime promises *)

(** The tables, the nodes (number of the copy and port), the multicast groups
    and the registers of the switch. *)
Record switch_view := {
  v_tables : tables;
  v_nodes : gmap Z (Z * Z);
  v_mgids : gmap Z (list Z);
  v_regs : registers;
}.

Definition effect (c : bf_call) (v : switch_view) : switch_view :=
  let t := v_tables v in
  match c with
  | recirculate_add g p =>
    {| v with v_tables := {| t with recirculate_table := <[g := p]> (recirculate_table t) |} |}
  | recirculate_delete g =>
    {| v with v_tables := {| t with recirculate_table := delete g (recirculate_table t) |} |}
  | recirculate_clear => {| v with v_tables := {| t with recirculate_table := ∅ |} |}
  | metadata_add g m =>
    {| v with v_tables := {| t with metadata_table := <[g := m]> (metadata_table t) |} |}
  | metadata_delete g =>
    {| v with v_tables := {| t with metadata_table := delete g (metadata_table t) |} |}
  | metadata_clear => {| v with v_tables := {| t with metadata_table := ∅ |} |}
  | restore_add g r sip dip =>
    {| v with v_tables := {| t with restore_table := <[(g, r) := (sip, dip)]> (restore_table t) |} |}
  | restore_delete g r =>
    {| v with v_tables := {| t with restore_table := delete (g, r) (restore_table t) |} |}
  | restore_clear => {| v with v_tables := {| t with restore_table := ∅ |} |}
  | node_add n rid p => {| v with v_nodes := <[n := (rid, p)]> (v_nodes v) |}
  | node_delete n => {| v with v_nodes := delete n (v_nodes v) |}
  | mgid_add g ns => {| v with v_mgids := <[g := ns]> (v_mgids v) |}
  | mgid_delete g => {| v with v_mgids := delete g (v_mgids v) |}
  | reg_bitmap_mod i x b =>
    {| v with v_regs := {| (v_regs v) with reg_bitmap := <[i := (x, b)]> (reg_bitmap (v_regs v)) |} |}
  end.

(** A call that must not raise: an entry is added to a table with room and
    without the key, with values of the width of the fields; an entry is
    deleted that is there; a node exists while a group uses it. *)
Definition allowed (c : bf_call) (v : switch_view) : Prop :=
  let t := v_tables v in
  match c with
  | recirculate_add g _ => 0 <= g < 256 /\ recirculate_table t !! g = None
    /\ Z.of_nat (size (recirculate_table t)) < MAX_GROUP_NUM
  | recirculate_delete g => is_Some (recirculate_table t !! g)
  | metadata_add g m => 0 <= g < 256 /\ 0 <= m < 2 ^ 32 /\ metadata_table t !! g = None
    /\ Z.of_nat (size (metadata_table t)) < MAX_GROUP_NUM
  | metadata_delete g => is_Some (metadata_table t !! g)
  | restore_add g r _ dip => 0 <= g < 256 /\ 0 <= r < 256 /\ 0 <= dip < 2 ^ 32
    /\ restore_table t !! (g, r) = None
    /\ Z.of_nat (size (restore_table t)) < MAX_WORKER_NUM
  | restore_delete g r => is_Some (restore_table t !! (g, r))
  | node_add n _ _ => 0 < n /\ v_nodes v !! n = None
  | node_delete n => is_Some (v_nodes v !! n) /\ forall g ns, v_mgids v !! g = Some ns -> n ∉ ns
  | mgid_add g ns => 0 < g < 2 ^ 16 /\ v_mgids v !! g = None
    /\ forall n, n ∈ ns -> is_Some (v_nodes v !! n)
  | mgid_delete g => is_Some (v_mgids v !! g)
  | reg_bitmap_mod i _ _ => 0 <= i < REGISTER_LEN
  | recirculate_clear | metadata_clear | restore_clear => True
  end.

Class BfrtLaws `{Bfrt} := {
  view : device -> switch_view;
  bf_exec_effect : forall c d d', bf_exec c d = Some d' -> view d' = effect c (view d);
  bf_exec_allowed : forall c d, allowed c (view d) -> is_Some (bf_exec c d);
}.

(** A sequence of calls. *)
Definition effects (cs : list bf_call) (v : switch_view) : switch_view := foldl (fun v c => effect c v) v cs.

Fixpoint all_allowed (cs : list bf_call) (v : switch_view) : Prop :=
  match cs with
  | [] => True
  | c :: cs => allowed c v /\ all_allowed cs (effect c v)
  end.

Lemma all_allowed_app cs1 cs2 v :
  all_allowed (cs1 ++ cs2) v <-> all_allowed cs1 v /\ all_allowed cs2 (effects cs1 v).
Proof.
  revert v. induction cs1 as [|c cs1 IH]; intros v; simpl; [tauto|]. rewrite IH. tauto.
Qed.

Lemma effects_app cs1 cs2 v : effects (cs1 ++ cs2) v = effects cs2 (effects cs1 v).
Proof. apply foldl_app. Qed.

Section calls.
Context `{BfrtLaws}.

Definition sview (s : servicer) : switch_view := view (dev s).

Lemma returns_call c s (Q : unit -> servicer -> Prop) :
  allowed c (sview s) ->
  (forall d, view d = effect c (sview s) -> Q tt {| s with dev := d |}) -> returns (call c) s Q.
Proof.
  intros Ha HQ. destruct (bf_exec_allowed c (dev s) Ha) as [d Hd].
  exists tt, {| s with dev := d |}. unfold call. rewrite Hd. split; [done|].
  apply HQ. by apply bf_exec_effect.
Qed.

(** A loop that makes the calls [f x]. *)
Lemma returns_calls {A} (l : list A) (body : A -> py servicer unit) (f : A -> list bf_call) s :
  (forall x s Q, all_allowed (f x) (sview s) ->
    (forall d, view d = effects (f x) (sview s) -> Q tt {| s with dev := d |}) ->
    x ∈ l -> returns (body x) s Q) ->
  forall Q : unit -> servicer -> Prop,
  all_allowed (l ≫= f) (sview s) ->
  (forall d, view d = effects (l ≫= f) (sview s) -> Q tt {| s with dev := d |}) ->
  returns (py_for l body) s Q.
Proof.
  revert s. induction l as [|x l IH]; intros s Hb Q Ha HQ; simpl.
  - apply returns_ret. assert (s = {| s with dev := dev s |}) as -> by by destruct s. by apply HQ.
  - rewrite bind_cons, all_allowed_app in Ha. destruct Ha as [Ha1 Ha2].
    apply returns_bind, Hb; [done| |by left]. intros d Hd. apply IH.
    + intros y s' Q' Hy HQ' Hin. apply Hb; try done. by right.
    + unfold sview. cbn [dev]. by rewrite Hd.
    + intros d' Hd'. apply (HQ d'). rewrite Hd', bind_cons, effects_app. unfold sview. cbn [dev].
      by rewrite Hd.
Qed.
End calls.
