(* ===== verification/Groups.v ===== *)
(** The groups of the switch: the invariant of the control plane over the
    groups that exist, and that every request keeps it. *)

From S2P Require Import Prelude.
From S2P Require Import Switch.
From S2P Require Import Allocator.
From S2P Require Import ControlPlane.

(** * The calls for the members of a group *)

Section members.
Context {bf : Bfrt} {bfl : BfrtLaws} {topo : Topology}.
Variable g : Z.
Variable Member node : list Z.

Definition add_member (i : nat) : list bf_call :=
  [restore_add g (Z.of_nat i) t_switch_ip (Member !!! i);
   node_add (node !!! i) (Z.of_nat i) (ip2port (Member !!! i))].
Definition delete_member (i : nat) : list bf_call :=
  [node_delete (node !!! i); restore_delete g (Z.of_nat i)].

(** The view [v] with another restore table and other nodes. *)
Definition with_members (v : switch_view) (rt : gmap (Z * Z) (Z * Z)) (ns : gmap Z (Z * Z)) : switch_view :=
  {| v with v_tables := {| (v_tables v) with restore_table := rt |}; v_nodes := ns |}.

Lemma with_members_id v : v = with_members v (restore_table (v_tables v)) (v_nodes v).
Proof. by destruct v as [[] ? ? ?]. Qed.

(** The first [n] members have their entries. *)
Record members_added (n : nat) (v : switch_view) (rt : gmap (Z * Z) (Z * Z)) (ns : gmap Z (Z * Z)) : Prop := {
  ma_restore : forall g' r, rt !! (g', r) =
    if decide (g' = g /\ 0 <= r < Z.of_nat n) then Some (t_switch_ip, Member !!! Z.to_nat r)
    else restore_table (v_tables v) !! (g', r);
  ma_size : size rt = (size (restore_table (v_tables v)) + n)%nat;
  ma_node : forall k x, (k < n)%nat -> node !! k = Some x ->
    ns !! x = Some (Z.of_nat k, ip2port (Member !!! k));
  ma_other : forall x, x ∉ take n node -> ns !! x = v_nodes v !! x;
}.

Record members_fresh (v : switch_view) : Prop := {
  mf_group : 0 <= g < 256;
  mf_len : length node = length Member /\ (length Member <= 32)%nat;
  mf_ip : Forall (fun ip => 0 <= ip < 2 ^ 32) Member;
  mf_nodup : NoDup node;
  mf_restore : forall r, restore_table (v_tables v) !! (g, r) = None;
  mf_nodes : forall x, x ∈ node -> 0 < x /\ v_nodes v !! x = None;
  mf_size : Z.of_nat (size (restore_table (v_tables v)) + length Member) < MAX_WORKER_NUM;
}.

Lemma add_members_effects n v :
  members_fresh v -> (n <= length Member)%nat ->
  all_allowed (seq 0 n ≫= add_member) v
  /\ exists rt ns, effects (seq 0 n ≫= add_member) v = with_members v rt ns
     /\ members_added n v rt ns.
Proof.
  intros Hf. induction n as [|n IH]; intros Hn.
  { split; [done|]. exists (restore_table (v_tables v)), (v_nodes v). split; [apply with_members_id|].
    constructor; try done; try lia. intros g' r. rewrite decide_False; [done|lia]. }
  destruct IH as (Ha & rt & ns & He & [H1 H2 H3 H4]); [lia|]. destruct Hf as [Hg [Hl Hl'] Hip Hnd Hr Hns Hs].
  rewrite seq_S, bind_app, all_allowed_app, effects_app, He. simpl Nat.add.
  destruct (lookup_lt_is_Some_2 node n) as [x Hx]; [lia|].
  destruct (lookup_lt_is_Some_2 Member n) as [ip Hi]; [lia|].
  destruct (Hns x) as [Hx0 Hxn]; [by eapply list_elem_of_lookup_2|].
  assert (x ∉ take n node) as Hxt.
  { intros (k & Hk & Hkn)%elem_of_take. pose proof (NoDup_lookup _ _ _ _ Hnd Hx Hk). lia. }
  cbn [mbind list_bind add_member app all_allowed effects foldl effect allowed].
  rewrite (list_lookup_total_correct _ _ _ Hx), (list_lookup_total_correct _ _ _ Hi).
  assert (rt !! (g, Z.of_nat n) = None) as Hrn by (rewrite H1, decide_False by lia; apply Hr).
  split.
  - split; [done|]. split; [|split; [|done]].
    + cbn. split_and!; try lia; try done.
      * by apply (proj1 (Forall_lookup _ _) Hip n).
      * by apply (proj1 (Forall_lookup _ _) Hip n).
    + cbn. split; [done|]. by rewrite H4.
  - exists (<[(g, Z.of_nat n) := (t_switch_ip, ip)]> rt),
      (<[x := (Z.of_nat n, ip2port ip)]> ns). split; [done|]. constructor.
    + intros g' r. destruct (decide ((g', r) = (g, Z.of_nat n))) as [E|E].
      * simplify_eq. rewrite lookup_insert_eq, decide_True by lia. rewrite Nat2Z.id.
        by rewrite (list_lookup_total_correct _ _ _ Hi).
      * rewrite lookup_insert_ne by congruence. rewrite H1.
        destruct (decide (g' = g /\ 0 <= r < Z.of_nat n)); [by rewrite decide_True by lia|].
        rewrite decide_False; [done|]. intros [-> ?]. apply E. f_equal. lia.
    + rewrite map_size_insert_None by done. lia.
    + intros k y Hk Hy. destruct (decide (k = n)) as [->|Hne].
      * rewrite Hx in Hy. simplify_eq. rewrite lookup_insert_eq.
        by rewrite (list_lookup_total_correct _ _ _ Hi).
      * rewrite lookup_insert_ne; [apply H3; [lia|done]|]. intros ->.
        by apply Hne, (NoDup_lookup _ _ _ _ Hnd Hy Hx).
    + intros y Hy. rewrite (take_S_r _ _ _ Hx), not_elem_of_app, list_elem_of_singleton in Hy.
      rewrite lookup_insert_ne by (intros ->; tauto). apply H4, Hy.
Qed.

(** The first [n] members have entries, and no group uses their nodes. *)
Record members_present (n : nat) (v : switch_view) : Prop := {
  mp_restore : forall k, (k < n)%nat -> is_Some (restore_table (v_tables v) !! (g, Z.of_nat k));
  mp_nodes : forall k x, (k < n)%nat -> node !! k = Some x -> is_Some (v_nodes v !! x);
  mp_mgids : forall g' ns x, v_mgids v !! g' = Some ns -> x ∈ node -> x ∉ ns;
}.

Record members_deleted (n : nat) (v : switch_view) (rt : gmap (Z * Z) (Z * Z)) (ns : gmap Z (Z * Z)) : Prop := {
  md_restore : forall g' r, rt !! (g', r) =
    if decide (g' = g /\ 0 <= r < Z.of_nat n) then None else restore_table (v_tables v) !! (g', r);
  md_size : (size rt + n)%nat = size (restore_table (v_tables v));
  md_node : forall x, x ∈ take n node -> ns !! x = None;
  md_other : forall x, x ∉ take n node -> ns !! x = v_nodes v !! x;
}.

Lemma delete_members_effects n v :
  NoDup node -> (n <= length node)%nat -> members_present n v ->
  all_allowed (reverse (seq 0 n) ≫= delete_member) v
  /\ exists rt ns, effects (reverse (seq 0 n) ≫= delete_member) v = with_members v rt ns
     /\ members_deleted n v rt ns.
Proof.
  intros Hnd. revert v. induction n as [|n IH]; intros v Hn Hp.
  { split; [done|]. exists (restore_table (v_tables v)), (v_nodes v). split; [apply with_members_id|].
    constructor; try done; try lia.
    - intros g' r. rewrite decide_False; [done|lia].
    - intros x. by intros ?%elem_of_nil. }
  destruct (lookup_lt_is_Some_2 node n) as [x Hx]; [lia|].
  assert (x ∉ take n node) as Hxt.
  { intros (k & Hk & Hkn)%elem_of_take. pose proof (NoDup_lookup _ _ _ _ Hnd Hx Hk). lia. }
  rewrite seq_S, reverse_app. simpl Nat.add. change (reverse [n]) with [n].
  rewrite bind_app, all_allowed_app, effects_app. destruct Hp as [Hpr Hpn Hpm].
  cbn [mbind list_bind delete_member app all_allowed effects foldl effect allowed].
  rewrite (list_lookup_total_correct _ _ _ Hx).
  set (v1 := with_members v (delete (g, Z.of_nat n) (restore_table (v_tables v))) (delete x (v_nodes v))).
  destruct (IH v1) as (Ha & rt & ns & He & [H1 H2 H3 H4]).
  { lia. }
  { constructor.
    - intros k Hk. cbn. rewrite lookup_delete_ne by (intros ?; simplify_eq; lia). apply Hpr. lia.
    - intros k y Hk Hy. cbn. rewrite lookup_delete_ne.
      + apply (Hpn k y); [lia|done].
      + intros ->. pose proof (NoDup_lookup _ _ _ _ Hnd Hy Hx). lia.
    - apply Hpm. }
  split.
  - split; [|done]. split; [split; [apply (Hpn n x); [lia|done]|]|].
    + intros g' ns' Hg'. eapply Hpm; [done|]. by eapply list_elem_of_lookup_2.
    + split; [|done]. cbn. apply Hpr. lia.
  - exists rt, ns. split; [done|]. constructor.
    + intros g' r. rewrite H1. cbn. destruct (decide ((g', r) = (g, Z.of_nat n))) as [E|E].
      * simplify_eq. rewrite lookup_delete_eq, decide_False, decide_True by lia. done.
      * rewrite lookup_delete_ne by congruence.
        destruct (decide (g' = g /\ 0 <= r < Z.of_nat n)); [by rewrite decide_True by lia|].
        rewrite decide_False; [done|]. intros [-> ?]. apply E. f_equal. lia.
    + assert (is_Some (restore_table (v_tables v) !! (g, Z.of_nat n))) as Hsome by (apply Hpr; lia).
      pose proof (map_size_delete_Some (g, Z.of_nat n) (restore_table (v_tables v)) Hsome).
      pose proof (map_size_ne_0_lookup_2 (restore_table (v_tables v)) (g, Z.of_nat n) Hsome).
      cbn in H2. lia.
    + intros y. rewrite (take_S_r _ _ _ Hx), elem_of_app, list_elem_of_singleton.
      intros [Hy | ->]; [by apply H3|]. rewrite H4 by done. apply lookup_delete_eq.
    + intros y. rewrite (take_S_r _ _ _ Hx), not_elem_of_app, list_elem_of_singleton.
      intros [Hy Hne]. rewrite H4 by done. cbn. by rewrite lookup_delete_ne.
Qed.
End members.

(** * The groups that exist *)

(** What [CreateGroup] has given to a group. *)
Record group_info := {
  gi_addr : Z;            (** its block of the memory *)
  gi_nodes : list Z;      (** one multicast node for each member *)
  gi_port : nat;          (** the index of its recirculation port *)
  gi_members : list Z;    (** the addresses of the members *)
}.

Definition block (i : group_info) (x : Z) : Prop := gi_addr i <= x < gi_addr i + ALLOC_SIZE.
Definition mask_of (i : group_info) : Z := Z.shiftl 1 (Z.of_nat (length (gi_members i))) - 1.
Definition live_nodes (live : gmap Z group_info) : list Z := map_to_list live ≫= fun p => gi_nodes p.2.
Definition port_load (live : gmap Z group_info) (k : nat) : Z :=
  Z.of_nat (length (filter (fun p => gi_port p.2 = k) (map_to_list live))).

Section groups.
Context {bf : Bfrt} {bfl : BfrtLaws} {topo : Topology}.

Definition undo_of (g : Z) (i : group_info) : list undo_func :=
  undo_funcs (gi_addr i) ALLOC_SIZE g (gi_nodes i) (gi_port i).

Record info_ok (i : group_info) : Prop := {
  io_addr : 0 <= gi_addr i /\ gi_addr i + ALLOC_SIZE <= SWITCH_MEM_SIZE /\ gi_addr i mod ALLOC_SIZE = 0;
  io_len : length (gi_nodes i) = length (gi_members i) /\ (length (gi_members i) <= 32)%nat;
  io_port : is_Some (t_recir_port !! gi_port i);
  io_ip : Forall (fun ip => 0 <= ip < 2 ^ 32) (gi_members i);
}.

(** [restore_table] has an entry for each rank of a group. *)
Definition restore_of (live : gmap Z group_info) (g r : Z) : option (Z * Z) :=
  i ← live !! g;
  if decide (0 <= r < Z.of_nat (length (gi_members i)))
  then Some (t_switch_ip, gi_members i !!! Z.to_nat r) else None.

(** The tables of the switch are those of the groups; [free] are the nodes
    without a group. *)
Record view_ok (v : switch_view) (live : gmap Z group_info) (free : list Z) : Prop := {
  vo_recirculate : recirculate_table (v_tables v) = (fun i => t_recir_port !!! gi_port i) <$> live;
  vo_metadata : metadata_table (v_tables v) = mask_of <$> live;
  vo_restore : forall g r, restore_table (v_tables v) !! (g, r) = restore_of live g r;
  vo_restore_size : (size (restore_table (v_tables v)) + length free = 1023)%nat;
  vo_nodes : forall g i k x, live !! g = Some i -> gi_nodes i !! k = Some x ->
    v_nodes v !! x = Some (Z.of_nat k, ip2port (gi_members i !!! k));
  vo_free : forall x, x ∈ free -> v_nodes v !! x = None;
  vo_mgids : forall g, 0 < g < MAX_GROUP_NUM -> v_mgids v !! g = gi_nodes <$> live !! g;
  vo_foreign : forall g ns x, v_mgids v !! g = Some ns -> ~ 0 < g < MAX_GROUP_NUM -> x ∈ ns ->
    ~ 0 < x < MAX_WORKER_NUM;
}.

(** The invariant: nothing is lost and nothing is used twice. *)
Record cp_inv (s : servicer) (live : gmap Z group_info) : Prop := {
  ci_groups : free_group s ++ (map_to_list live).*1 ≡ₚ seqZ 1 255;
  ci_nodes : free_node s ++ live_nodes live ≡ₚ seqZ 1 1023;
  ci_cnt_len : length (recir_port_cnt s) = length t_recir_port;
  ci_cnt : forall k c, recir_port_cnt s !! k = Some c -> c = port_load live k;
  ci_undo : forall g, undo s !! g = undo_of g <$> live !! g;
  ci_segs : segs_ok 0 SWITCH_MEM_SIZE (memseg s);
  ci_free : forall x, 0 <= x < SWITCH_MEM_SIZE ->
    free_at (memseg s) x <-> forall g i, live !! g = Some i -> ~ block i x;
  ci_info : forall g i, live !! g = Some i -> info_ok i;
  ci_disjoint : forall g g' i i' x, live !! g = Some i -> live !! g' = Some i' ->
    block i x -> block i' x -> g = g';
  ci_view : view_ok (sview s) live (free_node s);
}.

(** ** Lists and maps of groups *)

Lemma elem_of_live_nodes live x :
  x ∈ live_nodes live <-> exists g i, live !! g = Some i /\ x ∈ gi_nodes i.
Proof.
  unfold live_nodes. rewrite list_elem_of_bind. split.
  - intros ([g i] & Hx & Hg%elem_of_map_to_list). eauto.
  - intros (g & i & Hg & Hx). exists (g, i). split; [done|]. by apply elem_of_map_to_list.
Qed.

Lemma live_nodes_insert live g i :
  live !! g = None -> live_nodes (<[g := i]> live) ≡ₚ gi_nodes i ++ live_nodes live.
Proof. intros Hg. unfold live_nodes. by rewrite map_to_list_insert. Qed.

Lemma live_nodes_delete live g i :
  live !! g = Some i -> live_nodes live ≡ₚ gi_nodes i ++ live_nodes (delete g live).
Proof.
  intros Hg. rewrite <- (insert_delete_id live g i Hg) at 1.
  apply live_nodes_insert, lookup_delete_eq.
Qed.

Lemma port_load_insert live g i k :
  live !! g = None ->
  port_load (<[g := i]> live) k = port_load live k + if decide (gi_port i = k) then 1 else 0.
Proof.
  intros Hg. unfold port_load. rewrite map_to_list_insert by done. rewrite filter_cons. simpl.
  destruct (decide (gi_port i = k)); simpl; lia.
Qed.

Lemma port_load_delete live g i k :
  live !! g = Some i ->
  port_load live k = port_load (delete g live) k + if decide (gi_port i = k) then 1 else 0.
Proof.
  intros Hg. rewrite <- (insert_delete_id live g i Hg) at 1.
  apply port_load_insert, lookup_delete_eq.
Qed.

Lemma groups_range s live g : cp_inv s live -> is_Some (live !! g) \/ g ∈ free_group s -> 0 < g < 256.
Proof.
  intros Hi Hg. assert (g ∈ seqZ 1 255) as Hs; [|apply elem_of_seqZ in Hs; lia].
  rewrite <- (ci_groups _ _ Hi). apply elem_of_app. destruct Hg as [[i Hg]|Hg]; [right|by left].
  apply list_elem_of_fmap. exists (g, i). split; [done|]. by apply elem_of_map_to_list.
Qed.

Lemma free_group_fresh s live g : cp_inv s live -> g ∈ free_group s -> live !! g = None.
Proof.
  intros Hi Hg. apply eq_None_not_Some. intros [i Hl].
  assert (NoDup (free_group s ++ (map_to_list live).*1)) as Hnd
    by (rewrite (ci_groups _ _ Hi); apply NoDup_seqZ).
  apply NoDup_app in Hnd as (_ & Hnd & _). apply (Hnd g Hg).
  apply list_elem_of_fmap. exists (g, i). split; [done|]. by apply elem_of_map_to_list.
Qed.

Lemma live_size s live : cp_inv s live -> (length (free_group s) + size live = 255)%nat.
Proof.
  intros Hi. pose proof (Permutation_length (ci_groups _ _ Hi)) as Hl.
  rewrite length_app, length_fmap, length_map_to_list, length_seqZ in Hl. lia.
Qed.

Lemma nodes_distinct s live : cp_inv s live -> NoDup (free_node s ++ live_nodes live).
Proof. intros Hi. rewrite (ci_nodes _ _ Hi). apply NoDup_seqZ. Qed.

Lemma nodes_range s live x : cp_inv s live -> x ∈ free_node s ++ live_nodes live -> 0 < x < 1024.
Proof. intros Hi. rewrite (ci_nodes _ _ Hi). rewrite elem_of_seqZ. lia. Qed.

(** The nodes of a group are its own. *)
Lemma group_nodes s live g i :
  cp_inv s live -> live !! g = Some i ->
  NoDup (gi_nodes i) /\ (forall x, x ∈ gi_nodes i -> 0 < x < 1024)
  /\ forall g' i' x, live !! g' = Some i' -> x ∈ gi_nodes i -> x ∈ gi_nodes i' -> g = g'.
Proof.
  intros Hi Hg. pose proof (nodes_distinct _ _ Hi) as Hnd.
  apply NoDup_app in Hnd as (_ & _ & Hnd).
  rewrite (live_nodes_delete _ _ _ Hg) in Hnd. apply NoDup_app in Hnd as (Hn & Hd & _).
  split; [done|]. split.
  - intros x Hx. eapply nodes_range; [done|]. apply elem_of_app. right. apply elem_of_live_nodes. eauto.
  - intros g' i' x Hg' Hx Hx'. destruct (decide (g = g')) as [|Hne]; [done|].
    destruct (Hd x Hx). apply elem_of_live_nodes. exists g', i'. by rewrite lookup_delete_ne.
Qed.
End groups.
