(* ===== verification/GroupService.v ===== *)
(** The requests of the control plane: [CreateGroup], [DestroyGroup] and [Init]
    keep the invariant of [Groups] and do what they promise. *)

From S2P Require Import Prelude.
From S2P Require Import Switch.
From S2P Require Import Allocator.
From S2P Require Import ControlPlane.
From S2P Require Import Groups.

Section service.
Context {bf : Bfrt} {bfl : BfrtLaws} {topo : Topology}.

(** * The tables after a creation *)

Definition reset_bitmap (i : Z) : list bf_call := [reg_bitmap_mod i 0 0].

Lemma resets_effects n a v :
  0 <= a -> a + Z.of_nat n <= REGISTER_LEN ->
  all_allowed (seqZ a (Z.of_nat n) ≫= reset_bitmap) v
  /\ exists rb, effects (seqZ a (Z.of_nat n) ≫= reset_bitmap) v
       = {| v with v_regs := {| (v_regs v) with reg_bitmap := rb |} |}
     /\ forall x, rb !! x = if decide (a <= x < a + Z.of_nat n) then Some (0, 0)
                            else reg_bitmap (v_regs v) !! x.
Proof.
  revert a v. induction n as [|n IH]; intros a v Ha Hn.
  { split; [done|]. exists (reg_bitmap (v_regs v)). split; [by destruct v as [? ? ? []]|].
    intros x. rewrite decide_False; [done|lia]. }
  rewrite seqZ_cons by lia. replace (Z.pred (Z.of_nat (S n))) with (Z.of_nat n) by lia.
  rewrite bind_cons, all_allowed_app, effects_app. cbn [reset_bitmap all_allowed effects foldl effect].
  destruct (IH (Z.succ a) (effect (reg_bitmap_mod a 0 0) v)) as (Hal & rb & He & Hrb); [lia..|].
  split; [split; [|exact Hal]|].
  - split; [|done]. cbn. unfold REGISTER_LEN in *. lia.
  - exists rb. split; [exact He|]. intros x. rewrite Hrb. cbn.
    destruct (decide (x = a)) as [->|Hne].
    + rewrite lookup_insert_eq, decide_False, decide_True by lia. done.
    + rewrite lookup_insert_ne by done.
      destruct (decide (a <= x < a + Z.of_nat (S n))); [rewrite decide_True by lia|rewrite decide_False by lia]; done.
Qed.

(** The view [v] with the entries of group [g]. *)
Definition created (v : switch_view) (g : Z) (i : group_info) (rt : gmap (Z * Z) (Z * Z))
    (ns : gmap Z (Z * Z)) (rb : gmap Z (Z * Z)) : switch_view :=
  {| v_tables := {| (v_tables v) with
       recirculate_table := <[g := t_recir_port !!! gi_port i]> (recirculate_table (v_tables v));
       metadata_table := <[g := mask_of i]> (metadata_table (v_tables v));
       restore_table := rt |};
     v_nodes := ns;
     v_mgids := <[g := gi_nodes i]> (v_mgids v);
     v_regs := {| (v_regs v) with reg_bitmap := rb |} |}.

Lemma restore_of_insert live g i g' r :
  restore_of (<[g := i]> live) g' r =
    if decide (g' = g /\ 0 <= r < Z.of_nat (length (gi_members i)))
    then Some (t_switch_ip, gi_members i !!! Z.to_nat r)
    else if decide (g' = g) then None else restore_of live g' r.
Proof.
  unfold restore_of. destruct (decide (g' = g)) as [->|Hne].
  - rewrite lookup_insert_eq. cbn [mbind option_bind].
    destruct (decide (0 <= r < _)); [by rewrite decide_True|by rewrite decide_False by tauto].
  - rewrite lookup_insert_ne by done. by rewrite decide_False by tauto.
Qed.

Lemma restore_of_delete live g g' r :
  restore_of (delete g live) g' r = if decide (g' = g) then None else restore_of live g' r.
Proof.
  unfold restore_of. destruct (decide (g' = g)) as [->|Hne]; [by rewrite lookup_delete_eq|].
  by rewrite lookup_delete_ne.
Qed.

Lemma restore_of_None live g r : live !! g = None -> restore_of live g r = None.
Proof. intros Hg. unfold restore_of. by rewrite Hg. Qed.

Lemma view_ok_create v live free g i rt ns rb :
  view_ok v live (gi_nodes i ++ free) -> live !! g = None -> 0 < g < 256 -> info_ok i ->
  NoDup ((gi_nodes i ++ free) ++ live_nodes live) -> (forall x, x ∈ gi_nodes i -> 0 < x < 1024) ->
  members_added g (gi_members i) (gi_nodes i) (length (gi_members i)) v rt ns ->
  view_ok (created v g i rt ns rb) (<[g := i]> live) free.
Proof.
  intros [Hr Hm Hre Hrs Hn Hf Hmg Hfo] Hg Hgr Hio Hnd Hrange [M1 M2 M3 M4].
  destruct (io_len _ Hio) as [Hlen _]. rewrite <- Hlen in M4. rewrite firstn_all in M4.
  rewrite length_app in Hrs.
  constructor; cbn [created v_tables v_nodes v_mgids recirculate_table metadata_table restore_table].
  - by rewrite Hr, fmap_insert.
  - by rewrite Hm, fmap_insert.
  - intros g' r. rewrite M1, restore_of_insert.
    destruct (decide (g' = g /\ _)); [done|]. rewrite Hre.
    destruct (decide (g' = g)) as [->|]; [by apply restore_of_None|done].
  - lia.
  - intros g' i' k x Hg' Hx. destruct (decide (g' = g)) as [->|Hne].
    + rewrite lookup_insert_eq in Hg'. simplify_eq. apply M3; [|done].
      apply lookup_lt_Some in Hx. lia.
    + rewrite lookup_insert_ne in Hg' by done. rewrite M4; [by eapply Hn|].
      intros Hin. apply NoDup_app in Hnd as (_ & Hnd & _). apply (Hnd x).
      * apply elem_of_app. by left.
      * apply elem_of_live_nodes. exists g', i'. split; [done|]. by eapply list_elem_of_lookup_2.
  - intros x Hx. rewrite M4; [apply Hf, elem_of_app; by right|].
    intros Hin. apply NoDup_app in Hnd as (Hnd & _). apply NoDup_app in Hnd as (_ & Hnd & _).
    by apply (Hnd x).
  - intros g' Hg'. destruct (decide (g' = g)) as [->|Hne].
    + by rewrite !lookup_insert_eq.
    + rewrite !lookup_insert_ne by done. by apply Hmg.
  - intros g' ns' x Hg' Hng Hx. rewrite lookup_insert_ne in Hg' by (intros ->; unfold MAX_GROUP_NUM in Hng; lia).
    by eapply Hfo.
Qed.

(** * The tables after a destruction *)

(** The view [v] without the entries of group [g]. *)
Definition deleted (v : switch_view) (g : Z) (rt : gmap (Z * Z) (Z * Z)) (ns : gmap Z (Z * Z)) : switch_view :=
  {| v with
     v_tables := {| (v_tables v) with
       recirculate_table := delete g (recirculate_table (v_tables v));
       metadata_table := delete g (metadata_table (v_tables v));
       restore_table := rt |};
     v_nodes := ns;
     v_mgids := delete g (v_mgids v) |}.

Lemma view_ok_delete v live free g i rt ns :
  view_ok v live free -> live !! g = Some i -> 0 < g < 256 -> info_ok i ->
  NoDup (free ++ live_nodes live) ->
  (forall g' i' x, live !! g' = Some i' -> x ∈ gi_nodes i -> x ∈ gi_nodes i' -> g = g') ->
  members_deleted g (gi_nodes i) (length (gi_members i)) v rt ns ->
  view_ok (deleted v g rt ns) (delete g live) (free ++ gi_nodes i).
Proof.
  intros [Hr Hm Hre Hrs Hn Hf Hmg Hfo] Hg Hgr Hio Hnd Hown [M1 M2 M3 M4].
  destruct (io_len _ Hio) as [Hlen _]. rewrite <- Hlen in M3, M4. rewrite firstn_all in M3, M4.
  constructor; cbn [deleted v_tables v_nodes v_mgids recirculate_table metadata_table restore_table].
  - by rewrite Hr, fmap_delete.
  - by rewrite Hm, fmap_delete.
  - intros g' r. rewrite M1, restore_of_delete, Hre.
    destruct (decide (g' = g)) as [->|Hne]; [|by rewrite decide_False by tauto].
    destruct (decide (g = g /\ _)) as [|Hno]; [done|]. unfold restore_of. rewrite Hg. cbn [mbind option_bind].
    by rewrite decide_False by tauto.
  - rewrite length_app. lia.
  - intros g' i' k x Hg' Hx. apply lookup_delete_Some in Hg' as [Hne Hg'].
    rewrite M4; [by eapply Hn|]. intros Hin. apply Hne. eapply Hown; [done|done|].
    by eapply list_elem_of_lookup_2.
  - intros x [Hx|Hx]%elem_of_app; [|by apply M3].
    rewrite M4; [by apply Hf|]. intros Hin. apply NoDup_app in Hnd as (_ & Hnd & _).
    apply (Hnd x Hx), elem_of_live_nodes. eauto.
  - intros g' Hg'. destruct (decide (g' = g)) as [->|Hne]; [by rewrite !lookup_delete_eq|].
    rewrite !lookup_delete_ne by done. by apply Hmg.
  - intros g' ns' x [Hne Hg']%lookup_delete_Some Hng Hx. by eapply Hfo.
Qed.

(** No multicast group uses the nodes of another one. *)
Lemma node_users v live free g i g' ns x :
  view_ok v live free -> live !! g = Some i -> (forall x, x ∈ gi_nodes i -> 0 < x < 1024) ->
  (forall g' i' x, live !! g' = Some i' -> x ∈ gi_nodes i -> x ∈ gi_nodes i' -> g = g') ->
  v_mgids v !! g' = Some ns -> g' <> g -> x ∈ gi_nodes i -> x ∉ ns.
Proof.
  intros Hv Hg Hrange Hown Hg' Hne Hx Hin. destruct (decide (0 < g' < MAX_GROUP_NUM)) as [Hr|Hr].
  - rewrite (vo_mgids _ _ _ Hv g' Hr) in Hg'. apply fmap_Some in Hg' as (i' & Hi' & ->).
    by apply Hne, eq_sym, (Hown g' i' x).
  - apply (vo_foreign _ _ _ Hv g' ns x Hg' Hr Hin), Hrange, Hx.
Qed.

(** * Choosing a recirculation port *)

Lemma foldl_min_elem l x : foldl Z.min x l = x \/ foldl Z.min x l ∈ l.
Proof.
  revert x. induction l as [|y l IH]; intros x; simpl; [by left|].
  destruct (IH (Z.min x y)) as [->|]; [|by right; right].
  destruct (Z.min_spec x y) as [[_ ->]|[_ ->]]; [by left|right; by left].
Qed.

Lemma py_index_elem x l : x ∈ l -> exists k, py_index x l = Some k /\ l !! k = Some x.
Proof.
  induction l as [|y l IH]; [by intros ?%elem_of_nil|]. simpl.
  destruct (Z.eqb_spec y x) as [->|Hne]; [by exists O|].
  intros [->|Hx]%elem_of_cons; [done|]. destruct (IH Hx) as (k & -> & Hk). by exists (S k).
Qed.

Lemma foldl_min_le l x y : y ∈ x :: l -> foldl Z.min x l <= y.
Proof.
  revert x y. induction l as [|z l IH]; intros x y; simpl.
  - intros ->%list_elem_of_singleton. lia.
  - intros [->|[->|Hy]%elem_of_cons]%elem_of_cons.
    + etrans; [apply (IH (Z.min x z) (Z.min x z)); by left|lia].
    + etrans; [apply (IH (Z.min x z) (Z.min x z)); by left|lia].
    + apply IH. by right.
Qed.

(** A port with the least load. *)
Lemma select_recir_port_idx_runs s :
  recir_port_cnt s <> [] ->
  returns select_recir_port_idx s (fun k s' => s' = s /\
    exists c, recir_port_cnt s !! k = Some c /\ forall c', c' ∈ recir_port_cnt s -> c <= c').
Proof.
  intros Hne. unfold select_recir_port_idx. repeat py_step.
  destruct (recir_port_cnt s) as [|c l] eqn:E; [done|].
  eapply returns_or_raise; [done|].
  assert (foldl Z.min c l ∈ c :: l) as Hm.
  { destruct (foldl_min_elem l c) as [->|]; [by left|by right]. }
  destruct (py_index_elem _ _ Hm) as (k & Hk & Hl). eapply returns_or_raise; [done|].
  split; [done|]. exists (foldl Z.min c l). split; [done|]. intros c'. apply foldl_min_le.
Qed.

(** * Creation *)

Lemma add_member_runs g Member node i s (Q : unit -> servicer -> Prop) :
  (i < length Member)%nat -> length node = length Member ->
  all_allowed (add_member g Member node i) (sview s) ->
  (forall d, view d = effects (add_member g Member node i) (sview s) -> Q tt {| s with dev := d |}) ->
  returns (ip ← or_raise IndexError (Member !! i) ;
           n ← or_raise IndexError (node !! i) ;
           call (restore_add g (Z.of_nat i) t_switch_ip ip) ;;
           call (node_add n (Z.of_nat i) (ip2port ip))) s Q.
Proof.
  intros Hi Hl (Ha1 & Ha2 & _) HQ.
  destruct (lookup_lt_is_Some_2 Member i Hi) as [ip Hip].
  destruct (lookup_lt_is_Some_2 node i) as [n Hn]; [lia|].
  unfold add_member in *. rewrite (list_lookup_total_correct _ _ _ Hip), (list_lookup_total_correct _ _ _ Hn) in *.
  py_step. eapply returns_or_raise; [done|]. py_step. eapply returns_or_raise; [done|]. py_step.
  apply returns_call; [exact Ha1|]. intros d Hd. apply returns_call; unfold sview; cbn [dev]; rewrite Hd; [exact Ha2|].
  intros d' Hd'. apply (HQ d'). exact Hd'.
Qed.

(** The calls of [create] on a switch with the tables of the groups [live]. *)
Definition add_calls (g : Z) (i : group_info) (node : list Z) : list bf_call :=
  [recirculate_add g (t_recir_port !!! gi_port i); metadata_add g (mask_of i)]
  ++ (seq 0 (length (gi_members i)) ≫= add_member g (gi_members i) node)
  ++ [mgid_add g node]
  ++ (seqZ (gi_addr i / MTU_SIZE) (ALLOC_SIZE / MTU_SIZE) ≫= reset_bitmap).

Lemma mask_of_range i : (length (gi_members i) <= 32)%nat -> 0 <= mask_of i < 2 ^ 32.
Proof.
  intros Hl. unfold mask_of. rewrite Z.shiftl_1_l.
  pose proof (Z.pow_le_mono_r 2 (Z.of_nat (length (gi_members i))) 32). lia.
Qed.

Lemma block_registers i :
  info_ok i -> 0 <= gi_addr i / MTU_SIZE /\ gi_addr i / MTU_SIZE + 1024 <= REGISTER_LEN
  /\ gi_addr i = gi_addr i / MTU_SIZE * MTU_SIZE.
Proof.
  intros Hio. destruct (io_addr _ Hio) as (H0 & H1 & H2).
  assert (gi_addr i = 262144 * (gi_addr i / 262144)) as E.
  { pose proof (Z.div_mod (gi_addr i) 262144 ltac:(lia)) as Hd.
    change (gi_addr i mod 262144 = 0) in H2. lia. }
  change MTU_SIZE with 256. change SWITCH_MEM_SIZE with 4194304 in H1. change ALLOC_SIZE with 262144 in H1.
  unfold REGISTER_LEN. set (q := gi_addr i / 262144) in *. clearbody q. rewrite E.
  replace (262144 * q) with (1024 * q * 256) by lia. rewrite Z.div_mul by lia. lia.
Qed.

Lemma add_calls_effects v live free g i :
  view_ok v live (gi_nodes i ++ free) -> live !! g = None -> 0 < g < 256 -> info_ok i ->
  NoDup ((gi_nodes i ++ free) ++ live_nodes live) -> (forall x, x ∈ gi_nodes i -> 0 < x < 1024) ->
  (size live < 256)%nat ->
  all_allowed (add_calls g i (gi_nodes i)) v
  /\ exists rt ns rb, effects (add_calls g i (gi_nodes i)) v = created v g i rt ns rb
     /\ view_ok (created v g i rt ns rb) (<[g := i]> live) free
     /\ forall x, rb !! x = if decide (gi_addr i / MTU_SIZE <= x < gi_addr i / MTU_SIZE + 1024)
                            then Some (0, 0) else reg_bitmap (v_regs v) !! x.
Proof.
  intros Hv Hg Hgr Hio Hnd Hrange Hsz. destruct (io_len _ Hio) as [Hlen H32].
  destruct (block_registers _ Hio) as (Hb0 & Hb1 & _).
  unfold add_calls. rewrite !all_allowed_app, !effects_app.
  set (v1 := effects [recirculate_add g (t_recir_port !!! gi_port i); metadata_add g (mask_of i)] v).
  destruct (add_members_effects g (gi_members i) (gi_nodes i) (length (gi_members i)) v1)
    as (Ha1 & rt & ns & He1 & Hma); [|done|].
  { constructor; try done; try lia.
    - apply (io_ip _ Hio).
    - by apply NoDup_app in Hnd as ((? & _ & _)%NoDup_app & _).
    - intros r. cbn. rewrite (vo_restore _ _ _ Hv). by apply restore_of_None.
    - intros x Hx. split; [apply Hrange in Hx; lia|]. cbn. apply (vo_free _ _ _ Hv). apply elem_of_app. by left.
    - cbn. pose proof (vo_restore_size _ _ _ Hv) as Hs. rewrite length_app in Hs. unfold MAX_WORKER_NUM. lia. }
  rewrite He1. set (v2 := with_members v1 rt ns) in *.
  set (v3 := effects [mgid_add g (gi_nodes i)] v2).
  destruct (resets_effects (Z.to_nat 1024) (gi_addr i / MTU_SIZE) v3) as (Ha3 & rb & He3 & Hrb);
    [exact Hb0|rewrite Z2Nat.id by done; exact Hb1|].
  rewrite Z2Nat.id in Ha3, He3, Hrb by done. change (ALLOC_SIZE / MTU_SIZE) with 1024. rewrite He3.
  split.
  - split; [|split; [exact Ha1|split; [|exact Ha3]]].
    + clear - Hv Hg Hgr H32 Hsz. cbn.
      rewrite (vo_recirculate _ _ _ Hv), (vo_metadata _ _ _ Hv), !lookup_fmap, Hg, !map_size_fmap.
      pose proof (mask_of_range _ H32). unfold MAX_GROUP_NUM. split_and!; first [lia | reflexivity | exact I].
    + clear - Hv Hg Hgr Hlen Hma. cbn. rewrite (vo_mgids _ _ _ Hv g Hgr), Hg.
      split; [|exact I]. split; [lia|]. split; [done|].
      intros x (k & Hk)%list_elem_of_lookup_1. eexists. apply (ma_node _ _ _ _ _ _ _ Hma k); [|done].
      apply lookup_lt_Some in Hk. lia.
  - exists rt, ns, rb. split; [done|]. split; [|exact Hrb].
    clear - Hv Hg Hgr Hio Hnd Hrange Hma. apply view_ok_create; try assumption.
    destruct Hma as [M1 M2 M3 M4]. constructor; [exact M1|exact M2|exact M3|exact M4].
Qed.

(** Group [g] with [i], taken from the resources of [s]. *)
Record taken (s : servicer) (live : gmap Z group_info) (g : Z) (i : group_info) : Prop := {
  tk_group : free_group s = g :: tail (free_group s);
  tk_nodes : free_node s = gi_nodes i ++ drop (length (gi_members i)) (free_node s);
  tk_port : is_Some (recir_port_cnt s !! gi_port i);
  tk_fits : exists idx, block_fits (memseg s) ALLOC_SIZE idx (gi_addr i);
  tk_block : forall x, block i x -> free_at (memseg s) x;
  tk_info : info_ok i;
}.

Lemma taken_fresh s live g i :
  cp_inv s live -> taken s live g i ->
  live !! g = None /\ 0 < g < 256 /\ (size live < 256)%nat
  /\ NoDup ((gi_nodes i ++ drop (length (gi_members i)) (free_node s)) ++ live_nodes live)
  /\ forall x, x ∈ gi_nodes i -> 0 < x < 1024.
Proof.
  intros Hi Ht. assert (g ∈ free_group s) as Hg by (rewrite (tk_group _ _ _ _ Ht); by left).
  pose proof (live_size _ _ Hi). split_and!.
  - by eapply free_group_fresh.
  - by apply (groups_range _ _ _ Hi (or_intror Hg)).
  - by apply (groups_range _ _ _ Hi (or_intror Hg)).
  - lia.
  - rewrite <- (tk_nodes _ _ _ _ Ht). by apply nodes_distinct.
  - intros x Hx. eapply nodes_range; [done|]. apply elem_of_app. left.
    rewrite (tk_nodes _ _ _ _ Ht). apply elem_of_app. by left.
Qed.

(** The service with group [g]. *)
Definition with_group (s : servicer) (g : Z) (i : group_info) (segs : list seg) (d : device) : servicer :=
  {| free_group := tail (free_group s);
     free_node := drop (length (gi_members i)) (free_node s);
     recir_port_cnt := alter (Z.add 1) (gi_port i) (recir_port_cnt s);
     undo := <[g := undo_of g i]> (undo s);
     memseg := segs;
     dev := d |}.

Lemma cp_inv_create s live g i segs d rt ns rb :
  cp_inv s live -> taken s live g i ->
  segs_ok 0 SWITCH_MEM_SIZE segs ->
  (forall x, free_at segs x <-> free_at (memseg s) x /\ ~ block i x) ->
  view d = created (sview s) g i rt ns rb ->
  view_ok (view d) (<[g := i]> live) (drop (length (gi_members i)) (free_node s)) ->
  cp_inv (with_group s g i segs d) (<[g := i]> live).
Proof.
  intros Hi Ht Hsegs Hfree Hd Hv. destruct (taken_fresh _ _ _ _ Hi Ht) as (Hg & Hgr & _ & _ & _).
  assert (forall g' i', live !! g' = Some i' -> forall x, block i x -> ~ block i' x) as Hown.
  { intros g' i' Hg' x Hx. pose proof (tk_block _ _ _ _ Ht x Hx) as Hf.
    pose proof (free_at_range _ _ _ x (ci_segs _ _ Hi) Hf) as Hxr.
    by apply (proj1 (ci_free _ _ Hi x Hxr) Hf g'). }
  constructor; unfold with_group; cbn [free_group free_node recir_port_cnt undo memseg].
  - rewrite map_to_list_insert by done. rewrite fmap_cons. cbn [fst].
    rewrite <- Permutation_middle. rewrite <- (ci_groups _ _ Hi). by rewrite (tk_group _ _ _ _ Ht) at 2.
  - rewrite live_nodes_insert by done. rewrite <- (ci_nodes _ _ Hi). rewrite (tk_nodes _ _ _ _ Ht) at 2.
    by rewrite <- app_assoc, Permutation_app_swap_app.
  - rewrite length_alter. apply (ci_cnt_len _ _ Hi).
  - intros k c. rewrite port_load_insert by done. destruct (decide (gi_port i = k)) as [<-|Hne].
    + rewrite list_lookup_alter_eq. intros (c' & Hc & ->)%fmap_Some.
      rewrite (ci_cnt _ _ Hi _ _ Hc). lia.
    + rewrite list_lookup_alter_ne by done. intros Hc. rewrite (ci_cnt _ _ Hi _ _ Hc). lia.
  - intros g'. destruct (decide (g' = g)) as [->|Hne]; [by rewrite !lookup_insert_eq|].
    rewrite !lookup_insert_ne by done. apply (ci_undo _ _ Hi).
  - done.
  - intros x Hx. rewrite Hfree, (ci_free _ _ Hi x Hx). split.
    + intros [Hl Hb] g' i' Hg'. destruct (decide (g' = g)) as [->|Hne].
      * rewrite lookup_insert_eq in Hg'. by simplify_eq.
      * rewrite lookup_insert_ne in Hg' by done. by eapply Hl.
    + intros Hl. split.
      * intros g' i' Hg'. apply (Hl g'). rewrite lookup_insert_ne; [done|]. intros ->. by rewrite Hg in Hg'.
      * apply (Hl g). apply lookup_insert_eq.
  - intros g' i' [[-> ->]|[_ Hg']]%lookup_insert_Some; [apply (tk_info _ _ _ _ Ht)|].
    by eapply ci_info.
  - intros g1 g2 i1 i2 x [[-> ->]|[_ H1]]%lookup_insert_Some [[-> ->]|[_ H2]]%lookup_insert_Some B1 B2.
    + done.
    + by destruct (Hown _ _ H2 _ B1).
    + by destruct (Hown _ _ H1 _ B2).
    + by eapply (ci_disjoint _ _ Hi).
  - done.
Qed.

(** The answer for group [g]. *)
Definition answer_of (g : Z) (i : group_info) : response :=
  {| r_members := (fun _ => t_switch_ip) <$> gi_members i; r_group := g;
     r_agg_addr := gi_addr i / MTU_SIZE; r_agg_len := 1024 |}.

(** The registers of the group are reset, the others are as they were. *)
Definition registers_reset (i : group_info) (r r' : registers) : Prop :=
  aggregators r' = aggregators r
  /\ forall x, reg_bitmap r' !! x =
       if decide (gi_addr i / MTU_SIZE <= x < gi_addr i / MTU_SIZE + 1024)
       then Some (0, 0) else reg_bitmap r !! x.

(** The calls of [create]. *)
Lemma add_calls_run {A} g i s (k : py servicer A) (Q : A -> servicer -> Prop) :
  info_ok i ->
  all_allowed (add_calls g i (gi_nodes i)) (sview s) ->
  (forall d, view d = effects (add_calls g i (gi_nodes i)) (sview s) ->
     returns k {| s with dev := d |} Q) ->
  returns (call (recirculate_add g (t_recir_port !!! gi_port i)) ;;
           call (metadata_add g (mask_of i)) ;;
           py_for (seq 0 (length (gi_members i))) (fun j =>
             ip ← or_raise IndexError (gi_members i !! j) ;
             n ← or_raise IndexError (gi_nodes i !! j) ;
             call (restore_add g (Z.of_nat j) t_switch_ip ip) ;;
             call (node_add n (Z.of_nat j) (ip2port ip))) ;;
           call (mgid_add g (gi_nodes i)) ;;
           py_for (seqZ (gi_addr i / MTU_SIZE) (ALLOC_SIZE / MTU_SIZE)) (fun j => call (reg_bitmap_mod j 0 0)) ;;
           k) s Q.
Proof.
  intros Hio. unfold add_calls. rewrite !all_allowed_app, !effects_app. intros ((Ha1 & Ha2 & _) & Ha3 & (Ha4 & _) & Ha5) HQ.
  destruct (io_len _ Hio) as [Hlen _].
  py_step. apply returns_call; [exact Ha1|]. intros d1 Hd1. py_step.
  apply returns_call; unfold sview; cbn [dev]; rewrite Hd1; [exact Ha2|]. intros d2 Hd2. py_step.
  apply (returns_calls _ _ (add_member g (gi_members i) (gi_nodes i))).
  { intros j s' Q' Hal HQ' Hj%elem_of_seq. apply add_member_runs; [lia|done|exact Hal|exact HQ']. }
  { unfold sview. cbn [dev]. rewrite Hd2. exact Ha3. }
  intros d3 Hd3. unfold sview in Hd3. cbn [dev] in Hd3. rewrite Hd2 in Hd3. py_step.
  apply returns_call; unfold sview; cbn [dev]; rewrite Hd3; [exact Ha4|]. intros d4 Hd4. py_step.
  apply (returns_calls _ _ reset_bitmap).
  { intros j s' Q' (Hal & _) HQ' _. apply returns_call; [exact Hal|exact HQ']. }
  { unfold sview. cbn [dev]. rewrite Hd4. exact Ha5. }
  intros d5 Hd5. apply (HQ d5). rewrite Hd5. unfold sview. cbn [dev]. by rewrite Hd4.
Qed.

Lemma create_runs s live Member idx addr :
  cp_inv s live -> block_fits (memseg s) ALLOC_SIZE idx addr -> (1 <= length (free_group s))%nat ->
  (length Member <= length (free_node s))%nat -> (length Member <= 32)%nat ->
  Forall (fun ip => 0 <= ip < 2 ^ 32) Member -> t_recir_port <> [] ->
  returns (create Member idx addr ALLOC_SIZE) s (fun r s' =>
    exists g i, taken s live g i /\ gi_addr i = addr /\ gi_members i = Member /\ r = answer_of g i
    /\ cp_inv s' (<[g := i]> live)
    /\ registers_reset i (v_regs (sview s)) (v_regs (sview s'))
    /\ free_group s' = tail (free_group s)
    /\ forall c, c ∈ recir_port_cnt s -> port_load live (gi_port i) <= c).
Proof.
  intros Hi [(sg & Hsg & Hlo & Hhi) Hal] Hfg Hn H32 Hip Hrp.
  destruct (segs_ok_lookup _ _ _ _ _ (ci_segs _ _ Hi) Hsg) as [Hsr Hsu].
  destruct (alloc_seg_runs _ _ _ _ _ addr (addr + ALLOC_SIZE) (ci_segs _ _ Hi) Hsg Hlo) as (segs & Has & Hsegs & Hfree);
    [unfold ALLOC_SIZE; lia|done|].
  unfold create. cbv zeta. do 2 py_step. py_step. eapply returns_or_raise; [exact Has|]. do 2 py_step.
  destruct (free_group s) as [|g fg] eqn:Efg; [simpl in Hfg; lia|].
  py_step. eapply returns_or_raise; [reflexivity|]. do 2 py_step. do 2 py_step. py_step.
  cbn [free_group free_node recir_port_cnt undo memseg dev tail].
  eapply returns_mono; [apply select_recir_port_idx_runs|]; cbn [recir_port_cnt].
  { intros E. pose proof (ci_cnt_len _ _ Hi) as Hl. rewrite E in Hl. by destruct t_recir_port. }
  intros k s' (-> & c & Hc & Hmin).
  assert (is_Some (t_recir_port !! k)) as [port Hport].
  { apply lookup_lt_is_Some. rewrite <- (ci_cnt_len _ _ Hi). by eapply lookup_lt_Some. }
  set (i := {| gi_addr := addr; gi_nodes := take (length Member) (free_node s); gi_port := k;
               gi_members := Member |}).
  assert (taken s live g i) as Ht.
  { constructor; cbn [i gi_nodes gi_members gi_port].
    - by rewrite Efg.
    - by rewrite take_drop.
    - by exists c.
    - exists idx. by constructor; [exists sg|].
    - intros x Hx. exists sg. unfold block in Hx. cbn [i gi_addr] in Hx.
      split; [by eapply list_elem_of_lookup_2|lia].
    - constructor; cbn [i gi_addr gi_nodes gi_members gi_port]; [lia| |by exists port|done].
      rewrite length_take. lia. }
  destruct (taken_fresh _ _ _ _ Hi Ht) as (Hg & Hgr & Hsz & Hnd & Hrange).
  pose proof (ci_view _ _ Hi) as Hv. rewrite (tk_nodes _ _ _ _ Ht) in Hv.
  destruct (add_calls_effects _ _ _ _ _ Hv Hg Hgr (tk_info _ _ _ _ Ht) Hnd Hrange Hsz)
    as (Hal' & rt & ns & rb & He & Hv' & Hrb).
  do 2 py_step. py_step. eapply returns_or_raise; [exact Hport|].
  rewrite <- (list_lookup_total_correct _ _ _ Hport).
  apply (add_calls_run g i); [apply (tk_info _ _ _ _ Ht)|exact Hal'|].
  intros d Hd. unfold sview in Hd. cbn [dev] in Hd. fold (sview s) in Hd. rewrite He in Hd.
  assert (fg = tail (free_group s)) as -> by by rewrite Efg.
  do 2 py_step. py_step. exists g, i. do 4 (split; [done|]).
  split; [|split; [|split; [done|]]].
  - apply (cp_inv_create s live g i segs d rt ns rb); try done. by rewrite Hd.
  - unfold sview. cbn [dev]. rewrite Hd. split; [done|exact Hrb].
  - intros c' Hc'. cbn [i gi_port]. rewrite <- (ci_cnt _ _ Hi _ _ Hc). by apply Hmin.
Qed.

(** * Destruction *)

Definition delete_calls (g : Z) (i : group_info) : list bf_call :=
  [mgid_delete g]
  ++ (reverse (seq 0 (length (gi_nodes i))) ≫= delete_member g (gi_nodes i))
  ++ [metadata_delete g; recirculate_delete g].

Lemma reverse_bind {A B} (f : A -> list B) l : reverse (l ≫= f) = reverse l ≫= fun x => reverse (f x).
Proof.
  induction l as [|x l IH]; [done|].
  rewrite bind_cons, reverse_app, reverse_cons, bind_app, IH. f_equal.
  symmetry. apply app_nil_r.
Qed.

(** What [DestroyGroup] executes: first the calls, then the resources. *)
Lemma reverse_undo_of g i :
  reverse (undo_of g i) = (undo_call <$> delete_calls g i)
    ++ [undo_recir_port (gi_port i); undo_free_node (gi_nodes i); undo_free_group g;
        undo_free_seg (gi_addr i) (gi_addr i + ALLOC_SIZE)].
Proof.
  unfold undo_of, undo_funcs, delete_calls. rewrite !reverse_app, reverse_bind, !fmap_app.
  rewrite <- !app_assoc. apply f_equal2; [reflexivity|]. apply f_equal2; [|reflexivity].
  induction (reverse (seq 0 (length (gi_nodes i)))) as [|k l IH]; [done|].
  rewrite !bind_cons, fmap_app, IH. done.
Qed.

Lemma py_for_app {S A} (l1 l2 : list A) (body : A -> py S unit) s (Q : unit -> S -> Prop) :
  returns (py_for l1 body) s (fun _ s' => returns (py_for l2 body) s' Q) ->
  returns (py_for (l1 ++ l2) body) s Q.
Proof.
  revert s. induction l1 as [|x l1 IH]; intros s; simpl.
  - intros (a & s' & [= <- <-] & HQ). done.
  - intros (a & s' & Hm & HQ). unfold mbind, py_bind in Hm |- *.
    destruct (body x s) as [[e|[]] s1] eqn:Hb; [done|].
    destruct (IH s1) as (b & s2 & H2 & HQ2); [by exists a, s'|]. exists b, s2. split; [|done].
    by rewrite Hb.
Qed.

Lemma undo_calls_run cs s (Q : unit -> servicer -> Prop) :
  all_allowed cs (sview s) ->
  (forall d, view d = effects cs (sview s) -> Q tt {| s with dev := d |}) ->
  returns (py_for (undo_call <$> cs) run_undo) s Q.
Proof.
  revert s. induction cs as [|c cs IH]; intros s Ha HQ; cbn [fmap list_fmap py_for].
  - apply returns_ret. assert (s = {| s with dev := dev s |}) as -> by by destruct s. by apply HQ.
  - destruct Ha as [Ha1 Ha2]. py_step. apply returns_call; [exact Ha1|]. intros d Hd. apply IH.
    + unfold sview. cbn [dev]. by rewrite Hd.
    + intros d' Hd'. apply (HQ d'). rewrite Hd'. unfold sview. cbn [dev]. by rewrite Hd.
Qed.

Lemma delete_calls_effects s live g i :
  cp_inv s live -> live !! g = Some i ->
  all_allowed (delete_calls g i) (sview s)
  /\ exists rt ns, effects (delete_calls g i) (sview s) = deleted (sview s) g rt ns
     /\ view_ok (deleted (sview s) g rt ns) (delete g live) (free_node s ++ gi_nodes i).
Proof.
  intros Hi Hg. pose proof (ci_view _ _ Hi) as Hv. pose proof (ci_info _ _ Hi _ _ Hg) as Hio.
  destruct (group_nodes _ _ _ _ Hi Hg) as (Hnd & Hrange & Hown). destruct (io_len _ Hio) as [Hlen _].
  pose proof (groups_range _ _ g Hi (or_introl (ex_intro _ i Hg))) as Hgr.
  unfold delete_calls. rewrite !all_allowed_app, !effects_app.
  set (v1 := effects [mgid_delete g] (sview s)).
  destruct (delete_members_effects g (gi_nodes i) (length (gi_nodes i)) v1) as (Ha & rt & ns & He & Hmd);
    [done|done| |].
  { constructor.
    - intros k Hk. cbn. rewrite (vo_restore _ _ _ Hv). unfold restore_of. rewrite Hg. cbn.
      rewrite decide_True by lia. done.
    - intros k x _ Hx. cbn. rewrite (vo_nodes _ _ _ Hv g i k x Hg Hx). done.
    - intros g' ns x Hg' Hx. change (v_mgids v1) with (delete g (v_mgids (sview s))) in Hg'.
      apply lookup_delete_Some in Hg' as [Hne Hg'].
      by apply (node_users _ _ _ _ _ _ _ _ Hv Hg Hrange Hown Hg'). }
  rewrite He. split.
  - split; [|split; [exact Ha|]].
    + split; [|done]. cbn. by rewrite (vo_mgids _ _ _ Hv g Hgr), Hg.
    + cbn. rewrite (vo_metadata _ _ _ Hv), (vo_recirculate _ _ _ Hv), !lookup_fmap, Hg. done.
  - exists rt, ns. split; [done|]. apply view_ok_delete with (i := i); try done.
    + by apply nodes_distinct.
    + rewrite <- Hlen. destruct Hmd as [M1 M2 M3 M4]. constructor; assumption.
Qed.

(** The service without group [g]. *)
Definition without_group (s : servicer) (g : Z) (i : group_info) (segs : list seg) (d : device) : servicer :=
  {| free_group := free_group s ++ [g];
     free_node := free_node s ++ gi_nodes i;
     recir_port_cnt := alter (Z.add (-1)) (gi_port i) (recir_port_cnt s);
     undo := delete g (undo s);
     memseg := segs;
     dev := d |}.

Lemma cp_inv_destroy s live g i segs d rt ns :
  cp_inv s live -> live !! g = Some i ->
  segs_ok 0 SWITCH_MEM_SIZE segs ->
  (forall x, free_at segs x <-> free_at (memseg s) x \/ block i x) ->
  view d = deleted (sview s) g rt ns ->
  view_ok (view d) (delete g live) (free_node s ++ gi_nodes i) ->
  cp_inv (without_group s g i segs d) (delete g live).
Proof.
  intros Hi Hg Hsegs Hfree Hd Hv.
  constructor; unfold without_group; cbn [free_group free_node recir_port_cnt undo memseg].
  - rewrite <- (ci_groups _ _ Hi), <- (map_to_list_delete live g i Hg). rewrite fmap_cons. cbn [fst].
    by rewrite <- app_assoc.
  - by rewrite <- app_assoc, <- (live_nodes_delete _ _ _ Hg), (ci_nodes _ _ Hi).
  - rewrite length_alter. apply (ci_cnt_len _ _ Hi).
  - intros k c. pose proof (port_load_delete _ _ _ k Hg) as Hl. destruct (decide (gi_port i = k)) as [<-|Hne].
    + rewrite list_lookup_alter_eq. intros (c' & Hc & ->)%fmap_Some.
      rewrite (ci_cnt _ _ Hi _ _ Hc). lia.
    + rewrite list_lookup_alter_ne by done. intros Hc. rewrite (ci_cnt _ _ Hi _ _ Hc). lia.
  - intros g'. destruct (decide (g' = g)) as [->|Hne]; [by rewrite !lookup_delete_eq|].
    rewrite !lookup_delete_ne by done. apply (ci_undo _ _ Hi).
  - done.
  - intros x Hx. rewrite Hfree, (ci_free _ _ Hi x Hx). split.
    + intros [Hl|Hb] g' i' [Hne Hg']%lookup_delete_Some; [by eapply Hl|].
      intros Hb'. by apply Hne, (ci_disjoint _ _ Hi g g' i i' x).
    + intros Hl. destruct (decide (gi_addr i <= x < gi_addr i + ALLOC_SIZE)) as [Hb|Hb]; [by right|left].
      intros g' i' Hg'. destruct (decide (g' = g)) as [->|Hne]; [by simplify_eq|].
      apply (Hl g'). by rewrite lookup_delete_ne.
  - intros g' i' [_ Hg']%lookup_delete_Some. by eapply ci_info.
  - intros g1 g2 i1 i2 x [_ H1]%lookup_delete_Some [_ H2]%lookup_delete_Some. by eapply (ci_disjoint _ _ Hi).
  - done.
Qed.

Lemma destroy_runs s live g i :
  cp_inv s live -> live !! g = Some i ->
  returns (DestroyGroup g) s (fun _ s' =>
    cp_inv s' (delete g live)
    /\ free_group s' = free_group s ++ [g] /\ free_node s' = free_node s ++ gi_nodes i
    /\ (forall x, free_at (memseg s') x <-> free_at (memseg s) x \/ block i x)
    /\ v_regs (sview s') = v_regs (sview s)).
Proof.
  intros Hi Hg. pose proof (ci_info _ _ Hi _ _ Hg) as Hio. destruct (io_addr _ Hio) as (Ha0 & Ha1 & _).
  unfold DestroyGroup. do 2 py_step. rewrite (ci_undo _ _ Hi), Hg. cbn [fmap option_fmap option_map].
  rewrite reverse_undo_of. py_step. apply py_for_app.
  destruct (delete_calls_effects _ _ _ _ Hi Hg) as (Hal & rt & ns & He & Hv).
  apply undo_calls_run; [exact Hal|]. intros d Hd. rewrite He in Hd. cbn [py_for run_undo].
  destruct (free_seg_runs 0 SWITCH_MEM_SIZE (memseg s) (gi_addr i) (gi_addr i + ALLOC_SIZE))
    as (segs & Hsegs & Hok & Hfree); [apply (ci_segs _ _ Hi)|done|unfold ALLOC_SIZE; lia|done| |].
  { intros x Hx Hf. pose proof (free_at_range _ _ _ x (ci_segs _ _ Hi) Hf) as Hxr.
    by apply (proj1 (ci_free _ _ Hi x Hxr) Hf g i Hg). }
  destruct (lookup_lt_is_Some_2 (recir_port_cnt s) (gi_port i)) as [c Hc].
  { rewrite (ci_cnt_len _ _ Hi). apply lookup_lt_is_Some, (io_port _ Hio). }
  do 4 py_step. eapply returns_or_raise; [exact Hc|]. repeat py_step.
  cbn [memseg]. eapply returns_or_raise; [exact Hsegs|]. repeat py_step.
  cbn [free_group free_node recir_port_cnt undo memseg dev].
  split; [|split; [done|split; [done|split; [done|]]]].
  - assert (<[gi_port i := c - 1]> (recir_port_cnt s) = alter (Z.add (-1)) (gi_port i) (recir_port_cnt s)) as ->.
    { apply list_eq. intros k. destruct (decide (gi_port i = k)) as [<-|Hne].
      - rewrite list_lookup_insert_eq by by eapply lookup_lt_Some. rewrite list_lookup_alter_eq, Hc.
        cbn. f_equal. lia.
      - by rewrite list_lookup_insert_ne, list_lookup_alter_ne. }
    apply (cp_inv_destroy s live g i segs d rt ns); try done. by rewrite Hd.
  - unfold sview. cbn [dev]. by rewrite Hd.
Qed.
End service.
