(* ===== verification/ControlService.v ===== *)
(** The service as a whole: the requests in any order, from the start of the
    service on. *)

From S2P Require Import Prelude.
From S2P Require Import Switch.
From S2P Require Import Allocator.
From S2P Require Import ControlPlane.
From S2P Require Import Groups.
From S2P Require Import GroupService.

Section service.
Context {bf : Bfrt} {bfl : BfrtLaws} {topo : Topology}.

(** * The start *)

(** The multicast groups of others ([bfrt_init.py]) use nodes of their own. *)
Definition foreign_ok (v : switch_view) : Prop := forall g ns x,
  v_mgids v !! g = Some ns -> ~ 0 < g < MAX_GROUP_NUM -> x ∈ ns -> ~ 0 < x < MAX_WORKER_NUM.

Lemma initial_groups : filter (fun i => i > 0) (seqZ 0 MAX_GROUP_NUM) = seqZ 1 255.
Proof. vm_compute. reflexivity. Qed.
Lemma initial_nodes : filter (fun i => i > 0) (seqZ 0 MAX_WORKER_NUM) = seqZ 1 1023.
Proof. vm_compute. reflexivity. Qed.

(** A deletion whose exceptions are ignored: afterwards the entry is gone. *)
Lemma try_mgid_delete g s :
  exists d, (call (mgid_delete g) s).2 = {| s with dev := d |}
    /\ view d = effect (mgid_delete g) (sview s).
Proof.
  unfold call. destruct (bf_exec (mgid_delete g) (dev s)) as [d|] eqn:E.
  - exists d. split; [done|]. by apply bf_exec_effect.
  - exists (dev s). split; [by destruct s|]. cbn [effect].
    rewrite delete_id; [unfold sview; by destruct (view (dev s))|].
    apply eq_None_not_Some. intros Hs. destruct (bf_exec_allowed (mgid_delete g) (dev s) Hs). congruence.
Qed.

Lemma try_node_delete n s :
  (forall g ns, v_mgids (sview s) !! g = Some ns -> n ∉ ns) ->
  exists d, (call (node_delete n) s).2 = {| s with dev := d |}
    /\ view d = effect (node_delete n) (sview s).
Proof.
  intros Hn. unfold call. destruct (bf_exec (node_delete n) (dev s)) as [d|] eqn:E.
  - exists d. split; [done|]. by apply bf_exec_effect.
  - exists (dev s). split; [by destruct s|]. cbn [effect].
    rewrite delete_id; [unfold sview; by destruct (view (dev s))|].
    apply eq_None_not_Some. intros Hs.
    destruct (bf_exec_allowed (node_delete n) (dev s) (conj Hs Hn)). congruence.
Qed.

(** The loops of [reinit]. *)
Lemma try_mgids_run l s v (Q : unit -> servicer -> Prop) :
  sview s = v ->
  (forall d mg, view d = {| v with v_mgids := mg |} ->
     (forall g, mg !! g = if decide (g ∈ l) then None else v_mgids v !! g) ->
     Q tt {| s with dev := d |}) ->
  returns (py_for l (fun g => try_except (call (mgid_delete g)))) s Q.
Proof.
  intros <-. revert s. induction l as [|g l IH]; intros s HQ; cbn [py_for].
  - apply returns_ret. assert (s = {| s with dev := dev s |}) as -> by by destruct s.
    apply (HQ (dev s) (v_mgids (sview s))); [unfold sview; by destruct (view (dev s))|].
    intros g. rewrite decide_False; [done|]. by intros ?%elem_of_nil.
  - py_step. destruct (try_mgid_delete g s) as (d & Hs & Hd).
    exists tt, {| s with dev := d |}. split; [unfold try_except; by rewrite Hs|].
    apply IH. unfold sview. cbn [dev]. rewrite Hd. intros d' mg Hd' Hmg.
    apply (HQ d' mg); [exact Hd'|]. intros g'. rewrite Hmg. cbn [effect v_mgids].
    destruct (decide (g' ∈ l)); [by rewrite decide_True by by right|].
    destruct (decide (g' = g)) as [->|Hne].
    + rewrite lookup_delete_eq, decide_True by by left. done.
    + rewrite lookup_delete_ne, decide_False by (done || by intros [|]%elem_of_cons). done.
Qed.

Lemma try_nodes_run l s v (Q : unit -> servicer -> Prop) :
  sview s = v ->
  (forall g ns x, v_mgids v !! g = Some ns -> x ∈ l -> x ∉ ns) ->
  (forall d nd, view d = {| v with v_nodes := nd |} ->
     (forall x, nd !! x = if decide (x ∈ l) then None else v_nodes v !! x) ->
     Q tt {| s with dev := d |}) ->
  returns (py_for l (fun n => try_except (call (node_delete n)))) s Q.
Proof.
  intros <-. revert s. induction l as [|n l IH]; intros s Hn HQ; cbn [py_for].
  - apply returns_ret. assert (s = {| s with dev := dev s |}) as -> by by destruct s.
    apply (HQ (dev s) (v_nodes (sview s))); [unfold sview; by destruct (view (dev s))|].
    intros g. rewrite decide_False; [done|]. by intros ?%elem_of_nil.
  - py_step. destruct (try_node_delete n s) as (d & Hs & Hd).
    { intros g ns Hg. apply (Hn g ns n Hg). by left. }
    exists tt, {| s with dev := d |}. split; [unfold try_except; by rewrite Hs|].
    apply IH; unfold sview; cbn [dev]; rewrite Hd.
    { intros g ns x Hg Hx. apply (Hn g ns x Hg). by right. }
    intros d' nd Hd' Hnd.
    apply (HQ d' nd); [exact Hd'|]. intros x. rewrite Hnd. cbn [effect v_nodes].
    destruct (decide (x ∈ l)); [by rewrite decide_True by by right|].
    destruct (decide (x = n)) as [->|Hne].
    + rewrite lookup_delete_eq, decide_True by by left. done.
    + rewrite lookup_delete_ne, decide_False by (done || by intros [|]%elem_of_cons). done.
Qed.

Lemma view_ok_start v nd mg :
  foreign_ok v ->
  (forall g, mg !! g = if decide (g ∈ seqZ 1 255) then None else v_mgids v !! g) ->
  (forall x, nd !! x = if decide (x ∈ seqZ 1 1023) then None else v_nodes v !! x) ->
  view_ok {| v_tables := {| (v_tables v) with recirculate_table := ∅; metadata_table := ∅;
                                              restore_table := ∅ |};
             v_nodes := nd; v_mgids := mg; v_regs := v_regs v |} ∅ (seqZ 1 1023).
Proof.
  intros Hf Hmg Hnd.
  constructor; cbn [v_tables v_nodes v_mgids recirculate_table metadata_table restore_table].
  - by rewrite fmap_empty.
  - by rewrite fmap_empty.
  - intros g r. unfold restore_of. by rewrite !lookup_empty.
  - by rewrite map_size_empty, length_seqZ.
  - intros g i k x. by rewrite lookup_empty.
  - intros x Hx. by rewrite Hnd, decide_True.
  - intros g Hg. rewrite Hmg, decide_True; [by rewrite lookup_empty|].
    apply elem_of_seqZ. unfold MAX_GROUP_NUM in Hg. lia.
  - intros g ns x Hg Hng Hx. rewrite Hmg in Hg. destruct (decide _); [done|]. by eapply Hf.
Qed.

Lemma clears_run {A} s (k : py servicer A) (Q : A -> servicer -> Prop) :
  (forall d, view d = effects [recirculate_clear; metadata_clear; restore_clear] (sview s) ->
     returns k {| s with dev := d |} Q) ->
  returns (call recirculate_clear ;; call metadata_clear ;; call restore_clear ;; k) s Q.
Proof.
  intros HQ. py_step. apply returns_call; [done|]. intros d1 Hd1.
  py_step. apply returns_call; [done|]. unfold sview. cbn [dev]. rewrite Hd1. intros d2 Hd2.
  py_step. apply returns_call; [done|]. unfold sview. cbn [dev]. rewrite Hd2. intros d3 Hd3.
  by apply (HQ d3).
Qed.

Lemma reinit_runs s :
  foreign_ok (sview s) ->
  returns reinit s (fun _ s' => cp_inv s' ∅ /\ v_regs (sview s') = v_regs (sview s)).
Proof.
  intros Hf. unfold reinit. rewrite initial_groups, initial_nodes. do 2 py_step.
  apply clears_run. intros d Hd.
  do 2 py_step. cbn [free_group free_node]. py_step. eapply try_mgids_run; [exact Hd|].
  intros d4 mg Hd4 Hmg. eapply try_nodes_run; [exact Hd4| |].
  - cbn [v_mgids]. intros g ns x Hg Hx. rewrite Hmg in Hg.
    destruct (decide (g ∈ seqZ 1 255)) as [|Hng]; [done|]. intros Hin. apply elem_of_seqZ in Hx.
    apply (Hf g ns x Hg); [|exact Hin|unfold MAX_WORKER_NUM; lia].
    rewrite elem_of_seqZ in Hng. unfold MAX_GROUP_NUM. lia.
  - intros d5 nd Hd5 Hnd.
    cbn [effects foldl effect v_tables v_nodes v_mgids v_regs recirculate_table metadata_table restore_table]
      in Hd5, Hmg, Hnd.
    pose proof (view_ok_start _ nd mg Hf Hmg Hnd) as Hv.
    split; [|unfold sview; cbn [dev]; by rewrite Hd5].
    constructor; cbn [free_group free_node recir_port_cnt undo memseg].
    + by rewrite map_to_list_empty, app_nil_r.
    + unfold live_nodes. by rewrite map_to_list_empty, app_nil_r.
    + by rewrite length_fmap.
    + intros k c. rewrite list_lookup_fmap. intros (x & _ & ->)%fmap_Some. unfold port_load.
      by rewrite map_to_list_empty.
    + intros g. by rewrite !lookup_empty.
    + vm_compute. repeat split; congruence.
    + intros x Hx. rewrite free_at_single. simpl. split; [by intros _ g i; rewrite lookup_empty|done].
    + intros g i. by rewrite lookup_empty.
    + intros g g' i i' x. by rewrite lookup_empty.
    + unfold sview. cbn [dev]. rewrite Hd5. exact Hv.
Qed.

(** * Requests *)

Inductive request :=
  | req_create (Member : list Z)
  | req_destroy (groupid : Z)
  | req_init.

Definition handle (q : request) : py servicer (option response) :=
  match q with
  | req_create Member => r ← CreateGroup Member ; mret (Some r)
  | req_destroy g => DestroyGroup g ;; mret None
  | req_init => Init ;; mret None
  end.

(** A bitmap has 32 bits; the addresses are those of IPv4. *)
Definition members_ok (Member : list Z) : Prop :=
  (length Member <= 32)%nat /\ Forall (fun ip => 0 <= ip < 2 ^ 32) Member.

Definition request_ok (q : request) : Prop :=
  match q with req_create Member => members_ok Member | _ => True end.

(** The states of the service. *)
Inductive cp_reachable : servicer -> Prop :=
  | cp_start s s' : foreign_ok (sview s) -> reinit s = (inr tt, s') -> cp_reachable s'
  | cp_request s q : cp_reachable s -> request_ok q -> cp_reachable (handle q s).2.

(** Why [CreateGroup] answers with the null group. *)
Definition no_resource (s : servicer) (Member : list Z) : Prop :=
  free_group s = [] \/ (length (free_node s) < length Member)%nat \/ no_block (memseg s) ALLOC_SIZE.

(** What [CreateGroup] promises on a service with the groups [live]. *)
Definition create_post (s : servicer) (live : gmap Z group_info) (Member : list Z)
    (r : response) (s' : servicer) : Prop :=
  (r = null_response /\ s' = s /\ no_resource s Member)
  \/ exists g i, taken s live g i /\ lowest_block (memseg s) ALLOC_SIZE (gi_addr i)
       /\ gi_members i = Member /\ r = answer_of g i
       /\ cp_inv s' (<[g := i]> live)
       /\ registers_reset i (v_regs (sview s)) (v_regs (sview s'))
       /\ free_group s' = tail (free_group s)
       /\ forall c, c ∈ recir_port_cnt s -> port_load live (gi_port i) <= c.

Lemma create_group_runs s live Member :
  cp_inv s live -> members_ok Member -> t_recir_port <> [] ->
  returns (CreateGroup Member) s (create_post s live Member).
Proof.
  intros Hi [H32 Hip] Hrp. unfold CreateGroup. do 2 py_step.
  destruct (fit_seg (memseg s) ALLOC_SIZE) as [fit|] eqn:Hfit.
  2:{ apply fit_seg_valid in Hfit as []. by exists 10. }
  destruct (Nat.ltb_spec (length (free_group s)) 1) as [Hg|Hg]; simpl.
  { py_step. left. split; [done|]. split; [done|]. left. destruct (free_group s); [done|simpl in Hg; lia]. }
  destruct (Nat.ltb_spec (length (free_node s)) (length Member)) as [Hn|Hn]; simpl.
  { py_step. left. split; [done|]. split; [done|]. right. by left. }
  unfold fit_seg in Hfit. destruct (_ || _); [done|]. injection Hfit as <-.
  pose proof (fit_from_spec (memseg s) 0 ALLOC_SIZE ltac:(done)) as Hf.
  destruct (fit_from 0 (memseg s) ALLOC_SIZE) as [[idx addr]|] eqn:Ef.
  - destruct Hf as (k & -> & Hf & _). eapply returns_mono; [by eapply create_runs|].
    intros r s' (g & i & Ht & <- & Hp). right. exists g, i. split; [done|]. split; [|done].
    eapply fit_from_lowest; [done|apply (ci_segs _ _ Hi)|exact Ef].
  - py_step. left. split; [done|]. split; [done|]. by right; right.
Qed.

Lemma destroy_unknown s live g :
  cp_inv s live -> live !! g = None -> DestroyGroup g s = (inr tt, s).
Proof.
  intros Hi Hg. unfold DestroyGroup, mbind, py_bind, self. by rewrite (ci_undo _ _ Hi), Hg.
Qed.

Lemma handle_runs s live q :
  cp_inv s live -> request_ok q -> t_recir_port <> [] ->
  returns (handle q) s (fun _ s' => exists live', cp_inv s' live').
Proof.
  intros Hi Hq Hrp. destruct q as [Member|g|]; simpl.
  - py_step. eapply returns_mono; [by eapply create_group_runs|].
    intros r s' [(_ & -> & _)|(g & i & _ & _ & _ & _ & Hi' & _)]; py_step; eauto.
  - py_step. destruct (live !! g) as [i|] eqn:Hg.
    + eapply returns_mono; [by eapply destroy_runs|]. intros [] s' [Hi' _]. py_step. eauto.
    + exists tt, s. split; [by eapply destroy_unknown|]. py_step. eauto.
  - py_step. unfold Init. eapply returns_mono; [apply reinit_runs|].
    + intros g ns x. apply (vo_foreign _ _ _ (ci_view _ _ Hi)).
    + intros [] s' [Hi' _]. py_step. eauto.
Qed.

Lemma cp_reachable_inv s : cp_reachable s -> t_recir_port <> [] -> exists live, cp_inv s live.
Proof.
  intros Hs Hrp. induction Hs as [s s' Hf Hr|s q _ [live Hi] Hq].
  - destruct (reinit_runs s Hf) as ([] & s2 & Hr' & Hi & _). rewrite Hr in Hr'. simplify_eq. eauto.
  - destruct (handle_runs s live q Hi Hq Hrp) as (a & s' & -> & Hi'). exact Hi'.
Qed.
End service.
