(* ===== verification/SwitchInit.v ===== *)
(** The static set-up of the switch ([switch/bfrt_init.py]), which runs once
    before the service is started: the ports, the forwarding of packets that
    are not NetCCL's, the addresses of the servers, the broadcast group.

    The calls of the runtime that only this file makes are the class
    [BfrtInit]; the multicast nodes and groups are those of [ControlPlane]. *)

From S2P Require Import Prelude.
From S2P Require Import Switch.
From S2P Require Import Allocator.
From S2P Require Import ControlPlane.
From S2P Require Import Groups.
From S2P Require Import GroupService.
From S2P Require Import ControlService.

(** * The runtime *)

Inductive init_call :=
  | l2_add_forward (mac port : Z)
  | l2_add_multicast (mac mgid : Z)
  | port_metadata_add (port is_recirculate_port : Z)
  | dmac_add (ip mac : Z)
  | smac_add (ip mac : Z)
  | wred_add (index time_constant min_thr max_thr : Z) (max_probability : Z * Z)
  | port_add (port : Z) (loopback : bool)
  | pre_node_add (node rid port : Z)
  | pre_mgid_add (mgid : Z) (nodes : list Z).

(** The speed, the error correction and the like, which are the same for every port, are left out.
    The switch as [bfrt_init.py] sees it; [iv_ports] are the ports that are up and whether they are
    looped back. *)
Record init_view := {
  iv_switch : switch_view;
  iv_port_metadata : gmap Z Z;
  iv_wred : gmap Z (Z * Z * Z * (Z * Z));
  iv_ports : gmap Z bool;
}.

(** The parts of a view, and how to replace them. *)
Definition on_tables (f : tables -> tables) (v : init_view) : init_view :=
  {| v with iv_switch := {| (iv_switch v) with v_tables := f (v_tables (iv_switch v)) |} |}.

Definition l2_tab (v : init_view) := l2_forward_table (v_tables (iv_switch v)).
Definition dmac_tab (v : init_view) := restore_dmac_table (v_tables (iv_switch v)).
Definition smac_tab (v : init_view) := restore_smac_table (v_tables (iv_switch v)).
Definition node_tab (v : init_view) := v_nodes (iv_switch v).
Definition mgid_tab (v : init_view) := v_mgids (iv_switch v).

Definition put_l2 m := on_tables (fun t => {| t with l2_forward_table := m |}).
Definition put_dmac m := on_tables (fun t => {| t with restore_dmac_table := m |}).
Definition put_smac m := on_tables (fun t => {| t with restore_smac_table := m |}).
Definition put_nodes m (v : init_view) : init_view :=
  {| v with iv_switch := {| (iv_switch v) with v_nodes := m |} |}.
Definition put_mgids m (v : init_view) : init_view :=
  {| v with iv_switch := {| (iv_switch v) with v_mgids := m |} |}.
Definition put_port_metadata m (v : init_view) : init_view := {| v with iv_port_metadata := m |}.
Definition put_wred m (v : init_view) : init_view := {| v with iv_wred := m |}.
Definition put_ports m (v : init_view) : init_view := {| v with iv_ports := m |}.

Definition init_effect (c : init_call) (v : init_view) : init_view :=
  match c with
  | l2_add_forward m p => put_l2 (<[m := l2_forward p]> (l2_tab v)) v
  | l2_add_multicast m g => put_l2 (<[m := l2_multicast g]> (l2_tab v)) v
  | port_metadata_add p x => put_port_metadata (<[p := x]> (iv_port_metadata v)) v
  | dmac_add ip m => put_dmac (<[ip := m]> (dmac_tab v)) v
  | smac_add ip m => put_smac (<[ip := m]> (smac_tab v)) v
  | wred_add i t a b p => put_wred (<[i := (t, a, b, p)]> (iv_wred v)) v
  | port_add p l => put_ports (<[p := l]> (iv_ports v)) v
  | pre_node_add n rid p => put_nodes (<[n := (rid, p)]> (node_tab v)) v
  | pre_mgid_add g ns => put_mgids (<[g := ns]> (mgid_tab v)) v
  end.

(** A table takes an entry with a new key while it has room; ports have nine bits. *)
Definition room {V} (m : gmap Z V) (cap k : Z) : Prop := m !! k = None /\ Z.of_nat (size m) < cap.

Definition init_allowed (c : init_call) (v : init_view) : Prop :=
  match c with
  | l2_add_forward m _ | l2_add_multicast m _ => room (l2_tab v) MAX_SERVER_NUM m
  | port_metadata_add p _ => room (iv_port_metadata v) 512 p
  | dmac_add ip _ => room (dmac_tab v) MAX_SERVER_NUM ip
  | smac_add ip _ => room (smac_tab v) MAX_SERVER_NUM ip
  | wred_add i _ _ _ _ => room (iv_wred v) 1 i
  | port_add p _ => room (iv_ports v) 512 p
  | pre_node_add n _ _ => 0 < n /\ room (node_tab v) (2 ^ 32) n
  | pre_mgid_add g ns => 0 < g < 2 ^ 16 /\ room (mgid_tab v) (2 ^ 16) g
    /\ forall n, n ∈ ns -> is_Some (node_tab v !! n)
  end.

Class BfrtInit := {
  init_device : Type;
  init_exec : init_call -> init_device -> option init_device;
}.

Class BfrtInitLaws `{BfrtInit} := {
  init_state : init_device -> init_view;
  init_exec_effect : forall c d d', init_exec c d = Some d' -> init_state d' = init_effect c (init_state d);
  init_exec_allowed : forall c d, init_allowed c (init_state d) -> is_Some (init_exec c d);
}.

(** The rest of [topo.json]. *)
Class SwitchTopology `{Topology} := {
  t_mac : list Z;
  t_switch_mac : Z;
}.

(** * The program *)

Section program.
Context `{BfrtInit} {topo : Topology} {stopo : @SwitchTopology topo}.

Definition icall (c : init_call) : py init_device unit := fun d =>
  match init_exec c d with
  | Some d' => (inr tt, d')
  | None => (inl RuntimeError, d)
  end.

Definition workers : list nat := seq 0 (length t_port).

(** [l[i]] *)
Definition item (l : list Z) (i : nat) : py init_device Z := or_raise IndexError (l !! i).

(** the loop over [port] that makes the nodes, from [mcast_node_id] down *)
Fixpoint mcast_nodes (ports : list Z) (mcast_node_id : Z) (mcast_node_list : list Z) :
    py init_device (list Z) :=
  match ports with
  | [] => mret mcast_node_list
  | p :: ports =>
    icall (pre_node_add mcast_node_id 0 p) ;;
    mcast_nodes ports (mcast_node_id - 1) (mcast_node_list ++ [mcast_node_id])
  end.

Definition broadcast_mac : Z := 0xffffffffffff.

Definition NameSpace : py init_device unit :=
  py_for workers (fun w => m ← item t_mac w ; p ← item t_port w ; icall (l2_add_forward m p)) ;;
  py_for workers (fun w => p ← item t_port w ; icall (port_metadata_add p 0)) ;;
  py_for t_recir_port (fun p => icall (port_metadata_add p 1)) ;;
  py_for workers (fun w => ip ← item t_ip w ; m ← item t_mac w ; icall (dmac_add ip m)) ;;
  icall (smac_add t_switch_ip t_switch_mac) ;;
  icall (wred_add 0 0 125 2500 (1, 100)) ;;
  py_for t_port (fun p => icall (port_add p false)) ;;
  py_for t_recir_port (fun p => icall (port_add p true)) ;;
  l ← mcast_nodes t_port (2 ^ 32 - 1) [] ;
  icall (pre_mgid_add (2 ^ 16 - 1) l) ;;
  icall (l2_add_multicast broadcast_mac (2 ^ 16 - 1)).
End program.

(** * Adding entries *)

(** A table as a part of the view. *)
Class Table {V} (tab : init_view -> gmap Z V) (put : gmap Z V -> init_view -> init_view) := {
  tab_put : forall m v, tab (put m v) = m;
  put_put : forall m m' v, put m (put m' v) = put m v;
  put_tab : forall v, put (tab v) v = v;
}.

#[export] Instance l2_table : Table l2_tab put_l2.
Proof. constructor; try done. by intros [[[] ? ? ?] ? ? ?]. Qed.
#[export] Instance dmac_table : Table dmac_tab put_dmac.
Proof. constructor; try done. by intros [[[] ? ? ?] ? ? ?]. Qed.
#[export] Instance smac_table : Table smac_tab put_smac.
Proof. constructor; try done. by intros [[[] ? ? ?] ? ? ?]. Qed.
#[export] Instance node_table : Table node_tab put_nodes.
Proof. constructor; try done. by intros [[] ? ? ?]. Qed.
#[export] Instance port_metadata_table : Table iv_port_metadata put_port_metadata.
Proof. constructor; try done. by intros []. Qed.
#[export] Instance ports_table : Table iv_ports put_ports.
Proof. constructor; try done. by intros []. Qed.

(** The entries [l] go into a table one after the other. *)
Definition insert_all {V} (l : list (Z * V)) (m : gmap Z V) : gmap Z V :=
  foldl (fun m x => <[x.1 := x.2]> m) m l.

Lemma insert_all_cons {V} k v (l : list (Z * V)) m :
  insert_all ((k, v) :: l) m = insert_all l (<[k := v]> m).
Proof. done. Qed.

Lemma insert_all_other {V} (l : list (Z * V)) m k : k ∉ l.*1 -> insert_all l m !! k = m !! k.
Proof.
  revert m. induction l as [|[k' v] l IH]; intros m Hk; [done|].
  apply not_elem_of_cons in Hk as [Hne Hk]. rewrite insert_all_cons, IH by done. by rewrite lookup_insert_ne.
Qed.

Lemma insert_all_dom {V} (l : list (Z * V)) m k : k ∈ l.*1 -> is_Some (insert_all l m !! k).
Proof.
  revert m. induction l as [|[k' v'] l IH]; intros m Hk; [by apply not_elem_of_nil in Hk|].
  rewrite insert_all_cons. destruct (decide (k ∈ l.*1)) as [Hin|Hnin]; [by apply IH|].
  apply elem_of_cons in Hk as [-> |Hk]; [|done]. rewrite insert_all_other, lookup_insert_eq by done.
  by eexists.
Qed.

Lemma insert_all_lookup {V} (l : list (Z * V)) m i k v :
  NoDup l.*1 -> l !! i = Some (k, v) -> insert_all l m !! k = Some v.
Proof.
  revert m i. induction l as [|[k' v'] l IH]; intros m i Hnd Hi; [done|].
  apply NoDup_cons in Hnd as [Hk Hnd]. rewrite insert_all_cons. destruct i as [|i]; cbn in Hi.
  - injection Hi as -> ->. rewrite insert_all_other by done. apply lookup_insert_eq.
  - by apply (IH _ i).
Qed.

Section adds.
Context `{BfrtInitLaws} {topo : Topology} {stopo : @SwitchTopology topo}.

Lemma returns_icall c d (Q : unit -> init_device -> Prop) :
  init_allowed c (init_state d) ->
  (forall d', init_state d' = init_effect c (init_state d) -> Q tt d') -> returns (icall c) d Q.
Proof.
  intros Ha HQ. destruct (init_exec_allowed c d Ha) as [d' Hd]. exists tt, d'. unfold icall.
  rewrite Hd. split; [done|]. apply HQ. by apply init_exec_effect.
Qed.

(** A loop that adds the entries [entry x] to one table. *)
Lemma adds_run {V A} (tab : init_view -> gmap Z V) put `{!Table tab put}
    (cap : Z) (call : A -> init_call) (entry : A -> Z * V) l d (Q : unit -> init_device -> Prop) :
  (forall x v, init_effect (call x) v = put (<[(entry x).1 := (entry x).2]> (tab v)) v) ->
  (forall x v, x ∈ l -> room (tab v) cap (entry x).1 -> init_allowed (call x) v) ->
  NoDup (entry <$> l).*1 -> (forall k, k ∈ (entry <$> l).*1 -> tab (init_state d) !! k = None) ->
  Z.of_nat (size (tab (init_state d))) + Z.of_nat (length l) <= cap ->
  (forall d', init_state d' = put (insert_all (entry <$> l) (tab (init_state d))) (init_state d) ->
     Q tt d') ->
  returns (py_for l (fun x => icall (call x))) d Q.
Proof.
  intros Heff. revert d. induction l as [|x l IH]; intros d Hall Hnd Hfree Hcap HQ; cbn [py_for].
  - apply returns_ret, HQ. cbn. by rewrite put_tab.
  - cbn [fmap list_fmap] in Hnd, Hfree. apply NoDup_cons in Hnd as [Hx Hnd]. cbn [length] in Hcap.
    assert (tab (init_state d) !! (entry x).1 = None) as Hk by by apply Hfree; left.
    py_step. apply returns_icall; [apply Hall; [by left|split; [done|lia]]|].
    intros d1 Hd1. rewrite Heff in Hd1. apply IH; [|exact Hnd| | |].
    + intros y v Hy. apply Hall. by right.
    + intros k Hk'. rewrite Hd1, tab_put, lookup_insert_ne; [apply Hfree; by right|].
      intros E. apply Hx. by rewrite E.
    + rewrite Hd1, tab_put, map_size_insert_None by done. lia.
    + intros d2 Hd2. apply HQ. rewrite Hd2, Hd1, tab_put, put_put. done.
Qed.

(** A loop over the numbers of the servers is one over their entries. *)
Lemma py_for_items {A} (l : list A) (body : nat -> py init_device unit) (call : A -> init_call) k :
  (forall i x, l !! i = Some x -> body (k + i)%nat = icall (call x)) ->
  py_for (seq k (length l)) body = py_for l (fun x => icall (call x)).
Proof.
  revert k. induction l as [|x l IH]; intros k Hb; [done|]. cbn [length seq py_for].
  pose proof (Hb 0%nat x eq_refl) as H0'. rewrite Nat.add_0_r in H0'. rewrite H0'.
  rewrite (IH (S k)); [done|]. intros i y Hi. rewrite <- (Hb (S i) y Hi). f_equal. lia.
Qed.

(** The nodes of the broadcast group. *)
Definition node_entries (ports : list Z) (n : Z) : list (Z * (Z * Z)) :=
  imap (fun i p => (n - Z.of_nat i, (0, p))) ports.

Lemma node_entries_cons p ports n :
  node_entries (p :: ports) n = (n, (0, p)) :: node_entries ports (n - 1).
Proof.
  unfold node_entries. rewrite imap_cons. cbn [compose]. f_equal; [by rewrite Z.sub_0_r|].
  apply imap_ext. intros i x _. cbn. f_equal. lia.
Qed.

Lemma node_entries_bound ports n k :
  k ∈ (node_entries ports n).*1 -> n - Z.of_nat (length ports) < k <= n.
Proof.
  revert n. induction ports as [|p ports IH]; intros n; [by intros ?%not_elem_of_nil|].
  rewrite node_entries_cons. cbn [fmap list_fmap length fst].
  intros [-> |Hk]%elem_of_cons; [lia|]. apply IH in Hk. lia.
Qed.

Lemma mcast_nodes_run ports n acc d (Q : list Z -> init_device -> Prop) :
  Z.of_nat (length ports) <= n < 2 ^ 32 ->
  (forall k, k <= n -> node_tab (init_state d) !! k = None) ->
  Z.of_nat (size (node_tab (init_state d))) + Z.of_nat (length ports) <= 2 ^ 32 ->
  (forall d', init_state d'
       = put_nodes (insert_all (node_entries ports n) (node_tab (init_state d))) (init_state d) ->
     Q (acc ++ (node_entries ports n).*1) d') ->
  returns (mcast_nodes ports n acc) d Q.
Proof.
  revert n acc d. induction ports as [|p ports IH]; intros n acc d Hn Hfree Hcap HQ; cbn [mcast_nodes].
  - apply returns_ret. rewrite <- (app_nil_r acc). apply HQ. cbn. by rewrite put_tab.
  - cbn [length] in Hn, Hcap. py_step. apply returns_icall.
    { split; [lia|]. split; [apply Hfree; lia|lia]. }
    intros d1 Hd1. cbn [init_effect] in Hd1.
    assert (node_tab (init_state d1) = <[n := (0, p)]> (node_tab (init_state d))) as Ht by by rewrite Hd1.
    apply IH; [lia| | |].
    + intros k Hk. rewrite Ht, lookup_insert_ne by lia. apply Hfree. lia.
    + rewrite Ht, map_size_insert_None by (apply Hfree; lia). lia.
    + intros d2 Hd2. rewrite <- app_assoc. rewrite node_entries_cons in HQ. apply HQ.
      by rewrite Hd2, Ht, Hd1.
Qed.
End adds.

(** * The whole set-up *)

Section set_up.
Context `{BfrtInitLaws} {topo : Topology} {stopo : @SwitchTopology topo}.

(** What the program relies on of [topo.json]. *)
Record topo_ok : Prop := {
  to_mac : length t_mac = length t_port;
  to_ip : length t_ip = length t_port;
  to_few : Z.of_nat (length t_port) < MAX_SERVER_NUM;
  to_macs : NoDup t_mac;
  to_broadcast : broadcast_mac ∉ t_mac;
  to_ips : NoDup t_ip;
  to_ports : NoDup (t_port ++ t_recir_port);
  to_nine_bits : Z.of_nat (length (t_port ++ t_recir_port)) <= 512;
}.

(** A switch whose tables of this file are empty. *)
Record blank (v : init_view) : Prop := {
  bl_l2 : l2_tab v = ∅;
  bl_dmac : dmac_tab v = ∅;
  bl_smac : smac_tab v = ∅;
  bl_nodes : node_tab v = ∅;
  bl_mgids : mgid_tab v = ∅;
  bl_port_metadata : iv_port_metadata v = ∅;
  bl_wred : iv_wred v = ∅;
  bl_ports : iv_ports v = ∅;
}.

Definition forward_entries : list (Z * l2_action) := zip t_mac (l2_forward <$> t_port).
Definition with_all {V} (x : V) (l : list Z) : list (Z * V) := (fun k => (k, x)) <$> l.

Definition set_up_view (v : init_view) : init_view :=
  put_l2 (<[broadcast_mac := l2_multicast (2 ^ 16 - 1)]> (insert_all forward_entries ∅))
  (put_mgids (<[2 ^ 16 - 1 := (node_entries t_port (2 ^ 32 - 1)).*1]> ∅)
  (put_nodes (insert_all (node_entries t_port (2 ^ 32 - 1)) ∅)
  (put_ports (insert_all (with_all true t_recir_port) (insert_all (with_all false t_port) ∅))
  (put_wred (<[0 := (0, 125, 2500, (1, 100))]> ∅)
  (put_smac (<[t_switch_ip := t_switch_mac]> ∅)
  (put_dmac (insert_all (zip t_ip t_mac) ∅)
  (put_port_metadata (insert_all (with_all 1 t_recir_port) (insert_all (with_all 0 t_port) ∅)) v))))))).

Lemma with_all_keys {V} (x : V) l : (with_all x l).*1 = l.
Proof. unfold with_all. rewrite <- list_fmap_compose. apply list_fmap_id. Qed.

Lemma size_insert_all {V} (l : list (Z * V)) (m : gmap Z V) :
  NoDup l.*1 -> (forall k, k ∈ l.*1 -> m !! k = None) -> size (insert_all l m) = (size m + length l)%nat.
Proof.
  revert m. induction l as [|[k v] l IH]; intros m Hnd Hfree; [cbn; lia|].
  cbn [fmap list_fmap] in Hnd, Hfree. apply NoDup_cons in Hnd as [Hk Hnd].
  rewrite insert_all_cons, IH; [|done|].
  - rewrite map_size_insert_None by (apply Hfree; by left). cbn. lia.
  - intros j Hj. rewrite lookup_insert_ne by (by intros ->). apply Hfree. by right.
Qed.

(** The two loops that give every port of both kinds an entry. *)
Lemma port_loops_run {V} (tab : init_view -> gmap Z V) put `{!Table tab put} (call : Z -> V -> init_call)
    (x0 x1 : V) (k : py init_device unit) d (Q : unit -> init_device -> Prop) :
  topo_ok ->
  (forall p x v, init_effect (call p x) v = put (<[p := x]> (tab v)) v) ->
  (forall p x v, room (tab v) 512 p -> init_allowed (call p x) v) ->
  tab (init_state d) = ∅ ->
  (forall d', init_state d' = put (insert_all (with_all x1 t_recir_port) (insert_all (with_all x0 t_port) ∅))
                                (init_state d) -> returns k d' Q) ->
  returns (py_for t_port (fun p => icall (call p x0)) ;;
           py_for t_recir_port (fun p => icall (call p x1)) ;; k) d Q.
Proof.
  intros Ht Heff Hall Hempty HQ. pose proof (to_nine_bits Ht) as H9. rewrite length_app in H9.
  destruct (proj1 (NoDup_app _ _) (to_ports Ht)) as (Hp & Hdis & Hr).
  py_step. apply (adds_run tab put 512 (fun p => call p x0) (fun p => (p, x0))).
  - intros p v. apply Heff.
  - intros p v _. apply Hall.
  - fold (with_all x0 t_port). by rewrite with_all_keys.
  - intros p _. by rewrite Hempty.
  - rewrite Hempty, map_size_empty. lia.
  - intros d1 Hd1. fold (with_all x0 t_port) in Hd1. rewrite Hempty in Hd1.
    assert (tab (init_state d1) = insert_all (with_all x0 t_port) ∅) as Et by by rewrite Hd1, tab_put.
    py_step. apply (adds_run tab put 512 (fun p => call p x1) (fun p => (p, x1))).
    + intros p v. apply Heff.
    + intros p v _. apply Hall.
    + fold (with_all x1 t_recir_port). by rewrite with_all_keys.
    + fold (with_all x1 t_recir_port). rewrite with_all_keys. intros p Hin.
      rewrite Et, insert_all_other; [done|]. rewrite with_all_keys. intros Hin'. by apply (Hdis p).
    + rewrite Et, size_insert_all, map_size_empty; [unfold with_all; rewrite length_fmap; lia| |done].
      by rewrite with_all_keys.
    + intros d2 Hd2. apply HQ. fold (with_all x1 t_recir_port) in Hd2.
      by rewrite Hd2, Et, Hd1, put_put.
Qed.

(** The loops over the numbers of the servers as loops over their entries. *)
Lemma workers_pairs (l l' : list Z) (call : Z -> Z -> init_call) :
  length l = length t_port -> length l' = length t_port ->
  py_for workers (fun w => x ← item l w ; y ← item l' w ; icall (call x y))
  = py_for (zip l l') (fun e => icall (call e.1 e.2)).
Proof.
  intros Hl Hl'. unfold workers.
  replace (length t_port) with (length (zip l l')) by (rewrite length_zip_with; lia).
  apply (py_for_items (zip l l') _ (fun e => call e.1 e.2) 0).
  intros i [x y] (Hx & Hy)%lookup_zip_Some. cbn. unfold item. by rewrite Hx, Hy.
Qed.

Lemma workers_ports (call : Z -> init_call) :
  py_for workers (fun w => p ← item t_port w ; icall (call p)) = py_for t_port (fun p => icall (call p)).
Proof. apply (py_for_items t_port _ call 0). intros i x Hx. cbn. unfold item. by rewrite Hx. Qed.

Lemma pairs_keys {V} (l : list Z) (l' : list V) : length l = length l' -> (zip l l').*1 = l.
Proof. intros Hl. apply fst_zip. lia. Qed.

(** The first loop of the program and the one for [restore_dmac_table]: entries of two lists. *)
Lemma pairs_run {V} (tab : init_view -> gmap Z V) put `{!Table tab put} (call : Z -> Z -> init_call)
    (val : Z -> V) (l l' : list Z) d (Q : unit -> init_device -> Prop) :
  length l = length t_port -> length l' = length t_port -> NoDup l ->
  Z.of_nat (length t_port) < MAX_SERVER_NUM ->
  (forall k y v, init_effect (call k y) v = put (<[k := val y]> (tab v)) v) ->
  (forall k y v, room (tab v) MAX_SERVER_NUM k -> init_allowed (call k y) v) ->
  tab (init_state d) = ∅ ->
  (forall d', init_state d' = put (insert_all (zip l (val <$> l')) ∅) (init_state d) -> Q tt d') ->
  returns (py_for workers (fun w => x ← item l w ; y ← item l' w ; icall (call x y))) d Q.
Proof.
  intros Hl Hl' Hnd Hfew Heff Hall Hempty HQ. rewrite workers_pairs by done.
  assert ((fun e : Z * Z => (e.1, val e.2)) <$> zip l l' = zip l (val <$> l')) as Ez.
  { clear. revert l'. induction l as [|x l IH]; intros [|y l']; [done..|]. cbn. f_equal. apply IH. }
  apply (adds_run tab put MAX_SERVER_NUM (fun e => call e.1 e.2) (fun e => (e.1, val e.2))).
  - intros [k y] v. apply Heff.
  - intros [k y] v _. apply Hall.
  - rewrite Ez, pairs_keys; [done|]. rewrite length_fmap. lia.
  - intros k _. by rewrite Hempty.
  - rewrite Hempty, map_size_empty, length_zip_with. lia.
  - intros d' Hd'. apply HQ. by rewrite Hd', Ez, Hempty.
Qed.

Lemma NameSpace_run d :
  topo_ok -> blank (init_state d) ->
  returns NameSpace d (fun _ d' => init_state d' = set_up_view (init_state d)).
Proof.
  intros Ht Hb. unfold NameSpace. rewrite workers_ports.
  py_step. apply (pairs_run l2_tab put_l2 l2_add_forward l2_forward);
    [by apply to_mac|done|by apply to_macs|by apply to_few|done|done|apply (bl_l2 _ Hb)|].
  intros d1 Hd1.
  apply (port_loops_run iv_port_metadata put_port_metadata port_metadata_add);
    [done|done|done|rewrite Hd1; apply (bl_port_metadata _ Hb)|].
  intros d2 Hd2. py_step. apply (pairs_run dmac_tab put_dmac dmac_add id);
    [by apply to_ip|by apply to_mac|by apply to_ips|by apply to_few|done|done
    |rewrite Hd2, Hd1; apply (bl_dmac _ Hb)|].
  intros d3 Hd3. rewrite list_fmap_id in Hd3.
  py_step. apply returns_icall.
  { cbn. rewrite Hd3, Hd2, Hd1. unfold room.
    replace (smac_tab _) with (∅ : gmap Z Z) by (symmetry; apply (bl_smac _ Hb)). done. }
  intros d4 Hd4. py_step. apply returns_icall.
  { cbn. rewrite Hd4, Hd3, Hd2, Hd1. unfold room.
    replace (iv_wred _) with (∅ : gmap Z (Z * Z * Z * (Z * Z))) by (symmetry; apply (bl_wred _ Hb)). done. }
  intros d5 Hd5.
  apply (port_loops_run iv_ports put_ports port_add);
    [done|done|done|rewrite Hd5, Hd4, Hd3, Hd2, Hd1; apply (bl_ports _ Hb)|].
  intros d6 Hd6.
  assert (node_tab (init_state d6) = ∅) as En.
  { rewrite Hd6, Hd5, Hd4, Hd3, Hd2, Hd1. apply (bl_nodes _ Hb). }
  pose proof (to_few Ht) as Hfew. unfold MAX_SERVER_NUM in Hfew.
  py_step. apply mcast_nodes_run; [lia|by rewrite En|rewrite En, map_size_empty; lia|].
  intros d7 Hd7. rewrite En in Hd7. cbn [app].
  py_step. apply returns_icall.
  { split; [lia|]. split.
    - rewrite Hd7, Hd6, Hd5, Hd4, Hd3, Hd2, Hd1. unfold room.
      replace (mgid_tab _) with (∅ : gmap Z (list Z)) by (symmetry; apply (bl_mgids _ Hb)). done.
    - intros n Hn. rewrite Hd7, tab_put. by apply insert_all_dom. }
  intros d8 Hd8. apply returns_icall.
  { split.
    - replace (l2_tab _) with (insert_all forward_entries ∅)
        by by rewrite Hd8, Hd7, Hd6, Hd5, Hd4, Hd3, Hd2, Hd1.
      rewrite insert_all_other; [done|]. unfold forward_entries.
      rewrite pairs_keys by (rewrite length_fmap; by apply to_mac). apply (to_broadcast Ht).
    - replace (l2_tab _) with (insert_all forward_entries ∅)
        by by rewrite Hd8, Hd7, Hd6, Hd5, Hd4, Hd3, Hd2, Hd1.
      rewrite size_insert_all, map_size_empty; unfold forward_entries; [|rewrite pairs_keys|done].
      + rewrite length_zip_with, length_fmap. unfold MAX_SERVER_NUM. lia.
      + apply (to_macs Ht).
      + rewrite length_fmap. by apply to_mac. }
  intros d9 Hd9. rewrite Hd9, Hd8, Hd7, Hd6, Hd5, Hd4, Hd3, Hd2, Hd1. clear - Hb.
  destruct Hb. unfold set_up_view. destruct (init_state d) as [[[] ? ? ?] ? ? ?]; cbn in *; subst. reflexivity.
Qed.

(** What the rest of the program expects of a switch that is set up: frames to a server leave by its
    port and broadcasts by every port, the parser tells the ports of servers from those of
    recirculation, replies get the addresses of the servers, and the groups of the service are free. *)
Record initialised (v : init_view) : Prop := {
  in_forward : forall i m p, t_mac !! i = Some m -> t_port !! i = Some p ->
    l2_tab v !! m = Some (l2_forward p);
  in_broadcast : exists g ns, l2_tab v !! broadcast_mac = Some (l2_multicast g)
    /\ mgid_tab v !! g = Some ns
    /\ (fun n => snd <$> (node_tab v !! n)) <$> ns = Some <$> t_port;
  in_no_other : forall m, is_Some (l2_tab v !! m) -> m ∈ t_mac \/ m = broadcast_mac;
  in_server_ports : forall p, p ∈ t_port ->
    iv_port_metadata v !! p = Some 0 /\ iv_ports v !! p = Some false;
  in_recir_ports : forall p, p ∈ t_recir_port ->
    iv_port_metadata v !! p = Some 1 /\ iv_ports v !! p = Some true;
  in_dmac : forall i a m, t_ip !! i = Some a -> t_mac !! i = Some m -> dmac_tab v !! a = Some m;
  in_smac : smac_tab v !! t_switch_ip = Some t_switch_mac;
  in_foreign : foreign_ok (iv_switch v);
}.

Lemma two_kinds {V} (x0 x1 : V) :
  topo_ok ->
  let m := insert_all (with_all x1 t_recir_port) (insert_all (with_all x0 t_port) ∅) in
  (forall p, p ∈ t_port -> m !! p = Some x0) /\ (forall p, p ∈ t_recir_port -> m !! p = Some x1).
Proof.
  intros Ht m. destruct (proj1 (NoDup_app _ _) (to_ports Ht)) as (Hp & Hdis & Hr).
  assert (forall (x : V) l p m, NoDup l -> p ∈ l -> insert_all (with_all x l) m !! p = Some x) as Hin.
  { intros x l p m' Hnd [i Hi]%list_elem_of_lookup. apply (insert_all_lookup _ _ i); [by rewrite with_all_keys|].
    unfold with_all. by rewrite list_lookup_fmap, Hi. }
  split; intros p H'; unfold m; [|by apply Hin].
  rewrite insert_all_other; [by apply Hin|]. rewrite with_all_keys. by apply Hdis.
Qed.

Lemma pairs_lookup {V} (l : list Z) (l' : list V) i k x (m : gmap Z V) :
  NoDup l -> length l = length l' -> l !! i = Some k -> l' !! i = Some x ->
  insert_all (zip l l') m !! k = Some x.
Proof.
  intros Hnd Hl Hi Hi'. apply (insert_all_lookup _ _ i); [by rewrite pairs_keys|].
  by apply lookup_zip_Some.
Qed.

Lemma broadcast_ports ports n :
  (fun k => snd <$> (insert_all (node_entries ports n) ∅ !! k)) <$> (node_entries ports n).*1
  = Some <$> ports.
Proof.
  generalize (∅ : gmap Z (Z * Z)). revert n. induction ports as [|p ports IH]; intros n m; [done|].
  rewrite node_entries_cons, insert_all_cons. cbn [fmap list_fmap fst]. f_equal; [|apply IH].
  rewrite insert_all_other, lookup_insert_eq; [done|].
  intros Hn. apply node_entries_bound in Hn. lia.
Qed.

Lemma set_up_initialised v : topo_ok -> blank v -> initialised (set_up_view v).
Proof.
  intros Ht Hb. pose proof (to_mac Ht) as Em. pose proof (to_ip Ht) as Ei.
  constructor.
  - intros i m p Hm Hp. change (l2_tab (set_up_view v))
      with (<[broadcast_mac := l2_multicast (2 ^ 16 - 1)]> (insert_all forward_entries ∅)).
    rewrite lookup_insert_ne.
    + apply (pairs_lookup _ _ i); [by apply to_macs|by rewrite length_fmap|done|].
      by rewrite list_lookup_fmap, Hp.
    + intros <-. apply (to_broadcast Ht). by apply list_elem_of_lookup_2 in Hm.
  - exists (2 ^ 16 - 1), (node_entries t_port (2 ^ 32 - 1)).*1.
    split; [apply lookup_insert_eq|]. split; [apply lookup_insert_eq|apply broadcast_ports].
  - intros m. change (l2_tab (set_up_view v))
      with (<[broadcast_mac := l2_multicast (2 ^ 16 - 1)]> (insert_all forward_entries ∅)).
    destruct (decide (m = broadcast_mac)) as [->|Hne]; [by right|]. rewrite lookup_insert_ne by done.
    destruct (decide (m ∈ t_mac)) as [|Hnin]; [by left|]. unfold forward_entries.
    rewrite insert_all_other; [by intros [? ?]|]. rewrite pairs_keys; [done|by rewrite length_fmap].
  - intros p Hp. split; by apply two_kinds.
  - intros p Hp. split; by apply two_kinds.
  - intros i a m Ha Hm. apply (pairs_lookup _ _ i); [by apply to_ips|congruence|done|done].
  - apply lookup_insert_eq.
  - intros g ns x Hg _ Hx. change (<[2 ^ 16 - 1 := (node_entries t_port (2 ^ 32 - 1)).*1]> (∅ : gmap Z (list Z)) !! g = Some ns) in Hg.
    apply lookup_insert_Some in Hg as [[_ <-]|[_ Hg]]; [|by rewrite lookup_empty in Hg].
    apply node_entries_bound in Hx. pose proof (to_few Ht) as Hfew. unfold MAX_SERVER_NUM in Hfew.
    unfold MAX_WORKER_NUM. lia.
Qed.

End set_up.

(** * The service on a switch that is set up *)

Section service.
Context `{BfrtInitLaws, BfrtLaws} {topo : Topology} {stopo : @SwitchTopology topo}.

(** C11: on a switch whose tables are empty, with a [topo.json] that names every server once, the
    set-up ends without an exception and leaves the switch initialised: the frames of every server are
    forwarded to its port, broadcasts reach every port exactly once, the ports of servers and of
    recirculation are told apart, and the addresses that replies are given are those of the servers.
    The service started on that switch comes up: the groups and nodes it takes for itself are not
    those of the broadcast. *)
Theorem switch_comes_up d :
  topo_ok -> blank (init_state d) ->
  exists d', NameSpace d = (inr tt, d') /\ initialised (init_state d')
    /\ forall s, sview s = iv_switch (init_state d') ->
         exists s', reinit s = (inr tt, s') /\ cp_reachable s'.
Proof.
  intros Ht Hb. destruct (NameSpace_run d Ht Hb) as ([] & d' & E & Hd).
  exists d'. split; [done|]. rewrite Hd. pose proof (set_up_initialised _ Ht Hb) as Hi. split; [done|].
  intros s Es. assert (foreign_ok (sview s)) as Hf by (rewrite Es; apply (in_foreign _ Hi)).
  destruct (reinit_runs s Hf) as ([] & s' & Hr & _). exists s'. split; [done|]. by apply (cp_start s).
Qed.
End service.
