(* ===== verification/GroupTheorems.v ===== *)
(** What the control plane promises: its requests never raise, its resources
    are partitioned, a group gets what it asked for and gives it back; and what
    is lost when a call of the runtime raises. *)

From S2P Require Import Prelude.
From S2P Require Import Switch.
From S2P Require Import Allocator.
From S2P Require Import ControlPlane.
From S2P Require Import Groups.
From S2P Require Import GroupService.
From S2P Require Import ControlService.

Section theorems.
Context {bf : Bfrt} {bfl : BfrtLaws} {topo : Topology}.

(** C9: whatever requests with at most 32 members and IPv4 addresses ([members_ok])
    a service has handled, no such request raises an exception when there is a
    recirculation port: no index is out of range, no release is invalid, no
    call of the runtime is refused. *)
Theorem requests_never_raise s q :
  cp_reachable s -> request_ok q -> t_recir_port <> [] ->
  exists a s', handle q s = (inr a, s') /\ cp_reachable s'.
Proof.
  intros Hs Hq Hrp. destruct (cp_reachable_inv s Hs Hrp) as [live Hi].
  destruct (handle_runs s live q Hi Hq Hrp) as (a & s' & E & _). exists a, s'. split; [done|].
  pose proof (cp_request s q Hs Hq) as Hr. by rewrite E in Hr.
Qed.

(** * Partition *)

Lemma free_or_owned s live x :
  cp_inv s live -> 0 <= x < SWITCH_MEM_SIZE ->
  (free_at (memseg s) x /\ forall g i, live !! g = Some i -> ~ block i x)
  \/ (~ free_at (memseg s) x /\ exists g i, live !! g = Some i /\ block i x
      /\ forall g' i', live !! g' = Some i' -> block i' x -> g' = g).
Proof.
  intros Hi Hx. pose proof (ci_free _ _ Hi x Hx) as Hf.
  destruct (decide (map_Forall (fun (_ : Z) i => ~ (gi_addr i <= x < gi_addr i + ALLOC_SIZE)) live)) as [Ha|Ha].
  - left. rewrite Hf. split; exact Ha.
  - right. apply map_not_Forall in Ha as (g & i & Hg & Hb%dec_stable); [|apply _].
    split; [|exists g, i; split; [done|]; split; [done|]].
    + rewrite Hf. intros Hl. by apply (Hl g i Hg).
    + intros g' i' Hg' Hb'. by apply (ci_disjoint _ _ Hi g' g i' i x).
Qed.

(** C10: in every state that requests with at most 32 members lead to, each address of the memory is free or
    belongs to exactly one group, each number of a group and each multicast
    node is free or in use but not both, the load of each recirculation port is
    the number of its groups, and the tables of the switch hold the entries of
    these groups and no others. *)
Theorem resources_partitioned s :
  cp_reachable s -> t_recir_port <> [] ->
  exists live, (forall g, undo s !! g = undo_of g <$> live !! g)
    /\ (forall x, 0 <= x < SWITCH_MEM_SIZE ->
         (free_at (memseg s) x /\ forall g i, live !! g = Some i -> ~ block i x)
         \/ (~ free_at (memseg s) x /\ exists g i, live !! g = Some i /\ block i x
             /\ forall g' i', live !! g' = Some i' -> block i' x -> g' = g))
    /\ free_group s ++ (map_to_list live).*1 ≡ₚ seqZ 1 255
    /\ free_node s ++ live_nodes live ≡ₚ seqZ 1 1023
    /\ (forall k c, recir_port_cnt s !! k = Some c -> c = port_load live k)
    /\ view_ok (sview s) live (free_node s).
Proof.
  intros Hs Hrp. destruct (cp_reachable_inv s Hs Hrp) as [live Hi]. exists live. split_and!.
  - apply (ci_undo _ _ Hi).
  - intros x. by apply free_or_owned.
  - apply (ci_groups _ _ Hi).
  - apply (ci_nodes _ _ Hi).
  - apply (ci_cnt _ _ Hi).
  - apply (ci_view _ _ Hi).
Qed.

(** * Creation *)

(** C24: for at most 32 members, [CreateGroup] answers with the null group and changes nothing exactly
    when a number, a node or an aligned block is lacking; otherwise it takes
    the first number, the lowest aligned block in a free segment and a
    recirculation port of least load, resets the bitmaps of the block and
    fills in the tables. *)
Theorem create_group_spec s live Member :
  cp_inv s live -> members_ok Member -> t_recir_port <> [] ->
  returns (CreateGroup Member) s (fun r s' =>
    (r = null_response /\ s' = s /\ no_resource s Member)
    \/ exists g i, ~ no_resource s Member /\ head (free_group s) = Some g /\ live !! g = None
         /\ gi_members i = Member /\ r = answer_of g i
         /\ lowest_block (memseg s) ALLOC_SIZE (gi_addr i) /\ (forall x, block i x -> free_at (memseg s) x)
         /\ (forall c, c ∈ recir_port_cnt s -> port_load live (gi_port i) <= c)
         /\ cp_inv s' (<[g := i]> live)
         /\ registers_reset i (v_regs (sview s)) (v_regs (sview s'))).
Proof.
  intros Hi HM Hrp. eapply returns_mono; [by apply (create_group_runs s live)|].
  intros r s' [Hn|(g & i & Ht & Hlow & Em & Er & Hi' & Hreg & _ & Hmin)]; [by left|right].
  exists g, i. destruct (taken_fresh _ _ _ _ Hi Ht) as (Hg & _).
  pose proof (tk_info _ _ _ _ Ht) as Hio. destruct (io_addr _ Hio) as (Ha0 & Ha1 & Hal).
  pose proof (tk_group _ _ _ _ Ht) as Hgr. split_and!; try done; [|by rewrite Hgr|by apply (tk_block _ _ _ _ Ht)].
  intros [E|[Hl|Hno]].
  - by rewrite E in Hgr.
  - pose proof (f_equal length (tk_nodes _ _ _ _ Ht)) as Hl'. rewrite length_app, length_drop in Hl'.
    destruct (io_len _ Hio) as [Hlen _]. rewrite Em in *. lia.
  - destruct (tk_fits _ _ _ _ Ht) as (idx & [(sg & Hsg & H1 & H2) _]).
    specialize (Hno sg (gi_addr i) (list_elem_of_lookup_2 _ _ _ Hsg) Hal H1). lia.
Qed.

(** * Creation and destruction *)

(** The same resources are free, and the switch has the same entries. *)
Record same_resources (s s' : servicer) : Prop := {
  sr_groups : free_group s' ≡ₚ free_group s;
  sr_nodes : free_node s' ≡ₚ free_node s;
  sr_cnt : recir_port_cnt s' = recir_port_cnt s;
  sr_undo : undo s' = undo s;
  sr_free : forall x, 0 <= x < SWITCH_MEM_SIZE -> free_at (memseg s') x <-> free_at (memseg s) x;
  sr_recirculate : recirculate_table (v_tables (sview s')) = recirculate_table (v_tables (sview s));
  sr_metadata : metadata_table (v_tables (sview s')) = metadata_table (v_tables (sview s));
  sr_restore : restore_table (v_tables (sview s')) = restore_table (v_tables (sview s));
  sr_mgids : forall g, 0 < g < MAX_GROUP_NUM -> v_mgids (sview s') !! g = v_mgids (sview s) !! g;
  sr_used : forall n, 0 < n < MAX_WORKER_NUM -> v_nodes (sview s') !! n = v_nodes (sview s) !! n;
}.

Lemma same_live s s' live : cp_inv s live -> cp_inv s' live -> same_resources s s'.
Proof.
  intros Hi Hi'. pose proof (ci_view _ _ Hi) as Hv. pose proof (ci_view _ _ Hi') as Hv'.
  assert (free_node s' ≡ₚ free_node s) as Hn.
  { apply (Permutation_app_inv_r (live_nodes live)). by rewrite (ci_nodes _ _ Hi), (ci_nodes _ _ Hi'). }
  constructor; try done.
  - apply (Permutation_app_inv_r ((map_to_list live).*1)). by rewrite (ci_groups _ _ Hi), (ci_groups _ _ Hi').
  - apply list_eq_same_length with (n := length t_recir_port);
      [apply (ci_cnt_len _ _ Hi)|apply (ci_cnt_len _ _ Hi')|].
    intros k x y _ Hx Hy. by rewrite (ci_cnt _ _ Hi' _ _ Hx), (ci_cnt _ _ Hi _ _ Hy).
  - apply map_eq. intros g. by rewrite (ci_undo _ _ Hi), (ci_undo _ _ Hi').
  - intros x Hx. by rewrite (ci_free _ _ Hi x Hx), (ci_free _ _ Hi' x Hx).
  - by rewrite (vo_recirculate _ _ _ Hv), (vo_recirculate _ _ _ Hv').
  - by rewrite (vo_metadata _ _ _ Hv), (vo_metadata _ _ _ Hv').
  - apply map_eq. intros [g r]. by rewrite (vo_restore _ _ _ Hv), (vo_restore _ _ _ Hv').
  - intros g Hg. by rewrite (vo_mgids _ _ _ Hv g Hg), (vo_mgids _ _ _ Hv' g Hg).
  - intros n Hr. assert (n ∈ free_node s ++ live_nodes live) as Hin.
    { rewrite (ci_nodes _ _ Hi). apply elem_of_seqZ. unfold MAX_WORKER_NUM in Hr. lia. }
    apply elem_of_app in Hin as [Hf|(g & i & Hg & [k Hk]%list_elem_of_lookup_1)%elem_of_live_nodes].
    + rewrite (vo_free _ _ _ Hv n Hf). apply (vo_free _ _ _ Hv'). by rewrite Hn.
    + by rewrite (vo_nodes _ _ _ Hv g i k n Hg Hk), (vo_nodes _ _ _ Hv' g i k n Hg Hk).
Qed.

(** C25: destroying a group of at most 32 members right after it has been created gives back every
    resource: numbers, nodes, memory, the load of the ports and every entry of
    the switch are as before. *)
Theorem destroy_undoes_create s Member :
  cp_reachable s -> members_ok Member -> t_recir_port <> [] ->
  returns (r ← CreateGroup Member ; DestroyGroup (r_group r)) s (fun _ s' => same_resources s s').
Proof.
  intros Hs HM Hrp. destruct (cp_reachable_inv s Hs Hrp) as [live Hi].
  py_step. eapply returns_mono; [by apply (create_group_runs s live)|].
  intros r s1 [(-> & -> & _)|(g & i & Ht & _ & _ & -> & Hi1 & _)].
  - exists tt, s. split; [|by apply (same_live s s live)]. eapply destroy_unknown; [done|].
    apply eq_None_not_Some. intros Hg.
    pose proof (groups_range _ _ 0 Hi (or_introl Hg)). lia.
  - destruct (taken_fresh _ _ _ _ Hi Ht) as (Hg & _).
    eapply returns_mono; [apply (destroy_runs s1 _ g i Hi1), lookup_insert_eq|].
    intros [] s2 [Hi2 _]. rewrite delete_insert_id in Hi2 by done. by apply (same_live s s2 live).
Qed.

(** * A call that raises *)

(** The calls change the device only, whether they raise or not. *)
Definition keeps {A} (m : py servicer A) : Prop := forall s, exists d, (m s).2 = {| s with dev := d |}.

Lemma keeps_result {A} (m : py servicer A) s o s' : keeps m -> m s = (o, s') -> exists d, s' = {| s with dev := d |}.
Proof. intros Hk E. destruct (Hk s) as [d Hd]. rewrite E in Hd. by exists d. Qed.

Lemma keeps_ret {A} (a : A) : keeps (mret a).
Proof. intros s. exists (dev s). by destruct s. Qed.

Lemma keeps_or_raise {A} e (o : option A) : keeps (or_raise e o).
Proof. intros s. exists (dev s). destruct o, s; reflexivity. Qed.

Lemma keeps_call c : keeps (call c).
Proof. intros s. unfold call. destruct (bf_exec c (dev s)) as [d|]; [by exists d|]. exists (dev s). by destruct s. Qed.

Lemma keeps_bind {A B} (m : py servicer A) (k : A -> py servicer B) :
  keeps m -> (forall a, keeps (k a)) -> keeps (m ≫= k).
Proof.
  intros Hm Hk s. destruct (Hm s) as [d Hd]. unfold mbind, py_bind.
  destruct (m s) as [[e|a] s']; simpl in *; subst s'; [by exists d|].
  destruct (Hk a {| s with dev := d |}) as [d' Hd']. by exists d'.
Qed.

Lemma keeps_for {A} (l : list A) (body : A -> py servicer unit) :
  (forall x, keeps (body x)) -> keeps (py_for l body).
Proof. intros Hb. induction l as [|x l IH]; simpl; [apply keeps_ret|by apply keeps_bind]. Qed.

(** A handler that ends in an exception has only made calls so far. *)
Definition raises_early {A} (m : py servicer A) : Prop := forall s e s',
  m s = (inl e, s') -> exists d, s' = {| s with dev := d |}.

Lemma raises_early_bind {A B} (m : py servicer A) (k : A -> py servicer B) :
  keeps m -> (forall a, raises_early (k a)) -> raises_early (m ≫= k).
Proof.
  intros Hm Hk s e s' E. unfold mbind, py_bind in E. destruct (Hm s) as [d Hd].
  destruct (m s) as [[e1|a] s1]; simpl in Hd; subst s1; [simplify_eq; by exists d|].
  destruct (Hk a _ _ _ E) as [d' ->]. by exists d'.
Qed.

Lemma raises_early_update {A} f (a : A) : raises_early (update f ;; mret a).
Proof. intros s e s'. discriminate. Qed.

Lemma bind_raises {S A B} (m : py S A) (k : A -> py S B) s e s' :
  (m ≫= k) s = (inl e, s') ->
  m s = (inl e, s') \/ exists a s1, m s = (inr a, s1) /\ k a s1 = (inl e, s').
Proof. unfold mbind, py_bind. destruct (m s) as [[e1|a] s1]; [intros ?; simplify_eq; by left|]. right. by exists a, s1. Qed.

Lemma or_raise_raises {S A} (o : option A) e e' (s s' : S) :
  or_raise e o s = (inl e', s') -> e' = e.
Proof. destruct o; intros E; [discriminate E|]. by injection E as ->. Qed.

Lemma or_raise_returns {S A} (o : option A) e a (s s' : S) :
  or_raise e o s = (inr a, s') -> o = Some a /\ s' = s.
Proof. destruct o; intros E; [|discriminate E]. by injection E as -> ->. Qed.

Lemma select_keeps s o s' :
  select_recir_port_idx s = (o, s') -> s' = s /\ forall e, o = inl e -> e = ValueError.
Proof.
  unfold select_recir_port_idx, mbind, py_bind, self.
  destruct (py_min (recir_port_cnt s)) as [m|]; [|intros [= <- <-]; split; congruence].
  cbn [or_raise]. unfold mret, py_ret.
  destruct (py_index m (recir_port_cnt s)); intros [= <- <-]; split; congruence.
Qed.

(** The rest of [create], once the resources have been taken. *)
Lemma create_calls_raise (P : py servicer response) :
  raises_early P -> forall s e s', P s = (inl e, s') ->
  memseg s' = memseg s /\ free_group s' = free_group s /\ free_node s' = free_node s /\ undo s' = undo s.
Proof. intros HP s e s' E. by destruct (HP _ _ _ E) as [d ->]. Qed.

(** C40: [CreateGroup] records how to undo its work only at its very end: when a
    call of the runtime raises, the block, the number and the nodes are gone,
    and destroying the group does nothing. *)
Theorem create_group_leaks s Member s' :
  CreateGroup Member s = (inl RuntimeError, s') ->
  exists g idx addr segs, head (free_group s) = Some g
    /\ alloc_seg (memseg s) idx addr (addr + ALLOC_SIZE) = Some segs
    /\ memseg s' = segs /\ free_group s' = tail (free_group s)
    /\ free_node s' = drop (length Member) (free_node s) /\ undo s' = undo s
    /\ (undo s !! g = None -> DestroyGroup g s' = (inr tt, s')).
Proof.
  intros E. unfold CreateGroup in E. apply bind_raises in E as [E|(s0 & s1 & E1 & E)]; [discriminate E|].
  injection E1 as <- <-. destruct (fit_seg _ _) as [[[idx addr]|]|]; [|by destruct (_ || _)|discriminate E].
  destruct (_ || _); [discriminate E|]. unfold create in E. cbv zeta in E.
  apply bind_raises in E as [E|(s0 & s1 & E1 & E)]; [discriminate E|]. injection E1 as <- <-.
  apply bind_raises in E as [E|(segs & s1 & E1 & E)]; [by apply or_raise_raises in E|].
  apply or_raise_returns in E1 as [Has ->].
  apply bind_raises in E as [E|([] & s1 & E1 & E)]; [discriminate E|]. injection E1 as <-.
  apply bind_raises in E as [E|(g & s1 & E1 & E)]; [by apply or_raise_raises in E|].
  apply or_raise_returns in E1 as [Hg ->].
  apply bind_raises in E as [E|([] & s1 & E1 & E)]; [discriminate E|]. injection E1 as <-.
  apply bind_raises in E as [E|([] & s1 & E1 & E)]; [discriminate E|]. injection E1 as <-.
  apply bind_raises in E as [E|(k & s1 & E1 & E)].
  { by apply select_keeps in E as [_ E]; specialize (E _ eq_refl). }
  apply select_keeps in E1 as [-> _].
  apply bind_raises in E as [E|([] & s1 & E1 & E)]; [discriminate E|]. injection E1 as <-.
  apply bind_raises in E as [E|(port & s1 & E1 & E)]; [by apply or_raise_raises in E|].
  apply or_raise_returns in E1 as [_ ->].
  apply create_calls_raise in E as (E1 & E2 & E3 & E4).
  - cbn [free_group free_node recir_port_cnt undo memseg] in *.
    exists g, idx, addr, segs. split_and!; try done.
    intros Hu. unfold DestroyGroup, mbind, py_bind, self. by rewrite E4, Hu.
  - do 2 (apply raises_early_bind; [apply keeps_call|intros []]).
    apply raises_early_bind; [|intros []].
    { apply keeps_for. intros x. repeat (apply keeps_bind; [apply keeps_or_raise || apply keeps_call|intros ?]).
      apply keeps_call. }
    apply raises_early_bind; [apply keeps_call|intros []].
    apply raises_early_bind; [apply keeps_for; intros x; apply keeps_call|intros []].
    apply raises_early_update.
Qed.

End theorems.
