(* ===== verification/GroupSetup.v ===== *)
(** From the request to the sums: a group the control plane has created is one
    the protocol of hosts and switch works for. *)

From S2P Require Import Prelude.
From S2P Require Import Switch.
From S2P Require Import Aggregation.
From S2P Require Import Protocol.
From S2P Require Import Allocator.
From S2P Require Import ControlPlane.
From S2P Require Import Groups.
From S2P Require Import GroupService.
From S2P Require Import ControlService.

Section setup.
Context {bf : Bfrt} {bfl : BfrtLaws} {topo : Topology}.

(** The packets of the hosts, and sums without overflow ([group_ok]). *)
Record packets_ok {str : Stream} : Prop := {
  po_packet : forall r p, is_host r -> 0 <= p < 2 ^ 32 ->
    let h := host_packet r p in
    pass_cnt h = 1 /\ netccl_valid h = true /\ n_group_id h = grp /\ rank h = r /\ psn h = p
    /\ n_agg_addr h = base_addr + p mod range_len /\ length (lanes h) = 32%nat;
  po_fits : forall b p k, 0 <= p < 2 ^ 32 -> fits (cell b p k).1 /\ fits (cell b p k).2;
}.

(** One worker of every member uses a part of the range of answer [r], with
    windows of at most half of it. *)
Record stream_of {str : Stream} (r : response) (Member : list Z) (v : switch_view) : Prop := {
  so_tables : tbl = v_tables v;
  so_group : grp = r_group r;
  so_hosts : n_hosts = Z.of_nat (length Member);
  so_range : r_agg_addr r <= base_addr /\ base_addr + range_len <= r_agg_addr r + r_agg_len r;
  so_window : 0 < max_win /\ 2 * max_win <= range_len;
  so_packets : packets_ok;
}.

(** Nothing has been sent yet, the registers are [rs]. *)
Record fresh_system (rs : registers) (s : system) : Prop := {
  fs_regs : regs s = rs;
  fs_hosts : forall r, hosts s r = {| h_base := 0; h_next := 0; h_results := ∅ |};
  fs_up : forall r, up s r = [];
  fs_way : recirculating s = [] /\ answers s = [];
  fs_ghost : (forall r, seen s r = -1) /\ completed s = [];
}.

(** All aggregators have 32 cells, from the start of the switch on. *)
Definition cells_ok (r : registers) : Prop := forall a, length (cells_at r a) = 32%nat.

Lemma mask_everyone {str : Stream} i :
  n_hosts = Z.of_nat (length (gi_members i)) -> mask_of i = everyone.
Proof.
  intros Hn. unfold mask_of, everyone. by rewrite Hn, Z.ones_equiv, Z.shiftl_1_l, Z.sub_1_r.
Qed.

Lemma live_tables {str : Stream} s live i :
  cp_inv s live -> live !! grp = Some i -> n_hosts = Z.of_nat (length (gi_members i)) ->
  group_tables (v_tables (sview s)).
Proof.
  intros Hi Hg Hn. pose proof (ci_view _ _ Hi) as Hv. split.
  - rewrite (vo_metadata _ _ _ Hv), lookup_fmap, Hg. cbn. by rewrite (mask_everyone i Hn).
  - rewrite (vo_recirculate _ _ _ Hv), lookup_fmap, Hg. by eexists.
Qed.

Lemma created_group_ok {str : Stream} s' live g i :
  cp_inv s' (<[g := i]> live) -> 0 < g < 256 -> gi_members i <> [] ->
  stream_of (answer_of g i) (gi_members i) (sview s') -> group_ok.
Proof.
  intros Hi Hg HM [Ht Eg En [Hr1 Hr2] [Hw1 Hw2] [Hp Hf]]. simpl in Eg, Hr1, Hr2.
  pose proof (ci_info _ _ Hi g i (lookup_insert_eq _ _ _)) as Hio.
  destruct (io_len _ Hio) as [_ H32]. destruct (block_registers _ Hio) as (Hb & _).
  assert (0 < length (gi_members i))%nat by (destruct (gi_members i); [done|simpl; lia]).
  constructor.
  - lia.
  - by rewrite Eg.
  - lia.
  - lia.
  - rewrite Ht. apply (live_tables _ _ i Hi); [by rewrite Eg, lookup_insert_eq|done].
  - exact Hp.
  - exact Hf.
Qed.

Lemma created_initial {str : Stream} i g r rs Member v s :
  stream_of (answer_of g i) Member v -> registers_reset i r rs -> cells_ok r -> fresh_system rs s ->
  initial s.
Proof.
  intros [_ _ _ [Hr1 Hr2] _ _] [Ha Hb] Hc [Hre Hh Hu [Hw1 Hw2] [Hg1 Hg2]]. simpl in Hr1, Hr2.
  split_and!; try done; intros a Ha'; rewrite Hre.
  - unfold bitmap_at. rewrite Hb, decide_True by lia. done.
  - unfold cells_at. rewrite Ha. apply Hc.
Qed.

(** ** Requests after the one that has created group [g] *)

(** A request that does not end group [g]. *)
Definition spares (g : Z) (q : request) : Prop :=
  request_ok q /\ q <> req_init /\ q <> req_destroy g.

(** The service has gone on from the first state to the second. *)
Inductive served (g : Z) : servicer -> servicer -> Prop :=
  | served_nothing s : served g s s
  | served_request s s' q : served g s s' -> spares g q -> served g s (handle q s').2.

(** The registers of the block of [i] are as before. *)
Definition block_kept (i : group_info) (r rs : registers) : Prop :=
  forall a, gi_addr i / MTU_SIZE <= a < gi_addr i / MTU_SIZE + 1024 ->
    bitmap_at rs a = bitmap_at r a /\ cells_at rs a = cells_at r a.

Lemma blocks_apart s live g i g' i' a :
  cp_inv s live -> live !! g = Some i -> live !! g' = Some i' -> g <> g' ->
  gi_addr i / MTU_SIZE <= a < gi_addr i / MTU_SIZE + 1024 ->
  ~ gi_addr i' / MTU_SIZE <= a < gi_addr i' / MTU_SIZE + 1024.
Proof.
  intros Hi Hg Hg' Hne Ha Ha'. apply Hne, (ci_disjoint _ _ Hi g g' i i' (a * MTU_SIZE) Hg Hg').
  - destruct (block_registers _ (ci_info _ _ Hi _ _ Hg)) as (_ & _ & E). unfold block.
    change ALLOC_SIZE with (1024 * MTU_SIZE). change MTU_SIZE with 256 in *. lia.
  - destruct (block_registers _ (ci_info _ _ Hi _ _ Hg')) as (_ & _ & E). unfold block.
    change ALLOC_SIZE with (1024 * MTU_SIZE). change MTU_SIZE with 256 in *. lia.
Qed.

(** Such a request leaves the group and its registers alone. *)
Lemma handle_spares s live g i q :
  cp_inv s live -> live !! g = Some i -> spares g q -> t_recir_port <> [] ->
  returns (handle q) s (fun _ s' => (exists live', cp_inv s' live' /\ live' !! g = Some i)
    /\ block_kept i (v_regs (sview s)) (v_regs (sview s'))).
Proof.
  intros Hi Hg (Hq & Hn1 & Hn2) Hrp. destruct q as [Member|g'|]; simpl; [| |done].
  - py_step. eapply returns_mono; [by eapply create_group_runs|].
    intros r s' [(_ & -> & _)|(g' & i' & Ht & _ & _ & _ & Hi' & [Ha Hb] & _)]; py_step; [split; [by exists live|done]|].
    destruct (taken_fresh _ _ _ _ Hi Ht) as (Hfr & _).
    assert (g <> g') as Hne by congruence.
    split; [exists (<[g' := i']> live); by rewrite lookup_insert_ne|]. intros a Ha'.
    pose proof (blocks_apart s' _ g i g' i' a Hi' ltac:(by rewrite lookup_insert_ne)
      ltac:(by rewrite lookup_insert_eq) Hne Ha').
    unfold bitmap_at, cells_at. by rewrite Hb, decide_False, Ha.
  - assert (g' <> g) as Hne by congruence. py_step. destruct (live !! g') as [i'|] eqn:Hg'.
    + eapply returns_mono; [by eapply destroy_runs|].
      intros [] s' (Hi' & _ & _ & _ & Er). py_step. split; [|by rewrite Er].
      exists (delete g' live). by rewrite lookup_delete_ne.
    + exists tt, s. split; [by eapply destroy_unknown|]. py_step. split; [by exists live|done].
Qed.

Lemma served_live s0 s g i :
  served g s0 s -> t_recir_port <> [] -> (exists live, cp_inv s0 live /\ live !! g = Some i) ->
  exists live, cp_inv s live /\ live !! g = Some i.
Proof.
  intros Hs Hrp H0. induction Hs as [|s0 s q _ IH Hq]; [done|]. destruct (IH H0) as (live & Hi & Hg).
  destruct (handle_spares s live g i q Hi Hg Hq Hrp) as (a & s' & -> & Hl & _). exact Hl.
Qed.

(** C7: when [CreateGroup] answers with a group, the workers of its members that
    stream through its range get the sums of the packets of all members.  The
    later requests, as long as none ends the group, keep the entries of the
    group and the registers of its range, so they are steps of the protocol. *)
Theorem created_group_aggregates s Member :
  cp_reachable s -> members_ok Member -> t_recir_port <> [] -> Member <> [] ->
  cells_ok (v_regs (sview s)) ->
  returns (CreateGroup Member) s (fun r s' => r_group r <> 0 ->
    forall (str : Stream), stream_of r Member (sview s') ->
    (forall s1 q, served (r_group r) s' s1 -> spares (r_group r) q ->
       group_tables (v_tables (sview s1))
       /\ range_kept (v_regs (sview s1)) (v_regs (sview (handle q s1).2)))
    /\ forall s0 s1, fresh_system (v_regs (sview s')) s0 -> rtc step s0 s1 ->
    forall h p l, is_host h -> h_results (hosts s1 h) !! p = Some (Some l) -> l = total everyone p).
Proof.
  intros Hs HM Hrp Hne Hc. destruct (cp_reachable_inv s Hs Hrp) as [live Hi].
  eapply returns_mono; [by apply (create_group_runs s live)|].
  intros r s' [(-> & _)|(g & i & Ht & _ & <- & -> & Hi' & Hreg & _)]; [done|]. intros _ str Hst. split.
  { intros s1 q Hs1 Hq. cbn [r_group answer_of] in *. pose proof Hst as [_ Eg En [Hr1 Hr2] _ _].
    cbn [r_group r_agg_addr r_agg_len answer_of] in *.
    destruct (served_live s' s1 g i Hs1 Hrp) as (live1 & Hi1 & Hg1).
    { exists (<[g := i]> live). by rewrite lookup_insert_eq. }
    split; [by apply (live_tables s1 live1 i); rewrite ?Eg|].
    destruct (handle_spares s1 live1 g i q Hi1 Hg1 Hq Hrp) as (a & s2 & -> & _ & Hk).
    intros x Hx. apply Hk. lia. }
  intros s0 s1 Hf Hrun h p l Hh Hp. destruct (taken_fresh _ _ _ _ Hi Ht) as (_ & Hg & _).
  pose proof (created_group_ok _ _ _ _ Hi' Hg Hne Hst) as Hok.
  pose proof (created_initial _ _ _ _ _ _ _ Hst Hreg Hc Hf) as H0.
  pose proof (stream_reachable_inv Hok s1 (ex_intro _ s0 (conj H0 Hrun))) as Hinv.
  by apply (hi_results _ _ (inv_host _ Hinv h Hh) p _ Hp).
Qed.
End setup.
