(* ===== verification/Demo.v ===== *)
(** Concrete runs: a small configuration, list queues and the local loopback. *)

From S2P Require Import Prelude.
From S2P Require Import Types.
From S2P Require Import Endian.
From S2P Require Import Config.
From S2P Require Import Congestion.
From S2P Require Import QueuePair.
From S2P Require Import Worker.
From S2P Require Import Window.
From S2P Require Import WorkerInv.
From S2P Require Import Receive.
From S2P Require Import Packet.
From S2P Require Import Send.
From S2P Require Import WorkerSafety.
From S2P Require Import LocalNet.

#[local] Existing Instance small_config.
#[local] Existing Instance list_spsc.

(** * A worker after initialisation *)

Definition blank_mbuf : mbuf := {|
  data_len := 0; pkt_len := 0;
  pkt := {|
    ether_type := 0;
    ip := {| version_ihl := 0; type_of_service := 0; total_length := 0; packet_id := 0;
             fragment_offset := 0; time_to_live := 0; next_proto_id := 0; hdr_checksum := 0;
             src_addr := 0; dst_addr := 0 |};
    inc := {| h_coll_type := 0; h_group_id := 0; h_rank := 0; h_root := 0; h_agg_addr := 0;
              h_psn := 0 |};
    payload := replicate (Z.to_nat PAYLOAD_SIZE) 0 |} |}.

Definition blank_slot : pkt_state_t := {|
  sp_pkt := blank_mbuf; acked := false; sp_sub_op := None; sp_data := Ptr 0 0; sp_size := 0;
  sp_psn := 0; is_last := false |}.

Definition demo_worker (m : gmap Z (list Z)) : worker := {|
  window := {| slots := replicate 8 blank_slot; to_ack := 0; to_send := 0; left_psn := 0;
               right_psn := 0; last_ack_time_stamp := 0 |};
  qp := new_queue_pair;
  gen := {| pkt_sent := 0; start_psn := 0; pkt_cnt := 0; cur_sub_op := None |};
  group_psn := ∅;
  current_switch_window_limit := 4;
  current_group_id := 0;
  traffic_todo := false;
  ccs := {|
    cc := {| cwnd := f64_of_Z 4; target_cwnd := f64_of_Z 4; loss_ratio := f64_of_Z 0;
             adjust_cnt := 0; prev_decrease_ts := 0; prev_adjust_ts := 0 |};
    cwnd_achieved := false; cwnd_inc_cnt := 0; cwnd_dec_cnt := 0; tos_minitor := 0;
    pkt_loss_flag := false; prev_ack_cnt_cc := 0; win_cnt := replicate 8 0 |};
  global_ts := 0;
  ack_cnt := 0;
  prev_ack_cnt := 0;
  stats := {| shift_send_cnt := 0; shift_ack_cnt := 0; fast_retrans_trigger_cnt := 0;
              fast_retrans_pkt_cnt := 0; full_retrans_trigger_cnt := 0; full_retrans_pkt_cnt := 0;
              in_range_reduntant_ack_cnt := 0; out_range_reduntant_ack_cnt := 0;
              total_shift_send_cnt := 0; total_shift_ack_cnt := 0 |};
  tp := {| local_queue := []; offered := [] |};
  mem := m;
|}.

(** An all-reduce of [size] bytes at the start of buffer [b], for group [g]. *)
Definition demo_sub_op (g b size : Z) : sub_op_t := {|
  op := {| op_code := OP_ALL_REDUCE; root := 0; op_size := size; shm_buffer := Ptr b 0;
           group := {| group_id := g; g_size := 2; g_rank := 0; g_agg_addr := 0; g_agg_len := 8;
                       switch_ip := 1 |};
           op_with_fut := 0 |};
  so_data := Ptr b 0; so_size := size; so_agg_addr := 0; so_agg_len := 8 |}.

Definition demo_mem : gmap Z (list Z) :=
  <[1 := replicate 512 17]> (<[2 := replicate 256 34]> ∅).

(** Hand over sub-operations, then run [k] rounds, [dt] apart. *)
Definition handed (l : list sub_op_t) : M worker unit :=
  for_each l (fun so => on_qp (push_req so) ;;; ret tt).
Fixpoint rounds (k : nat) (ts dt : Z) : M worker unit :=
  match k with
  | O => ret tt
  | S k => worker_round 10 ts ;;; rounds k (ts + dt) dt
  end.
Definition demo (l : list sub_op_t) (k : nat) : outcome (unit * worker) :=
  (handed l ;;; rounds k 1 100) (demo_worker demo_mem).

(** An all-reduce of two packets is answered after its packets are back. *)
Example demo_one_group :
  match demo [demo_sub_op 1 1 512] 4 with
  | Ok (_, s) => contents (cq (qp s)) = [demo_sub_op 1 1 512]
                 /\ buffer_read (mem s) (Ptr 1 0) 512 = Some (replicate 512 17)
  | Err _ => False
  end.
Proof. vm_compute. split; reflexivity. Qed.

(** * A reachable worker with packets in flight *)

Lemma bytes_replicate n b : is_byte b -> Forall is_byte (replicate n b).
Proof. intros Hb. by apply Forall_replicate. Qed.

Lemma blank_mbuf_ok : mbuf_ok blank_mbuf.
Proof.
  split; [by vm_compute|]. by apply bytes_replicate.
Qed.

Lemma demo_mem_bytes : mem_bytes demo_mem.
Proof.
  intros b l. unfold demo_mem. destruct (decide (b = 1)) as [->|].
  { rewrite lookup_insert_eq. intros Hl%(inj Some). subst l. by apply bytes_replicate. }
  rewrite lookup_insert_ne by done. destruct (decide (b = 2)) as [->|].
  { rewrite lookup_insert_eq. intros Hl%(inj Some). subst l. by apply bytes_replicate. }
  by rewrite lookup_insert_ne by done.
Qed.

Lemma demo_start : worker_start (demo_worker demo_mem).
Proof.
  constructor; try done; [|apply demo_mem_bytes|constructor].
  constructor; try done. apply (Forall_replicate (fun st => mbuf_ok (sp_pkt st)) 8), blank_mbuf_ok.
Qed.

Lemma demo_sub_op_ok : sub_op_ok demo_mem (demo_sub_op 1 1 512).
Proof.
  constructor; cbn [demo_sub_op so_size so_agg_len so_agg_addr so_data op]; try (done || lia).
apply in_memory_iff. exists (replicate 512 17). by vm_compute.
Qed.

(** The worker after it has been handed an all-reduce of two packets ... *)
Definition demo_pushed : worker :=
  {| (demo_worker demo_mem) with qp := QueuePair [demo_sub_op 1 1 512] [] 1 |}.
(** ... and after one round, with both packets in flight. *)
Definition demo_sent : worker :=
  match worker_round 10 1 demo_pushed with Ok (_, s) => s | Err _ => demo_pushed end.

#[local] Opaque demo_sent.

Definition demo_sys (s : worker) : wsys :=
  {| ws := s; w_pushed := [demo_sub_op 1 1 512]; w_collected := []; w_log_ts := 0 |}.

Lemma demo_sent_reachable : w_reachable 1 (demo_sys demo_sent).
Proof.
  exists (demo_worker demo_mem). split; [apply demo_start|].
  eapply rtc_l; [|eapply rtc_l; [|apply rtc_refl]].
  - apply (w_push 1 {| ws := demo_worker demo_mem; w_pushed := []; w_collected := []; w_log_ts := 0 |}
             (demo_sub_op 1 1 512) (qp demo_pushed)); [|done|done].
    apply demo_sub_op_ok.
  - apply (w_round 1 (demo_sys demo_pushed) 10 1 0 demo_sent). by vm_compute.
Qed.

Definition demo_slot (k : nat) : pkt_state_t :=
  default blank_slot (slots (window demo_sent) !! k).

Lemma demo_sent_inv : exists l base,
  worker_inv demo_sent l base /\ l !! 0%nat = Some (demo_slot 0) /\ l <> []
  /\ Forall (fun so => group_of so = 1) (contents (wq (qp demo_sent))).
Proof.
  destruct (w_reachable_inv 1 _ demo_sent_reachable) as (l & base & Hi & Hg & _).
  exists l, base. split; [exact Hi|].
  assert (length l = 2%nat) as Hl.
  { apply Nat2Z.inj. rewrite <- (window_len_ring _ _ (wi_ring _ _ _ Hi)). by vm_compute. }
  destruct l as [|st l]; [discriminate Hl|]. split; [|split; [discriminate|exact Hg]].
  pose proof (ring_lookup _ _ (wi_ring _ _ _ Hi) 0 st eq_refl) as Hp.
  assert (znth (slots (window demo_sent)) (pos_at (to_ack (window demo_sent)) 0) = Some (demo_slot 0))
    as Hq by by vm_compute.
  cbn [ws demo_sys] in Hp. rewrite Hp in Hq. exact Hq.
Qed.

(** The acknowledgement of the first packet: the packet as it comes back. *)
Definition demo_ack : mbuf := sp_pkt (demo_slot 0).

Lemma demo_ack_ok : mbuf_ok demo_ack.
Proof.
  destruct demo_sent_inv as (l & base & Hi & H0 & _). pose proof (wi_ring _ _ _ Hi) as Hr.
  exact (ring_mbuf _ _ _ _ Hr (ring_lookup _ _ Hr _ _ H0)).
Qed.

Lemma demo_fresh l base :
  worker_inv demo_sent l base -> l !! 0%nat = Some (demo_slot 0) ->
  fresh_ack demo_sent l base demo_ack = Some (0%nat, demo_slot 0).
Proof.
  intros Hi H0. unfold fresh_ack.
  rewrite (ack_index_Some demo_sent l base demo_ack 0 (demo_slot 0));
    [|apply Hi|exact H0|by vm_compute|by vm_compute].
  cbn [mbind option_bind]. rewrite H0. cbn [mbind option_bind].
  assert (acked (demo_slot 0) = false) as -> by by vm_compute. reflexivity.
Qed.

(** * The theorems at concrete inputs *)

Lemma worker_never_faults_witness :
  exists n r, worker_loop_body n 101 0 demo_sent = Ok r.
Proof.
  pose proof (worker_never_faults 1 (demo_sys demo_sent) 101 demo_sent_reachable) as Hw.
  cbn [ws demo_sys] in Hw. exact Hw.
Defined.

Lemma worker_answers_in_order_witness : exists l,
  ring (window demo_sent) l
  /\ [demo_sub_op 1 1 512] = contents (cq (qp demo_sent)) ++ held_of l ++ contents (wq (qp demo_sent)).
Proof.
  destruct (worker_answers_in_order 1 (demo_sys demo_sent) demo_sent_reachable) as (l & Hr & Hp).
  cbn [ws w_pushed w_collected demo_sys] in Hr, Hp. rewrite app_nil_l in Hp.
  exists l. split; [exact Hr|exact Hp].
Defined.

Lemma rx_process_one_spec_witness : exists l base,
  fresh_ack demo_sent l base demo_ack = Some (0%nat, demo_slot 0)
  /\ runs (rx_process_one demo_ack) demo_sent (fun _ s' => qp s' = qp demo_sent).
Proof.
  destruct demo_sent_inv as (l & base & Hi & H0 & _). exists l, base.
  split; [by apply demo_fresh|].
  eapply runs_mono; [apply (rx_process_one_spec demo_sent l base demo_ack Hi demo_ack_ok)|].
  intros _ s' (_ & Hq & _). exact Hq.
Defined.

Lemma rx_stores_payload_witness :
  runs (rx_process_one demo_ack) demo_sent (fun _ s' =>
    buffer_read (mem s') (Ptr 1 0) 256 = Some (replicate 256 17)).
Proof.
  destruct demo_sent_inv as (l & base & Hi & H0 & _).
  eapply runs_mono; [apply (rx_stores_payload demo_sent l base demo_ack 0 (demo_slot 0)
    (demo_sub_op 1 1 512) Hi demo_ack_ok (demo_fresh l base Hi H0))|].
  - by vm_compute.
  - reflexivity.
  - intros _ s' [Hr _]. vm_compute in Hr |- *. exact Hr.
Defined.

Lemma get_position_spec_witness : get_position demo_ack demo_sent = 0.
Proof.
  destruct demo_sent_inv as (l & base & Hi & H0 & _).
  transitivity (pos_at (to_ack (window demo_sent)) 0); [|by vm_compute].
  apply (proj1 (get_position_spec demo_sent l base demo_ack Hi) 0%nat (demo_slot 0) H0);
    by vm_compute.
Defined.

Lemma shift_ack_spec_witness :
  runs shift_ack demo_sent (fun _ s' => exists p, contents (cq (qp s')) = held_of p).
Proof.
  destruct demo_sent_inv as (l & base & Hi & _).
  eapply runs_mono; [apply (shift_ack_spec demo_sent l base Hi)|].
  intros _ s' (p & r & _ & _ & _ & _ & Hc & _). exists p. rewrite Hc. by vm_compute.
Defined.

Lemma shift_send_spec_witness :
  runs shift_send demo_sent (fun _ s' => exists new, contents (wq (qp s')) = [] /\ held_of new = []).
Proof.
  destruct demo_sent_inv as (l & base & Hi & _ & Hne & _).
  eapply runs_mono; [apply (shift_send_spec demo_sent l base Hi); intros ->; by destruct Hne|].
  intros _ s' (new & base' & _ & _ & _ & _ & _ & _ & _ & Hh). exists new.
  assert (contents (wq (qp demo_sent)) = []) as E by by vm_compute. rewrite E in Hh.
  apply app_eq_nil in Hh as [Hh1 Hh2]. split; [exact Hh2|exact Hh1].
Defined.

Lemma full_retrans_spec_witness :
  runs full_retrans demo_sent (fun _ s' => last_ack_time_stamp (window s') = 1).
Proof.
  destruct demo_sent_inv as (l & base & Hi & _ & Hne & _).
  eapply runs_mono; [apply (full_retrans_spec demo_sent l base Hi)|].
  intros _ s' (_ & _ & Ht). rewrite (proj1 (Ht Hne)). by vm_compute.
Defined.

Lemma tx_process_spec_witness :
  runs tx_process demo_sent (fun _ s' => mem s' = mem demo_sent).
Proof.
  destruct demo_sent_inv as (l & base & Hi & _ & Hne & _).
  eapply runs_mono; [apply (tx_process_spec demo_sent l base Hi); intros ->; by destruct Hne|].
  intros _ s' (new & base' & _ & _ & _ & _ & _ & Hm). exact Hm.
Defined.

Lemma cut_packets_partition_witness :
  is_last (cut (demo_sub_op 1 1 512) 7 blank_slot 1) = true
  /\ sp_psn (cut (demo_sub_op 1 1 512) 7 blank_slot 1) = 8.
Proof.
  destruct (cut_packets_partition demo_mem (demo_sub_op 1 1 512) 7 blank_slot (replicate 512 17)
    demo_sub_op_ok ltac:(by vm_compute)) as [_ Hk].
  destruct (Hk 1 ltac:(by vm_compute)) as (_ & Hp & Hl).
  rewrite Hp, Hl. by vm_compute.
Defined.

Lemma fill_pkt_spec_witness :
  let st := {| blank_slot with sp_sub_op := Some (demo_sub_op 1 1 512); sp_psn := 9;
                               sp_data := Ptr 1 0; sp_size := 256 |} in
  runs (fill_pkt st) (demo_worker demo_mem) (fun st' _ =>
    betoh 2 (h_agg_addr (inc (pkt (sp_pkt st')))) = 1
    /\ host_data (op (demo_sub_op 1 1 512)) (payload (pkt (sp_pkt st'))) 256 = replicate 256 17).
Proof.
  intros st.
  eapply runs_mono; [apply (fill_pkt_spec (demo_worker demo_mem) (demo_sub_op 1 1 512) st (replicate 256 17))|].
  - apply demo_sub_op_ok.
  - reflexivity.
  - cbn. lia.
  - by vm_compute.
  - by vm_compute.
  - by vm_compute.
  - by vm_compute.
  - by apply bytes_replicate.
  - by vm_compute.
  - cbn beta. intros st' s' (_ & _ & Hf & _ & Hp). split.
    + rewrite (filled_agg _ _ _ Hf). by vm_compute.
    + by apply Hp.
Defined.
