(* ===== verification/NodeDemo.v ===== *)
(** One host with two workers: a run of [Node] in which the client posts an
    all-reduce, the load balancer splits it and the first worker sends its
    part, on which the theorems of [Node] are applied. *)

From S2P Require Import Prelude.
From S2P Require Import Types.
From S2P Require Import Endian.
From S2P Require Import Config.
From S2P Require Import Congestion.
From S2P Require Import QueuePair.
From S2P Require Import LoadBalancer.
From S2P Require Import Pipeline.
From S2P Require Import Worker.
From S2P Require Import Window.
From S2P Require Import WorkerInv.
From S2P Require Import WorkerSafety.
From S2P Require Import Node.
From S2P Require Import LocalNet.
From S2P Require Import Demo.

#[local] Existing Instance small_config.
#[local] Existing Instance list_spsc.

Definition node_op : op_t := op (demo_sub_op 1 1 512).

Lemma node_op_fits : op_fits 2 1 demo_mem node_op.
Proof.
  constructor; try done. apply in_memory_iff. exists (replicate 512 17). by vm_compute.
Qed.

(** At the start, after the request, after the split, after the first worker has sent. *)
Definition node0 : node :=
  {| n_shm := new_queue_pair; n_mem := demo_mem;
     n_threads := [demo_worker demo_mem; demo_worker demo_mem]; n_posted := []; n_collected := [] |}.
Definition node1 : node :=
  {| node0 with n_shm := QueuePair [node_op] [] 1; n_posted := [node_op] |}.
Definition node2 : node :=
  match try_post_op 2 (lb_of node1) with Ok (_, lb) => with_lb node1 lb | Err _ => node1 end.
Definition first_thread (st : node) : worker :=
  default (demo_worker demo_mem) (n_threads st !! 0%nat).
Definition node3 : node :=
  match tx_process (at_mem (n_mem node2) (first_thread node2)) with
  | Ok (_, w) => {| node2 with n_mem := mem w; n_threads := <[0%nat := w]> (n_threads node2) |}
  | Err _ => node2
  end.

Lemma node0_start : node_start 2 node0.
Proof.
  constructor; try done; [apply demo_mem_bytes|]. intros i w Hw.
  assert (w = demo_worker demo_mem) as ->.
  { destruct i as [|[|i]]; cbn in Hw; by simplify_eq. }
  apply demo_start.
Qed.

Lemma node3_reachable : node_reachable 2 1 node3.
Proof.
  exists node0. split; [apply node0_start|].
  eapply (rtc_l _ _ node1); [apply (ns_post 2 1 node0 node_op); [apply node_op_fits|done]|].
  eapply (rtc_l _ _ node2).
  { destruct (try_post_op 2 (lb_of node1)) as [[b lb]|f] eqn:E; [|by vm_compute in E].
    unfold node2. rewrite E. by eapply ns_balance. }
  apply rtc_once. unfold node3.
  destruct (tx_process (at_mem (n_mem node2) (first_thread node2))) as [[[] w]|f] eqn:E;
    [|by vm_compute in E].
  apply (ns_work 2 1 node2 0 (first_thread node2)); [by vm_compute|by apply p_transmit].
Qed.

(** The first worker has a packet in flight, the second a request. *)
Example node3_state :
  window_len (first_thread node3) = 1
  /\ (length (contents (wq (qp (first_thread node3)))),
      length ∘ contents ∘ wq ∘ qp <$> n_threads node3 !! 1%nat) = (0%nat, Some 1%nat).
Proof. by vm_compute. Qed.

#[local] Opaque node3.

Lemma node_never_faults_witness :
  exists b lb, load_balancer_round 2 (lb_of node3) = Ok (b, lb) /\ rtc (node_step 2 1) node3 (with_lb node3 lb).
Proof. exact (proj1 (node_never_faults 2 ltac:(lia) 1 node3 node3_reachable)). Defined.

Lemma node_serves_in_order_witness : exists inflight,
  n_posted node3 = n_collected node3 ++ contents (cq (n_shm node3)) ++ inflight
                     ++ contents (wq (n_shm node3)).
Proof.
  destruct (node_serves_in_order 2 ltac:(lia) 1 node3 node3_reachable) as (inflight & Hp & _).
  exists inflight. exact Hp.
Defined.
