(* ===== verification/BufferedDemo.v ===== *)
(** A worker over the packet buffer and a concrete device: the theorem of
    [BufferedNet] at a run in which the device refuses every other burst. *)

From S2P Require Import Prelude.
From S2P Require Import Types.
From S2P Require Import Endian.
From S2P Require Import Config.
From S2P Require Import Congestion.
From S2P Require Import QueuePair.
From S2P Require Import ProcessBuffer.
From S2P Require Import Worker.
From S2P Require Import Window.
From S2P Require Import WorkerInv.
From S2P Require Import WorkerSafety.
From S2P Require Import Demo.
From S2P Require Import BufferedNet.

#[local] Existing Instance small_config.
#[local] Existing Instance list_spsc.

(** * A device

    It refuses every other burst and has [port_left] blank packets to deliver. *)

Record sim_port := SimPort {
  port_busy : bool;
  port_left : nat;
  port_wire : list buffer_ptr;
  port_delivered : list buffer_ptr;
}.

#[local] Instance sim_port_ops : Nic buffer_ptr := {|
  nic := sim_port;
  rte_eth_tx_burst _ _ l n :=
    if port_busy n then (0, {| n with port_busy := false |})
    else (Z.of_nat (length l), {| n with port_busy := true; port_wire := port_wire n ++ l |});
  rte_eth_rx_burst _ _ k n :=
    let k := (Z.to_nat k `min` port_left n)%nat in
    (replicate k (Received blank_mbuf),
     {| n with port_left := port_left n - k;
               port_delivered := port_delivered n ++ replicate k (Received blank_mbuf) |});
  rte_eth_rx_queue_count _ _ n := Z.of_nat (port_left n);
  rte_pktmbuf_free _ n := n;
|}.

#[local] Instance sim_port_laws : NicLaws buffer_ptr.
Proof.
  unshelve eapply (@Build_NicLaws _ sim_port_ops port_wire port_delivered); try done.
  - intros p q l n. simpl. destruct (port_busy n); simpl; lia.
  - intros p q l n. simpl. destruct (port_busy n); simpl; [by rewrite app_nil_r|].
    by rewrite Nat2Z.id, firstn_all.
  - intros p q l n. simpl. by destruct (port_busy n).
  - intros p q k n Hk. cbn -[Nat.min]. rewrite length_replicate. lia.
Defined.

#[local] Instance sim_port_arrivals : Arrivals.
Proof.
  unshelve eapply (@Build_Arrivals sim_port_ops sim_port_laws port_left); try done.
  - intros p q l n. simpl. destruct (port_busy n); simpl; lia.
  - intros p q k n Hk. cbn -[Nat.min]. rewrite length_replicate. lia.
  - intros p q k n. cbn -[Nat.min]. apply Forall_replicate.
    exists blank_mbuf. split; [done|apply blank_mbuf_ok].
Defined.

Lemma sim_port_live : live_nic 1.
Proof. intros p q [|b l] n Hl; [done|]. simpl. by destruct (port_busy n). Qed.

#[local] Instance port_transport : Transport := buffered_transport 1.
#[local] Instance port_transport_laws : TransportLaws := buffered_transport_laws 1 sim_port_live.

(** * A run *)

Definition port_worker : worker := {|
  window := {| slots := replicate 8 blank_slot; to_ack := 0; to_send := 0; left_psn := 0;
               right_psn := 0; last_ack_time_stamp := 0 |};
  qp := new_queue_pair;
  gen := {| pkt_sent := 0; start_psn := 0; pkt_cnt := 0; cur_sub_op := None |};
  group_psn := ∅;
  current_switch_window_limit := 4;
  current_group_id := 0;
  traffic_todo := false;
  ccs := {|
    cc := {| cwnd := f64_of_Z 4; target_cwnd := f64_of_Z 4; loss_ratio := f64_of_Z 0;
             adjust_cnt := 0; prev_decrease_ts := 0; prev_adjust_ts := 0 |};
    cwnd_achieved := false; cwnd_inc_cnt := 0; cwnd_dec_cnt := 0; tos_minitor := 0;
    pkt_loss_flag := false; prev_ack_cnt_cc := 0; win_cnt := replicate 8 0 |};
  global_ts := 0;
  ack_cnt := 0;
  prev_ack_cnt := 0;
  stats := {| shift_send_cnt := 0; shift_ack_cnt := 0; fast_retrans_trigger_cnt := 0;
              fast_retrans_pkt_cnt := 0; full_retrans_trigger_cnt := 0; full_retrans_pkt_cnt := 0;
              in_range_reduntant_ack_cnt := 0; out_range_reduntant_ack_cnt := 0;
              total_shift_send_cnt := 0; total_shift_ack_cnt := 0 |};
  tp := {| b_pb := PB (new_process_buffer 0 0 8 2) (SimPort true 0 [] []); b_offered := [] |};
  mem := demo_mem;
|}.

Lemma port_start : worker_start port_worker.
Proof.
  constructor.
  - constructor; cbn [window port_worker slots]; try (reflexivity || done).
    apply (Forall_replicate (fun st => mbuf_ok (sp_pkt st)) 8), blank_mbuf_ok.
  - reflexivity.
  - reflexivity.
  - apply demo_mem_bytes.
  - by apply buffered_inv_fresh.
  - reflexivity.
Qed.

Definition port_pushed : worker :=
  {| port_worker with qp := QueuePair [demo_sub_op 1 1 512] [] 1 |}.
Definition port_sent : worker :=
  match worker_loop_body 10 1 0 port_pushed with Ok (_, s) => s | Err _ => port_pushed end.

Definition loop_result {S} (o : outcome (Z * S)) : option Z :=
  match o with Ok (lt, _) => Some lt | Err _ => None end.

Lemma port_round : worker_loop_body 10 1 0 port_pushed = Ok (0, port_sent).
Proof.
  assert (loop_result (worker_loop_body 10 1 0 port_pushed) = Some 0) as E by (vm_compute; reflexivity).
  revert E. unfold port_sent. destruct (worker_loop_body 10 1 0 port_pushed) as [[lt s]|]; [|done].
  by intros [= ->].
Qed.

#[local] Opaque port_sent.

Definition port_sys (s : worker) : wsys :=
  {| ws := s; w_pushed := [demo_sub_op 1 1 512]; w_collected := []; w_log_ts := 0 |}.

Lemma port_sent_reachable : w_reachable 1 (port_sys port_sent).
Proof.
  exists port_worker. split; [apply port_start|].
  eapply rtc_l; [|eapply rtc_l; [|apply rtc_refl]].
  - apply (w_push 1 {| ws := port_worker; w_pushed := []; w_collected := []; w_log_ts := 0 |}
             (demo_sub_op 1 1 512) (qp port_pushed)); [exact demo_sub_op_ok|reflexivity|vm_compute; reflexivity].
  - apply (w_round 1 (port_sys port_pushed) 10 1 0 port_sent), port_round.
Qed.

(** Both packets have been offered; the first burst has been refused. *)
Lemma port_offered : SlotBuffer <$> (b_offered (tp port_sent)).*1 = [SlotBuffer 0; SlotBuffer 1].
Proof. vm_compute. reflexivity. Qed.

Lemma nic_gets_offers_witness : exists q,
  wire (dev (b_pb (tp port_sent))) ++ q = [SlotBuffer 0; SlotBuffer 1].
Proof.
  destruct (nic_gets_offers 1 sim_port_live 1 (port_sys port_sent) port_sent_reachable) as (q & Hq & _).
  exists q. rewrite <- port_offered. exact Hq.
Defined.
