(* ===== verification/Hazards.v ===== *)
(** Where the worker's assumptions about groups and sequence numbers matter:
    the aggregator slots of the packets in flight, the wrap of the sequence
    numbers and the switch from one group to another. *)

From S2P Require Import Prelude.
From S2P Require Import Types.
From S2P Require Import Endian.
From S2P Require Import Config.
From S2P Require Import Congestion.
From S2P Require Import QueuePair.
From S2P Require Import Worker.
From S2P Require Import Window.
From S2P Require Import WorkerInv.
From S2P Require Import Receive.
From S2P Require Import Packet.
From S2P Require Import Send.
From S2P Require Import WorkerSafety.
From S2P Require Import LocalNet.
From S2P Require Import Demo.

(** * Aggregator slots *)

Section aggregators.
Context `{ConfigOk, SpscLaws, TransportLaws}.





End aggregators.

(** * Concrete hazards *)

#[local] Existing Instance small_config.
#[local] Existing Instance list_spsc.

(** [gen_pkt] tests for an empty window with the [to_send] from before the
    loop of [shift_send], so a first burst mixes two groups: the result of the
    second group's operation is stored in the buffer of the first group's
    operation, and that operation is answered. *)
Example group_switch_corrupts :
  exists s, demo [demo_sub_op 1 1 256; demo_sub_op 2 2 256] 3 = Ok (tt, s)
    /\ contents (cq (qp s)) = [demo_sub_op 1 1 256]
    /\ buffer_read demo_mem (Ptr 1 0) 256 = Some (replicate 256 17)
    /\ buffer_read demo_mem (Ptr 2 0) 256 = Some (replicate 256 34)
    /\ buffer_read (mem s) (Ptr 1 0) 256 = Some (replicate 256 34).
Proof.
  eexists. split; [vm_compute; reflexivity|].
  split; [reflexivity|]. split; [by vm_compute|]. split; by vm_compute.
Qed.



