(* ===== verification/Examples.v ===== *)
(** The theorems on the queues, the load balancer, the packet buffers, the byte
    order and the congestion control at concrete inputs. *)

From S2P Require Import Prelude.
From S2P Require Import Types.
From S2P Require Import Endian.
From S2P Require Import Config.
From S2P Require Import Congestion.
From S2P Require Import QueuePair.
From S2P Require Import LoadBalancer.
From S2P Require Import Pipeline.
From S2P Require Import ProcessBuffer.
From S2P Require Import ProcessBufferCopy.

#[local] Existing Instance small_config.
#[local] Existing Instance list_spsc.

(** * Byte order *)

Lemma memcpy_htobe32_select_spec_witness :
  memcpy_htobe32_select [0; 0; 0; 0; 9] [1; 2; 3; 4] 4 = [4; 3; 2; 1; 9].
Proof.
  rewrite memcpy_htobe32_select_spec; [reflexivity|lia|reflexivity|by vm_compute|by vm_compute|].
  repeat constructor; unfold is_byte; lia.
Defined.

Lemma memcpy_htobe32_roundtrip_witness :
  memcpy_be32toh_select [0; 0; 0; 0] (memcpy_htobe32_select [0; 0; 0; 0] [1; 2; 3; 4] 4) 4
    = [1; 2; 3; 4].
Proof.
  apply (memcpy_htobe32_roundtrip [0; 0; 0; 0] [0; 0; 0; 0] [1; 2; 3; 4] 1);
    [reflexivity..|]. repeat constructor; unfold is_byte; lia.
Defined.

(** * Congestion control *)

Definition demo_cc : cc_state := {|
  cc := {| cwnd := f64_of_Z 8; target_cwnd := f64_of_Z 8; loss_ratio := f64_of_Z 0;
           adjust_cnt := 0; prev_decrease_ts := 0; prev_adjust_ts := 0 |};
  cwnd_achieved := false; cwnd_inc_cnt := 0; cwnd_dec_cnt := 0; tos_minitor := 3;
  pkt_loss_flag := false; prev_ack_cnt_cc := 0; win_cnt := replicate 8 0 |}.

Lemma fast_recovery_then_additive_witness :
  target_cwnd (cc (increases 2 (adjust_rate true demo_cc))) = f64_of_Z 8
  /\ target_cwnd (cc (increases 5 (adjust_rate true demo_cc))) = f64_of_Z 11.
Proof.
  destruct (fast_recovery_then_additive demo_cc 2 3) as [E1 E2]; [by vm_compute..|].
  split; [exact E1|]. change (3 + Z.to_nat CC_FAST_RECOEVERY_CNT)%nat with 5%nat in E2.
  rewrite E2. reflexivity.
Defined.

Lemma congestion_control_spec_witness :
  runs (congestion_control 100 7 true 3) demo_cc (fun _ s' =>
    prev_decrease_ts (cc s') = 100 /\ prev_ack_cnt_cc s' = 7).
Proof.
  eapply runs_mono; [apply (congestion_control_spec 100 7 true 3 demo_cc); by vm_compute|].
  cbn beta zeta. intros _ s' (_ & Hs & _).
  destruct Hs as (Hd & Ha & _); [by intros [|]; vm_compute|by left; vm_compute|].
  split; [apply Hd|exact Ha].
Defined.

Lemma one_decrease_per_reaction_time_witness :
  exists s', congestion_control 100 7 true 3 demo_cc = Ok (tt, s')
    /\ congestion_control 149 9 true 3 s' = Ok (tt, s').
Proof.
  eexists. split; [vm_compute; reflexivity|].
  apply (one_decrease_per_reaction_time 100 7 true 3 149 9 true 3 demo_cc); by vm_compute.
Defined.

(** * The queue pair *)

Lemma queue_pair_never_overflows_witness :
  exists r q', push_req 5 (@new_queue_pair list_spsc Z 4) = Ok (r, q')
    /\ (r = false <-> 0 = 4).
Proof.
  destruct (queue_pair_never_overflows (@new_queue_pair list_spsc Z 4) [] 5) as [Hp _];
    [lia|apply rtc_refl|exact Hp].
Defined.

(** * The load balancer *)

(** An all-reduce of ten integers by three workers. *)
Definition demo_op : op_t := {|
  op_code := OP_ALL_REDUCE; root := 0; op_size := 40; shm_buffer := Ptr 1 0;
  group := {| group_id := 1; g_size := 2; g_rank := 0; g_agg_addr := 100; g_agg_len := 32;
              switch_ip := 1 |};
  op_with_fut := 0 |}.

Lemma demo_op_ok : op_ok demo_op.
Proof.
  split; [|by vm_compute]. constructor; [by vm_compute..|]. constructor; by vm_compute.
Qed.

Lemma split_partitions_witness :
  sub_offset 3 demo_op 3 = 40 /\ so_size (sub_op_of 3 demo_op 0) = 16
  /\ so_size (sub_op_of 3 demo_op 1) mod 4 = 0.
Proof.
  destruct (split_partitions 3 ltac:(lia) demo_op (proj1 demo_op_ok)) as (_ & Hall & Hi).
  split; [exact Hall|]. split; [reflexivity|]. apply (Hi 1 ltac:(lia)). lia.
Defined.

Lemma agg_ranges_disjoint_witness :
  so_agg_addr (sub_op_of 3 demo_op 0) + so_agg_len (sub_op_of 3 demo_op 0)
    <= so_agg_addr (sub_op_of 3 demo_op 2).
Proof.
  apply (agg_ranges_disjoint 3 ltac:(lia) demo_op 0 2 (proj1 demo_op_ok)); cbn; lia.
Defined.

(** The load balancer with one operation posted. *)
Definition demo_lb : lb_state := {|
  shm_qp := @QueuePair list_spsc op_t QUEUE_SIZE [demo_op] [] 1;
  thread_qp := replicate 3 new_queue_pair |}.

Lemma try_post_op_spec_witness :
  runs (try_post_op 3) demo_lb (fun b s' => (b, abs_lb s') = spec_post 3 (abs_lb demo_lb)).
Proof.
  eapply runs_mono; [apply (try_post_op_spec 3 ltac:(lia) demo_lb); [reflexivity|]|].
  - intros o l [= <- _]. split; [apply demo_op_ok|]. split; [apply demo_op_ok|].
    apply (Forall_replicate _ 3). by vm_compute.
  - intros b s' [Hs _]. exact Hs.
Defined.

(** ... and with one part of it answered by each worker. *)
Definition demo_lb_answered : lb_state := {|
  shm_qp := @QueuePair list_spsc op_t QUEUE_SIZE [] [] 1;
  thread_qp := (fun i => @QueuePair list_spsc sub_op_t QUEUE_SIZE [] [sub_op_of 3 demo_op i] 1)
                 <$> seqZ 0 3 |}.

Lemma try_complete_op_spec_witness :
  runs (try_complete_op 3) demo_lb_answered (fun b s' =>
    b = true /\ contents (cq (shm_qp s')) = [demo_op]).
Proof.
  eapply runs_mono; [apply (try_complete_op_spec 3 ltac:(lia) demo_lb_answered); [reflexivity|]|].
  - intros _. split; [by vm_compute|]. repeat constructor; by vm_compute.
  - intros b s' [Hs _]. change (spec_complete (abs_lb demo_lb_answered))
      with (true, ALB (AQP [] [demo_op] 1) (replicate 3 (AQP [] [] 0))) in Hs.
    injection Hs as Hb _ Hc _ _. split; [exact Hb|exact Hc].
Defined.

(** * The pipeline *)

(** The client has posted one operation. *)
Definition demo_sys1 : sys := {|
  s_lb := {| shm_qp := @QueuePair list_spsc op_t QUEUE_SIZE [demo_op] [] 1;
             thread_qp := replicate 3 new_queue_pair |};
  s_held := replicate 3 [];
  s_posted := [demo_op];
  s_collected := [] |}.

Lemma demo_sys1_reachable : sys_reachable 3 demo_sys1.
Proof.
  apply rtc_once.
  apply (client_post 3 (sys_init 3) demo_op (shm_qp (s_lb demo_sys1)) demo_op_ok).
  reflexivity.
Qed.

Lemma pipeline_never_faults_witness :
  exists b lb', load_balancer_round 3 (s_lb demo_sys1) = Ok (b, lb').
Proof. exact (proj1 (pipeline_never_faults 3 ltac:(lia) demo_sys1 demo_sys1_reachable)). Defined.

Lemma client_fifo_witness : exists rest, [demo_op] = [] ++ rest.
Proof. exact (client_fifo 3 ltac:(lia) demo_sys1 demo_sys1_reachable). Defined.

(** * The packet buffer *)

(** Two packets waiting to be sent, two waiting at the device. *)
Definition demo_nic : sim_nic Z :=
  SimNic 0 true [30; 31] [] [].
Definition demo_buffer (txs : Z) : queue_process_buffer Z := new_process_buffer 0 0 8 txs.
Definition demo_pb : pb_state Z :=
  PB {| (demo_buffer 4) with tx_nb := 2; tx_bufs := [Some 10; Some 11; None; None] |}
     demo_nic.

Lemma demo_pb_repr : repr demo_pb [10; 11] [].
Proof. constructor; cbn; try done; lia. Qed.

Lemma receive_fifo_witness :
  runs receive demo_pb (fun o s' => exists k new r', delivered (dev s') = [] ++ new
    /\ [] ++ new = match o with Some b => b :: r' | None => r' end
    /\ wire (dev s') = [] ++ take k [10; 11]).
Proof.
  eapply runs_mono; [apply (receive_fifo demo_pb [10; 11] [] demo_pb_repr)|].
  intros o s' (k & new & r' & _ & _ & Hw & Hd & Ho & _). exists k, new, r'. by split_and!.
Defined.

Lemma send_fifo_witness :
  runs (send 2 12) demo_pb (fun _ s' => exists q', wire (dev s') ++ q' = [10; 11; 12]).
Proof.
  eapply runs_mono; [apply (send_fifo 1 demo_pb [10; 11] [] 12 sim_nic_live demo_pb_repr)|].
  intros _ s' (q' & _ & _ & _ & Hw). exists q'. exact Hw.
Defined.

Lemma flush_sends_all_witness :
  runs (flush 4) demo_pb (fun _ s' => wire (dev s') = [10; 11] /\ repr s' [] []).
Proof.
  eapply runs_mono; [apply (flush_sends_all 1 demo_pb [10; 11] [] sim_nic_live demo_pb_repr)|].
  intros _ s' (Hr & [Hw _] & _). split; [exact Hw|exact Hr].
Defined.

(** * The unused packet buffer *)

(** A full buffer in front of a device that refuses the offer. *)
Definition demo_full : pb_state Z :=
  PB {| (demo_buffer 2) with tx_nb := 2; tx_bufs := [Some 256; Some 513] |} demo_nic.

Lemma copy_send_out_of_bounds_witness : copy_send 7 demo_full = Err OutOfBounds.
Proof. apply (copy_send_out_of_bounds demo_full 7). reflexivity. Defined.

(** The same buffer in front of a device that takes one packet. *)
Definition demo_one : pb_state Z :=
  PB (pb demo_full) (SimNic 0 false [] [] []).

Lemma copy_flush_once_corrupts_witness : exists s',
  copy_flush_once demo_one = Ok (tt, s') /\ tx_bufs (pb s') !! 0%nat <> Some (Some 513).
Proof.
  eexists. split; [vm_compute; reflexivity|].
  refine (proj2 (proj2 (copy_flush_once_corrupts demo_one 256 513 [] _ _ _ _ _ _ _ _ _)));
    by vm_compute.
Defined.
