(* ===== verification/MainDemo.v ===== *)
(** A concrete host and a simulated device on which [Host] and [Main] run: the
    theorems of the two files at concrete inputs. *)

From stdpp Require Import strings sorting.
From S2P Require Import Prelude.
From S2P Require Import Types.
From S2P Require Import Config.
From S2P Require Import Host.
From S2P Require Import Main.

#[local] Open Scope Z_scope.

(** * A device that records what it is told *)

Record sim_dev := {
  sd_queues : Z * Z;
  sd_pools : gmap Z string;
  sd_tx : gmap Z Z;
  sd_started : bool;
  sd_rules : list flow_rule;
  sd_launched : list (Z * Z);
}.

Definition done_with (d : sim_dev) : Z * sim_dev := (0, d).

Definition sim_dpdk : Dpdk := {|
  dpdk := sim_dev;
  pool := string;
  eal_init _ d := done_with d;
  pktmbuf_pool_create name _ _ _ d := (Some name, d);
  dev_count_avail _ := 1;
  dev_get_port_by_name _ _ := (0, 0);
  dev_is_valid_port _ _ := true;
  dev_info_get _ _ := (0, 0);
  dev_configure _ rx tx _ d := done_with {| d with sd_queues := (rx, tx) |};
  adjust_nb_desc _ rx tx _ := (0, (rx, tx));
  rx_queue_setup _ q _ m d := done_with
    match m with Some m => {| d with sd_pools := <[q := m]> (sd_pools d) |} | None => d end;
  tx_queue_setup _ q n _ d := done_with {| d with sd_tx := <[q := n]> (sd_tx d) |};
  dev_start _ d := done_with {| d with sd_started := true |};
  macaddr_get _ _ := 0;
  promiscuous_enable _ d := done_with d;
  flow_validate _ _ _ := 0;
  rte_flow_create _ r d := (true, {| d with sd_rules := sd_rules d ++ [r] |});
  remote_launch l w d := done_with {| d with sd_launched := sd_launched d ++ [(l, w)] |};
  TX_OFFLOAD_MBUF_FAST_FREE := 2 ^ 16;
  RTE_PKTMBUF_HEADROOM := 128;
  RTE_MBUF_DEFAULT_BUF_SIZE := 2176;
|}.

Definition sim_cfg (d : sim_dev) : @port_cfg sim_dpdk :=
  @Build_port_cfg sim_dpdk (sd_queues d) (sd_pools d) (sd_tx d) (sd_started d) (sd_rules d).

(** The NIC takes a matching rule of the highest priority. *)
Definition sim_action (d : sim_dev) (p : netccl_pkt) (a : flow_action) : Prop :=
  exists r, r ∈ sd_rules d /\ pattern_matches (pattern r) p /\ head (actions r) = Some a
    /\ forall r', r' ∈ sd_rules d -> pattern_matches (pattern r') p ->
         attr_priority r <= attr_priority r'.

Definition sim_laws : @DpdkLaws sim_dpdk.
Proof.
  refine (@Build_DpdkLaws sim_dpdk (fun _ => True) (fun _ => sim_cfg) sd_launched
    (fun _ => sim_action) _ _ _ _ _ _ _ _ _ _ _ _ _ _ _ _ _); try done.
Defined.

#[local] Existing Instance sim_dpdk.
#[local] Existing Instance sim_laws.

(** The configuration of the other examples with bursts of 8 packets. *)
#[local] Instance main_config : Config := {|
  MAX_WIN_LEN := 8; MAX_PKT_BURST := 8; INVALID_POSITION := -1; TIMEOUT_TIME := 1000;
  CC_REACTION_TIME := 50; CC_FAST_RECOEVERY_CNT := 2;
  CC_CWND_MIN := f64_of_Z 4; CC_G := f64_of_Z 0; CC_AI := f64_of_Z 1; CC_HI := f64_of_Z 2;
  CC_HYPER_INCREASE := false; cc_reinit ts c := c; GROUP_PSN_INIT := 0;
|}.

(** * A host with 8 CPUs on two sockets *)

#[local] Instance demo_net : NetConfig := {|
  IPPROTO_NETCCL := 200; RX_BUFFER_CACHE := 32; has_tx_queue_count := false |}.

Definition demo_ifs : list ifaddr :=
  [{| ifa_name := "lo"; ifa_addr := Some (AF_INET, 127) |};
   {| ifa_name := "ens10f1"; ifa_addr := Some (AF_INET, 10) |};
   {| ifa_name := "tun0"; ifa_addr := None |}].

Definition demo_aton (ip : string) : option Z :=
  if decide (ip = "10.0.0.1"%string) then Some 10 else None.

#[local] Instance demo_host : HostInfo := {|
  inet_aton := demo_aton;
  getifaddrs := Some demo_ifs;
  get_pci_by_dev d := if decide (d = "ens10f1"%string) then "0000:e3:00.1"%string else EmptyString;
  get_socket_by_pci _ := 1;
  socket_list := [0; 0; 1; 1; 0; 0; 1; 1];
  ipv4_to_int _ := 167772161;
  shm_exists := true;
  shm_queue_pair := true;
|}.

(** * The theorems at this host *)

Lemma get_dev_by_ip_spec_witness :
  get_dev_by_ip demo_aton (Some demo_ifs) "10.0.0.1" = Ok "ens10f1"%string.
Proof.
  destruct (get_dev_by_ip_spec demo_aton "10.0.0.1" 10 demo_ifs) as [Hs|(Ha & _)].
  - reflexivity.
  - destruct Hs as (pre & i & post & _ & _ & _ & [[_ Hr]|[_ Hr]]); vm_compute in Hr |- *; congruence.
  - exfalso. apply (Forall_lookup_1 _ _ 2 {| ifa_name := "tun0"; ifa_addr := None |}) in Ha;
      [|reflexivity]. by destruct Ha.
Defined.

Lemma cpu_list_on_node_spec_witness :
  exists l, cpu_list_on_node [0; 0; 1; 1; 0; 0; 1; 1] 1 3 = Ok l /\ StronglySorted Z.gt l.
Proof.
  pose proof (cpu_list_on_node_spec [0; 0; 1; 1; 0; 0; 1; 1] 1 3) as Hs.
  exists [7; 6; 3]. split; [reflexivity|]. apply Hs; [done|repeat constructor; lia].
Defined.

Definition sim_start : main_state := {|
  dp := {| sd_queues := (0, 0); sd_pools := ∅; sd_tx := ∅; sd_started := false;
           sd_rules := []; sd_launched := [] |} : dpdk;
  drop_rule := true;
  thread_ctx := [];
|}.

(** Three threads: the load balancer and two workers. *)
Lemma dpdk_init_steers_witness :
  host_ok 3 "10.0.0.1" /\ fresh sim_start
  /\ runs (dpdk_init 3 (3 - 1) "10.0.0.1") sim_start (fun _ s' =>
       launched (dp s') = [(1, 0); (2, 1)]).
Proof.
  assert (host_ok 3 "10.0.0.1") as Hh.
  { constructor; [|done|lia|done]. exists "ens10f1"%string. split_and!; [done..|].
    by exists [7; 6; 3]. }
  assert (fresh sim_start) as Hf by done. split_and!; [done..|].
  eapply runs_mono; [apply (dpdk_init_steers 3 "10.0.0.1" sim_start); [|done..]|].
  - vm_compute. split; congruence.
  - cbn beta. intros _ s' (port & _ & Hl & _). exact Hl.
Defined.

Lemma flow_rules_collide_witness :
  prefill_ip_hdr "10.0.0.1" 0 = prefill_ip_hdr "10.0.0.1" 64.
Proof. apply (flow_rules_collide "10.0.0.1" 0 64); [vm_compute; split; congruence|reflexivity]. Defined.
