(* ===== verification/StreamDemo.v ===== *)
(** Two hosts and a switch: a run of [Protocol] from the first packet to the
    first result, on which the theorems of [Protocol] and [Progress] are
    applied. *)

From S2P Require Import Prelude.
From S2P Require Import Types.
From S2P Require Import Switch.
From S2P Require Import Aggregation.
From S2P Require Import Protocol.
From S2P Require Import Progress.

(** * The group *)

(** In a reduction host [r] sends [r + 1] in the even and [10 (r + 1)] in the odd
    lanes; in a broadcast host 0 sends the bytes 17, host 1 nothing. *)
Definition demo_value (reduce : bool) (r : Z) : agg_pair :=
  if reduce then (r + 1, 10 * (r + 1))
  else if r =? 0 then (286331153, 286331153) else (0, 0).

Section run.
Variable reduce : bool.

Definition demo_lanes (r : Z) : list agg_pair := replicate 32 (demo_value reduce r).

Definition demo_packet (r p : Z) : headers := {|
  pass_cnt := 1; enable_multicast := 0; internal_valid := true;
  dmac := 0; smac := r; dscp_ecn := 1; ip_length := 286; sip := r; dip := 254;
  netccl_valid := true; coll_type := 1; n_group_id := 1; rank := r; n_root := 0;
  n_agg_addr := 8 + p mod 4; psn := p; payload_valid := true; lanes := demo_lanes r;
|}.

(** The tables and the registers as [CreateGroup] leaves them for two members. *)
Definition demo_tables : tables := {|
  metadata_table := {[ 1 := 3 ]};
  recirculate_table := {[ 1 := 140 ]};
  l2_forward_table := ∅;
  restore_table := <[(1, 1) := (3232236030, 3232235778)]> {[ (1, 0) := (3232236030, 3232235777) ]};
  restore_smac_table := ∅; restore_dmac_table := ∅;
|}.

Definition demo_regs : registers := {|
  reg_bitmap := foldl (fun m i => <[i := (0, 0)]> m) ∅ (seqZ 0 1024);
  aggregators := ∅;
|}.

#[local] Instance demo_stream : Stream := {|
  tbl := demo_tables; grp := 1; n_hosts := 2; base_addr := 8; range_len := 4; max_win := 2;
  host_packet := demo_packet;
|}.

Lemma demo_cell b p k :
  0 <= (cell b p k).1 <= 600000000 /\ 0 <= (cell b p k).2 <= 600000000.
Proof.
  assert (forall r, 0 <= r <= 1 ->
    0 <= (lane r p k).1 <= 300000000 /\ 0 <= (lane r p k).2 <= 300000000) as Hl.
  { intros r Hr. unfold lane. change (lanes (host_packet r p)) with (demo_lanes r). unfold demo_lanes.
    destruct (decide (k < 32)%nat).
    - rewrite lookup_total_replicate_2 by done. unfold demo_value.
      destruct reduce; [simpl; lia|]. destruct (r =? 0); simpl; lia.
    - rewrite list_lookup_total_alt.
      assert (replicate 32 (demo_value reduce r) !! k = None) as ->
        by (apply lookup_ge_None_2; rewrite length_replicate; lia).
      simpl. lia. }
  pose proof (Hl 0 ltac:(lia)). pose proof (Hl 1 ltac:(lia)).
  unfold cell, psum. change (seqZ 0 n_hosts) with [0; 1]. cbn [fmap list_fmap sumZ foldr fst snd].
  destruct (Z.testbit b 0), (Z.testbit b 1); lia.
Qed.

Lemma demo_group_ok : group_ok.
Proof.
  constructor; simpl; try lia; try done.
  intros b p k _. pose proof (demo_cell b p k) as Hc. unfold cell in Hc. cbn [fst snd] in Hc.
  unfold fits, int32_min, int32_max. lia.
Qed.

(** * A run *)

Definition demo_host : host := {| h_base := 0; h_next := 0; h_results := ∅ |}.

Definition t0 : system := {|
  regs := demo_regs;
  hosts := fun _ => demo_host; up := fun _ => [];
  recirculating := []; answers := []; seen := fun _ => -1; completed := [];
|}.

Definition send (s : system) (r : Z) : system :=
  let h := hosts s r in
  {| s with hosts := upd (hosts s) r {| h with h_next := h_next h + 1 |};
            up := upd (up s) r (up s r ++ [h_next h]) |}.

(** One packet through the switch. *)
Definition pass (h : headers) (s : system) : verdict * headers * registers := ingress tbl h (regs s).

(** The switch takes packet [p], the only one on the way of host [r]. *)
Definition take_up (s : system) (r p : Z) : system :=
  {| s with regs := (pass (host_packet r p) s).2; up := upd (up s) r [];
            seen := upd (seen s) r (Z.max (seen s r) p) |}.

Definition take_last (s : system) (r p : Z) : system :=
  {| s with regs := (pass (host_packet r p) s).2; up := upd (up s) r [];
            recirculating := recirculating s ++
              option_list (egress tbl 0 false false (pass (host_packet r p) s).1.2);
            seen := upd (seen s) r (Z.max (seen s r) p); completed := p :: completed s |}.

Definition take_second (s : system) (h : headers) : system :=
  {| s with regs := (pass h s).2; recirculating := []; answers := answers s ++ [(pass h s).1.2] |}.

Definition take_answer (s : system) (r : Z) (h : headers) : system :=
  {| s with hosts := upd (hosts s) r {| (hosts s r) with h_results :=
      <[psn h := if payload_valid h then Some (lanes h) else None]> (h_results (hosts s r)) |} |}.

Lemma pass_eta {A B C} (o : A * B * C) v : o.1.1 = v -> o = (v, o.1.2, o.2).
Proof. destruct o as [[? ?] ?]. by intros <-. Qed.

Lemma take_up_step s r p :
  is_host r -> up s r = [p] -> fresh s r p -> (pass (host_packet r p) s).1.1 = Drop ->
  step s (take_up s r p).
Proof.
  intros Hr Hu Hf Hv. apply (step_drop s r [] p [] tbl (pass (host_packet r p) s).1.2); try done.
  exact (pass_eta _ _ Hv).
Qed.

Lemma take_last_step s r p port :
  is_host r -> up s r = [p] -> fresh s r p -> (pass (host_packet r p) s).1.1 = Unicast port ->
  step s (take_last s r p).
Proof.
  intros Hr Hu Hf Hv.
  apply (step_recirculate s r [] p [] tbl port (pass (host_packet r p) s).1.2 (pass (host_packet r p) s).2
    tbl 0 false false); try done.
  exact (pass_eta _ _ Hv).
Qed.

Lemma take_second_step s h : recirculating s = [h] -> step s (take_second s h).
Proof. intros E. apply (step_second s [] h [] tbl (pass h s).1.1); [done|]. by apply pass_eta. Qed.

Definition t2 : system := send (send t0 0) 1.
Definition t3 : system := take_up t2 0 0.
Definition t4 : system := take_last t3 1 0.
Definition h4 : headers := default (demo_packet 0 0) (head (recirculating t4)).
Definition t5 : system := take_second t4 h4.
Definition h5 : headers := (pass h4 t4).1.2.
Definition h6 (r : Z) : headers := default h5 (egress tbl r false false h5).
(** Host [r] takes the answer. *)
Definition t6 (r : Z) : system := take_answer t5 r (h6 r).

Lemma demo_run r : r = 0 \/ r = 1 -> rtc step t0 (t6 r).
Proof.
  intros Hr.
  assert (forall r, 0 <= r < 2 -> is_host r) as Hh by done.
  apply (rtc_l _ _ (send t0 0)); [by apply (step_send t0 0 _ (Hh 0 ltac:(lia)) eq_refl)|].
  apply (rtc_l _ _ t2); [by apply (step_send (send t0 0) 1 _ (Hh 1 ltac:(lia)) eq_refl)|].
  apply (rtc_l _ _ t3); [apply take_up_step; [apply Hh; lia|reflexivity|reflexivity|vm_compute; reflexivity]|].
  apply (rtc_l _ _ t4).
  { apply (take_last_step t3 1 0 140); [apply Hh; lia|reflexivity|reflexivity|destruct reduce; vm_compute; reflexivity]. }
  apply (rtc_l _ _ t5); [apply take_second_step; destruct reduce; vm_compute; reflexivity|].
  apply rtc_once. apply (step_answer t5 r h5 tbl r false (h6 r) (Hh r ltac:(lia))).
  - apply elem_of_app. right. by left.
  - destruct Hr as [->| ->], reduce; vm_compute; reflexivity.
  - destruct Hr as [->| ->], reduce; vm_compute; split; congruence.
  - destruct Hr as [->| ->], reduce; vm_compute; reflexivity.
Qed.

Lemma demo_reachable r : r = 0 \/ r = 1 -> reachable (t6 r).
Proof.
  intros Hr. exists t0. split; [|by apply demo_run].
  assert (forall a, base_addr <= a < base_addr + range_len ->
    bitmap_at demo_regs a = (0, 0) /\ length (cells_at demo_regs a) = 32%nat) as Ha.
  { intros a Ha. simpl in Ha.
    assert (a = 8 \/ a = 9 \/ a = 10 \/ a = 11) as [->|[->|[->| ->]]] by lia; split; vm_compute; reflexivity. }
  split; [apply Ha|]. split; [apply Ha|]. repeat split.
Qed.
End run.

#[export] Instance sum_stream : Stream := demo_stream true.
Definition s6 : system := t6 true 0.

Lemma s6_run : rtc step t0 s6.
Proof. apply (demo_run true). by left. Qed.

Lemma s6_reachable : reachable s6.
Proof. apply (demo_reachable true). by left. Qed.

#[local] Opaque t6 s6.

(** * A packet that comes too late *)

(** Both hosts send packet 4; before the sum has come back to the switch for its
    second pass, a copy of packet 0 of host 0 arrives, which [fresh] excludes:
    it starts the aggregator anew, and the answer has wrong odd lanes. *)
Definition stale_answer : option headers :=
  let r1 := (ingress demo_tables (demo_packet true 0 4) demo_regs).2 in
  let '(_, h, r2) := ingress demo_tables (demo_packet true 1 4) r1 in
  let r3 := (ingress demo_tables (demo_packet true 0 0) r2).2 in
  h' ← egress demo_tables 0 false false h;
  Some (ingress demo_tables h' r3).1.2.

Example stale_packet_corrupts :
  psn <$> stale_answer = Some 4 /\ lanes <$> stale_answer = Some (replicate 32 (3, 10)).
Proof. split; vm_compute; reflexivity. Qed.

(** * The theorems at this run *)

Lemma aggregation_correct_witness :
  h_results (hosts s6 0) !! 0 = Some (Some (replicate 32 (3, 30)))
  /\ replicate 32 (3, 30) = total everyone 0.
Proof.
  assert (h_results (hosts s6 0) !! 0 = Some (Some (replicate 32 (3, 30)))) as E
    by (vm_compute; reflexivity).
  split; [exact E|]. apply (aggregation_correct s6 0 0); [apply (demo_group_ok true)|apply s6_reachable| |exact E].
  split; reflexivity || discriminate.
Defined.

Lemma hosts_in_step_witness : h_base (hosts s6 0) <= h_next (hosts s6 1).
Proof.
  apply (hosts_in_step s6 0 1); [apply (demo_group_ok true)|apply s6_reachable|..];
    split; reflexivity || discriminate.
Defined.

Lemma slowest_host_advances_witness :
  exists s', rtc step s6 s' /\ h_base (hosts s' 1) = h_base (hosts s6 1) + 1.
Proof.
  apply slowest_host_advances; [apply (demo_group_ok true)|apply s6_reachable|..].
  - split; reflexivity || discriminate.
  - vm_compute. reflexivity.
  - intros r Hr. assert (r = 0 \/ r = 1) as [-> | ->] by (unfold is_host in Hr; simpl in Hr; lia);
      vm_compute; discriminate.
Defined.
