(* ===== verification/WireDemo.v ===== *)
(** A run of two hosts with the bytes in their buffers: the theorems of
    [Wire] at the runs of [StreamDemo]. *)

From S2P Require Import Prelude.
From S2P Require Import Types.
From S2P Require Import Endian.
From S2P Require Import Config.
From S2P Require Import Congestion.
From S2P Require Import QueuePair.
From S2P Require Import Worker.
From S2P Require Import WorkerInv.
From S2P Require Import Receive.
From S2P Require Import Packet.
From S2P Require Import Switch.
From S2P Require Import Aggregation.
From S2P Require Import Protocol.
From S2P Require Import Wire.
From S2P Require Import Demo.
From S2P Require Import StreamDemo.

(** * A packet *)

(** A packet buffer as [dpdk_init] leaves it: IPv4, protocol 254. *)
Definition prefilled_mbuf : mbuf :=
  {| data_len := 0; pkt_len := 0;
     pkt := {| (pkt blank_mbuf) with
       ether_type := htobe 2 IP_PROTOCOL;
       ip := {| (ip (pkt blank_mbuf)) with next_proto_id := NETCCL_PROTOCOL |} |} |}.

Lemma switch_reads_worker_packet_witness :
  let st := {| blank_slot with sp_pkt := prefilled_mbuf; sp_sub_op := Some (demo_sub_op 1 1 512);
                               sp_psn := 9; sp_data := Ptr 1 0; sp_size := 256 |} in
  runs (fill_pkt st) (demo_worker demo_mem) (fun st' _ =>
    let h := parse 0 0 (pkt (sp_pkt st')) in
    pass_cnt h = 1 /\ n_agg_addr h = 1 /\ lanes h = replicate 32 (286331153, 286331153)).
Proof.
  intros st.
  eapply runs_mono;
    [apply (switch_reads_worker_packet (demo_worker demo_mem) (demo_sub_op 1 1 512) st (replicate 256 17) 0 0)|].
  - apply demo_sub_op_ok.
  - reflexivity.
  - cbn. lia.
  - by vm_compute.
  - by vm_compute.
  - by vm_compute.
  - by vm_compute.
  - by apply bytes_replicate.
  - by vm_compute.
  - by vm_compute.
  - by vm_compute.
  - cbn beta. intros st' s' (Hp & _ & _ & _ & _ & Ha & _ & _ & Hl). split; [exact Hp|].
    split; [rewrite Ha; by vm_compute|rewrite Hl; by vm_compute].
Defined.

(** * A reduction and a broadcast *)

Definition demo_op (code r : Z) : op_t :=
  {| op_code := code; root := 0; op_size := 256; shm_buffer := Ptr 1 0;
     group := {| group_id := 1; g_size := 2; g_rank := r; g_agg_addr := 8; g_agg_len := 4;
                 switch_ip := 1 |};
     op_with_fut := 0 |}.

(** The buffer of host [r], as [demo_value] says it. *)
Definition demo_bytes (reduce : bool) (r : Z) : list Z :=
  if reduce then concat (replicate 32 (le_bytes 4 (r + 1) ++ le_bytes 4 (10 * (r + 1))))
  else replicate 256 17.

Lemma demo_hosts r : is_host r -> r = 0 \/ r = 1.
Proof. unfold is_host. simpl. lia. Qed.

Lemma demo_bytes_ok reduce r : Forall is_byte (demo_bytes reduce r).
Proof.
  destruct reduce; [|by apply bytes_replicate]. apply Forall_concat, Forall_replicate, Forall_app.
  split; apply le_bytes_bytes.
Qed.

Lemma sum_packet_data :
  packet_data (str := sum_stream) (demo_op OP_ALL_REDUCE) (fun _ => replicate 256 0)
    (demo_bytes true) 256 0.
Proof.
  constructor.
  - by vm_compute.
  - done.
  - intros r Hr. split; [|apply demo_bytes_ok]. by destruct (demo_hosts r Hr) as [->| ->].
  - intros r Hr. destruct (demo_hosts r Hr) as [->| ->]; by vm_compute.
Qed.

Lemma cast_packet_data :
  packet_data (str := demo_stream false) (demo_op OP_BROADCAST) (fun _ => replicate 256 0)
    (demo_bytes false) 256 0.
Proof.
  constructor.
  - by vm_compute.
  - done.
  - intros r Hr. split; [done|apply demo_bytes_ok].
  - intros r Hr. destruct (demo_hosts r Hr) as [->| ->]; by vm_compute.
Qed.

Lemma reduction_sums_buffers_witness :
  h_results (hosts s6 0) !! 0 = Some (Some (replicate 32 (3, 30)))
  /\ result_bytes 256 (demo_op OP_ALL_REDUCE 0) (replicate 32 (3, 30))
     = concat (replicate 32 (le_bytes 4 3 ++ le_bytes 4 30)).
Proof.
  split; [vm_compute; reflexivity|].
  etrans; [apply (reduction_sums_buffers (str := sum_stream) (demo_op OP_ALL_REDUCE)
    (fun _ => replicate 256 0) (demo_bytes true) 256 0 s6 0)|by vm_compute].
  - apply (demo_group_ok true).
  - apply s6_reachable.
  - split; done.
  - apply sum_packet_data.
  - done.
  - done.
  - vm_compute. reflexivity.
Defined.

Lemma broadcast_copies_buffer_witness :
  h_results (hosts (t6 false 1) 1) !! 0 = Some (Some (demo_lanes false 0))
  /\ result_bytes 256 (demo_op OP_BROADCAST 1) (demo_lanes false 0) = replicate 256 17.
Proof.
  split; [vm_compute; reflexivity|].
  apply (broadcast_copies_buffer (str := demo_stream false) (demo_op OP_BROADCAST)
    (fun _ => replicate 256 0) (demo_bytes false) 256 0 (t6 false 1) 1 0).
  - apply (demo_group_ok false).
  - apply demo_reachable. by right.
  - split; done.
  - split; done.
  - apply cast_packet_data.
  - done.
  - intros r Hr Hne. destruct (demo_hosts r Hr) as [E0|E0]; [by destruct Hne|]. rewrite E0. reflexivity.
  - reflexivity.
  - reflexivity.
  - by apply bytes_replicate.
  - vm_compute. reflexivity.
Defined.
