(* ===== verification/ClusterDemo.v ===== *)
(** Two workers and a switch: a run of [Cluster] in which both workers send the
    first packet of an all-reduce and the switch answers it, on which the
    theorems of [ClusterTheorems] are applied. *)

From stdpp Require Import sorting.
From S2P Require Import Prelude.
From S2P Require Import Types.
From S2P Require Import Endian.
From S2P Require Import Config.
From S2P Require Import Congestion.
From S2P Require Import QueuePair.
From S2P Require Import Worker.
From S2P Require Import Window.
From S2P Require Import WorkerInv.
From S2P Require Import Receive.
From S2P Require Import Packet.
From S2P Require Import Send.
From S2P Require Import WorkerSafety.
From S2P Require Import LocalNet.
From S2P Require Import Switch.
From S2P Require Import Aggregation.
From S2P Require Import Protocol.
From S2P Require Import Wire.
From S2P Require Import Cluster.
From S2P Require Import ClusterTheorems.
From S2P Require Import Slices.
From S2P Require Import Delivery.
From S2P Require Import AllReduce.
From S2P Require Import Demo.
From S2P Require Import StreamDemo.
From S2P Require Import WireDemo.

#[local] Existing Instance small_config.
#[local] Existing Instance list_spsc.

(** * The workers *)

Definition pair_mem (r : Z) : gmap Z (list Z) := {[ 1 := demo_bytes true r ]}.

Definition pair_op (r : Z) : sub_op_t := {|
  op := demo_op OP_ALL_REDUCE r; so_data := Ptr 1 0; so_size := 256;
  so_agg_addr := 8; so_agg_len := 4 |}.

Definition pair_slot : pkt_state_t := {| blank_slot with sp_pkt := prefilled_mbuf |}.

Definition pair_worker (r : Z) : worker :=
  {| (demo_worker (pair_mem r)) with
     window := {| (window (demo_worker ∅)) with slots := replicate 8 pair_slot |};
     current_switch_window_limit := 2 |}.

(** Packet [p] of the worker of host [r], as the switch parses it. *)
Definition pair_state (r p : Z) : pkt_state_t :=
  {| pair_slot with sp_sub_op := Some (pair_op r); sp_psn := p; sp_data := Ptr 1 0; sp_size := 256 |}.
Definition pair_packet (r p : Z) : headers :=
  match fill_pkt (pair_state r p) (pair_worker r) with
  | Ok (st, _) => parse 0 r (pkt (sp_pkt st))
  | Err _ => demo_packet true r p
  end.

#[local] Instance pair_stream : Stream := {|
  tbl := demo_tables; grp := 1; n_hosts := 2; base_addr := 8; range_len := 4; max_win := 2;
  host_packet := pair_packet;
|}.

Lemma pair_hosts r : is_host r -> r = 0 \/ r = 1.
Proof. unfold is_host. simpl. lia. Qed.

Lemma pair_op_ok r : r = 0 \/ r = 1 -> sub_op_ok (pair_mem r) (pair_op r).
Proof.
  intros [-> | ->]; (constructor; cbn [pair_op so_size so_agg_len so_agg_addr so_data op]; try (done || lia);
    apply in_memory_iff; eexists; split; [by apply lookup_singleton_eq|]; by vm_compute).
Qed.

Lemma pair_reads r p :
  r = 0 \/ r = 1 -> 0 <= p < 2 ^ 32 ->
  let h := host_packet r p in
  pass_cnt h = 1 /\ netccl_valid h = true /\ n_group_id h = 1 /\ rank h = r /\ psn h = p
  /\ n_agg_addr h = 8 + p mod 4 /\ length (lanes h) = 32%nat /\ lanes h = demo_lanes true r.
Proof.
  intros Hr Hp. cbv zeta. cbn [host_packet pair_stream]. unfold pair_packet.
  destruct (parse_filled (pair_worker r) (pair_op r) (pair_state r p) (demo_bytes true r) 0 r)
    as (st & s & Hrun & H1 & H2 & H3 & H4 & H5 & H6 & _ & H7 & H8).
  - by apply pair_op_ok.
  - done.
  - done.
  - by vm_compute.
  - by vm_compute.
  - by vm_compute.
  - destruct Hr as [-> | ->]; by vm_compute.
  - apply demo_bytes_ok.
  - by vm_compute.
  - by vm_compute.
  - by vm_compute.
  - rewrite Hrun. split_and!; try done. rewrite H8. destruct Hr as [-> | ->]; by vm_compute.
Qed.

Lemma pair_group_ok : group_ok.
Proof.
  constructor; try (simpl; lia || done).
  - intros r p Hr Hp. destruct (pair_reads r p (pair_hosts r Hr) Hp) as (? & ? & ? & ? & ? & ? & ? & _).
    by split_and!.
  - intros b p k Hp.
    assert (cell b p k = cell (str := demo_stream true) b p k) as ->.
    { unfold cell, psum, lane. change (seqZ 0 n_hosts) with [0; 1]. cbn [fmap list_fmap].
      destruct (pair_reads 0 p (or_introl eq_refl) Hp) as (_ & _ & _ & _ & _ & _ & _ & ->).
      destruct (pair_reads 1 p (or_intror eq_refl) Hp) as (_ & _ & _ & _ & _ & _ & _ & ->). done. }
    pose proof (demo_cell true b p k). unfold fits, int32_min, int32_max. lia.
Qed.

(** * The run *)

(** The Ethernet addresses of the packets. *)
Definition zero_mac (_ : Z) : Z := 0.
Definition host_mac (r : Z) : Z := r.

Definition outcome_worker (w : worker) (o : outcome (unit * worker)) : worker :=
  match o with Ok (_, w') => w' | Err _ => w end.

Definition pushed (r : Z) : worker :=
  {| (pair_worker r) with qp := QueuePair [pair_op r] [] 1 |}.
Definition sent (r : Z) : worker := outcome_worker (pushed r) (tx_process (pushed r)).

Definition k0 : cluster := {|
  workers := pair_worker; c_regs := {| reg_bitmap := ∅; aggregators := ∅ |};
  c_up := fun _ => []; c_recirculating := []; c_answers := []; c_next := fun _ => 0;
  c_given := fun _ => []; c_seen := fun _ => -1 |}.

(** [c], after host [r] has been handed its part of the all-reduce. *)
Definition hand (c : cluster) (r : Z) : cluster :=
  {| (advance c r (pushed r) 0) with c_given := upd (c_given c) r (c_given c r ++ [pair_op r]) |}.

Definition k2 : cluster := hand (hand k0 0) 1.
Definition k3 : cluster := advance k2 0 (sent 0) 1.
Definition k4 : cluster := advance k3 1 (sent 1) 1.

(** The packet of host [r] in the switch. *)
Definition up_packet (r : Z) : headers := pair_packet r 0.
Definition first (c : cluster) (r : Z) : verdict * headers * registers :=
  ingress tbl (up_packet r) (c_regs c).
Definition k5 : cluster := {| k4 with c_regs := (first k4 0).2; c_up := upd (c_up k4) 0 [];
  c_seen := seen_with zero_mac host_mac k4 0 (sp_pkt (default blank_slot (slots (window (sent 0)) !! 0%nat))) |}.
Definition k6 : cluster := {| k5 with
  c_regs := (first k5 1).2; c_up := upd (c_up k5) 1 [];
  c_seen := seen_with zero_mac host_mac k5 1 (sp_pkt (default blank_slot (slots (window (sent 1)) !! 0%nat)));
  c_recirculating := c_recirculating k5 ++ option_list (egress tbl 0 false false (first k5 1).1.2) |}.
Definition back : headers := default (up_packet 0) (head (c_recirculating k6)).
Definition second : verdict * headers * registers := ingress tbl back (c_regs k6).
Definition k7 : cluster := {| k6 with
  c_regs := second.2; c_recirculating := [] ++ []; c_answers := c_answers k6 ++ [second.1.2] |}.

(** The answer to host 0, as it arrives. *)
Definition answer_0 : headers := default second.1.2 (egress tbl 0 false false second.1.2).
Definition answer_mbuf : mbuf :=
  let m := default blank_mbuf (head (c_up k4 0)) in
  {| m with pkt := {| (pkt m) with payload := deparse_lanes (lanes answer_0) |} |}.

Lemma pair_slots_ok : Forall (fun st => mbuf_ok (sp_pkt st)) (replicate 8 pair_slot).
Proof.
  apply (Forall_replicate (fun st => mbuf_ok (sp_pkt st)) 8). split; [by vm_compute|].
  by apply bytes_replicate.
Qed.

Lemma pair_start r : worker_start (pair_worker r).
Proof.
  constructor.
  - constructor; cbn [window pair_worker slots]; try (reflexivity || done). apply pair_slots_ok.
  - reflexivity.
  - reflexivity.
  - intros b l. cbn [mem pair_worker demo_worker]. unfold pair_mem.
    intros [_ <-]%lookup_singleton_Some. apply demo_bytes_ok.
  - constructor.
  - reflexivity.
Qed.

Lemma k0_initial : c_initial k0.
Proof.
  constructor.
  - intros r _. apply pair_start.
  - intros r _. by vm_compute.
  - intros r _. by vm_compute.
  - intros a _. reflexivity.
  - intros a _. reflexivity.
  - intros r. reflexivity.
  - reflexivity.
  - reflexivity.
  - intros r. reflexivity.
  - intros r. reflexivity.
  - intros r. reflexivity.
Qed.

(** The packet of host [r] in its window. *)
Definition sent_slot (r : Z) : pkt_state_t := default blank_slot (slots (window (sent r)) !! 0%nat).

Lemma sent_growth r : r = 0 \/ r = 1 -> growth (pushed r) (sent r) = 1.
Proof. intros [-> | ->]; by vm_compute. Qed.

Lemma sent_runs r : r = 0 \/ r = 1 -> tx_process (pushed r) = Ok (tt, sent r).
Proof. intros [-> | ->]; vm_compute; reflexivity. Qed.

Lemma sent_grown r : r = 0 \/ r = 1 -> grown_slot (pushed r) (sent r) 0 = Some (sent_slot r).
Proof. intros [-> | ->]; vm_compute; reflexivity. Qed.

Lemma sent_in_stream r :
  r = 0 \/ r = 1 -> in_stream zero_mac host_mac r 0 (pushed r) (sent r).
Proof.
  intros Hr. split; rewrite (sent_growth r Hr); [lia|]. intros i st Hi Hst.
  assert (i = 0%nat) as -> by lia. rewrite (sent_grown r Hr) in Hst. apply (inj Some) in Hst.
  rewrite <- Hst. unfold is_packet. destruct Hr as [-> | ->]; vm_compute; reflexivity.
Qed.

Lemma sent_step c r :
  r = 0 \/ r = 1 -> workers c r = pushed r -> c_next c r = 0 ->
  cstep zero_mac host_mac c (advance c r (sent r) 1).
Proof.
  intros Hr Ew En. rewrite <- (sent_growth r Hr), <- Ew.
  apply c_transmit; [unfold is_host; simpl; lia|..]; rewrite Ew, ?En;
    [by apply sent_runs|by apply sent_in_stream].
Qed.

(** Both workers have been handed the all-reduce. *)
Lemma k2_run : rtc (cstep zero_mac host_mac) k0 k2.
Proof.
  assert (forall r, 0 <= r < 2 -> is_host r) as Hh by done.
  apply (rtc_l _ _ (hand k0 0)).
  { apply (c_push _ _ k0 0 (pair_op 0) (qp (pushed 0)));
      [by apply Hh|by apply pair_op_ok; left|done|reflexivity]. }
  apply rtc_once, (c_push _ _ (hand k0 0) 1 (pair_op 1) (qp (pushed 1)));
    [by apply Hh|by apply pair_op_ok; right|done|reflexivity].
Qed.

Lemma pair_tables : group_tables tbl.
Proof. apply (ok_tables pair_group_ok). Qed.

(** Both packets are summed up and the answer is on its way. *)
Lemma k7_run : rtc (cstep zero_mac host_mac) k0 k7.
Proof.
  assert (forall r, 0 <= r < 2 -> is_host r) as Hh by done.
  etransitivity; [apply k2_run|].
  apply (rtc_l _ _ k3); [apply sent_step; [by left|reflexivity|reflexivity]|].
  apply (rtc_l _ _ k4); [apply sent_step; [by right|reflexivity|reflexivity]|].
  apply (rtc_l _ _ k5).
  { refine (c_drop _ _ k4 0 [] (sp_pkt (sent_slot 0)) [] tbl (first k4 0).1.2 _ (Hh 0 ltac:(lia)) _ _ pair_tables _);
      vm_compute; reflexivity. }
  apply (rtc_l _ _ k6).
  { refine (c_recirculate _ _ k5 1 [] (sp_pkt (sent_slot 1)) [] tbl 140 (first k5 1).1.2 (first k5 1).2
      tbl 0 false false (Hh 1 ltac:(lia)) _ _ pair_tables _); vm_compute; reflexivity. }
  apply rtc_once. refine (c_second _ _ k6 [] back [] tbl second.1.1 second.1.2 second.2 _ _);
    vm_compute; reflexivity.
Qed.

Lemma k7_reachable : c_reachable zero_mac host_mac k7.
Proof. exists k0. split; [apply k0_initial|apply k7_run]. Qed.

#[local] Opaque k7.

(** * The theorems at this run *)

Lemma cluster_refines_protocol_witness : exists s, reachable s /\ csim zero_mac host_mac k7 s.
Proof.
  destruct (cluster_refines_protocol zero_mac host_mac k7 pair_group_ok) as (s & Hs & Hsim & _);
    [by vm_compute|apply k7_reachable|]. by exists s.
Defined.

(** What the switch adds up for the first packet of host 0 is its buffer. *)
Lemma packets_hold_memory_witness : exists so old d,
  sp_sub_op (sent_slot 0) = Some so /\ Z.of_nat (length old) = PAYLOAD_SIZE
  /\ buffer_read (mem (pushed 0)) (sp_data (sent_slot 0)) (sp_size (sent_slot 0)) = Some d
  /\ lanes (host_packet 0 0) = sent_lanes (op so) old d (sp_size (sent_slot 0)).
Proof.
  assert (c_reachable zero_mac host_mac k2) as Hr by (exists k0; split; [apply k0_initial|apply k2_run]).
  destruct (packets_hold_memory zero_mac host_mac k2 0 (sent 0) 0 (sent_slot 0) pair_group_ok)
    as (so & old & d & H1' & H2' & _ & H3' & _ & H4'); [by vm_compute|done|by split|..].
  - by apply sent_runs; left.
  - by apply sent_in_stream; left.
  - by vm_compute.
  - by apply sent_grown; left.
  - exists so, old, d. split_and!; done.
Defined.

Lemma pair_data :
  packet_data (demo_op OP_ALL_REDUCE) (fun _ => replicate 256 0) (demo_bytes true) 256 0.
Proof.
  constructor.
  - by vm_compute.
  - done.
  - intros r Hr. split; [|apply demo_bytes_ok]. by destruct (pair_hosts r Hr) as [->| ->].
  - intros r Hr. destruct (pair_hosts r Hr) as [->| ->]; vm_compute; reflexivity.
Qed.

Lemma answer_carried : carries answer_mbuf answer_0.
Proof.
  constructor; [|vm_compute; reflexivity..]. split; [by vm_compute|].
  apply (bool_decide_unpack _). vm_compute. exact I.
Qed.

Lemma sent_fresh l base :
  worker_inv (sent 0) l base -> fresh_ack (sent 0) l base answer_mbuf = Some (0%nat, sent_slot 0).
Proof.
  intros Hw. pose proof (wi_ring _ _ _ Hw) as Hr.
  assert (length l = 1%nat) as Hl.
  { apply Nat2Z.inj. rewrite <- (window_len_ring _ _ Hr). by vm_compute. }
  destruct l as [|st l]; [discriminate Hl|].
  pose proof (ring_lookup _ _ Hr 0 st eq_refl) as Hp.
  assert (znth (slots (window (sent 0))) (pos_at (to_ack (window (sent 0))) 0) = Some (sent_slot 0))
    as Hq by by vm_compute.
  rewrite Hp in Hq. apply (inj Some) in Hq. subst st. unfold fresh_ack.
  rewrite (ack_index_Some (sent 0) _ base answer_mbuf 0 (sent_slot 0));
    [|apply Hw|reflexivity|by vm_compute|by vm_compute].
  cbn [mbind option_bind lookup list_lookup]. assert (acked (sent_slot 0) = false) as -> by by vm_compute.
  reflexivity.
Qed.

(** Host 0 stores 1 + 2 and 10 + 20. *)
Lemma memory_holds_sums_witness :
  runs (rx_process_one answer_mbuf) (sent 0) (fun _ w' =>
    buffer_read (mem w') (Ptr 1 0) 256 = Some (concat (replicate 32 (le_bytes 4 3 ++ le_bytes 4 30)))).
Proof.
  destruct (memory_holds_sums zero_mac host_mac k7 0 second.1.2 tbl 0 false answer_0 answer_mbuf
    (demo_op OP_ALL_REDUCE) (fun _ => replicate 256 0) (demo_bytes true) pair_group_ok)
    as (l & base & Hw & Hall); [by vm_compute|apply k7_reachable|by split|..|].
  - vm_compute. left.
  - vm_compute. reflexivity.
  - apply answer_carried.
  - vm_compute. reflexivity.
  - done.
  - assert (workers k7 0 = sent 0) as E by reflexivity. rewrite E in Hw, Hall.
    eapply runs_mono; [apply (Hall 0%nat (sent_slot 0) (pair_op 0))|].
    + by apply sent_fresh.
    + vm_compute. reflexivity.
    + done.
    + done.
    + assert (sp_size (sent_slot 0) = 256) as -> by by vm_compute.
      assert (psn answer_0 = 0) as -> by by vm_compute. apply pair_data.
    + cbn beta. intros _ w' Hb.
      assert (sp_size (sent_slot 0) = 256) as Es by by vm_compute.
      assert (sp_data (sent_slot 0) = Ptr 1 0) as Ed by by vm_compute.
      rewrite Es, Ed in Hb. rewrite Hb. by vm_compute.
Defined.

(** ** The whole all-reduce at host 0 *)

(** Host 0 stores the answer and answers its client. *)
Definition stored_0 : worker := outcome_worker (sent 0) (rx_process_one answer_mbuf (sent 0)).
Definition answered_0 : worker := outcome_worker stored_0 (shift_ack stored_0).
Definition k8 : cluster := advance k7 0 stored_0 0.
Definition k9 : cluster := advance k8 0 answered_0 0.

Lemma k9_run : rtc (cstep zero_mac host_mac) k0 k9.
Proof.
  assert (is_host 0) as Hh by by split.
  etransitivity; [apply k7_run|]. apply (rtc_l _ _ k8).
  { apply (c_receive _ _ k7 0 second.1.2 tbl 0 false answer_0 answer_mbuf stored_0 Hh);
      [vm_compute; left|vm_compute; reflexivity|apply answer_carried|vm_compute; reflexivity]. }
  apply rtc_once, (c_slide _ _ k8 0 answered_0 Hh). vm_compute. reflexivity.
Qed.

Lemma k9_given r : is_host r -> c_given k9 r = [pair_op r].
Proof. intros Hr. by destruct (pair_hosts r Hr) as [-> | ->]; vm_compute. Qed.

#[local] Opaque k9.

(** The buffer of host 0 holds 1 + 2 and 10 + 20 over and over. *)
Lemma all_reduce_correct_witness : exists ops d,
  (forall r', is_host r' -> posted k0 k9 0 256 r' (ops r') (d r'))
  /\ buffer_read (mem (workers k9 0)) (Ptr 1 0) 256
     = Some (int_bytes (host_sums (fun r' => op (ops r')) d 256))
  /\ buffer_read (mem (workers k9 0)) (Ptr 1 0) 256
     = Some (concat (replicate 32 (le_bytes 4 3 ++ le_bytes 4 30))).
Proof.
  destruct (all_reduce_correct zero_mac host_mac k0 k9 0 (pair_op 0) pair_group_ok)
    as (i & ops & d & Hi & Hposted & Hread).
  - by vm_compute.
  - apply k0_initial.
  - apply k9_run.
  - intros r Hr. rewrite (k9_given r Hr). split; repeat constructor.
  - exists [256]. intros r Hr. rewrite (k9_given r Hr). done.
  - by split.
  - vm_compute. left.
  - assert (i = 0%nat) as ->.
    { rewrite (k9_given 0) in Hi by by split. destruct i; [done|discriminate Hi]. }
    exists ops, d. split; [done|]. split; [done|]. vm_compute. reflexivity.
Defined.
