(* ===== verification/FrameDemo.v ===== *)
(** Frames: the first packet of a worker through both passes of the switch, and
    a frame that is none of its business. *)

From S2P Require Import Prelude.
From S2P Require Import Types.
From S2P Require Import Endian.
From S2P Require Import Config.
From S2P Require Import QueuePair.
From S2P Require Import Worker.
From S2P Require Import WorkerInv.
From S2P Require Import Packet.
From S2P Require Import LocalNet.
From S2P Require Import Switch.
From S2P Require Import Aggregation.
From S2P Require Import Wire.
From S2P Require Import Demo.
From S2P Require Import StreamDemo.
From S2P Require Import WireDemo.
From S2P Require Import ClusterDemo.
From S2P Require Import Frames.
From S2P Require Import FrameParsing.
From S2P Require Import FrameTheorems.

#[local] Existing Instance small_config.
#[local] Existing Instance list_spsc.








