(* ===== verification/GroupDemo.v ===== *)
(** A simulated switch, and the service on it: the theorems about the control
    plane at concrete requests. *)

From S2P Require Import Prelude.
From S2P Require Import Switch.
From S2P Require Import Aggregation.
From S2P Require Import Protocol.
From S2P Require Import Allocator.
From S2P Require Import ControlPlane.
From S2P Require Import Groups.
From S2P Require Import GroupService.
From S2P Require Import ControlService.
From S2P Require Import GroupTheorems.
From S2P Require Import GroupSetup.
From S2P Require Import StreamDemo.

(** * A runtime that refuses what is not allowed *)

#[local] Instance allowed_dec c v : Decision (allowed c v).
Proof.
  destruct c as [| | | | | | | | | | | mg ns| |]; cbn [allowed]; try apply _.
  refine (cast_if (decide (0 < mg < 2 ^ 16 /\ v_mgids v !! mg = None
      /\ Forall (fun n => is_Some (v_nodes v !! n)) ns))); rewrite Forall_forall in *; tauto.
Defined.

#[export] Instance sim_bfrt : Bfrt := {|
  device := switch_view;
  bf_exec := fun c v => if decide (allowed c v) then Some (effect c v) else None;
|}.

#[export] Instance sim_bfrt_laws : BfrtLaws.
Proof.
  refine {| view := fun d : device => d |}.
  - intros c d d' E. simpl in E. destruct (decide (allowed c d)); [by simplify_eq|done].
  - intros c d Ha. simpl. by rewrite decide_True.
Defined.

(** [switch/topo.json] *)
#[export] Instance demo_topology : Topology := {|
  t_port := [180; 164; 148; 132];
  t_ip := [3232235777; 3232235778; 3232235779; 3232235780];
  t_switch_ip := 3232236030;
  t_recir_port := [140; 156; 172; 188];
|}.

(** * The service after its start *)

Definition blank_view : switch_view := {|
  v_tables := {| metadata_table := ∅; recirculate_table := ∅; l2_forward_table := ∅;
                 restore_table := ∅; restore_smac_table := ∅; restore_dmac_table := ∅ |};
  v_nodes := ∅; v_mgids := ∅;
  v_regs := {| reg_bitmap := ∅; aggregators := ∅ |} |}.

Definition blank_service : servicer := {|
  free_group := []; free_node := []; recir_port_cnt := []; undo := ∅; memseg := []; dev := blank_view |}.

Definition started : servicer := (reinit blank_service).2.

Lemma blank_foreign : foreign_ok (sview blank_service).
Proof. intros g ns x Hg. cbn in Hg. by rewrite lookup_empty in Hg. Qed.

Lemma started_inv : cp_inv started ∅.
Proof.
  destruct (reinit_runs blank_service blank_foreign) as ([] & s & E & Hi & _).
  unfold started. by rewrite E.
Qed.

Lemma started_reachable : cp_reachable started.
Proof.
  destruct (reinit_runs blank_service blank_foreign) as ([] & s & E & _).
  apply (cp_start blank_service started blank_foreign). unfold started. by rewrite E.
Qed.

(** Two members. *)
Definition pair_ips : list Z := [3232235777; 3232235778].

Lemma pair_ok : members_ok pair_ips.
Proof. split; [simpl; lia|]. repeat constructor; lia. Qed.

(** The service creates a group of the two members. *)
Lemma paired_answer :
  (CreateGroup pair_ips started).1 = inr {| r_members := [3232236030; 3232236030]; r_group := 1;
                                            r_agg_addr := 0; r_agg_len := 1024 |}.
Proof. vm_compute. reflexivity. Qed.

(** * The theorems *)

Lemma requests_never_raise_witness :
  exists a s', handle (req_create pair_ips) started = (inr a, s') /\ cp_reachable s'.
Proof.
  apply requests_never_raise; [apply started_reachable|apply pair_ok|discriminate].
Defined.

Lemma resources_partitioned_witness :
  exists live : gmap Z group_info, free_group started ++ (map_to_list live).*1 ≡ₚ seqZ 1 255.
Proof.
  destruct (resources_partitioned started) as (live & _ & _ & Hg & _);
    [apply started_reachable|discriminate|].
  by exists live.
Defined.

Lemma create_group_spec_witness :
  exists g, head (free_group started) = Some g
    /\ (CreateGroup pair_ips started).1 = inr {| r_members := [3232236030; 3232236030]; r_group := g;
                                                 r_agg_addr := 0; r_agg_len := 1024 |}.
Proof.
  destruct (create_group_spec started ∅ pair_ips started_inv pair_ok) as (r & s' & E & Hr);
    [discriminate|].
  destruct Hr as [(-> & _)|(g & i & _ & Hg & _)].
  - pose proof (f_equal fst E) as E1. rewrite paired_answer in E1. discriminate E1.
  - exists 1. split; [vm_compute; reflexivity|apply paired_answer].
Defined.

Lemma destroy_undoes_create_witness :
  exists s', (r ← CreateGroup pair_ips ; DestroyGroup (r_group r)) started = (inr tt, s')
    /\ recir_port_cnt s' = recir_port_cnt started.
Proof.
  destruct (destroy_undoes_create started pair_ips) as ([] & s' & E & Hs);
    [apply started_reachable|apply pair_ok|discriminate|].
  exists s'. split; [exact E|apply (sr_cnt _ _ Hs)].
Defined.

(** A bitmap has 32 bits: the mask of 33 members is refused. *)
Lemma create_group_leaks_witness :
  (CreateGroup (replicate 33 1) started).1 = inl RuntimeError
  /\ undo (CreateGroup (replicate 33 1) started).2 = undo started
  /\ memseg (CreateGroup (replicate 33 1) started).2 <> memseg started.
Proof.
  assert ((CreateGroup (replicate 33 1) started).1 = inl RuntimeError) as E by (vm_compute; reflexivity).
  split; [exact E|]. split; [|vm_compute; discriminate].
  destruct (create_group_leaks started (replicate 33 1) (CreateGroup (replicate 33 1) started).2)
    as (g & idx & addr & segs & _ & _ & _ & _ & _ & Hu & _); [|exact Hu].
  rewrite <- E. apply surjective_pairing.
Defined.

#[local] Existing Instance sum_stream.

Lemma paired_stream :
  stream_of {| r_members := [3232236030; 3232236030]; r_group := 1; r_agg_addr := 0; r_agg_len := 1024 |}
    pair_ips (sview (CreateGroup pair_ips started).2).
Proof.
  constructor; try (vm_compute; reflexivity).
  - split; vm_compute; congruence.
  - split; vm_compute; congruence.
  - pose proof (demo_group_ok true) as Hok. constructor; [apply (ok_packet Hok)|apply (ok_fits Hok)].
Qed.

Lemma registers_eq r r' :
  bool_decide (reg_bitmap r = reg_bitmap r' /\ aggregators r = aggregators r') = true -> r = r'.
Proof. intros [E1 E2]%bool_decide_eq_true. destruct r, r'. simpl in *. by subst. Qed.

Lemma paired_fresh : fresh_system (v_regs (sview (CreateGroup pair_ips started).2)) t0.
Proof.
  constructor; [apply registers_eq; vm_compute; reflexivity|reflexivity|reflexivity|split; reflexivity|split; reflexivity].
Qed.

Lemma created_group_aggregates_witness :
  h_results (hosts s6 0) !! 0 = Some (Some (replicate 32 (3, 30)))
  /\ replicate 32 (3, 30) = total everyone 0.
Proof.
  split; [vm_compute; reflexivity|].
  destruct (created_group_aggregates started pair_ips) as (r & s' & E & Hr);
    [apply started_reachable|apply pair_ok|discriminate|discriminate|intros a; by vm_compute|].
  pose proof paired_answer as E1. pose proof paired_stream as Hst. pose proof paired_fresh as Hf.
  rewrite E in E1, Hst, Hf. injection E1 as ->.
  apply (proj2 (Hr ltac:(discriminate) sum_stream Hst) t0 s6 Hf) with (h := 0).
  - apply s6_run.
  - split; reflexivity || discriminate.
  - vm_compute. reflexivity.
Defined.
