(* ===== verification/SwitchDemo.v ===== *)
(** A simulated switch that is set up with the addresses of
    [switch/topo.json]: the theorem of [SwitchInit] at that file. *)

From S2P Require Import Prelude.
From S2P Require Import Switch.
From S2P Require Import ControlPlane.
From S2P Require Import GroupService.
From S2P Require Import ControlService.
From S2P Require Import SwitchInit.
From S2P Require Import GroupDemo.

(** * A runtime that refuses what is not allowed *)

#[local] Instance init_allowed_dec c v : Decision (init_allowed c v).
Proof.
  destruct c as [| | | | | | | |g ns]; cbn [init_allowed]; unfold room; try apply _.
  refine (cast_if (decide (0 < g < 2 ^ 16 /\ (mgid_tab v !! g = None /\ Z.of_nat (size (mgid_tab v)) < 2 ^ 16)
      /\ Forall (fun n => is_Some (node_tab v !! n)) ns))); rewrite Forall_forall in *; tauto.
Defined.

#[local] Instance sim_init : BfrtInit := {|
  init_device := init_view;
  init_exec := fun c v => if decide (init_allowed c v) then Some (init_effect c v) else None;
|}.

#[local] Instance sim_init_laws : BfrtInitLaws.
Proof.
  refine {| init_state := fun d : init_device => d |}.
  - intros c d d' E. simpl in E. destruct (decide (init_allowed c d)); [by simplify_eq|done].
  - intros c d Ha. simpl. by rewrite decide_True.
Defined.

#[local] Instance demo_switch_topology : SwitchTopology := {|
  t_mac := [0x1070fd190095; 0x1070fd2fd851; 0x1070fd2fe441; 0x1070fd2fd421];
  t_switch_mac := 0x020000000000;
|}.

Definition blank_init : init_device := ({|
  iv_switch := blank_view; iv_port_metadata := ∅; iv_wred := ∅; iv_ports := ∅ |} : init_view).

Lemma blank_init_blank : blank (init_state blank_init).
Proof. by constructor. Qed.

Lemma demo_topo_ok : topo_ok.
Proof.
  constructor; try (vm_compute; congruence).
  - apply (bool_decide_unpack _). vm_compute. exact I.
  - apply (bool_decide_unpack _). vm_compute. exact I.
  - apply (bool_decide_unpack _). vm_compute. exact I.
  - apply (bool_decide_unpack _). vm_compute. exact I.
Qed.

(** The run itself, with the table of destinations it leaves. *)
Example demo_set_up :
  let r := NameSpace blank_init in
  r.1 = inr tt
  /\ l2_tab r.2 !! 0x1070fd2fd851 = Some (l2_forward 164)
  /\ l2_tab r.2 !! broadcast_mac = Some (l2_multicast 65535)
  /\ mgid_tab r.2 !! 65535 = Some [4294967295; 4294967294; 4294967293; 4294967292]
  /\ node_tab r.2 !! 4294967293 = Some (0, 148).
Proof. vm_compute. repeat split. Qed.

Lemma switch_comes_up_witness :
  topo_ok /\ blank (init_state blank_init)
  /\ exists d', NameSpace blank_init = (inr tt, d') /\ initialised (init_state d')
     /\ forall s, sview s = iv_switch (init_state d') ->
          exists s', reinit s = (inr tt, s') /\ cp_reachable s'.
Proof.
  split; [apply demo_topo_ok|]. split; [apply blank_init_blank|].
  apply (switch_comes_up blank_init); [apply demo_topo_ok|apply blank_init_blank].
Defined.
