(* ===== verification/HostDemo.v ===== *)
(** The files of a host with two sockets, and packets that are dropped at
    random: the theorems of [HostFiles] and [RandomDrop] at concrete inputs. *)

From Stdlib Require Import Ascii String.
From S2P Require Import Prelude.
From S2P Require Import Endian.
From S2P Require Import Host.
From S2P Require Import Scan.
From S2P Require Import HostFiles.
From S2P Require Import Switch.
From S2P Require Import RandomDrop.

#[local] Open Scope Z_scope.

(** * [/proc/cpuinfo] *)

Definition demo_cpuinfo : list cpuinfo_line :=
  [Other (chars "processor"); Physical 0; Other (chars "siblings"); Other [];
   Physical 1; Physical 0; Other (chars "flags"); Physical 1; Physical 10].

(** Reading the text as it is ... *)
Example demo_sockets :
  get_socket_list_with_cpu_index 7 (Some (cpuinfo_text demo_cpuinfo)) = Ok [0; 1; 0; 1; 10].
Proof. vm_compute. reflexivity. Qed.

(** ... and a line without a number: the socket before it is taken twice more, since the rest of
    the line is scanned on its own. *)
Example demo_no_number :
  get_socket_list_with_cpu_index 7
    (Some (unlines [chars "physical id : 3"; chars "physical id : x y"; chars "physical id : 4"]))
  = Ok [3; 3; 3; 4].
Proof. vm_compute. reflexivity. Qed.

Lemma host_cpu_list_spec_witness :
  physical_ids demo_cpuinfo = [0; 1; 0; 1; 10]
  /\ exists l, host_cpu_list 7 (Some (cpuinfo_text demo_cpuinfo)) 1 2 = Ok l /\ length l = 2%nat.
Proof.
  split; [reflexivity|].
  pose proof (host_cpu_list_spec 7 demo_cpuinfo 1 2) as H.
  destruct (host_cpu_list 7 (Some (cpuinfo_text demo_cpuinfo)) 1 2) as [l|f] eqn:E.
  - exists l. split; [reflexivity|]. apply Nat2Z.inj. apply H; [by repeat constructor|discriminate].
  - exfalso. vm_compute in E. discriminate.
Defined.

(** * The node of a device *)

Example demo_node :
  get_socket_by_pci (fun p => if decide (p = chars "/sys/bus/pci/devices/0000:e3:00.1/numa_node")
                              then Some (chars "1" ++ [newline]) else None) (chars "0000:e3:00.1") = Ok 1
  /\ get_socket_by_pci (fun _ => None) (chars "0000:e3:00.1") = Ok (-1)
  /\ get_socket_by_pci (fun _ => Some (chars "-1")) (chars "0000:e3:00.1") = Ok (-1).
Proof. vm_compute. split_and!; reflexivity. Qed.

(** * InfiniBand *)

Definition demo_ibdev : list ibdev_line :=
  [{| il_ib := chars "mlx5_0"; il_port := 1; il_dev := chars "ens10f0"; il_state := chars "Down" |};
   {| il_ib := chars "mlx5_1"; il_port := 1; il_dev := chars "ens10f1"; il_state := chars "Up" |}].

Lemma ib_dev_roundtrip_witness :
  dev_to_ib_dev [] (unlines (ibdev_text <$> demo_ibdev)) (chars "ens10f1") = Ok (chars "mlx5_1").
Proof.
  refine (proj1 (ib_dev_roundtrip [] demo_ibdev
    {| il_ib := chars "mlx5_1"; il_port := 1; il_dev := chars "ens10f1"; il_state := chars "Up" |} _ _ _ _)).
  - repeat constructor; discriminate.
  - by apply (bool_decide_unpack _); vm_compute.
  - by apply (bool_decide_unpack _); vm_compute.
  - right. by left.
Defined.

Lemma gid_roundtrip_witness :
  gid_to_ipv4 (ipv4_to_gid 0xc0a80101) = 0xc0a80101
  /\ gid_to_str (ipv4_to_gid 0xc0a80101) = chars "0000:0000:0000:0000:0000:ffff:c0a8:0101".
Proof. apply (gid_roundtrip 0xc0a80101). lia. Defined.

(** * Random drops *)

Lemma compare_spec_witness : compare 5 7 = 3 /\ compare 7 5 = 1.
Proof. split; [apply (compare_spec 5 7); lia|apply (compare_spec 7 5); lia]. Defined.

Definition demo_tables : tables := {|
  metadata_table := ∅; recirculate_table := ∅; l2_forward_table := ∅; restore_table := ∅;
  restore_smac_table := ∅; restore_dmac_table := ∅ |}.

Lemma random_drop_probability_witness :
  (0 <= 42 < 2 ^ 32)
  /\ forall h, egress_random demo_tables 0 false 41 42 h = None
       /\ egress_random demo_tables 0 false 41 0 h = egress demo_tables 0 false false h.
Proof.
  split; [lia|]. intros h. split.
  - apply (random_drop_probability demo_tables 0 false 42 h); lia.
  - apply (random_drop_probability demo_tables 0 false 0 h); lia.
Defined.
